(* ===== verification/_CoqProject ===== *)
-Q . S2P
Prelude.v
RustStd.v
Floats.v
Hex.v
Swap.v
Config.v
Json.v
World.v
Effects.v
Mock.v
IpAddr.v
Args.v
Bitcoind.v
Payments.v
RgbUtils.v
Trades.v
MakerExecute.v
Peers.v
Utxos.v
Assets.v
Channels.v
Sweep.v
Cli.v
Events.v
Startup.v
Frame.v
Waiting.v
Node.v
