(* ===== verification/Prelude.v ===== *)
(** * rgb-lightning-sample: a verification development

    The program (src/src, Rust) is a Lightning node with RGB assets: an LDK
    node with a bdk wallet and an RGB runtime, driven by a command line.
    [start_ldk] (main.rs) starts it; then two loops share the node's state:
    [poll_for_user_input] (cli.rs) runs one command per line, and
    [handle_ldk_events] (main.rs) handles one LDK event per call.  Both are
    glue: they check their input, update a few tables and files, and call the
    libraries.  What can go wrong is in the checks, in the arithmetic of
    amounts, in the order of the calls and in what is recorded when.

    ** How the program is modelled

    World.v - the state.  [World] holds what the program itself owns: its
    files, the inbound and outbound payment tables, the whitelist of the taker
    and the table of the maker, the tasks it has spawned, and the trace of
    everything it has printed and asked of the libraries so far.  Every use of
    LDK, bdk, the RGB runtime, bitcoind, the proxy or the operating system is a
    [Call] with a typed answer; the [Oracle] answers it, knowing the whole
    history, so that nothing is assumed of a library unless a theorem names a
    law for it.  Functions of the libraries without effect are the fields of
    [Externals]; types of the libraries are the fields of [Types].  The RGB
    runtime lock is visible in the trace as [CGetRuntime] and [CDropRuntime].

    Effects.v - the monad [M] of the handlers: a computation returns, leaves
    early ([continue] in the command loop, [return] in a handler), panics
    (the crate aborts on panic) or is still waiting for a connection; with the equations that run a computation and
    [Preserves R m], the way properties of a whole handler are proved whatever
    the libraries answer.

    RustStd.v, Floats.v - what the program uses of the Rust standard library:
    machine integers in both build profiles (a field of [Types] says whether
    overflow is checked), parsing and printing of integers, string splitting,
    ordered maps, and [f64].  IpAddr.v - the parser of IP addresses of the
    standard library; Json.v - the accessors of serde_json values.  Config.v -
    the constants.  Mock.v - a concrete instance of everything external, for
    the witnesses only.

    ** The components

    - Args.v: args.rs, the command line and the sources of the RPC credentials.
    - Bitcoind.v: convert.rs, bitcoind_client.rs and the logger of disk.rs: the
      replies of bitcoind, the fee table and its poller, broadcasting.
    - Startup.v: [start_ldk], with the wallet descriptors of bdk_utils.rs and
      the files of disk.rs it reads.
    - Hex.v: hex_utils.rs.
    - Swap.v: swap.rs, the swap strings and [SwapString::from_str].
    - RgbUtils.v: rgb_utils.rs, bdk_utils.rs, error.rs; the balance, the
      selection of inputs and [send_rgb].
    - Payments.v: the payment tables; the [PaymentClaimable],
      [PaymentClaimed], [PaymentSent] and [PaymentFailed] events, and
      [send_payment], [keysend], [get_invoice], [invoice_status] and
      [list_payments] of cli.rs.
    - Trades.v: the [makerinit], [taker] and [tradeslist] commands and the
      [HTLCIntercepted] event.
    - MakerExecute.v: [maker_execute], [get_route] and [makerexecute].
    - Peers.v: peer information, connecting and disconnecting, the file of
      channel peers (disk.rs) and one turn of the task that reconnects.
    - Utxos.v: the file of outputs reserved for RGB and [createutxos].
    - Assets.v: proxy.rs and the asset and wallet commands: [mine],
      [listunspent], [getaddress], [issueasset], [assetbalance], [sendasset],
      [receiveasset] and [refresh].
    - Channels.v: the funding of a channel ([FundingGenerationReady] and the
      task it spawns), the other channel events, the forwarding task, and the
      commands that open and close channels.

    - Sweep.v: the [SpendableOutputs] event, which moves the outputs of closed
      channels and their assets to the wallet.
    - Cli.v: the other commands - the arguments of [sendpayment], [keysend],
      [getinvoice] and [invoicestatus], [nodeinfo], [listpeers],
      [listchannels], [signmessage], [sendonionmessage], [help] - and the loop
      that reads a line and dispatches it ([poll_turn], [poll_loop]).
    - Events.v: the events of LDK and their dispatch.
    - Frame.v: the interface between the parts and the whole.  The class
      [Closed R] lists the few ways the program touches its world; every
      command, event, task and loop is shown to preserve any [Closed] relation.
    - Waiting.v: when connection attempts are answered, no command is left
      waiting.
    - Node.v: the node as a step relation between states, one turn of one of
      its tasks at a time, with an executable form [act].  Each property of the
      whole node is an instance of [Closed].

    A command is [<name>_cmd words], given the words after its name; an event
    handler is named after the event.  Long arms are split into definitions at
    the comments and blank lines of the source.

    ** What is shown

    - The node as a whole, over every interleaving of its tasks' turns:
      [node_refines_automata] - the payment tables refine per-hash automata -
      and [node_invariant]; [requests_within_limits] bounds what it asks for;
      [outputs_always_readable] is the type of its file of outputs;
      [session_ends] is the liveness of the command loop.  [trade_tables_typed]
      shows that the model's amounts stay within the types of the code.
    - Money and assets: [forwarded_was_authorised], [forwarded_cost_bounded]
      and [one_forward_per_whitelisting] bound what an intercepted swap can
      cost the taker; [maker_execute_swaps] gives the shape of the route the
      maker pays along; [sendasset_conserves], [funding_conserves] and
      [sweeps_are_recorded] show what a transfer assigns to whom, exactly as
      much as its inputs hold when overflow is checked; [select_inputs_spec], [rgb_balance_exact],
      [swept_amount_exact] and [seal_avoids_op_return] are the specifications
      of the routines they rest on.
    - Records: [makerinit_offer_reads_back], [persisted_peers_read_back],
      [received_utxo_is_refreshed] and [startup_args_read] are the round trips;
      [reservations_distinct] and [createutxos_appends] are the contract of the
      file of outputs; [coloured_channel_recorded] that of the information file
      of a channel; [keys_seed_spec] that of the seed file;
      [outputs_survive_restart] says what a restart keeps.
    - Checks: [from_str_accepts], [taker_whitelists_valid_offers],
      [makerexecute_needs_valid_offer], [openchannel_within_bounds],
      [funded_after_consignment], [refresh_forgets_accepted_only],
      [startup_checks], [reconnects_channel_peers_only] and
      [disconnects_idle_peers_only] say that an action is only taken after its
      conditions were checked.  [poll_turn_spec], [fee_estimates_bounded],
      [sendonion_sends] and [credentials_precedence] give the result of an
      operation.
    - Behaviour the code has and may not mean: panics and locks left behind
      ([non_swap_htlc_panics], [underfunded_channel], [second_key_panics],
      [broadcast_failure], [unknown_asset_keeps_lock],
      [createutxos_underfunded_panics], [bad_peer_line_blocks_all]), wrapped
      arithmetic ([wrapped_sale_is_free]), lost records
      ([resend_forgets_success], [settlement_before_record_is_lost]) and
      misleading input and output ([credentials_precedence],
      [signmessage_signs_line_feed]).

    ** Bounds

    Recursion is structural except where a loop of the program is unbounded.
    [dec_go] (printing of an integer) gets one more than the binary logarithm
    as fuel, which [parse_uint_dec] shows is enough.  [await_connection] polls
    at most [patience] times and is then still waiting ([Waits]): nothing after
    it runs.  [connect_terminates] gives its result for every bound, and
    [connect_patience] shows that an answer does not depend on the bound.  [poll_loop] takes a number of turns: [session_ends] shows that
    enough of them end the session when connection attempts are answered
    ([Settled]).  The calls of libraries are assumed to return.

    ** What is not modelled

    In [start_ldk], the construction of the LDK objects from each other, when
    the program looks at no result; in bitcoind_client.rs, [BlockSource], which
    forwards to the library.  [main] installs a signal handler and calls
    [start_ldk].  Tasks run one turn at a time: where two tasks could interleave
    inside a handler and it matters, the handler is split and the theorem is
    about the two orders ([settlement_before_record_is_lost]). *)

From Stdlib Require Import ZArith Lia Ascii String.
From stdpp Require Import base list strings gmap.

#[export] Set Default Goal Selector "!".

(** ** Results and computations that may panic

    [result] is Rust's [Result]; [comp] is a pure Rust computation that
    either produces a value or panics with a message. *)
Inductive result (A E : Type) : Type :=
| Ok (a : A)
| Err (e : E).
Arguments Ok {A E} a.
Arguments Err {A E} e.

Inductive comp (A : Type) : Type :=
| Done (a : A)
| Panics (msg : string).
Arguments Done {A} a.
Arguments Panics {A} msg.

Definition comp_bind {A B} (m : comp A) (k : A -> comp B) : comp B :=
  match m with
  | Done a => k a
  | Panics msg => Panics msg
  end.

Declare Scope comp_scope.
Delimit Scope comp_scope with comp.
Notation "'let?' x ':=' m 'in' k" := (comp_bind m (fun x => k))
  (at level 10, x pattern, m at level 100, k at level 200) : comp_scope.

(** [Option::unwrap], [Option::expect] and [Result::unwrap]. *)
Definition UNWRAP_NONE : string := "called `Option::unwrap()` on a `None` value".
Definition UNWRAP_ERR : string := "called `Result::unwrap()` on an `Err` value".

Definition expect_some {A} (msg : string) (o : option A) : comp A :=
  match o with Some a => Done a | None => Panics msg end.
Definition unwrap {A} (o : option A) : comp A := expect_some UNWRAP_NONE o.
Definition expect_ok {A E} (msg : string) (r : result A E) : comp A :=
  match r with Ok a => Done a | Err _ => Panics msg end.
Definition unwrap_ok {A E} (r : result A E) : comp A := expect_ok UNWRAP_ERR r.

Definition is_ok {A E} (r : result A E) : bool :=
  match r with Ok _ => true | Err _ => false end.
Definition is_err {A E} (r : result A E) : bool := negb (is_ok r).

(** [Result::ok] *)
Definition ok {A E} (r : result A E) : option A :=
  match r with Ok a => Some a | Err _ => None end.

Definition is_none {A} (o : option A) : bool :=
  match o with Some _ => false | None => true end.
Definition is_some {A} (o : option A) : bool := negb (is_none o).

(** ** Tactics *)

(** Split every pair and conjunction of the context. *)
Ltac split_hyps :=
  repeat match goal with
  | H : _ /\ _ |- _ => destruct H
  | H : exists _, _ |- _ => destruct H
  | p : (_ * _)%type |- _ => destruct p
  end.

(** Case analysis on the scrutinee of some [match] of the goal, or of an
    hypothesis, keeping the equation. *)
Ltac case_goal :=
  match goal with
  | |- context [ match ?x with _ => _ end ] =>
      lazymatch x with
      | context [ match _ with _ => _ end ] => fail
      | _ => destruct x eqn:?
      end
  end.
Ltac case_hyp H :=
  match type of H with
  | context [ match ?x with _ => _ end ] =>
      lazymatch x with
      | context [ match _ with _ => _ end ] => fail
      | _ => destruct x eqn:?
      end
  end.

(** Reflect boolean comparisons of [Z] and [nat] in the context. *)
Ltac reflect_bools :=
  repeat match goal with
  | H : (_ && _)%bool = true |- _ => apply andb_true_iff in H; destruct H
  | H : (_ || _)%bool = false |- _ => apply orb_false_iff in H; destruct H
  | H : negb _ = true |- _ => apply negb_true_iff in H
  | H : negb _ = false |- _ => apply negb_false_iff in H
  | H : (_ <? _)%Z = true |- _ => apply Z.ltb_lt in H
  | H : (_ <? _)%Z = false |- _ => apply Z.ltb_ge in H
  | H : (_ <=? _)%Z = true |- _ => apply Z.leb_le in H
  | H : (_ <=? _)%Z = false |- _ => apply Z.leb_gt in H
  | H : (_ =? _)%Z = true |- _ => apply Z.eqb_eq in H
  | H : (_ =? _)%Z = false |- _ => apply Z.eqb_neq in H
  | H : bool_decide _ = true |- _ => apply bool_decide_eq_true in H
  | H : bool_decide _ = false |- _ => apply bool_decide_eq_false in H
  end.

Create HintDb rust discriminated.

(** ** Generic lemmas *)

Lemma comp_bind_done {A B} (m : comp A) (k : A -> comp B) b :
  comp_bind m k = Done b <-> exists a, m = Done a /\ k a = Done b.
Proof.
  destruct m as [a|msg]; simpl; split; [eauto|intros (a' & [= <-] & Hk); done|done|].
  intros (a' & Hm & _); done.
Qed.

Lemma is_none_false {A} (o : option A) : is_none o = false <-> is_Some o.
Proof. destruct o; simpl; split; [eauto|done|done|intros [? ?]; done]. Qed.

Lemma is_none_true {A} (o : option A) : is_none o = true <-> o = None.
Proof. destruct o; simpl; split; done. Qed.

Lemma find_ext_in {A} (f g : A -> bool) (l : list A) :
  (forall x, In x l -> f x = g x) -> List.find f l = List.find g l.
Proof.
  induction l as [|x l IH]; simpl; intros H; [done|].
  rewrite (H x) by auto. destruct (g x); [done|]. apply IH; auto.
Qed.

Lemma suffix_trans {A} (t t0 t' n0 x : list A) :
  t0 = t ++ n0 -> t' = t0 ++ x -> t' = t ++ (n0 ++ x).
Proof. intros -> ->. by rewrite app_assoc. Qed.

(** A list extended on the right; membership in concatenations and conses. *)
Ltac in_prefix := first [reflexivity | apply prefix_app_r; in_prefix].
Ltac in_list := rewrite ?elem_of_app, ?elem_of_cons; eauto 20.

Lemma string_append_assoc (s t u : string) : (s +:+ t) +:+ u = s +:+ (t +:+ u).
Proof. induction s as [|c s IH]; [done|]. exact (f_equal (String c) IH). Qed.

Lemma string_cons_app c (s t : string) : String c s +:+ t = String c (s +:+ t).
Proof. done. Qed.

Lemma string_nil_app (t : string) : EmptyString +:+ t = t.
Proof. done. Qed.

Lemma string_app_nil (s : string) : s +:+ EmptyString = s.
Proof. induction s as [|c s IH]; [done|]. by rewrite string_cons_app, IH. Qed.
