(* ===== verification/RustStd.v ===== *)
(** * The part of the Rust standard library the program computes with

    Machine integers of a given width with their overflow behaviour in the
    two build profiles, [str::parse] and [Display] for unsigned integers,
    the [str] splitting functions and [PathBuf::join].  A Rust string is the
    Rocq [string] of its UTF-8 bytes. *)

From Stdlib Require Import ZArith Lia Ascii String Sorted.
From stdpp Require Import base list strings gmap.
From S2P Require Import Prelude.

Open Scope Z_scope.

(** ** Machine integers *)

Definition U8_MAX : Z := 2 ^ 8 - 1.
Definition U16_MAX : Z := 2 ^ 16 - 1.
Definition U32_MAX : Z := 2 ^ 32 - 1.
Definition U64_MAX : Z := 2 ^ 64 - 1.

Definition fits (max x : Z) : Prop := 0 <= x <= max.
Abbreviation u8 := (fits U8_MAX).
Abbreviation u64 := (fits U64_MAX).

(** The arithmetic operators panic on overflow when the crate is built with
    overflow checks (the [dev] profile) and wrap around without them (the
    [release] profile). *)
Class BuildProfile := { overflow_checks : bool }.

Definition u64_add `{BuildProfile} (a b : Z) : comp Z :=
  if a + b <=? U64_MAX then Done (a + b)
  else if overflow_checks then Panics "attempt to add with overflow"
  else Done ((a + b) mod 2 ^ 64).

Definition u64_sub `{BuildProfile} (a b : Z) : comp Z :=
  if b <=? a then Done (a - b)
  else if overflow_checks then Panics "attempt to subtract with overflow"
  else Done ((a - b) mod 2 ^ 64).

Definition u64_mul `{BuildProfile} (a b : Z) : comp Z :=
  if a * b <=? U64_MAX then Done (a * b)
  else if overflow_checks then Panics "attempt to multiply with overflow"
  else Done ((a * b) mod 2 ^ 64).

(** [Iterator::sum] over [u64]: a left fold of [+] from zero. *)
Definition u64_sum `{BuildProfile} (l : list Z) : comp Z :=
  foldl (fun acc x => comp_bind acc (fun a => u64_add a x)) (Done 0) l.

(** [u64::saturating_sub] *)
Definition saturating_sub (a b : Z) : Z := Z.max 0 (a - b).

(** ** Characters and strings *)

Definition byte_of (c : ascii) : Z := Z.of_N (N_of_ascii c).

(** [str::as_bytes] *)
Definition as_bytes (s : string) : list Z := map byte_of (list_ascii_of_string s).

(** [str::is_ascii] *)
Definition is_ascii (s : string) : bool := forallb (fun b => b <? 128) (as_bytes s).

(** [str::len], in bytes *)
Definition str_len (s : string) : Z := Z.of_nat (String.length s).

Definition nl : string := String (ascii_of_nat 10) EmptyString.
Definition tab : string := String (ascii_of_nat 9) EmptyString.
Definition dquote : string := String (ascii_of_nat 34) EmptyString.

Definition is_digit (c : ascii) : bool := (48 <=? byte_of c) && (byte_of c <=? 57).
Definition digit_val (c : ascii) : Z := byte_of c - 48.
Definition digit_char (d : Z) : ascii := ascii_of_N (Z.to_N (d + 48)).

(** [Display] of an unsigned integer. *)
Fixpoint dec_go (fuel : nat) (n : Z) (acc : string) : string :=
  match fuel with
  | O => acc
  | S fuel =>
      let acc := String (digit_char (n mod 10)) acc in
      if n <? 10 then acc else dec_go fuel (n / 10) acc
  end.
Definition dec (n : Z) : string := dec_go (S (Z.to_nat (Z.log2 n))) n EmptyString.

(** [str::parse::<uN>], [max] being [uN::MAX]. *)
Inductive ParseIntError : Set := IntEmpty | InvalidDigit | PosOverflow.

Definition parse_int_error_display (e : ParseIntError) : string :=
  match e with
  | IntEmpty => "cannot parse integer from empty string"
  | InvalidDigit => "invalid digit found in string"
  | PosOverflow => "number too large to fit in target type"
  end.

Fixpoint parse_digits (max acc : Z) (s : string) : result Z ParseIntError :=
  match s with
  | EmptyString => Ok acc
  | String c s =>
      if is_digit c then
        let acc := acc * 10 + digit_val c in
        if acc <=? max then parse_digits max acc s else Err PosOverflow
      else Err InvalidDigit
  end.

Definition plus_char : ascii := ascii_of_nat 43.

Definition parse_uint (max : Z) (s : string) : result Z ParseIntError :=
  match s with
  | EmptyString => Err IntEmpty
  | String c EmptyString => if is_digit c then parse_digits max 0 s else Err InvalidDigit
  | String c rest => if ascii_dec c plus_char then parse_digits max 0 rest
                     else parse_digits max 0 s
  end.
Abbreviation parse_u8 := (parse_uint U8_MAX).
Abbreviation parse_u16 := (parse_uint U16_MAX).
Abbreviation parse_u32 := (parse_uint U32_MAX).
Abbreviation parse_u64 := (parse_uint U64_MAX).

(** [str::split(sep)] for a one-byte separator: one more part than there are
    separators, parts may be empty. *)
Fixpoint split_on (sep : ascii) (s : string) : list string :=
  match s with
  | EmptyString => [EmptyString]
  | String c s =>
      if ascii_dec c sep then EmptyString :: split_on sep s
      else match split_on sep s with
           | [] => [String c EmptyString]
           | p :: ps => String c p :: ps
           end
  end.

Definition colon : ascii := ascii_of_nat 58.
Definition at_sign : ascii := ascii_of_nat 64.
Definition comma : ascii := ascii_of_nat 44.
Definition equals : ascii := ascii_of_nat 61.
Definition slash : ascii := ascii_of_nat 47.
Definition newline : ascii := ascii_of_nat 10.
Definition cr : ascii := ascii_of_nat 13.

(** [str::splitn(2, sep)]: the text before the first separator and the rest. *)
Fixpoint split_once (sep : ascii) (s : string) : option (string * string) :=
  match s with
  | EmptyString => None
  | String c s =>
      if ascii_dec c sep then Some (EmptyString, s)
      else match split_once sep s with
           | Some (p, r) => Some (String c p, r)
           | None => None
           end
  end.
Definition splitn2 (sep : ascii) (s : string) : list string :=
  match split_once sep s with Some (p, r) => [p; r] | None => [s] end.

(** [str::rsplitn(2, sep)]: the text after the last separator comes first. *)
Fixpoint rsplit_once (sep : ascii) (s : string) : option (string * string) :=
  match s with
  | EmptyString => None
  | String c s =>
      match rsplit_once sep s with
      | Some (p, r) => Some (String c p, r)
      | None => if ascii_dec c sep then Some (EmptyString, s) else None
      end
  end.
Definition rsplitn2 (sep : ascii) (s : string) : list string :=
  match rsplit_once sep s with Some (p, r) => [r; p] | None => [s] end.

(** [str::lines]: split at line feeds, a trailing empty line is dropped, and
    so is a carriage return at the end of a line. *)
Fixpoint strip_cr (s : string) : string :=
  match s with
  | EmptyString => EmptyString
  | String c EmptyString => if ascii_dec c cr then EmptyString else s
  | String c s => String c (strip_cr s)
  end.
Fixpoint drop_last_empty (l : list string) : list string :=
  match l with
  | [] => []
  | [EmptyString] => []
  | x :: l => x :: drop_last_empty l
  end.
(** The carriage return of an unterminated last line stays. *)
Fixpoint strip_terminated (l : list string) : list string :=
  match l with
  | [] => []
  | [x] => [x]
  | x :: l => strip_cr x :: strip_terminated l
  end.
Definition lines (s : string) : list string :=
  drop_last_empty (strip_terminated (split_on newline s)).

(** [str::split_whitespace]: [ws_len] is the length in bytes of the Unicode
    white-space character a string starts with, zero when there is none.
    None of the lead bytes below is a continuation byte, so scanning byte by
    byte finds exactly the white-space characters of a UTF-8 string. *)
Definition ws_len (s : string) : nat :=
  match as_bytes s with
  | b1 :: rest =>
      if ((9 <=? b1) && (b1 <=? 13)) || (b1 =? 32) then 1%nat
      else match b1, rest with
           | 194, b2 :: _ => if (b2 =? 133) || (b2 =? 160) then 2%nat else 0%nat
           | 225, b2 :: b3 :: _ => if (b2 =? 154) && (b3 =? 128) then 3%nat else 0%nat
           | 226, b2 :: b3 :: _ =>
               if ((b2 =? 128) && (((128 <=? b3) && (b3 <=? 138)) || (b3 =? 168)
                                   || (b3 =? 169) || (b3 =? 175)))
                  || ((b2 =? 129) && (b3 =? 159)) then 3%nat else 0%nat
           | 227, b2 :: b3 :: _ => if (b2 =? 128) && (b3 =? 128) then 3%nat else 0%nat
           | _, _ => 0%nat
           end
  | [] => 0%nat
  end.

Definition flush_token (cur : string) : list string :=
  match cur with EmptyString => [] | _ => [cur] end.

Fixpoint split_ws_go (skip : nat) (cur s : string) : list string :=
  match s with
  | EmptyString => flush_token cur
  | String c s' =>
      match skip with
      | S k => split_ws_go k cur s'
      | O => match ws_len s with
             | O => split_ws_go 0 (cur +:+ String c EmptyString) s'
             | S k => flush_token cur ++ split_ws_go k EmptyString s'
             end
      end
  end.
Definition split_whitespace (s : string) : list string := split_ws_go 0 EmptyString s.

(** [PathBuf::join] on a Unix path: an absolute argument replaces the path. *)
Definition ends_with_slash (s : string) : bool :=
  match rev (list_ascii_of_string s) with
  | c :: _ => bool_decide (c = slash)
  | [] => true
  end.
Definition path_join (base p : string) : string :=
  match p with
  | String c _ =>
      if ascii_dec c slash then p
      else if ends_with_slash base then base +:+ p else base +:+ String slash p
  | EmptyString => if ends_with_slash base then base else base +:+ String slash EmptyString
  end.

(** [BTreeMap]: the entries in key order; inserting under a present key
    replaces the value. *)
Section BTree.
Context {K V : Type} (cmp : K -> K -> comparison).
Fixpoint btree_insert (k : K) (v : V) (m : list (K * V)) : list (K * V) :=
  match m with
  | [] => [(k, v)]
  | (k', v') :: m' =>
      match cmp k k' with
      | Lt => (k, v) :: m
      | Eq => (k', v) :: m'
      | Gt => (k', v') :: btree_insert k v m'
      end
  end.
End BTree.

(** [Iterator::enumerate] and [find] on the booleans of a list. *)
Fixpoint find_index_from (i : nat) (l : list bool) : option nat :=
  match l with
  | [] => None
  | true :: _ => Some i
  | false :: l => find_index_from (S i) l
  end.
Definition find_index (l : list bool) : option nat := find_index_from 0 l.

(** [Iterator::next] on an iterator modelled as the list of what is left. *)
Definition next {A} (it : list A) : option A * list A :=
  match it with [] => (None, []) | x :: it => (Some x, it) end.

(** ** Lemmas: machine arithmetic *)

Section Arith.
Context `{BuildProfile}.

Lemma u64_add_ok a b : a + b <= U64_MAX -> u64_add a b = Done (a + b).
Proof. intros Hab. unfold u64_add. by rewrite (proj2 (Z.leb_le _ _) Hab). Qed.

Lemma u64_sub_ok a b : b <= a -> u64_sub a b = Done (a - b).
Proof. intros Hab. unfold u64_sub. by rewrite (proj2 (Z.leb_le _ _) Hab). Qed.

Lemma u64_mul_ok a b : a * b <= U64_MAX -> u64_mul a b = Done (a * b).
Proof. intros Hab. unfold u64_mul. by rewrite (proj2 (Z.leb_le _ _) Hab). Qed.

(** Whatever the profile, a result that is produced fits in 64 bits. *)
Lemma u64_add_fits a b c : 0 <= a -> 0 <= b -> u64_add a b = Done c -> u64 c.
Proof.
  unfold u64_add, fits, U64_MAX. intros Ha Hb Hc.
  pose proof (Z.mod_pos_bound (a + b) (2 ^ 64) ltac:(lia)).
  repeat case_match; simplify_eq; reflect_bools; lia.
Qed.

Lemma u64_mul_fits a b c : 0 <= a -> 0 <= b -> u64_mul a b = Done c -> u64 c.
Proof.
  unfold u64_mul, fits, U64_MAX. intros Ha Hb Hc.
  pose proof (Z.mod_pos_bound (a * b) (2 ^ 64) ltac:(lia)).
  repeat case_match; simplify_eq; reflect_bools; nia.
Qed.

Lemma u64_sub_fits a b c : u64 a -> u64 b -> u64_sub a b = Done c -> u64 c.
Proof.
  unfold u64_sub, fits, U64_MAX. intros Ha Hb Hc.
  pose proof (Z.mod_pos_bound (a - b) (2 ^ 64) ltac:(lia)).
  repeat case_match; simplify_eq; reflect_bools; lia.
Qed.

Lemma foldl_panics msg (l : list Z) :
  foldl (fun acc x => comp_bind acc (fun a => u64_add a x)) (Panics msg) l = Panics msg.
Proof. induction l; [done|]. simpl. done. Qed.

Lemma u64_sum_go_ok (l : list Z) (a : Z) :
  0 <= a -> Forall (fun x => 0 <= x) l -> a + foldr Z.add 0 l <= U64_MAX ->
  foldl (fun acc x => comp_bind acc (fun a => u64_add a x)) (Done a) l
  = Done (a + foldr Z.add 0 l).
Proof.
  revert a. induction l as [|x l IH]; simpl; intros a Ha Hl Hsum.
  { by rewrite Z.add_0_r. }
  apply Forall_cons in Hl as [Hx Hl].
  assert (0 <= foldr Z.add 0 l) as Hpos.
  { clear -Hl. induction Hl; simpl; lia. }
  rewrite u64_add_ok by lia. rewrite IH; [f_equal; lia|lia|done|lia].
Qed.

Lemma u64_sum_ok (l : list Z) :
  Forall (fun x => 0 <= x) l -> foldr Z.add 0 l <= U64_MAX ->
  u64_sum l = Done (foldr Z.add 0 l).
Proof. intros Hl Hs. unfold u64_sum. rewrite u64_sum_go_ok by (done || lia). done. Qed.

End Arith.

(** ** Lemmas: ordered maps *)

Section BTreeLemmas.
Context {K V : Type} (cmp : K -> K -> comparison).
Context (cmp_eq : forall a b, cmp a b = Eq <-> a = b).
Context (cmp_opp : forall a b, cmp b a = CompOpp (cmp a b)).
Context (cmp_trans : forall a b c, cmp a b = Lt -> cmp b c = Lt -> cmp a c = Lt).

Definition btree_wf (m : list (K * V)) : Prop :=
  StronglySorted (fun a b => cmp a b = Lt) m.*1.

Lemma btree_insert_keys k v (m : list (K * V)) x :
  x ∈ (btree_insert cmp k v m).*1 -> x = k \/ x ∈ m.*1.
Proof.
  induction m as [|[k' v'] m IH]; simpl; [by intros ->%list_elem_of_singleton; left|].
  destruct (cmp k k'); simpl; rewrite !elem_of_cons; intuition.
Qed.

Lemma btree_insert_wf k v m : btree_wf m -> btree_wf (btree_insert cmp k v m).
Proof.
  unfold btree_wf. induction m as [|[k' v'] m IH]; simpl; intros Hs; [repeat constructor|].
  apply StronglySorted_inv in Hs as [Hs Hf].
  destruct (cmp k k') eqn:Hc; simpl.
  - by constructor.
  - constructor; [by constructor|]. constructor; [done|].
    eapply Forall_impl; [exact Hf|]. simpl. eauto.
  - constructor; [by apply IH|]. apply Forall_forall. intros x Hx.
    apply btree_insert_keys in Hx as [->|Hx].
    + by rewrite cmp_opp, Hc.
    + by apply (Forall_forall (fun y => cmp k' y = Lt) m.*1).
Qed.

Lemma cmp_lt_ne a b : cmp a b = Lt -> a <> b.
Proof. intros Hlt Heq. apply cmp_eq in Heq. congruence. Qed.

Lemma btree_above k (m : list (K * V)) x u :
  Forall (fun y => cmp k y = Lt) m.*1 -> (x, u) ∈ m -> x <> k.
Proof.
  intros Hf Hin. apply not_eq_sym, cmp_lt_ne.
  apply (Forall_forall (fun y => cmp k y = Lt) m.*1); [done|].
  by apply (list_elem_of_fmap_2 fst _ (x, u)).
Qed.

Lemma btree_insert_elem k v (m : list (K * V)) x u :
  btree_wf m ->
  (x, u) ∈ btree_insert cmp k v m <-> (x = k /\ u = v) \/ (x <> k /\ (x, u) ∈ m).
Proof.
  unfold btree_wf. induction m as [|[k' v'] m IH]; simpl; intros Hs.
  { rewrite list_elem_of_singleton. split; [intros [= -> ->]; auto|].
    intros [[-> ->]|[_ Hin]]; [done|]. by apply not_elem_of_nil in Hin. }
  apply StronglySorted_inv in Hs as [Hs Hf].
  pose proof (fun u => btree_above k' m x u Hf) as Habove.
  destruct (cmp k k') eqn:Hc; rewrite !elem_of_cons.
  - apply cmp_eq in Hc as <-. split; [intros [[= -> ->]|Hin]; eauto|].
    intros [[-> ->]|[Hne [[= -> _]|Hin]]]; [auto|done|auto].
  - split.
    + intros [[= -> ->]|Hin]; [auto|]. right. split; [|done].
      destruct Hin as [[= -> _]|Hin]; [apply not_eq_sym, cmp_lt_ne; done|].
      eapply btree_above; [|exact Hin]. eapply Forall_impl; [exact Hf|]. simpl. eauto.
    + intros [[-> ->]|[_ Hin]]; auto.
  - rewrite (IH Hs). split; [|naive_solver].
    intros [[= -> ->]|[?|[? ?]]]; [|auto|auto]. right. split; [|auto].
    apply cmp_lt_ne. by rewrite cmp_opp, Hc.
Qed.

End BTreeLemmas.

(** ** Lemmas: decimal numerals *)

Lemma byte_of_ascii_of_N n : (n < 256)%N -> byte_of (ascii_of_N n) = Z.of_N n.
Proof. intros Hn. unfold byte_of. by rewrite N_ascii_embedding. Qed.

Lemma byte_of_range c : 0 <= byte_of c < 256.
Proof. unfold byte_of. pose proof (N_ascii_bounded c). lia. Qed.

Lemma byte_of_inj c d : byte_of c = byte_of d -> c = d.
Proof.
  unfold byte_of. intros Heq. apply N2Z.inj in Heq.
  by rewrite <- (ascii_N_embedding c), <- (ascii_N_embedding d), Heq.
Qed.

Lemma digit_char_byte d : 0 <= d <= 9 -> byte_of (digit_char d) = d + 48.
Proof.
  intros Hd. unfold digit_char. rewrite byte_of_ascii_of_N by lia. lia.
Qed.

Lemma digit_char_digit d : 0 <= d <= 9 -> is_digit (digit_char d) = true.
Proof.
  intros Hd. unfold is_digit. rewrite digit_char_byte by done.
  apply andb_true_iff; split; apply Z.leb_le; lia.
Qed.

Lemma digit_val_char d : 0 <= d <= 9 -> digit_val (digit_char d) = d.
Proof. intros Hd. unfold digit_val. rewrite digit_char_byte by done. lia. Qed.

Lemma parse_digits_dec_go max fuel n tail :
  0 <= n < 2 ^ Z.of_nat fuel -> (0 < fuel)%nat -> n <= max ->
  parse_digits max 0 (dec_go fuel n tail) = parse_digits max n tail.
Proof.
  revert n tail. induction fuel as [|fuel IH]; [lia|].
  intros n tail Hn _ Hmax. cbn [dec_go].
  pose proof (Z.mod_pos_bound n 10 ltac:(lia)) as Hm.
  pose proof (Z.div_mod n 10 ltac:(lia)) as Hdm.
  rewrite Nat2Z.inj_succ, Z.pow_succ_r in Hn by lia.
  destruct (n <? 10) eqn:Hlt; reflect_bools.
  - cbn [parse_digits]. rewrite digit_char_digit, digit_val_char by lia.
    rewrite Z.mod_small by lia. rewrite (proj2 (Z.leb_le _ _)) by lia. done.
  - assert (0 < fuel)%nat by (destruct fuel; simpl in Hn; lia).
    rewrite IH; [|lia|done|lia].
    cbn [parse_digits]. rewrite digit_char_digit, digit_val_char by lia.
    replace (n / 10 * 10 + n mod 10) with n by lia.
    by rewrite (proj2 (Z.leb_le _ _)) by lia.
Qed.

Lemma dec_fuel n : 0 <= n -> n < 2 ^ Z.of_nat (S (Z.to_nat (Z.log2 n))).
Proof.
  intros Hn. pose proof (Z.log2_nonneg n). rewrite Nat2Z.inj_succ, Z2Nat.id by done.
  destruct (decide (n = 0)) as [->|Hne]; [simpl; lia|].
  pose proof (Z.log2_spec n ltac:(lia)). lia.
Qed.

Definition all_digits (s : string) : Prop :=
  Forall (fun c => is_digit c = true) (list_ascii_of_string s).

Lemma dec_go_digits fuel n tail :
  0 <= n -> all_digits tail -> all_digits (dec_go fuel n tail).
Proof.
  revert n tail. induction fuel as [|fuel IH]; intros n tail Hn Ht; [done|].
  cbn [dec_go]. pose proof (Z.mod_pos_bound n 10 ltac:(lia)).
  assert (all_digits (String (digit_char (n mod 10)) tail)) as Hs.
  { constructor; [apply digit_char_digit; lia|done]. }
  destruct (n <? 10); [done|]. apply IH; [apply Z.div_pos; lia|done].
Qed.

Lemma dec_digits n : 0 <= n -> all_digits (dec n).
Proof. intros Hn. apply dec_go_digits; [done|constructor]. Qed.

Lemma dec_go_nonempty fuel n tail :
  (0 < fuel)%nat \/ tail <> EmptyString -> dec_go fuel n tail <> EmptyString.
Proof.
  revert n tail. induction fuel as [|fuel IH]; intros n tail [Hf|Ht]; [lia|done| |];
    cbn [dec_go]; (destruct (n <? 10); [done|]); by apply IH; right.
Qed.

Lemma dec_nonempty n : dec n <> EmptyString.
Proof. apply dec_go_nonempty. left. lia. Qed.

Lemma parse_uint_digits max s :
  all_digits s -> s <> EmptyString -> parse_uint max s = parse_digits max 0 s.
Proof.
  intros Hd Hne. destruct s as [|c s]; [done|]. cbn [parse_uint].
  apply Forall_cons in Hd as [Hc Hd].
  destruct s as [|c' s]; [by rewrite Hc|].
  destruct (ascii_dec c plus_char) as [->|]; [|done]. vm_compute in Hc. done.
Qed.

(** Printing a number and parsing it back, for any width it fits. *)
Lemma parse_uint_dec max n : 0 <= n <= max -> parse_uint max (dec n) = Ok n.
Proof.
  intros Hn. rewrite parse_uint_digits by (auto using dec_digits, dec_nonempty with lia).
  unfold dec. pose proof (dec_fuel n ltac:(lia)).
  rewrite parse_digits_dec_go by lia. done.
Qed.

Lemma parse_digits_fits max s acc n :
  0 <= acc <= max -> parse_digits max acc s = Ok n -> 0 <= n <= max.
Proof.
  revert acc. induction s as [|c s IH]; cbn [parse_digits]; intros acc Hacc Hp.
  { by simplify_eq. }
  destruct (is_digit c) eqn:Hc; [|done].
  case_match; [|done]. apply IH in Hp; [done|].
  unfold is_digit in Hc. unfold digit_val in *. reflect_bools. lia.
Qed.

Lemma parse_uint_fits max s n : 0 <= max -> parse_uint max s = Ok n -> fits max n.
Proof.
  unfold parse_uint, fits. intros Hmax Hp.
  repeat case_match; simplify_eq; (eapply parse_digits_fits; [|eassumption]); lia.
Qed.

(** ** Lemmas: splitting *)

Definition no_char (c : ascii) (s : string) : Prop := c ∉ list_ascii_of_string s.

Fixpoint join_with (sep : ascii) (l : list string) : string :=
  match l with
  | [] => EmptyString
  | [s] => s
  | s :: l => s +:+ String sep (join_with sep l)
  end.

Lemma split_on_nonnil sep s : split_on sep s <> [].
Proof. destruct s; simpl; repeat case_match; done. Qed.

Lemma split_on_no_char sep s : no_char sep s -> split_on sep s = [s].
Proof.
  unfold no_char. induction s as [|c s IH]; simpl; intros Hn; [done|].
  apply not_elem_of_cons in Hn as [Hc Hn].
  destruct (ascii_dec c sep); [done|]. by rewrite (IH Hn).
Qed.

Lemma split_on_app sep s t :
  no_char sep s -> split_on sep (s +:+ String sep t) = s :: split_on sep t.
Proof.
  unfold no_char. induction s as [|c s IH]; simpl; intros Hn.
  { by destruct (ascii_dec sep sep). }
  apply not_elem_of_cons in Hn as [Hc Hn].
  destruct (ascii_dec c sep); [done|]. by rewrite (IH Hn).
Qed.

Lemma split_on_join sep (l : list string) :
  l <> [] -> Forall (no_char sep) l -> split_on sep (join_with sep l) = l.
Proof.
  induction l as [|s l IH]; [done|]. intros _ Hl.
  apply Forall_cons in Hl as [Hs Hl]. destruct l as [|s' l].
  { by apply split_on_no_char. }
  change (join_with sep (s :: s' :: l)) with (s +:+ String sep (join_with sep (s' :: l))).
  rewrite split_on_app by done. f_equal. by apply IH.
Qed.

Lemma list_ascii_app s t :
  list_ascii_of_string (s +:+ t) = list_ascii_of_string s ++ list_ascii_of_string t.
Proof. induction s as [|c s IH]; simpl; [done|]. by rewrite IH. Qed.

Lemma no_char_app c s t : no_char c (s +:+ t) <-> no_char c s /\ no_char c t.
Proof. unfold no_char. rewrite list_ascii_app, elem_of_app. tauto. Qed.

Lemma all_digits_no_char c s : is_digit c = false -> all_digits s -> no_char c s.
Proof.
  unfold no_char, all_digits. intros Hc Hs Hin.
  rewrite Forall_forall in Hs. specialize (Hs c Hin). congruence.
Qed.

Lemma rsplit_once_none sep s : no_char sep s -> rsplit_once sep s = None.
Proof.
  unfold no_char. induction s as [|c s IH]; simpl; intros Hn; [done|].
  apply not_elem_of_cons in Hn as [Hc Hn]. rewrite IH by done. by destruct (ascii_dec c sep).
Qed.

Lemma rsplit_once_app sep s t :
  no_char sep t -> rsplit_once sep (s +:+ String sep t) = Some (s, t).
Proof.
  intros Ht. induction s as [|c s IH]; simpl.
  - rewrite rsplit_once_none by done. by destruct (ascii_dec sep sep).
  - by rewrite IH.
Qed.

#[export] Hint Resolve dec_digits dec_nonempty split_on_nonnil : rust.
