(* ===== verification/Floats.v ===== *)
(** * Double-precision numbers

    [f64] is the IEEE 754 binary64 format as specified by the Standard
    Library's [SpecFloat]; here are the operations of Rust the program uses:
    parsing, division, multiplication, [round] and the saturating casts. *)

From Stdlib Require Import ZArith Lia Ascii String.
From Stdlib Require Import Floats.SpecFloat.
From stdpp Require Import base list strings.
From S2P Require Import Prelude RustStd.

Open Scope Z_scope.

Abbreviation f64 := spec_float.
Definition PREC : Z := 53.
Definition EMAX : Z := 1024.

Definition f64_div (a b : f64) : f64 := SFdiv PREC EMAX a b.
Definition f64_mul (a b : f64) : f64 := SFmul PREC EMAX a b.
Definition f64_eqb (a b : f64) : bool := SFeqb a b.
Definition f64_of_Z (n : Z) : f64 := binary_normalize PREC EMAX n 0 false.

(** [m * 10 ^ e], correctly rounded. *)
Definition f64_of_decimal (negative : bool) (m e : Z) : f64 :=
  match m with
  | Zpos p =>
      if 0 <=? e then
        let r := binary_normalize PREC EMAX (m * 10 ^ e) 0 false in
        if negative then SFopp r else r
      else
        let '(q, e', l) := SFdiv_core_binary PREC EMAX (Zpos p) 0 (10 ^ (- e)) 0 in
        binary_round_aux PREC EMAX negative q e' l
  | _ => S754_zero negative
  end.

(** [f as uN]: truncation, saturating at the bounds, zero for a NaN. *)
Definition f64_trunc (m : positive) (e : Z) : Z :=
  if 0 <=? e then Zpos m * 2 ^ e else Zpos m / 2 ^ (- e).
Definition f64_as_uint (max : Z) (f : f64) : Z :=
  match f with
  | S754_zero _ | S754_nan => 0
  | S754_infinity negative => if negative then 0 else max
  | S754_finite negative m e => if negative then 0 else Z.min max (f64_trunc m e)
  end.

(** [f64::round]: to the nearest integer, halves away from zero. *)
Definition f64_round (f : f64) : f64 :=
  match f with
  | S754_finite negative m e =>
      if 0 <=? e then f
      else
        let n := (2 * Zpos m + 2 ^ (- e)) / 2 ^ (1 - e) in
        match n with
        | Z0 => S754_zero negative
        | _ => binary_normalize PREC EMAX (if negative then - n else n) 0 negative
        end
  | _ => f
  end.

(** [str::parse::<f64>] *)
Definition lower (c : ascii) : ascii :=
  if (65 <=? byte_of c) && (byte_of c <=? 90) then ascii_of_N (Z.to_N (byte_of c + 32)) else c.
Fixpoint lowercase (s : string) : string :=
  match s with EmptyString => EmptyString | String c s => String (lower c) (lowercase s) end.

(** The digits at the head: their value after [acc], how many, and the rest. *)
Fixpoint take_digits (acc n : Z) (s : string) : Z * Z * string :=
  match s with
  | String c s' => if is_digit c then take_digits (acc * 10 + digit_val c) (n + 1) s' else (acc, n, s)
  | EmptyString => (acc, n, s)
  end.

Definition strip_sign (s : string) : bool * string :=
  match s with
  | String "-" s => (true, s)
  | String "+" s => (false, s)
  | _ => (false, s)
  end.

(** An exponent: nothing, or [e] or [E], a sign and digits up to the end. *)
Definition parse_exponent (s : string) : option Z :=
  match s with
  | EmptyString => Some 0
  | String c s =>
      if bool_decide (lower c = "e"%char) then
        let '(neg, s) := strip_sign s in
        let '(x, n, rest) := take_digits 0 0 s in
        match rest with
        | EmptyString => if n =? 0 then None else Some (if neg then - x else x)
        | _ => None
        end
      else None
  end.

Definition FLOAT_EMPTY : string := "cannot parse float from empty string".
Definition FLOAT_INVALID : string := "invalid float literal".

Definition parse_f64 (s : string) : result f64 string :=
  match s with
  | EmptyString => Err FLOAT_EMPTY
  | _ =>
      let '(neg, s) := strip_sign s in
      let w := lowercase s in
      if bool_decide (w = "inf"%string) || bool_decide (w = "infinity"%string) then Ok (S754_infinity neg)
      else if bool_decide (w = "nan"%string) then Ok S754_nan
      else
        let '(m, n, rest) := take_digits 0 0 s in
        let '(m, k, rest) := match rest with
                             | String "." rest => take_digits m 0 rest
                             | _ => (m, 0, rest)
                             end in
        if n + k =? 0 then Err FLOAT_INVALID
        else match parse_exponent rest with
             | Some x => Ok (f64_of_decimal neg m (x - k))
             | None => Err FLOAT_INVALID
             end
  end.

(** ** Lemmas *)

Lemma f64_as_uint_fits max f : 0 <= max -> fits max (f64_as_uint max f).
Proof.
  unfold f64_as_uint, fits, f64_trunc. intros Hmax.
  destruct f as [|[]| |[] m e]; try lia.
  assert (0 <= if 0 <=? e then Z.pos m * 2 ^ e else Z.pos m / 2 ^ (- e)); [|lia].
  case_match; reflect_bools.
  - pose proof (Z.pow_nonneg 2 e ltac:(lia)). nia.
  - apply Z.div_pos; [lia|]. apply Z.pow_pos_nonneg; lia.
Qed.

Example parse_25000 : f64_as_uint U64_MAX
  (match parse_f64 "25000.50e1" with Ok f => f | Err _ => S754_nan end) = 250005.
Proof. reflexivity. Qed.
Example parse_tenth : parse_f64 "0.1" = Ok (S754_finite false 7205759403792794 (-56)).
Proof. reflexivity. Qed.
Example round_half : f64_round (f64_of_decimal false 25 (-1)) = f64_of_Z 3.
Proof. reflexivity. Qed.
