(* ===== verification/Hex.v ===== *)
(** * hex_utils.rs: hexadecimal encoding and decoding

    [to_vec] and [hex_str] are the loops of the source on 8-bit values;
    [to_compressed_pubkey] is parameterised by [PublicKey::from_slice]. *)

From Stdlib Require Import ZArith Lia Ascii String.
From stdpp Require Import base list strings gmap.
From S2P Require Import Prelude RustStd.

Open Scope Z_scope.

Module Hex.

(** The value of one hexadecimal digit: the three arms of the [match]. *)
Definition nibble (c : Z) : option Z :=
  if (65 <=? c) && (c <=? 70) then Some (c - 65 + 10)
  else if (97 <=? c) && (c <=? 102) then Some (c - 97 + 10)
  else if (48 <=? c) && (c <=? 57) then Some (c - 48)
  else None.

(** The [for] loop of [to_vec]: [idx] is the position, [b] the byte under
    construction ([b <<= 4] drops the bits shifted out of the [u8]), [out]
    the bytes pushed so far. *)
Fixpoint to_vec_loop (idx b : Z) (out : list Z) (cs : list Z) : option (list Z) :=
  match cs with
  | [] => Some out
  | c :: cs =>
      let b := Z.shiftl b 4 mod 2 ^ 8 in
      match nibble c with
      | None => None
      | Some d =>
          let b := Z.lor b d in
          if Z.land idx 1 =? 1 then to_vec_loop (idx + 1) 0 (out ++ [b]) cs
          else to_vec_loop (idx + 1) b out cs
      end
  end.

Definition to_vec (hex : string) : option (list Z) := to_vec_loop 0 0 [] (as_bytes hex).

(** [{:x}] of a nibble. *)
Definition hex_digit (d : Z) : ascii :=
  ascii_of_N (Z.to_N (if d <? 10 then d + 48 else d - 10 + 97)).

(** [write!(&mut res, "{:02x}", v)] for every byte. *)
Fixpoint hex_str (value : list Z) : string :=
  match value with
  | [] => EmptyString
  | v :: value => String (hex_digit (v / 16)) (String (hex_digit (v mod 16)) (hex_str value))
  end.

Definition to_compressed_pubkey {PublicKey : Type}
    (from_slice : list Z -> option PublicKey) (hex : string) : option PublicKey :=
  if negb (str_len hex =? 33 * 2) then None
  else match to_vec hex with
       | Some data => from_slice data
       | None => None
       end.

(** [vec.try_into().ok()] into a 32-byte array, as the callers do. *)
Definition to_array32 (v : list Z) : option (list Z) :=
  if (Z.of_nat (length v) =? 32) then Some v else None.

(** ** Specification

    The digits of a string, and the bytes that consecutive pairs of digits
    denote; a digit left over at the end is dropped. *)
Fixpoint pair_up (ds : list Z) : list Z :=
  match ds with
  | h :: l :: ds => h * 16 + l :: pair_up ds
  | _ => []
  end.

(** ** Lemmas *)

Lemma nibble_range c d : nibble c = Some d -> 0 <= d < 16.
Proof. unfold nibble. intros Hn. repeat case_match; simplify_eq; reflect_bools; lia. Qed.

Lemma lor_nibbles h l : 0 <= h < 16 -> 0 <= l < 16 -> Z.lor (Z.shiftl h 4 mod 2 ^ 8) l = h * 16 + l.
Proof.
  intros Hh Hl.
  assert (forall h l : Z, 0 <= h < 16 -> 0 <= l < 16 ->
    (Z.lor (Z.shiftl h 4 mod 2 ^ 8) l =? h * 16 + l) = true) as Hall.
  { clear. intros h l Hh Hl.
    rewrite <- (Z2Nat.id h), <- (Z2Nat.id l) by lia.
    assert (Z.to_nat h < 16)%nat as Hh' by lia. assert (Z.to_nat l < 16)%nat as Hl' by lia.
    revert Hh' Hl'. generalize (Z.to_nat h) as n, (Z.to_nat l) as m. intros n m Hn Hm.
    do 16 (destruct n as [|n]; [do 16 (destruct m as [|m]; [reflexivity|]); lia|]). lia. }
  apply Z.eqb_eq. by apply Hall.
Qed.

Lemma land_1_even n : 0 <= n -> (Z.land (2 * n) 1 =? 1) = false.
Proof.
  intros Hn. change 1 with (Z.ones 1) at 1. rewrite Z.land_ones by lia.
  apply Z.eqb_neq. change (2 ^ 1) with 2. rewrite Z.mul_comm, Z_mod_mult. lia.
Qed.

Lemma land_1_odd n : 0 <= n -> (Z.land (2 * n + 1) 1 =? 1) = true.
Proof.
  intros Hn. change 1 with (Z.ones 1) at 2. rewrite Z.land_ones by lia.
  apply Z.eqb_eq. change (2 ^ 1) with 2.
  rewrite Z.add_comm, (Z.mul_comm 2), Z_mod_plus_full. reflexivity.
Qed.

(** Two digits at a time, the loop pushes the byte they denote. *)
Lemma to_vec_loop_pair n out c1 c2 cs :
  0 <= n ->
  to_vec_loop (2 * n) 0 out (c1 :: c2 :: cs) =
  match nibble c1, nibble c2 with
  | Some h, Some l => to_vec_loop (2 * (n + 1)) 0 (out ++ [h * 16 + l]) cs
  | _, _ => None
  end.
Proof.
  intros Hn. cbn [to_vec_loop]. destruct (nibble c1) as [h|] eqn:H1; [|done].
  rewrite land_1_even by done. cbn [to_vec_loop].
  destruct (nibble c2) as [l|] eqn:H2; [|done].
  rewrite land_1_odd by done. apply nibble_range in H1, H2.
  change (Z.lor (Z.shiftl 0 4 mod 2 ^ 8) h) with h.
  rewrite lor_nibbles by done. f_equal. lia.
Qed.

Lemma to_vec_loop_spec n out cs :
  0 <= n ->
  to_vec_loop (2 * n) 0 out cs =
  match mapM nibble cs with Some ds => Some (out ++ pair_up ds) | None => None end.
Proof.
  revert n out. induction cs as [cs IH] using (induction_ltof1 _ (@length _)).
  unfold ltof in IH. intros n out Hn. destruct cs as [|c1 [|c2 cs]].
  - cbn. by rewrite app_nil_r.
  - cbn [to_vec_loop mapM]. destruct (nibble c1); [|done].
    rewrite land_1_even by done. cbn. by rewrite app_nil_r.
  - rewrite to_vec_loop_pair by done. cbn [mapM].
    destruct (nibble c1) as [h|]; [|done]. cbn [mbind option_bind].
    destruct (nibble c2) as [l|]; [|done]. cbn [mbind option_bind].
    rewrite IH by (simpl; lia). destruct (mapM nibble cs); [|done]. cbn.
    by rewrite <- app_assoc.
Qed.

Lemma to_vec_spec hex :
  to_vec hex = match mapM nibble (as_bytes hex) with
               | Some ds => Some (pair_up ds) | None => None end.
Proof. unfold to_vec. change 0 with (2 * 0) at 1. by rewrite to_vec_loop_spec by lia. Qed.

Lemma pair_up_length ds : length (pair_up ds) = (length ds / 2)%nat.
Proof.
  induction ds as [ds IH] using (induction_ltof1 _ (@length _)). unfold ltof in IH.
  destruct ds as [|h [|l ds]]; [done|done|]. cbn [pair_up length].
  rewrite IH by (simpl; lia).
  change (S (S (length ds))) with (2 + length ds)%nat.
  rewrite (Nat.add_comm 2), <- (Nat.mul_1_l 2), Nat.div_add by lia. lia.
Qed.

Lemma pair_up_bytes ds : Forall (fun d => 0 <= d < 16) ds -> Forall u8 (pair_up ds).
Proof.
  induction ds as [ds IH] using (induction_ltof1 _ (@length _)). unfold ltof in IH.
  intros Hds. destruct ds as [|h [|l ds]]; [constructor|constructor|].
  apply Forall_cons in Hds as [Hh Hds]. apply Forall_cons in Hds as [Hl Hds].
  cbn [pair_up]. constructor; [unfold fits, U8_MAX; lia|]. apply IH; [simpl; lia|done].
Qed.

Lemma as_bytes_length s : length (as_bytes s) = String.length s.
Proof. unfold as_bytes. rewrite length_map. induction s; simpl; congruence. Qed.

Lemma as_bytes_cons c s : as_bytes (String c s) = byte_of c :: as_bytes s.
Proof. done. Qed.

Lemma nibble_hex_digit d : 0 <= d < 16 -> nibble (byte_of (hex_digit d)) = Some d.
Proof.
  intros Hd. unfold hex_digit. destruct (d <? 10) eqn:E; reflect_bools;
    rewrite byte_of_ascii_of_N by lia; unfold nibble;
    repeat case_match; reflect_bools; try (f_equal; lia);
    repeat match goal with H : (_ && _)%bool = false |- _ =>
      apply andb_false_iff in H as [H|H]; reflect_bools end; lia.
Qed.

Lemma mapM_nibble_hex_str v :
  Forall u8 v -> mapM nibble (as_bytes (hex_str v)) = Some (flat_map (fun b => [b / 16; b mod 16]) v).
Proof.
  induction 1 as [|b v Hb Hv IH]; [done|]. cbn [hex_str flat_map]. rewrite !as_bytes_cons.
  cbn [mapM]. unfold fits, U8_MAX in Hb.
  pose proof (Z.mod_pos_bound b 16 ltac:(lia)).
  pose proof (Z.div_pos b 16 ltac:(lia) ltac:(lia)).
  pose proof (Z.div_lt_upper_bound b 16 16 ltac:(lia) ltac:(lia)).
  rewrite !nibble_hex_digit by lia. cbn. by rewrite IH.
Qed.

Lemma pair_up_flat v : pair_up (flat_map (fun b => [b / 16; b mod 16]) v) = v.
Proof.
  induction v as [|b v IH]; [done|]. cbn. rewrite IH. f_equal.
  pose proof (Z.div_mod b 16 ltac:(lia)). lia.
Qed.

Lemma hex_str_length v : String.length (hex_str v) = (2 * length v)%nat.
Proof. induction v as [|b v IH]; [done|]. cbn [hex_str String.length length]. lia. Qed.

Lemma to_vec_hex_str v : Forall u8 v -> to_vec (hex_str v) = Some v.
Proof.
  intros Hv. rewrite to_vec_spec, mapM_nibble_hex_str by done. by rewrite pair_up_flat.
Qed.

Lemma to_vec_bytes hex v : to_vec hex = Some v -> Forall u8 v.
Proof.
  rewrite to_vec_spec. destruct (mapM nibble (as_bytes hex)) as [ds|] eqn:Hds; [|done].
  intros [= <-]. apply pair_up_bytes. apply mapM_Some in Hds.
  induction Hds; constructor; eauto using nibble_range.
Qed.

(** Hexadecimal digits never are separators. *)
Lemma hex_digit_not c d :
  0 <= d < 16 -> byte_of c < 48 \/ 57 < byte_of c < 97 -> hex_digit d <> c.
Proof.
  intros Hd Hc <-. unfold hex_digit in Hc. destruct (d <? 10) eqn:E; reflect_bools;
    rewrite byte_of_ascii_of_N in Hc by lia; lia.
Qed.

Lemma hex_str_no_char c v :
  byte_of c < 48 \/ 57 < byte_of c < 97 -> Forall u8 v -> no_char c (hex_str v).
Proof.
  intros Hc. unfold no_char. induction 1 as [|b v Hb Hv IH]; cbn; [by apply not_elem_of_nil|].
  unfold fits, U8_MAX in Hb. pose proof (Z.mod_pos_bound b 16 ltac:(lia)).
  pose proof (Z.div_pos b 16 ltac:(lia) ltac:(lia)).
  pose proof (Z.div_lt_upper_bound b 16 16 ltac:(lia) ltac:(lia)).
  rewrite !not_elem_of_cons. repeat split; [| |done]; apply not_eq_sym, hex_digit_not; lia.
Qed.

#[export] Hint Resolve to_vec_bytes to_vec_hex_str : rust.

End Hex.
