(* ===== verification/Swap.v ===== *)
(** * swap.rs: swap types and swap strings

    A swap string is [amount:asset:side:price:expiry:payment_hash], printed by
    the maker ([makerinit] in cli.rs) and parsed by both sides
    ([SwapString::from_str]).  Contract identifiers belong to rgb-std: they
    are a parameter with their parser and printer. *)

From Stdlib Require Import ZArith Lia Ascii String.
From stdpp Require Import base list strings gmap.
From S2P Require Import Prelude RustStd Hex.

Open Scope Z_scope.

(** The operations of [ContractId] the swap strings rely on. *)
Class ContractIds := {
  ContractId : Type;
  ContractId_eq_dec :: EqDecision ContractId;
  ContractId_countable :: Countable ContractId;
  cid_from_str : string -> option ContractId;
  cid_to_string : ContractId -> string
}.

(** Documented behaviour: an identifier prints to a bech32 or base58 word,
    which has no colon in it, and parses back. *)
Class ContractIdLaws (C : ContractIds) : Prop := {
  cid_roundtrip : forall c : ContractId, cid_from_str (cid_to_string c) = Some c;
  cid_no_colon : forall c : ContractId, no_char colon (cid_to_string c)
}.

Module Swap.

Inductive SwapType : Set :=
| BuyAsset (amount_rgb amount_msats : Z)
| SellAsset (amount_rgb amount_msats : Z).

#[export] Instance SwapType_eq_dec : EqDecision SwapType.
Proof. solve_decision. Defined.

Definition opposite (s : SwapType) : SwapType :=
  match s with
  | BuyAsset amount_rgb amount_msats => SellAsset amount_rgb amount_msats
  | SellAsset amount_rgb amount_msats => BuyAsset amount_rgb amount_msats
  end.

Definition is_buy (s : SwapType) : bool :=
  match s with BuyAsset _ _ => true | SellAsset _ _ => false end.

Definition amount_msats (s : SwapType) : Z :=
  match s with BuyAsset _ amount_msats | SellAsset _ amount_msats => amount_msats end.

Definition amount_rgb (s : SwapType) : Z :=
  match s with BuyAsset amount_rgb _ | SellAsset amount_rgb _ => amount_rgb end.

Definition side (s : SwapType) : string :=
  match s with BuyAsset _ _ => "buy" | SellAsset _ _ => "sell" end.

Section Swap.
Context `{BuildProfile} `{ContractIds}.

Record SwapString := {
  asset_id : ContractId;
  swap_type : SwapType;
  expiry : Z;
  payment_hash : list Z
}.

Definition from_str (s : string) : comp (result SwapString string) :=
  let iter := split_on colon s in
  let '(amount, iter) := next iter in
  let '(asset_id, iter) := next iter in
  let '(side, iter) := next iter in
  let '(price, iter) := next iter in
  let '(expiry, iter) := next iter in
  let '(payment_hash, iter) := next iter in
  if is_none payment_hash || is_some (fst (next iter)) then
    Done (Err "Parsing swap string: wrong number of parts")
  else
  (let? amount := unwrap amount in
   let amount := parse_u64 amount in
   let? asset_id := unwrap asset_id in
   let asset_id := cid_from_str asset_id in
   let? price := unwrap price in
   let price := parse_u64 price in
   let? expiry := unwrap expiry in
   let expiry := parse_u64 expiry in
   let? payment_hash := unwrap payment_hash in
   let payment_hash := Hex.to_vec payment_hash ≫= Hex.to_array32 in
   if is_err amount || is_none asset_id || is_err price || is_err expiry
      || is_none payment_hash then
     Done (Err "Parsing swap string: unable to parse parts")
   else
   let? amount := unwrap_ok amount in
   let? asset_id := unwrap asset_id in
   let? price := unwrap_ok price in
   let? expiry := unwrap_ok expiry in
   let? payment_hash := unwrap payment_hash in
   if (amount =? 0) || (price =? 0) || (expiry =? 0) then
     Done (Err "Parsing swap string: amount, price and expiry should be non-zero")
   else
   let mk swap_type := Done (Ok {| asset_id := asset_id; swap_type := swap_type;
                                   expiry := expiry; payment_hash := payment_hash |}) in
   match side with
   | Some "buy"%string =>
       let? amount_msats := u64_mul amount price in mk (BuyAsset amount amount_msats)
   | Some "sell"%string =>
       let? amount_msats := u64_mul amount price in mk (SellAsset amount amount_msats)
   | _ => Done (Err "Invalid swap type")
   end)%comp.

(** The string [makerinit] prints: the [format!] of cli.rs. *)
Definition format_swapstring (amt_asset : Z) (asset_id : ContractId) (swaptype : SwapType)
    (price expiry : Z) (payment_hash : list Z) : string :=
  dec amt_asset +:+ ":" +:+ cid_to_string asset_id +:+ ":" +:+ side swaptype +:+ ":"
  +:+ dec price +:+ ":" +:+ dec expiry +:+ ":" +:+ Hex.hex_str payment_hash.

(** [makerinit] and [from_str] both build the swap type from the side. *)
Definition swap_of_side (side : string) (amount price : Z) : comp (option SwapType) :=
  (match side with
   | "buy"%string => let? m := u64_mul amount price in Done (Some (BuyAsset amount m))
   | "sell"%string => let? m := u64_mul amount price in Done (Some (SellAsset amount m))
   | _ => Done None
   end)%comp.

(** ** What a swap string denotes

    The declarative reading of a well-formed string, before any arithmetic. *)
Record Offer := {
  o_amount : Z; o_asset : ContractId; o_side : string;
  o_price : Z; o_expiry : Z; o_hash : list Z
}.

Definition denotes (s : string) (o : Offer) : Prop :=
  exists a c p e h,
    split_on colon s = [a; c; o_side o; p; e; h]
    /\ parse_u64 a = Ok (o_amount o)
    /\ cid_from_str c = Some (o_asset o)
    /\ parse_u64 p = Ok (o_price o)
    /\ parse_u64 e = Ok (o_expiry o)
    /\ Hex.to_vec h = Some (o_hash o) /\ length (o_hash o) = 32%nat
    /\ o_amount o <> 0 /\ o_price o <> 0 /\ o_expiry o <> 0.

Definition offer_of (o : Offer) (t : SwapType) : SwapString :=
  {| asset_id := o_asset o; swap_type := t; expiry := o_expiry o; payment_hash := o_hash o |}.

(** ** Lemmas *)

Lemma to_array32_Some v w : Hex.to_array32 v = Some w <-> v = w /\ length w = 32%nat.
Proof.
  unfold Hex.to_array32. destruct (Z.of_nat (length v) =? 32) eqn:E; reflect_bools.
  - split; [intros [= <-]; split; [done|lia]|by intros [-> _]].
  - split; [done|intros [-> Hl]; lia].
Qed.

(** Six parts, no more and no less. *)
Lemma from_str_parts s :
  (length (split_on colon s) <> 6%nat) ->
  from_str s = Done (Err "Parsing swap string: wrong number of parts"%string).
Proof.
  intros Hlen. unfold from_str.
  destruct (split_on colon s) as [|p1 [|p2 [|p3 [|p4 [|p5 [|p6 [|p7 l]]]]]]]; done.
Qed.

Lemma from_str_six s a c sd p e h :
  split_on colon s = [a; c; sd; p; e; h] ->
  from_str s =
  match parse_u64 a, cid_from_str c, parse_u64 p, parse_u64 e,
        (Hex.to_vec h ≫= Hex.to_array32) with
  | Ok amount, Some asset, Ok price, Ok expiry, Some hash =>
      if (amount =? 0) || (price =? 0) || (expiry =? 0) then
        Done (Err "Parsing swap string: amount, price and expiry should be non-zero"%string)
      else
        comp_bind (swap_of_side sd amount price) (fun t =>
          match t with
          | Some t => Done (Ok {| asset_id := asset; swap_type := t;
                                  expiry := expiry; payment_hash := hash |})
          | None => Done (Err "Invalid swap type"%string)
          end)
  | _, _, _, _, _ => Done (Err "Parsing swap string: unable to parse parts"%string)
  end.
Proof.
  intros Hs. unfold from_str. rewrite Hs. cbn [next is_none is_some fst orb negb unwrap expect_some comp_bind].
  destruct (parse_u64 a) as [amount|], (cid_from_str c) as [asset|], (parse_u64 p) as [price|],
    (parse_u64 e) as [expiry|], (Hex.to_vec h ≫= Hex.to_array32) as [hash|]; try reflexivity.
  cbn [is_err is_ok negb orb is_none unwrap_ok expect_ok comp_bind unwrap expect_some].
  case_match; [reflexivity|]. unfold swap_of_side.
  repeat (case_match; try reflexivity); destruct (u64_mul amount price); reflexivity.
Qed.

Lemma from_str_denotes s o :
  denotes s o ->
  from_str s = comp_bind (swap_of_side (o_side o) (o_amount o) (o_price o)) (fun t =>
    match t with
    | Some t => Done (Ok (offer_of o t))
    | None => Done (Err "Invalid swap type"%string)
    end).
Proof.
  intros (a & c & p & e & h & Hs & Ha & Hc & Hp & He & Hh & Hl & Hna & Hnp & Hne).
  rewrite (from_str_six _ _ _ _ _ _ _ Hs), Ha, Hc, Hp, He, Hh. cbn [mbind option_bind].
  rewrite (proj2 (to_array32_Some _ _) (conj eq_refl Hl)).
  rewrite !(proj2 (Z.eqb_neq _ _)) by done. reflexivity.
Qed.

Lemma from_str_ok_inv s v :
  from_str s = Done (Ok v) ->
  exists o t, denotes s o /\ swap_of_side (o_side o) (o_amount o) (o_price o) = Done (Some t)
              /\ v = offer_of o t.
Proof.
  intros Hf. destruct (decide (length (split_on colon s) = 6%nat)) as [Hl|Hl];
    [|by rewrite from_str_parts in Hf by done].
  destruct (split_on colon s) as [|a [|c [|sd [|p [|e [|h [|]]]]]]] eqn:Hs; try done.
  rewrite (from_str_six _ _ _ _ _ _ _ Hs) in Hf.
  destruct (parse_u64 a) as [amount|] eqn:Ha; [|done].
  destruct (cid_from_str c) as [asset|] eqn:Hc; [|done].
  destruct (parse_u64 p) as [price|] eqn:Hp; [|done].
  destruct (parse_u64 e) as [exp|] eqn:He; [|done].
  destruct (Hex.to_vec h ≫= Hex.to_array32) as [hash|] eqn:Hh; [|done].
  case_match eqn:Hz; [done|]. apply orb_false_iff in Hz as [Hz Hz3].
  reflect_bools. apply comp_bind_done in Hf as (t & Ht & Hv). destruct t as [t|]; [|done].
  apply bind_Some in Hh as (v' & Hh & Hv'). apply to_array32_Some in Hv' as [-> Hl'].
  exists {| o_amount := amount; o_asset := asset; o_side := sd; o_price := price;
            o_expiry := exp; o_hash := hash |}, t.
  simplify_eq. split; [|done]. exists a, c, p, e, h. done.
Qed.

Lemma swap_of_side_amounts sd amount price t :
  swap_of_side sd amount price = Done (Some t) ->
  amount_rgb t = amount /\ u64_mul amount price = Done (amount_msats t) /\ side t = sd.
Proof.
  unfold swap_of_side. intros Ht.
  repeat (case_match; try done); destruct (u64_mul amount price) as [m|] eqn:Hm;
    simpl in Ht; simplify_eq; done.
Qed.

Lemma swap_of_side_side t price :
  swap_of_side (side t) (amount_rgb t) price =
  comp_bind (u64_mul (amount_rgb t) price) (fun m =>
    Done (Some (match t with BuyAsset a _ => BuyAsset a m | SellAsset a _ => SellAsset a m end))).
Proof. by destruct t. Qed.

(** What is printed is read back, whatever the product of amount and price
    does in this build profile. *)
Lemma from_str_printed `{!ContractIdLaws _} t asset price exp hash :
  1 <= amount_rgb t <= U64_MAX -> 1 <= price <= U64_MAX -> 1 <= exp <= U64_MAX ->
  u64_mul (amount_rgb t) price = Done (amount_msats t) -> length hash = 32%nat -> Forall u8 hash ->
  from_str (format_swapstring (amount_rgb t) asset t price exp hash) =
  Done (Ok {| asset_id := asset; swap_type := t; expiry := exp; payment_hash := hash |}).
Proof.
  intros Hamt Hprice Hexp Hmul Hlen Hhash. set (amt := amount_rgb t) in *.
  set (o := {| o_amount := amt; o_asset := asset; o_side := side t; o_price := price;
               o_expiry := exp; o_hash := hash |}).
  assert (denotes (format_swapstring amt asset t price exp hash) o) as Hd.
  { exists (dec amt), (cid_to_string asset), (dec price), (dec exp), (Hex.hex_str hash).
    split; [|unfold U64_MAX in *; repeat split; cbn;
             first [apply parse_uint_dec; lia | apply cid_roundtrip
                   | apply Hex.to_vec_hex_str; done | lia | done]].
    change (format_swapstring amt asset t price exp hash) with
      (join_with colon [dec amt; cid_to_string asset; side t; dec price; dec exp; Hex.hex_str hash]).
    apply split_on_join; [done|].
    assert (forall n, 0 <= n -> no_char colon (dec n)) as Hdec.
    { intros n Hn. by apply all_digits_no_char, dec_digits. }
    repeat apply Forall_cons_2; try apply Forall_nil_2; try (apply Hdec; lia).
    - apply cid_no_colon.
    - destruct t; apply (bool_decide_unpack _); reflexivity.
    - apply Hex.hex_str_no_char; [right; vm_compute; split; reflexivity|done]. }
  rewrite (from_str_denotes _ _ Hd). cbn [o_side o o_amount o_price]. subst amt.
  rewrite swap_of_side_side, Hmul. by destruct t.
Qed.

(** ** Properties *)

(** C13: [SwapString::from_str] accepts exactly the strings that denote an offer
    - six parts, parsing to non-zero amount, price and expiry, a contract and a
    32-byte hash - on a known side, whose msat amount it computes; the trade it
    returns is the one denoted. *)
Theorem from_str_accepts s v :
  from_str s = Done (Ok v) <->
  exists o t, denotes s o /\ swap_of_side (o_side o) (o_amount o) (o_price o) = Done (Some t)
              /\ v = offer_of o t.
Proof.
  split; [apply from_str_ok_inv|]. intros (o & t & Hd & Ht & ->).
  by rewrite (from_str_denotes _ _ Hd), Ht.
Qed.

(** Parsing a swap string panics only for an offer whose amount times
    price overflows 64 bits, in a build with overflow checks. *)
Theorem from_str_panics s msg :
  from_str s = Panics msg <->
  exists o, denotes s o /\ (o_side o = "buy" \/ o_side o = "sell")%string
            /\ U64_MAX < o_amount o * o_price o /\ overflow_checks = true
            /\ msg = "attempt to multiply with overflow"%string.
Proof.
  split.
  - intros Hf. destruct (decide (length (split_on colon s) = 6%nat)) as [Hl|Hl];
      [|by rewrite from_str_parts in Hf by done].
    destruct (split_on colon s) as [|a [|c [|sd [|p [|e [|h [|]]]]]]] eqn:Hs; try done.
    destruct (Hex.to_vec h ≫= Hex.to_array32) as [hash|] eqn:Hh;
      rewrite (from_str_six _ _ _ _ _ _ _ Hs), Hh in Hf; [|by repeat case_match].
    apply bind_Some in Hh as (v' & Hh & Hv'). apply to_array32_Some in Hv' as [-> Hl'].
    destruct (parse_u64 a) as [amount|] eqn:Ha; [|done].
    destruct (cid_from_str c) as [asset|] eqn:Hc; [|done].
    destruct (parse_u64 p) as [price|] eqn:Hp; [|done].
    destruct (parse_u64 e) as [exp|] eqn:He; [|done].
    destruct (_ || _) eqn:Hz; [done|]. apply orb_false_iff in Hz as [Hz Hz3]. reflect_bools.
    exists {| o_amount := amount; o_asset := asset; o_side := sd; o_price := price;
              o_expiry := exp; o_hash := hash |}; cbn.
    split; [by exists a, c, p, e, h|]. unfold swap_of_side, u64_mul in Hf.
    destruct (amount * price <=? U64_MAX) eqn:Hm, overflow_checks; cbn in Hf;
      repeat case_match; try done; reflect_bools; cbn in Hf; simplify_eq; auto.
  - intros (o & Hd & Hside & Hov & Hc & ->). rewrite (from_str_denotes _ _ Hd).
    assert (u64_mul (o_amount o) (o_price o) = Panics "attempt to multiply with overflow") as Hm.
    { unfold u64_mul. rewrite Hc. by destruct (Z.leb_spec (o_amount o * o_price o) U64_MAX); [lia|]. }
    by destruct Hside as [-> | ->]; cbn; rewrite Hm.
Qed.

End Swap.
End Swap.
