(* ===== verification/Config.v ===== *)
(** * Constants of main.rs and cli.rs *)

From Stdlib Require Import ZArith String.
From stdpp Require Import base strings.

Open Scope Z_scope.

(** main.rs; the fee rate 10.0 sat/vB is a whole number. *)
Definition FEE_RATE : Z := 10.
Definition ELECTRUM_URL_REGTEST : string := "127.0.0.1:50001".
Definition ELECTRUM_URL_TESTNET : string := "ssl://electrum.iriswallet.com:50013".
Definition PROXY_ENDPOINT_REGTEST : string := "rpc://127.0.0.1:3000/json-rpc".
Definition PROXY_URL_REGTEST : string := "http://127.0.0.1:3000/json-rpc".
Definition PROXY_ENDPOINT_TESTNET : string := "rpcs://proxy.iriswallet.com/json-rpc".
Definition PROXY_URL_TESTNET : string := "https://proxy.iriswallet.com/json-rpc".
Definition PROXY_TIMEOUT : Z := 90.
Definition UTXO_SIZE_SAT : Z := 32000.

(** cli.rs *)
Definition MIN_CREATE_UTXOS_SATS : Z := 10000.
Definition UTXO_NUM : Z := 4.
Definition OPENCHANNEL_MIN_SAT : Z := 5506.
Definition OPENCHANNEL_MAX_SAT : Z := 16777215.
Definition DUST_LIMIT_MSAT : Z := 546000.
Definition HTLC_MIN_MSAT : Z := 3000000.
Definition INVOICE_MIN_MSAT : Z := HTLC_MIN_MSAT.
