(* ===== verification/Json.v ===== *)
(** * serde_json values

    The part of serde_json the program reads replies with: indexing an object
    by a key and the conversions [as_str], [as_u64] and [as_f64].  serde_json
    documents that indexing anything but an object, or a missing key, gives
    [Null], and keeps integers of 64 bits apart from floats. *)

From Stdlib Require Import ZArith Lia Ascii String.
From stdpp Require Import base list strings.
From S2P Require Import Prelude RustStd Floats.

Open Scope Z_scope.

Inductive JsonNumber := PosInt (n : Z) | NegInt (n : Z) | Float (f : f64).

Inductive Json :=
| JNull
| JBool (b : bool)
| JNumber (n : JsonNumber)
| JString (s : string)
| JArray (l : list Json)
| JObject (fields : list (string * Json)).

Module Json.

(** [value[key]] *)
Definition index (key : string) (v : Json) : Json :=
  match v with
  | JObject fields =>
      match List.find (fun kv => String.eqb (fst kv) key) fields with
      | Some (_, v) => v
      | None => JNull
      end
  | _ => JNull
  end.

Definition is_null (v : Json) : bool := match v with JNull => true | _ => false end.
Definition as_str (v : Json) : option string := match v with JString s => Some s | _ => None end.
Definition as_u64 (v : Json) : option Z := match v with JNumber (PosInt n) => Some n | _ => None end.
Definition as_f64 (v : Json) : option f64 :=
  match v with
  | JNumber (PosInt n) | JNumber (NegInt n) => Some (f64_of_Z n)
  | JNumber (Float f) => Some f
  | _ => None
  end.

(** [serde_json::from_value::<Vec<String>>] *)
Definition string_list (v : Json) : option (list string) :=
  match v with JArray l => mapM as_str l | _ => None end.

End Json.
