(* ===== verification/World.v ===== *)
(** * The node's state, the outside world and the effect monad

    The program is glue around libraries: LDK, bdk, the RGB runtime, bitcoind
    and the operating system.  Every use of one of them is a [Call] that the
    [Oracle] answers, knowing the whole history; the history is the trace of
    [Event]s, in order.  What the program itself owns is the rest of
    [World]: its files, the payment tables, the trade tables and the tasks it
    has spawned.

    [M] is the monad the handlers are written in.  A handler returns, leaves
    early ([continue] in the command loop, [return] in the event handler) or
    panics; the crate is built with [panic = "abort"]. *)

From Stdlib Require Import ZArith Lia Ascii String.
From stdpp Require Import base list strings gmap.
From S2P Require Import Prelude RustStd Swap Json.

Open Scope Z_scope.

(** ** Types of the libraries *)

Class Types := {
  TypesProfile :: BuildProfile;
  TypesContractIds :: ContractIds;
  PublicKey : Type;
  PublicKey_eq_dec :: EqDecision PublicKey;
  PublicKey_countable :: Countable PublicKey;
  Txid : Type;
  Txid_eq_dec :: EqDecision Txid;
  SocketAddr : Type;
  Invoice : Type;
  (* bdk and rust-bitcoin *)
  Script : Type;
  Address : Type;
  Psbt : Type;
  Transaction : Type;
  (* RGB *)
  Opout : Type;
  TransitionBuilder : Type;
  GraphSeal : Type;
  SecretSeal : Type;
  Consignment : Type;
  RgbPsbt : Type;
  OpId : Type;
  Anchor : Type;
  Bundle : Type;
  (* the fields of a route hop that the program copies without looking *)
  HopRest : Type;
  (* signing *)
  Script_eq_dec :: EqDecision Script;
  SecretKey : Type;
  Signer : Type;
  Witness : Type
}.

(** 32-byte hashes, preimages, secrets and channel identifiers, and other byte
    strings. *)
Abbreviation bytes := (list Z).
Abbreviation PaymentHash := (list Z).

Inductive Network : Set := Bitcoin | Testnet | Regtest | Signet.
#[export] Instance Network_eq_dec : EqDecision Network.
Proof. solve_decision. Defined.

(** [std::io::Error]: one made from a message, or one of the system with its
    [Debug] text. *)
Inductive IoError : Set := Custom (message : string) | Os (debug : string).

(** [Debug]; and [into_inner] (or [get_ref]) with its text. *)
Definition io_error_debug (e : IoError) : string :=
  match e with
  | Custom message => "Custom { kind: Other, error: " +:+ dquote +:+ message +:+ dquote +:+ " }"
  | Os debug => debug
  end.
Definition into_inner (e : IoError) : option string :=
  match e with Custom message => Some message | Os _ => None end.

(** lightning::ln::msgs::NetAddress *)
Inductive NetAddress := NetIPv4 (addr : list Z) (port : Z) | NetIPv6 (addr : list Z) (port : Z).

(** The revealed and the other fungible assignments of a transition, as
    [SpendableOutputs] tells them apart. *)
Inductive FungibleAssign := AssignRevealed (seal_vout value : Z) | AssignOther.

(** The bundle of a witness transaction: for each item its transition, if
    known, as the list of its groups of assignments. *)
Abbreviation BundleItems := (list (option (list (list FungibleAssign)))).

Section Data.
Context `{Types}.

Record OutPoint := { txid : Txid; vout : Z }.
#[export] Instance OutPoint_eq_dec : EqDecision OutPoint.
Proof. solve_decision. Defined.

(** lightning::rgb_utils::{RgbUtxo, RgbInfo}; a file [rgb_utxos] holds a list. *)
Record RgbUtxo := { outpoint : OutPoint; colored : bool }.
#[export] Instance RgbUtxo_eq_dec : EqDecision RgbUtxo.
Proof. solve_decision. Defined.

Record RgbInfo := {
  contract_id : ContractId;
  local_rgb_amount : Z;
  remote_rgb_amount : Z
}.

(** bdk::LocalUtxo *)
Record LocalUtxo := { lu_outpoint : OutPoint; lu_value : Z }.

(** One fungible output of a contract's history. *)
Record FungibleOutput := { fo_opout : Opout; fo_seal : OutPoint; fo_value : Z }.

Inductive BuilderSeal := Revealed (s : GraphSeal) | Concealed (s : SecretSeal).

(** bdk::blockchain::ElectrumBlockchainConfig *)
Record ElectrumConfig := {
  ec_url : string; ec_socks5 : option string; ec_retry : Z; ec_timeout : option Z;
  ec_stop_gap : Z; ec_validate_domain : bool
}.

(** The calls made on a bdk transaction builder before [finish]. *)
Record TxRequest := {
  tr_utxos : list OutPoint;
  tr_unspendable : list OutPoint;
  tr_fee_rate : Z;
  tr_untouched : bool;
  tr_recipients : list (Script * Z);
  tr_drain_to : option Script;
  tr_data : option bytes;
  tr_manually_selected_only : bool
}.

(** lightning::rgb_utils::TransferInfo *)
Record TransferInfo := {
  ti_contract_id : ContractId; ti_anchor : Anchor; ti_bundles : list (ContractId * Bundle);
  ti_vout : Z
}.

(** A transaction the program builds itself. *)
Record SpendTx := {
  st_version : Z; st_lock_time : Z;
  st_inputs : list (OutPoint * Z); st_outputs : list (Z * Script)
}.

(** lightning::chain::keysinterface::SpendableOutputDescriptor *)
Inductive SpendableOutputDescriptor :=
| StaticPaymentOutput (op : OutPoint) (channel_value_satoshis : Z) (channel_keys_id : bytes)
| DelayedPaymentOutput (op : OutPoint) (to_self_delay output_value channel_value_satoshis : Z)
    (channel_keys_id : bytes)
| StaticOutput (op : OutPoint) (output_script_pubkey : Script).

(** The fields of lightning's [ChannelDetails] that the program reads. *)
Record ForwardingInfo := {
  fee_base_msat : Z; fee_proportional_millionths : Z; fi_cltv_expiry_delta : Z
}.
Record ChannelDetails := {
  channel_id : bytes;
  counterparty : PublicKey;
  forwarding_info : option ForwardingInfo;
  funding_txid : option Txid;
  short_channel_id : option Z;
  channel_value_satoshis : Z;
  balance_msat : Z;
  outbound_capacity_msat : Z;
  inbound_capacity_msat : Z;
  is_channel_ready : bool;
  is_usable : bool;
  is_public : bool
}.

(** Routes. *)
Record RouteHop := {
  hop_rest : HopRest;
  hop_short_channel_id : Z;
  fee_msat : Z;
  rgb_amount : option Z;
  payment_amount : Z
}.
Record RouteHintHop := {
  src_node_id : PublicKey;
  rh_short_channel_id : Z;
  rh_cltv_expiry_delta : Z;
  rh_base_msat : Z;
  rh_proportional_millionths : Z
}.
(** [PaymentParameters] and [RouteParameters] of a route request. *)
Record RouteRequest := {
  rr_start : PublicKey;
  rr_payee : PublicKey;
  rr_hints : list RouteHintHop;
  rr_max_path_count : Z;
  rr_saturation_power_of_half : Z;
  rr_final_cltv_expiry_delta : Z;
  rr_final_value_msat : Z;
  rr_asset_id : option ContractId
}.
(** The path of a route and the keysend parameters (payee, final CLTV). *)
Record Route := {
  route_paths : list (list RouteHop);
  route_keysend : option (PublicKey * Z)
}.

(** proxy.rs: [JsonRpcError] and [JsonRpcResponse]. *)
Record JsonRpcError := { code : Z; message : string }.
Record JsonRpcResponse (R : Type) := {
  rpc_id : option string;
  rpc_result : option R;
  rpc_error : option JsonRpcError
}.

(** The handshake configuration [open_channel] overrides. *)
Record ChannelConfig := {
  cc_their_to_self_delay : Z;
  cc_announced_channel : bool;
  cc_our_htlc_minimum_msat : Z
}.

Inductive Currency := CurBitcoin | CurBitcoinTestnet | CurRegtest | CurSignet.

(** ** Calls to the outside world *)

Inductive Call : Type -> Type :=
(* operating system *)
| CNow : Call Z
| CFsWrite (path content : string) : Call bool
| CFsAppend (path content : string) : Call bool
| CFsRemove (path : string) : Call bool
| CPathExists (path : string) : Call bool
| CResolve (host : string) : Call (option (list SocketAddr))
| CGenRange (low high : Z) : Call Z
| CSleepMs (ms : Z) : Call unit
(* the flags and futures other tasks set *)
| CStopRequested : Call bool
(* bdk wallet and electrum *)
| CElectrumConnect (config : ElectrumConfig) : Call bool
| CWalletSync : Call bool
| CBroadcast (tx : Transaction) : Call bool
| CListUnspent : Call (option (list LocalUtxo))
| CGetBalanceTotal : Call (option Z)
| CGetAddress : Call (option Address)
| CAddUtxos (utxos : list OutPoint) : Call bool
| CFinishTx (req : TxRequest) : Call (option Psbt)
| CSignPsbt (psbt : Psbt) : Call (option Psbt)
(* a bdk wallet on one key, at its own path *)
| CCreateDirAll (path : string) : Call bool
| COpenDatabase (path : string) : Call bool
| CKeyWalletNew (path : string) (key : SecretKey) : Call bool
| CKeyWalletSync (key : SecretKey) : Call bool
| CKeyWalletAddUtxos (key : SecretKey) (utxos : list OutPoint) : Call bool
| CKeyWalletFinish (key : SecretKey) (req : TxRequest) : Call (option Psbt)
| CKeyWalletSign (key : SecretKey) (psbt : Psbt) : Call (option Psbt)
(* RGB runtime *)
| CGetRuntime : Call unit
| CDropRuntime : Call unit
| CFungibles (cid : ContractId) : Call (option (list FungibleOutput))
| CIssueContract (amount : Z) (op : OutPoint) (ticker name : string) (precision : Z)
    (created : Z) : Call (option ContractId)
| CTransitionBuilder (cid : ContractId) : Call (option TransitionBuilder)
| CAssignmentsType (b : TransitionBuilder) : Call (option Z)
| CAddRawState (static : bool) (b : TransitionBuilder) (assignment_id : Z)
    (seal : BuilderSeal) (amount : Z) : Call (option TransitionBuilder)
| CGraphSealFrom (op : OutPoint) : Call GraphSeal
| CStoreSealSecret (s : GraphSeal) : Call bool
| CRgbPsbt (psbt : Psbt) : Call (option RgbPsbt)
| CStateForOutpoints (cid : ContractId) (ops : list OutPoint) : Call (option (list Opout))
| CAddInput (b : TransitionBuilder) (o : Opout) : Call (option TransitionBuilder)
| CCompleteTransition (b : TransitionBuilder) (cid : ContractId) : Call (option OpId)
| CContractsByOutpoint (op : OutPoint) : Call (option (list ContractId))
| CSetRgbConsumer (p : RgbPsbt) (index : nat) (cid : ContractId) (t : OpId) : Call (option RgbPsbt)
| CPushTransition (p : RgbPsbt) (t : OpId) : Call (option RgbPsbt)
| CRgbBundles (p : RgbPsbt) : Call (option (list (ContractId * Bundle)))
| CSetOpretHost (p : RgbPsbt) (index : nat) : Call (option RgbPsbt)
| CBundleToLnpbp4 (p : RgbPsbt) : Call (option RgbPsbt)
| CDbcConclude (p : RgbPsbt) : Call (option (Anchor * RgbPsbt))
| CConsumeAnchor (a : Anchor) : Call bool
| CConsumeBundle (cid : ContractId) (b : Bundle) (t : Txid) : Call bool
| CTransfer (cid : ContractId) (beneficiaries : list BuilderSeal) (t : Txid) : Call (option Consignment)
| CPsbtOfRgb (p : RgbPsbt) : Call (option Psbt)
| CSaveConsignment (c : Consignment) (path : string) : Call bool
| CLoadConsignment (path : string) : Call (option Consignment)
| CImportMinimalContract (c : Consignment) : Call bool
| CValidate (c : Consignment) : Call bool
| CValidity (c : Consignment) : Call (option bool)
| CAcceptTransfer (c : Consignment) : Call (option bool)
(* RGB proxy *)
| CFileOpen (path : string) : Call (result unit string)
| CHttpPostMultipart (url : string) (fields : list (string * string)) (file_name : string) :
    Call (result (JsonRpcResponse bool) string)
| CHttpPostJson (url : string) (method jsonrpc : string) (id params : option string) :
    Call (result (JsonRpcResponse string) string)
(* the channel files of the modified rust-lightning *)
| CIsChannelRgb (id : bytes) : Call bool
| CIsTransferColored (path : string) : Call bool
| CReadTransferInfo (path : string) : Call TransferInfo
| CGetRgbChannelInfo (id : bytes) : Call RgbInfo
| CWriteRgbChannelInfo (path : string) (info : RgbInfo) : Call unit
| CWriteRgbPaymentInfo (h : PaymentHash) (cid : ContractId) (amt : Z) (override : option Z) : Call unit
(* LDK *)
| CFailIntercepted (intercept_id : bytes) : Call (result unit string)
| CForwardIntercepted (intercept_id : bytes) (scid amt_msat : Z) (amt_rgb : option Z) :
    Call (result unit string)
| CListChannels : Call (list ChannelDetails)
| CListUsableChannels : Call (list ChannelDetails)
| CCreateInboundPayment (amt_msat : option Z) (timeout_secs : Z) : Call (result (PaymentHash * bytes) string)
| CGetPaymentPreimage (h : PaymentHash) (secret : bytes) : Call (result bytes string)
| CFindRoute (req : RouteRequest) : Call (option Route)
| CSendSpontaneous (route : Route) (preimage : bytes) (payment_id : bytes) : Call (result bytes string)
| CSendSpontaneousRetry (preimage : bytes) (payment_id : bytes) (payee : PublicKey)
    (final_cltv final_value_msat retry_secs : Z) : Call (result bytes string)
| CPayInvoice (inv : Invoice) (retry_secs : Z) : Call (result bytes string)
| CCreateInvoice (currency : Currency) (amt_msat : option Z) (description : string) (expiry_secs : Z)
    (cid : option ContractId) (amt_rgb : option Z) : Call (result Invoice string)
| CInvoiceExpired (inv : Invoice) : Call bool
| CSecureRandomBytes : Call bytes
| CCreateChannel (peer : PublicKey) (sat push_msat user_id : Z) (config : ChannelConfig)
    (endpoint : option string) : Call (result bytes string)
| CCloseChannel (id : bytes) (peer : PublicKey) : Call (result unit string)
| CForceCloseChannel (id : bytes) (peer : PublicKey) : Call (result unit string)
| CClaimFunds (preimage : bytes) : Call unit
| CFundingGenerated (temporary_id : bytes) (peer : PublicKey) (tx : Transaction) : Call (result unit string)
| CProcessForwards : Call unit
| CPeerIds : Call (list PublicKey)
| CConnectOutbound (pk : PublicKey) (addr : SocketAddr) : Call bool
| CConnectionClosed (pk : PublicKey) : Call bool
| CDisconnect (pk : PublicKey) : Call unit
| CNodeAlias (pk : PublicKey) : Call (option (option string))
| CSendOnion (hops : list PublicKey) (dest : PublicKey) (tlv_type : Z) (data : bytes) : Call (result unit string)
| CSignMessage (msg : bytes) : Call (result string string)
(* bitcoind *)
| CRpcConnect (host : string) (port : Z) (credentials : string) : Call (result unit string)
| CRpc (method : string) (params : list Json) : Call (result Json IoError)
| CSendRawTransaction (tx_hex : string) : Call (result unit IoError)
(* the terminal, the clock, the environment and files of other programs *)
| CReadLine : Call (result string string)
| CUtcNow : Call string
| CEnvVar (name : string) : Call (option string)
| CHomeDir : Call (option string)
| CReadFile (path : string) : Call (option string)
| CReadBytes (path : string) : Call (option bytes)
| CFillBytes (count : Z) : Call bytes
| CFileCreate (path : string) : Call (result unit string)
| CFileWriteAll (path : string) (b : bytes) : Call bool
| CFileSync (path : string) : Call bool
(* startup and shutdown *)
| CSchemasEmpty : Call (option bool)
| CImportIface : Call bool
| CImportSchema : Call bool
| CImportIfaceImpl : Call bool
| CRestClient (timeout_secs : Z) : Call bool
| CKeysManager (seed : bytes) : Call unit
| CWalletNew (descriptor change_descriptor : string) : Call bool
| CReadMonitors : Call (option nat)
| CBestBlock : Call bool
| CReadGraph (path : string) : Call bool
| CReadScorer (path : string) : Call bool
| CManagerFile (path : string) : Call bool
| CReadManager : Call bool
| CFreshManager : Call unit
| CSynchronize (listeners : nat) : Call bool
| CWatchChannel (index : nat) : Call bool
| CBroadcastAnnouncement (alias : bytes) (addrs : list NetAddress) : Call unit
| CDisconnectAll : Call unit
| CStopBackground : Call bool
(* the listener of peers and the poller of blocks *)
| CListen (addr : string) : Call bool
| CAccept : Call (option nat)
| CIntoStd (stream : nat) : Call bool
| CSetupInbound (stream : nat) : Call unit
| CPollBestTip : Call bool
| CHttpGetPrice (url : string) : Call (result string string).

(** What happened: text printed on the terminal, or a call with its answer. *)
Inductive Event :=
| Print (s : string)
| Ev {R : Type} (c : Call R) (r : R).

(** ** The program's own state *)

Inductive HTLCStatus : Set := Pending | Succeeded | Failed.
#[export] Instance HTLCStatus_eq_dec : EqDecision HTLCStatus.
Proof. solve_decision. Defined.

Record PaymentInfo := {
  preimage : option bytes;
  secret : option bytes;
  status : HTLCStatus;
  amt_msat : option Z
}.

(** A task given to [tokio::spawn], not yet run. *)
Inductive Task :=
| TForwardHtlcs (min : Z)
| TFunding (temporary_channel_id : bytes) (counterparty_node_id : PublicKey)
    (funding_tx : Transaction) (colored : option (Consignment * string))
| TBroadcast (tx : Transaction)
| TInbound (stream : nat).

Record World := {
  fs : gmap string string;
  inbound_payments : gmap PaymentHash PaymentInfo;
  outbound_payments : gmap PaymentHash PaymentInfo;
  whitelisted_trades : gmap PaymentHash (ContractId * Swap.SwapType);
  maker_trades : gmap PaymentHash (ContractId * Swap.SwapType);
  tasks : list Task;
  trace : list Event
}.

End Data.

Arguments rpc_id {R}.
Arguments rpc_result {R}.
Arguments rpc_error {R}.

(** ** Functions of the libraries that have no effect *)

Class Externals `{Types} := {
  pk_from_slice : bytes -> option PublicKey;
  pk_from_str : string -> result PublicKey string;
  pk_serialize : PublicKey -> bytes;
  pk_to_string : PublicKey -> string;
  our_node_id : PublicKey;
  txid_to_string : Txid -> string;
  sha256 : bytes -> bytes;
  is_swap_scid : Z;
  (* serde *)
  utxos_to_json : list RgbUtxo -> string;
  utxos_from_json : string -> option (list RgbUtxo);
  blinded_to_json : option ContractId -> GraphSeal -> bool -> string;
  blinded_from_json : string -> option (option ContractId * GraphSeal * bool);
  blinded_param_to_json : string -> string;
  base64_decode : string -> option string;
  (* invoices *)
  invoice_from_str : string -> result Invoice string;
  invoice_to_string : Invoice -> string;
  invoice_amount_msat : Invoice -> option Z;
  invoice_payment_hash : Invoice -> PaymentHash;
  invoice_payment_secret : Invoice -> bytes;
  invoice_rgb_contract_id : Invoice -> option ContractId;
  invoice_rgb_amount : Invoice -> option Z;
  invoice_payee : Invoice -> PublicKey;
  (* bdk, rust-bitcoin, RGB *)
  address_to_string : Address -> string;
  script_pubkey : Address -> Script;
  witness_script : bytes -> Network -> option Script;
  extract_tx : Psbt -> Transaction;
  tx_txid : Transaction -> Txid;
  psbt_op_returns : Psbt -> list bool;
  rgb_psbt_inputs : RgbPsbt -> list OutPoint;
  rgb_psbt_op_returns : RgbPsbt -> list bool;
  rgb_psbt_txid : RgbPsbt -> Txid;
  opout_compare : Opout -> Opout -> comparison;
  seal_with_vout : Z -> GraphSeal;
  conceal : GraphSeal -> SecretSeal;
  secret_seal_to_string : SecretSeal -> string;
  secret_seal_from_str : string -> option SecretSeal;
  valid_ticker : string -> bool;
  valid_name : string -> bool;
  valid_precision : Z -> bool;
  valid_transport : string -> bool;
  (* Debug output *)
  cid_debug : ContractId -> string;
  local_utxo_debug : LocalUtxo -> string;
  (* the command line and the process environment *)
  ldk_data_dir : string;
  network : Network;
  electrum_url : string;
  proxy_url : string;
  proxy_endpoint : string;
  (* sweeping *)
  anchored_bundles : Consignment -> list (Txid * BundleItems);
  derive_channel_keys : Z -> bytes -> Signer;
  payment_key : Signer -> SecretKey;
  ckd_priv_hardened : Z -> option SecretKey;
  destination_script : Script;
  op_return_script : bytes -> Script;
  max_witness_length : Z;
  maybe_add_change_output : SpendTx -> Z -> Z -> Z -> Script -> option SpendTx;
  psbt_from_unsigned : SpendTx -> option Psbt;
  sign_dynamic_p2wsh_input : Transaction -> nat -> SpendableOutputDescriptor -> Signer -> option Witness;
  set_witness : Transaction -> nat -> Witness -> Transaction;
  (* startup and bitcoind *)
  env_args : list string;
  serialize_hex : Transaction -> string;
  address_from_str : string -> option Address;
  block_hash_from_hex : string -> option bytes;
  base64_encode : string -> string;
  ldk_seed_of : bytes -> option bytes;
  master_key_string : string;
  rgb_chain_display : Network -> string;
  package_name : string;
  package_version : string
}.

Class Oracle `{Types} := { answer : list Event -> forall R : Type, Call R -> R }.

(** serde's documented behaviour: what is serialized reads back. *)
Class SerdeLaws `{Externals} : Prop := {
  utxos_json_roundtrip : forall l, utxos_from_json (utxos_to_json l) = Some l;
  blinded_json_roundtrip : forall c s b, blinded_from_json (blinded_to_json c s b) = Some (c, s, b)
}.
