(* ===== verification/Effects.v ===== *)
(** * The effect monad and its reasoning principles

    [M A] is a computation on the [World] that returns, leaves early, panics or
    is still waiting.  The second half is the library the components' proofs use:
    equations to run a computation, and [Preserves R m] - whatever the outside
    world answers, [m] relates its initial and final worlds by the preorder
    [R] - with structural rules and the tactic [pres] that applies them. *)

From Stdlib Require Import ZArith Lia Ascii String.
From stdpp Require Import base list strings gmap.
From S2P Require Import Prelude RustStd Swap World.

Open Scope Z_scope.

Section Monad.
Context `{T : Types} {X : @Externals T} {O : @Oracle T}.

Inductive outcome (A : Type) : Type :=
| Ret (a : A) (w : World)
| Exit (w : World)
| Panic (msg : string) (w : World)
(* an [await] is still pending after the polls it was given: what comes after
   it has not run *)
| Waits (w : World).
Arguments Ret {A}. Arguments Exit {A}. Arguments Panic {A}. Arguments Waits {A}.

Definition M (A : Type) : Type := World -> outcome A.

Definition ret {A} (a : A) : M A := fun w => Ret a w.
Definition bind {A B} (m : M A) (k : A -> M B) : M B := fun w =>
  match m w with
  | Ret a w => k a w
  | Exit w => Exit w
  | Panic msg w => Panic msg w
  | Waits w => Waits w
  end.

(** [continue] in the command loop, [return] in a handler. *)
Definition leave {A} : M A := fun w => Exit w.
Definition panic {A} (msg : string) : M A := fun w => Panic msg w.
Definition wait {A} : M A := fun w => Waits w.

(** The end of the scope an early exit leaves. *)
Definition scope (m : M unit) : M unit := fun w =>
  match m w with Exit w => Ret tt w | o => o end.

Definition lift {A} (c : comp A) : M A :=
  match c with Done a => ret a | Panics msg => panic msg end.

Definition log (e : Event) (w : World) : World :=
  {| fs := fs w; inbound_payments := inbound_payments w;
     outbound_payments := outbound_payments w;
     whitelisted_trades := whitelisted_trades w; maker_trades := maker_trades w;
     tasks := tasks w; trace := trace w ++ [e] |}.

Definition emit (e : Event) : M unit := fun w => Ret tt (log e w).
Definition call {R} (c : Call R) : M R := fun w =>
  let r := answer (trace w) R c in Ret r (log (Ev c r) w).

Definition print (s : string) : M unit := emit (Print s).
Definition println (s : string) : M unit := print (s +:+ nl).

Definition gets {A} (f : World -> A) : M A := fun w => Ret (f w) w.
Definition modify (f : World -> World) : M unit := fun w => Ret tt (f w).

Definition upd_fs (f : gmap string string -> gmap string string) (w : World) : World :=
  {| fs := f (fs w); inbound_payments := inbound_payments w;
     outbound_payments := outbound_payments w;
     whitelisted_trades := whitelisted_trades w; maker_trades := maker_trades w;
     tasks := tasks w; trace := trace w |}.
Definition upd_inbound (f : gmap PaymentHash PaymentInfo -> gmap PaymentHash PaymentInfo)
    (w : World) : World :=
  {| fs := fs w; inbound_payments := f (inbound_payments w);
     outbound_payments := outbound_payments w;
     whitelisted_trades := whitelisted_trades w; maker_trades := maker_trades w;
     tasks := tasks w; trace := trace w |}.
Definition upd_outbound (f : gmap PaymentHash PaymentInfo -> gmap PaymentHash PaymentInfo)
    (w : World) : World :=
  {| fs := fs w; inbound_payments := inbound_payments w;
     outbound_payments := f (outbound_payments w);
     whitelisted_trades := whitelisted_trades w; maker_trades := maker_trades w;
     tasks := tasks w; trace := trace w |}.
Definition upd_whitelisted
    (f : gmap PaymentHash (ContractId * Swap.SwapType) -> gmap PaymentHash (ContractId * Swap.SwapType))
    (w : World) : World :=
  {| fs := fs w; inbound_payments := inbound_payments w;
     outbound_payments := outbound_payments w;
     whitelisted_trades := f (whitelisted_trades w); maker_trades := maker_trades w;
     tasks := tasks w; trace := trace w |}.
Definition upd_maker
    (f : gmap PaymentHash (ContractId * Swap.SwapType) -> gmap PaymentHash (ContractId * Swap.SwapType))
    (w : World) : World :=
  {| fs := fs w; inbound_payments := inbound_payments w;
     outbound_payments := outbound_payments w;
     whitelisted_trades := whitelisted_trades w; maker_trades := f (maker_trades w);
     tasks := tasks w; trace := trace w |}.
Definition upd_tasks (f : list Task -> list Task) (w : World) : World :=
  {| fs := fs w; inbound_payments := inbound_payments w;
     outbound_payments := outbound_payments w;
     whitelisted_trades := whitelisted_trades w; maker_trades := maker_trades w;
     tasks := f (tasks w); trace := trace w |}.

(** [tokio::spawn] *)
Definition spawn (t : Task) : M unit := modify (upd_tasks (fun l => l ++ [t])).

(** [std::fs] on the files the program itself writes. *)
Definition fs_read (path : string) : M (option string) := gets (fun w => fs w !! path).
Definition fs_write (path content : string) : M bool :=
  bind (call (CFsWrite path content)) (fun b =>
  if b then bind (modify (upd_fs (<[path := content]>))) (fun _ => ret true) else ret false).
Definition fs_append (path content : string) : M bool :=
  bind (call (CFsAppend path content)) (fun b =>
  if b then bind (modify (upd_fs (fun m => <[path := default EmptyString (m !! path) +:+ content]> m)))
                 (fun _ => ret true)
  else ret false).
Definition fs_remove (path : string) : M bool :=
  bind (call (CFsRemove path)) (fun b =>
  if b then bind (modify (upd_fs (delete path))) (fun _ => ret true) else ret false).

Definition expect {A} (msg : string) (o : option A) : M A := lift (expect_some msg o).
Definition expect_true (msg : string) (b : bool) : M unit := if b then ret tt else panic msg.
Definition expect_result {A E} (msg : string) (r : result A E) : M A := lift (expect_ok msg r).

Fixpoint for_each {A} (l : list A) (body : A -> M unit) : M unit :=
  match l with
  | [] => ret tt
  | x :: l => bind (body x) (fun _ => for_each l body)
  end.

(** A loop that builds a value, [expect]ing at each step. *)
Fixpoint fold_m {A S} (l : list A) (s : S) (body : S -> A -> M S) : M S :=
  match l with
  | [] => ret s
  | x :: l => bind (body s x) (fun s => fold_m l s body)
  end.

Definition final {A} (o : outcome A) : World :=
  match o with Ret _ w | Exit w | Panic _ w | Waits w => w end.

Definition returns {A} (o : outcome A) : bool :=
  match o with Ret _ _ => true | _ => false end.
Definition waits {A} (o : outcome A) : bool :=
  match o with Waits _ => true | _ => false end.
Definition panicked {A} (o : outcome A) : bool :=
  match o with Panic _ _ => true | _ => false end.

(** What a computation adds to the trace. *)
Definition emitted {A} (m : M A) (w : World) : list Event :=
  drop (length (trace w)) (trace (final (m w))).

End Monad.

Arguments Ret {T A}. Arguments Exit {T A}. Arguments Panic {T A}. Arguments Waits {T A}.

Declare Scope m_scope.
Delimit Scope m_scope with m.
Bind Scope m_scope with M.
Notation "'let!' x ':=' m 'in' k" := (bind m (fun x => k))
  (at level 10, x pattern, m at level 100, k at level 200) : m_scope.
Notation "m ';;;' k" := (bind m (fun _ => k)) (at level 100, right associativity) : m_scope.

(** ** Running a computation *)

Section Run.
Context `{T : Types} {X : @Externals T} {O : @Oracle T}.

Lemma run_ret {A} (a : A) w : ret a w = Ret a w.
Proof. done. Qed.
Lemma run_leave {A} w : @leave _ A w = Exit w.
Proof. done. Qed.
Lemma run_panic {A} msg w : @panic _ A msg w = Panic msg w.
Proof. done. Qed.
Lemma run_wait {A} w : @wait _ A w = Waits w.
Proof. done. Qed.
Lemma run_call {R} (c : Call R) w :
  call c w = Ret (answer (trace w) R c) (log (Ev c (answer (trace w) R c)) w).
Proof. done. Qed.
Lemma run_print s w : print s w = Ret tt (log (Print s) w).
Proof. done. Qed.
Lemma run_println s w : println s w = Ret tt (log (Print (s +:+ nl)) w).
Proof. done. Qed.
Lemma run_gets {A} (f : World -> A) w : gets f w = Ret (f w) w.
Proof. done. Qed.
Lemma run_modify f w : modify f w = Ret tt (f w).
Proof. done. Qed.
Lemma run_lift {A} (c : comp A) w :
  lift c w = match c with Done a => Ret a w | Panics msg => Panic msg w end.
Proof. by destruct c. Qed.
Lemma run_expect {A} msg (o : option A) w :
  expect msg o w = match o with Some a => Ret a w | None => Panic msg w end.
Proof. by destruct o. Qed.
Lemma run_expect_true msg b w :
  expect_true msg b w = if b then Ret tt w else Panic msg w.
Proof. by destruct b. Qed.
Lemma run_expect_result {A E} msg (r : result A E) w :
  expect_result msg r w = match r with Ok a => Ret a w | Err _ => Panic msg w end.
Proof. by destruct r. Qed.

Lemma bind_ret {A B} (a : A) (k : A -> M B) w : bind (ret a) k w = k a w.
Proof. done. Qed.
Lemma bind_leave {A B} (k : A -> M B) w : bind leave k w = Exit w.
Proof. done. Qed.
Lemma bind_panic {A B} msg (k : A -> M B) w : bind (panic msg) k w = Panic msg w.
Proof. done. Qed.
Lemma bind_wait {A B} (k : A -> M B) w : bind wait k w = Waits w.
Proof. done. Qed.
Lemma bind_assoc {A B C} (m : M A) (k : A -> M B) (h : B -> M C) w :
  bind (bind m k) h w = bind m (fun a => bind (k a) h) w.
Proof. unfold bind. by destruct (m w). Qed.
Lemma bind_call {R B} (c : Call R) (k : R -> M B) w :
  bind (call c) k w = k (answer (trace w) R c) (log (Ev c (answer (trace w) R c)) w).
Proof. done. Qed.
Lemma bind_print {B} s (k : unit -> M B) w : bind (print s) k w = k tt (log (Print s) w).
Proof. done. Qed.
Lemma bind_println {B} s (k : unit -> M B) w :
  bind (println s) k w = k tt (log (Print (s +:+ nl)) w).
Proof. done. Qed.
Lemma bind_gets {A B} (f : World -> A) (k : A -> M B) w : bind (gets f) k w = k (f w) w.
Proof. done. Qed.
Lemma bind_modify {B} f (k : unit -> M B) w : bind (modify f) k w = k tt (f w).
Proof. done. Qed.
Lemma bind_lift {A B} (c : comp A) (k : A -> M B) w :
  bind (lift c) k w = match c with Done a => k a w | Panics msg => Panic msg w end.
Proof. by destruct c. Qed.
Lemma bind_expect {A B} msg (o : option A) (k : A -> M B) w :
  bind (expect msg o) k w = match o with Some a => k a w | None => Panic msg w end.
Proof. by destruct o. Qed.
Lemma bind_expect_true {B} msg b (k : unit -> M B) w :
  bind (expect_true msg b) k w = if b then k tt w else Panic msg w.
Proof. by destruct b. Qed.
Lemma bind_expect_result {A E B} msg (r : result A E) (k : A -> M B) w :
  bind (expect_result msg r) k w = match r with Ok a => k a w | Err _ => Panic msg w end.
Proof. by destruct r. Qed.

Lemma for_each_nil {A} (body : A -> M unit) w : for_each [] body w = Ret tt w.
Proof. done. Qed.
Lemma for_each_app {A} (l1 l2 : list A) (body : A -> M unit) w :
  for_each (l1 ++ l2) body w = bind (for_each l1 body) (fun _ => for_each l2 body) w.
Proof.
  revert w. induction l1 as [|x l1 IH]; intros w; [done|].
  simpl. rewrite bind_assoc. unfold bind at 1 2. destruct (body x w) as [[] w'|w'|msg w'|w']; [apply IH|done..].
Qed.
(** Elements whose body does nothing are skipped. *)
Lemma for_each_skip {A} (l : list A) (body : A -> M unit) w :
  (forall x, x ∈ l -> body x = ret tt) -> for_each l body w = Ret tt w.
Proof.
  induction l as [|x l IH]; intros Hb; [done|]. simpl. rewrite Hb by constructor.
  rewrite bind_ret. apply IH. intros y Hy. apply Hb. by constructor.
Qed.

End Run.

Create Rewrite HintDb mrun.
#[export] Hint Rewrite @run_ret @run_leave @run_panic @run_wait @run_call @run_print @run_println @run_gets
  @run_modify @run_lift @run_expect @run_expect_true @run_expect_result @bind_ret @bind_leave @bind_panic @bind_wait @bind_assoc @bind_call @bind_print
  @bind_println @bind_gets @bind_modify @bind_lift @bind_expect @bind_expect_true
  @bind_expect_result : mrun.

(** Unfold nothing, run everything that is in head position. *)
Ltac mrun := repeat (autorewrite with mrun; cbn beta iota).

Ltac mrun_in H := repeat (autorewrite with mrun in H; cbn beta iota in H).

(** Case analysis on what the computation at the head of [H : m w = o]
    inspects next; [msolve_in] follows every path of [H], dropping those that
    contradict the outcome [o]. *)
Ltac mcase_in H :=
  match type of H with
  | bind (match ?x with _ => _ end) _ _ = _ => destruct x eqn:?
  | (match ?x with _ => _ end) _ = _ => destruct x eqn:?
  | (match ?x with _ => _ end) = _ => destruct x eqn:?
  end.
Ltac msolve_in H := mrun_in H; repeat (first [discriminate H | mcase_in H]; mrun_in H).

(** The same on the goal. *)
Ltac mcase :=
  match goal with
  | |- context [bind (match ?x with _ => _ end) _ _] => destruct x eqn:?
  | |- context [(match ?x with _ => _ end) _] => destruct x eqn:?
  end.

Section Inversion.
Context `{T : Types} {X : @Externals T} {O : @Oracle T}.
Lemma bind_Ret_inv {A B} (m : M A) (k : A -> M B) w b w' :
  bind m k w = Ret b w' -> exists a w1, m w = Ret a w1 /\ k a w1 = Ret b w'.
Proof. unfold bind. destruct (m w) as [a w1|?|? ?|?]; intros Hb; [eauto|done..]. Qed.
Lemma bind_eq_Ret {A B} (m : M A) (k : A -> M B) w a w1 :
  m w = Ret a w1 -> bind m k w = k a w1.
Proof. intros Hm. unfold bind. by rewrite Hm. Qed.
Lemma bind_eq_Exit {A B} (m : M A) (k : A -> M B) w w1 :
  m w = Exit w1 -> bind m k w = Exit w1.
Proof. intros Hm. unfold bind. by rewrite Hm. Qed.
Lemma bind_eq_Panic {A B} (m : M A) (k : A -> M B) w msg w1 :
  m w = Panic msg w1 -> bind m k w = Panic msg w1.
Proof. intros Hm. unfold bind. by rewrite Hm. Qed.

Lemma bind_Waits_inv {A B} (m : M A) (k : A -> M B) w w' :
  bind m k w = Waits w' -> m w = Waits w' \/ exists a w1, m w = Ret a w1 /\ k a w1 = Waits w'.
Proof. unfold bind. destruct (m w) as [a w1|?|? ?|?]; intros Hb; [right; eauto|done..|left; congruence]. Qed.

Lemma bind_eq_Waits {A B} (m : M A) (k : A -> M B) w w1 :
  m w = Waits w1 -> bind m k w = Waits w1.
Proof. intros Hm. unfold bind. by rewrite Hm. Qed.

Lemma trace_log e w : trace (log e w) = trace w ++ [e].
Proof. done. Qed.

Lemma bind_Exit_inv {A B} (m : M A) (k : A -> M B) w w' :
  bind m k w = Exit w' -> m w = Exit w' \/ exists a w1, m w = Ret a w1 /\ k a w1 = Exit w'.
Proof. unfold bind. destruct (m w) as [a w1|?|? ?|?]; intros Hb; [right; eauto|left; congruence|done..]. Qed.
Lemma scope_Ret_inv m w w' :
  scope m w = Ret tt w' -> m w = Ret tt w' \/ m w = Exit w'.
Proof. unfold scope. destruct (m w) as [[] w1|w1|msg w1|w1]; intros Hs; [by left|right; congruence|done..]. Qed.

(** The trace only grows, so what was emitted is the new suffix. *)
Lemma emitted_app {A} (m : M A) w new :
  trace (final (m w)) = trace w ++ new -> emitted m w = new.
Proof. intros Ht. unfold emitted. by rewrite Ht, drop_app_length. Qed.
End Inversion.

(** ** Preserved relations *)

Section Preserves.
Context `{T : Types} {X : @Externals T} {O : @Oracle T}.

Definition Preserves (R : World -> World -> Prop) {A} (m : M A) : Prop :=
  forall w, R w (final (m w)).

(** A component of the world stays what it was. *)
Definition keeps {B} (f : World -> B) : World -> World -> Prop := fun w w' => f w' = f w.

(** Only events that satisfy [P] are appended to the trace. *)
Definition grows (P : Event -> Prop) : World -> World -> Prop := fun w w' =>
  exists new, trace w' = trace w ++ new /\ Forall P new.

#[export] Instance keeps_preorder {B} (f : World -> B) : PreOrder (keeps f).
Proof. split; unfold keeps; [by intros ?|intros ? ? ? ? ?; congruence]. Qed.

#[export] Instance grows_preorder P : PreOrder (grows P).
Proof.
  split; unfold grows.
  - intros w. exists []. by rewrite app_nil_r.
  - intros w1 w2 w3 (n1 & Ht1 & Hf1) (n2 & Ht2 & Hf2).
    exists (n1 ++ n2). rewrite Ht2, Ht1, app_assoc. auto using Forall_app_2.
Qed.

Section Rules.
Context (R : World -> World -> Prop) `{!PreOrder R}.

Lemma pres_ret {A} (a : A) : Preserves R (ret a).
Proof. intros w. apply PreOrder_Reflexive. Qed.
Lemma pres_leave {A} : Preserves R (@leave _ A).
Proof. intros w. apply PreOrder_Reflexive. Qed.
Lemma pres_panic {A} msg : Preserves R (@panic _ A msg).
Proof. intros w. apply PreOrder_Reflexive. Qed.
Lemma pres_wait {A} : Preserves R (@wait _ A).
Proof. intros w. apply PreOrder_Reflexive. Qed.
Lemma pres_gets {A} (f : World -> A) : Preserves R (gets f).
Proof. intros w. apply PreOrder_Reflexive. Qed.
Lemma pres_lift {A} (c : comp A) : Preserves R (lift c).
Proof. destruct c; [apply pres_ret|apply pres_panic]. Qed.
Lemma pres_expect {A} msg (o : option A) : Preserves R (expect msg o).
Proof. apply pres_lift. Qed.
Lemma pres_expect_true msg b : Preserves R (expect_true msg b).
Proof. destruct b; [apply pres_ret|apply pres_panic]. Qed.
Lemma pres_expect_result {A E} msg (r : result A E) : Preserves R (expect_result msg r).
Proof. apply pres_lift. Qed.

Lemma pres_bind {A B} (m : M A) (k : A -> M B) :
  Preserves R m -> (forall a, Preserves R (k a)) -> Preserves R (bind m k).
Proof.
  intros Hm Hk w. unfold bind. specialize (Hm w). destruct (m w) as [a w'|w'|msg w'|w']; try done.
  simpl in Hm. etrans; [exact Hm|apply Hk].
Qed.

(** Binding a pure value keeps the equation for the continuation. *)
Lemma pres_bind_lift {A B} (c : comp A) (k : A -> M B) :
  (forall a, c = Done a -> Preserves R (k a)) -> Preserves R (bind (lift c) k).
Proof.
  intros Hk w. rewrite bind_lift. destruct c; [by apply Hk|apply PreOrder_Reflexive].
Qed.
Lemma pres_bind_expect {A B} msg (o : option A) (k : A -> M B) :
  (forall a, o = Some a -> Preserves R (k a)) -> Preserves R (bind (expect msg o) k).
Proof.
  intros Hk w. rewrite bind_expect. destruct o; [by apply Hk|apply PreOrder_Reflexive].
Qed.
Lemma pres_bind_expect_result {A E B} msg (r : result A E) (k : A -> M B) :
  (forall a, r = Ok a -> Preserves R (k a)) -> Preserves R (bind (expect_result msg r) k).
Proof.
  intros Hk w. rewrite bind_expect_result. destruct r; [by apply Hk|apply PreOrder_Reflexive].
Qed.

Lemma pres_bind_assoc {A B C} (m : M A) (k : A -> M B) (h : B -> M C) :
  Preserves R (bind m (fun a => bind (k a) h)) -> Preserves R (bind (bind m k) h).
Proof. intros Hp w. rewrite bind_assoc. apply Hp. Qed.
Lemma pres_bind_ret {A B} (a : A) (k : A -> M B) :
  Preserves R (k a) -> Preserves R (bind (ret a) k).
Proof. intros Hp w. rewrite bind_ret. apply Hp. Qed.
Lemma pres_bind_leave {A B} (k : A -> M B) : Preserves R (bind leave k).
Proof. intros w. rewrite bind_leave. apply PreOrder_Reflexive. Qed.

Lemma pres_scope m : Preserves R m -> Preserves R (scope m).
Proof. intros Hm w. unfold scope. specialize (Hm w). by destruct (m w). Qed.

Lemma pres_modify f : (forall w, R w (f w)) -> Preserves R (modify f).
Proof. intros Hf w. apply Hf. Qed.
Lemma pres_emit e : (forall w, R w (log e w)) -> Preserves R (emit e).
Proof. intros Hf w. apply Hf. Qed.
Lemma pres_call {A} (c : Call A) : (forall r w, R w (log (Ev c r) w)) -> Preserves R (call c).
Proof. intros Hf w. apply Hf. Qed.

Lemma pres_for_each {A} (l : list A) body :
  (forall x, x ∈ l -> Preserves R (body x)) -> Preserves R (for_each l body).
Proof.
  induction l as [|x l IH]; intros Hb; [apply pres_ret|].
  apply pres_bind; [apply Hb; constructor|]. intros _. apply IH. intros y Hy.
  apply Hb. by constructor.
Qed.

Lemma pres_fold_m {A S} (l : list A) (s : S) body :
  (forall s x, Preserves R (body s x)) -> Preserves R (fold_m l s body).
Proof.
  intros Hb. revert s. induction l as [|x l IH]; intros s; [apply pres_ret|].
  apply pres_bind; [apply Hb|]. intros s'. apply IH.
Qed.
End Rules.

Lemma grows_log (P : Event -> Prop) e w : P e -> grows P w (log e w).
Proof. intros He. exists [e]. auto. Qed.

Lemma grows_same (P : Event -> Prop) (w w' : World) : trace w' = trace w -> grows P w w'.
Proof. intros Ht. exists []. by rewrite app_nil_r, Ht. Qed.

Lemma grows_mono (P Q : Event -> Prop) w w' :
  (forall e, P e -> Q e) -> grows P w w' -> grows Q w w'.
Proof. intros HPQ (new & Ht & Hf). exists new. split; [done|]. by eapply Forall_impl. Qed.

(** Every computation only appends to the trace. *)
Definition appends {A} (m : M A) : Prop := Preserves (grows (fun _ => True)) m.

Lemma emitted_grows {A} P (m : M A) w : Preserves (grows P) m -> Forall P (emitted m w).
Proof.
  intros Hm. destruct (Hm w) as (new & Ht & Hf). unfold emitted.
  by rewrite Ht, drop_app_length.
Qed.

End Preserves.

(** ** What holds of the world a computation returns in *)

Section Returned.
Context `{T : Types} {X : @Externals T} {O : @Oracle T}.

Lemma ret_keeps {A B} (f : World -> B) (m : M A) w a w' :
  Preserves (keeps f) m -> m w = Ret a w' -> f w' = f w.
Proof. intros Hk Hr. specialize (Hk w). by rewrite Hr in Hk. Qed.

Lemma ret_grows {A} P (m : M A) w a w' :
  Preserves (grows P) m -> m w = Ret a w' -> exists new, trace w' = trace w ++ new /\ Forall P new.
Proof. intros Hk Hr. specialize (Hk w). by rewrite Hr in Hk. Qed.

Lemma ret_extends {A} (m : M A) w a w' : appends m -> m w = Ret a w' -> grows (fun _ => True) w w'.
Proof. apply ret_grows. Qed.

(** A computation that never leaves early, or never waits for ever. *)
Inductive Stop := Leaving | Waiting.
Definition stops (s : Stop) {A} (o : outcome A) : bool :=
  match s, o with
  | Leaving, Exit _ => true
  | Waiting, Waits _ => true
  | _, _ => false
  end.
Definition Never (s : Stop) {A} (m : M A) : Prop := forall w, stops s (m w) = false.

Lemma never_exit {A} (m : M A) w w' : Never Leaving m -> m w <> Exit w'.
Proof. intros Hn Hm. specialize (Hn w). by rewrite Hm in Hn. Qed.
Lemma never_waits {A} (m : M A) w w' : Never Waiting m -> m w <> Waits w'.
Proof. intros Hn Hm. specialize (Hn w). by rewrite Hm in Hn. Qed.

Lemma never_ret s {A} (a : A) : Never s (ret a).
Proof. by destruct s. Qed.
Lemma never_panic s {A} msg : Never s (@panic _ A msg).
Proof. by destruct s. Qed.
Lemma never_leave {A} : Never Waiting (@leave _ A).
Proof. done. Qed.
Lemma never_gets s {A} (f : World -> A) : Never s (gets f).
Proof. by destruct s. Qed.
Lemma never_modify s f : Never s (modify f).
Proof. by destruct s. Qed.
Lemma never_emit s e : Never s (emit e).
Proof. by destruct s. Qed.
Lemma never_call s {R} (c : Call R) : Never s (call c).
Proof. by destruct s. Qed.
Lemma never_lift s {A} (c : comp A) : Never s (lift c).
Proof. by destruct s, c. Qed.
Lemma never_expect s {A} msg (o : option A) : Never s (expect msg o).
Proof. apply never_lift. Qed.
Lemma never_expect_true s msg b : Never s (expect_true msg b).
Proof. by destruct s, b. Qed.
Lemma never_expect_result s {A E} msg (r : result A E) : Never s (expect_result msg r).
Proof. apply never_lift. Qed.
Lemma never_bind s {A B} (m : M A) (k : A -> M B) :
  Never s m -> (forall a, Never s (k a)) -> Never s (bind m k).
Proof.
  intros Hm Hk w. specialize (Hm w). unfold bind. destruct (m w) as [a w1|w1|msg w1|w1]; [apply Hk|by destruct s..].
Qed.
Lemma never_scope_leaving m : Never Leaving (scope m).
Proof. intros w. unfold scope. by destruct (m w). Qed.
Lemma never_scope_waiting m : Never Waiting m -> Never Waiting (scope m).
Proof. intros Hm w. specialize (Hm w). unfold scope. by destruct (m w). Qed.
Lemma never_for_each s {A} (l : list A) body :
  (forall x, Never s (body x)) -> Never s (for_each l body).
Proof. intros Hb. induction l as [|x l IH]; [apply never_ret|]. by apply never_bind. Qed.
Lemma never_fold_m s {A S} (l : list A) (v : S) body :
  (forall v x, Never s (body v x)) -> Never s (fold_m l v body).
Proof.
  intros Hb. revert v. induction l as [|x l IH]; intros v; [apply never_ret|]. by apply never_bind.
Qed.
End Returned.

Create HintDb never discriminated.
#[export] Hint Resolve never_ret never_panic never_leave never_gets never_modify never_emit never_call
  never_lift never_expect never_expect_true never_expect_result never_scope_leaving : never.

Ltac never_step :=
  match goal with
  | |- forall _, _ => intros
  | |- Never _ (let '(_, _) := ?x in _) => destruct x
  | |- Never _ (bind _ _) => apply never_bind
  | |- Never _ (for_each _ _) => apply never_for_each
  | |- Never _ (fold_m _ _ _) => apply never_fold_m
  | |- Never Waiting (scope _) => apply never_scope_waiting
  | |- Never _ (fs_read _) => unfold fs_read
  | |- Never _ (fs_write _ _) => unfold fs_write
  | |- Never _ (fs_append _ _) => unfold fs_append
  | |- Never _ (fs_remove _) => unfold fs_remove
  | |- Never _ (print _) => unfold print
  | |- Never _ (println _) => unfold println
  | |- Never _ (spawn _) => unfold spawn
  | |- Never _ (match ?x with _ => _ end) => destruct x
  | |- Never _ _ => solve [auto with never nocore]
  end.
Ltac never := repeat never_step.

(** The same, unfolding the definitions a computation is made of. *)
Ltac head_of t := match t with ?f _ => head_of f | _ => t end.
Ltac never_deep :=
  repeat (first [never_step | match goal with |- Never _ ?m => let h := head_of m in unfold h; cbn beta end]).

(** What was answered no longer matters once the path is chosen. *)
Ltac forget_answers :=
  repeat match goal with
         | H : context [answer _ _ _] |- _ => clear H
         | |- context [answer ?h ?R ?c] => generalize (answer h R c); intros ?
         end.

Create HintDb pres discriminated.

(** Closes [Preserves R m] by the structural rules, the lemmas in the [pres]
    hint base, and case analysis on what the computation inspects; what stays
    are the events and updates the relation does speak about. *)
Ltac pres_leaf :=
  first
    [ reflexivity
    | apply grows_same; reflexivity
    | apply grows_log; solve [exact I | done | auto] ].

Ltac pres_step :=
  match goal with
  | |- forall _, _ => intros
  | |- Preserves _ (let '(_, _) := ?x in _) => destruct x eqn:?
  | |- Preserves _ (bind (lift _) _) => apply pres_bind_lift; [typeclasses eauto|intros ? ?]
  | |- Preserves _ (bind (expect _ _) _) => apply pres_bind_expect; [typeclasses eauto|intros ? ?]
  | |- Preserves _ (bind (expect_result _ _) _) =>
      apply pres_bind_expect_result; [typeclasses eauto|intros ? ?]
  | |- Preserves _ (bind _ _) => apply pres_bind; [typeclasses eauto| |intros ?]
  | |- Preserves _ (ret _) => apply pres_ret; typeclasses eauto
  | |- Preserves _ leave => apply pres_leave; typeclasses eauto
  | |- Preserves _ (panic _) => apply pres_panic; typeclasses eauto
  | |- Preserves _ wait => apply pres_wait; typeclasses eauto
  | |- Preserves _ (gets _) => apply pres_gets; typeclasses eauto
  | |- Preserves _ (lift _) => apply pres_lift; typeclasses eauto
  | |- Preserves _ (expect _ _) => apply pres_expect; typeclasses eauto
  | |- Preserves _ (expect_true _ _) => apply pres_expect_true; typeclasses eauto
  | |- Preserves _ (expect_result _ _) => apply pres_expect_result; typeclasses eauto
  | |- Preserves _ (scope _) => apply pres_scope
  | |- Preserves _ (call _) => apply pres_call; intros ? ?; try pres_leaf
  | |- Preserves _ (print _) => apply pres_emit; intros ?; try pres_leaf
  | |- Preserves _ (println _) => apply pres_emit; intros ?; try pres_leaf
  | |- Preserves _ (emit _) => apply pres_emit; intros ?; try pres_leaf
  | |- Preserves _ (modify _) => apply pres_modify; intros ?; try pres_leaf
  | |- Preserves _ (spawn _) => apply pres_modify; intros ?; try pres_leaf
  | |- Preserves _ (for_each _ _) => apply pres_for_each; [typeclasses eauto|intros ? ?]
  | |- Preserves _ (fold_m _ _ _) => apply pres_fold_m; [typeclasses eauto|intros ? ?]
  | |- Preserves _ (fs_read _) => unfold fs_read
  | |- Preserves _ (fs_write _ _) => unfold fs_write
  | |- Preserves _ (fs_append _ _) => unfold fs_append
  | |- Preserves _ (fs_remove _) => unfold fs_remove
  | |- Preserves _ (match ?x with _ => _ end) => destruct x eqn:?
  | |- Preserves _ _ => solve [auto with pres nocore | eauto 3 with pres nocore]
  end.
Ltac pres := repeat pres_step.

(** The same, but splitting what a computation inspects before it is bound, so
    that what the cases learn is known to what follows. *)
Ltac pres_cases :=
  repeat first
    [ match goal with
      | |- Preserves _ (bind (match ?x with _ => _ end) _) => destruct x eqn:?
      | |- Preserves _ (bind (bind _ _) _) => apply pres_bind_assoc
      | |- Preserves _ (bind (ret _) _) => apply pres_bind_ret; cbn beta iota
      | |- Preserves _ (bind leave _) => apply pres_bind_leave; typeclasses eauto
      end
    | pres_step ].

Section FsRules.
Context `{T : Types} {X : @Externals T} {O : @Oracle T}.

Lemma pres_fs_read R `{!PreOrder R} path : Preserves R (fs_read path).
Proof. unfold fs_read. pres. Qed.

Lemma keeps_fs_write {B} (f : World -> B) path content :
  (forall w g, f (upd_fs g w) = f w) -> (forall w e, f (log e w) = f w) ->
  Preserves (keeps f) (fs_write path content).
Proof. intros Hf Hl. unfold fs_write. pres; (apply Hf || apply Hl). Qed.
End FsRules.
