(* ===== verification/Mock.v ===== *)
(** * A concrete outside world

    Instances of [Types], [Externals] and [Oracle] with simple computable
    functions.  Nothing of the program is modelled here: the witnesses of the
    other files run the program against it, and it shows that the laws the
    theorems assume can hold together. *)

From Stdlib Require Import ZArith Lia Ascii String.
From stdpp Require Import base list strings gmap.
From S2P Require Import Prelude RustStd Hex Swap Json Config World Effects.

Open Scope Z_scope.

Module Mock.

Record MockInvoice := {
  mi_hash : bytes; mi_secret : bytes; mi_amt : option Z; mi_cid : option bool; mi_rgb : option Z
}.

Definition mock_ids : ContractIds := {|
  ContractId := bool;
  cid_from_str := fun s =>
    if String.eqb s "rgb1a" then Some true else if String.eqb s "rgb1b" then Some false else None;
  cid_to_string := fun b : bool => if b then "rgb1a"%string else "rgb1b"%string
|}.

Lemma mock_ids_laws : ContractIdLaws mock_ids.
Proof.
  split.
  - by intros [].
  - intros []; apply (bool_decide_unpack _); reflexivity.
Qed.

#[export] Instance mock_types_checks (checks : bool) : Types := {|
  TypesProfile := {| overflow_checks := checks |};
  TypesContractIds := mock_ids;
  PublicKey := list Z; Txid := Z; SocketAddr := string; Invoice := MockInvoice;
  Script := string; Address := string; Psbt := list bool; Transaction := Z;
  Opout := Z; TransitionBuilder := list Z; GraphSeal := Z; SecretSeal := Z;
  Consignment := unit; RgbPsbt := list bool; OpId := unit; Anchor := unit; Bundle := unit;
  HopRest := unit; SecretKey := Z; Signer := Z; Witness := unit
|}.
Abbreviation mock_types := (mock_types_checks true).

(** A serialization: the bits of the [Countable] encoding. *)
Fixpoint pos_to_str (p : positive) : string :=
  match p with
  | xH => EmptyString
  | xO p => String "0" (pos_to_str p)
  | xI p => String "1" (pos_to_str p)
  end.
Fixpoint pos_of_str (s : string) : option positive :=
  match s with
  | EmptyString => Some xH
  | String "0" s => xO <$> pos_of_str s
  | String "1" s => xI <$> pos_of_str s
  | _ => None
  end.
Lemma pos_of_to_str p : pos_of_str (pos_to_str p) = Some p.
Proof. induction p as [p IH|p IH|]; simpl; [by rewrite IH|by rewrite IH|done]. Qed.

Section Mock.
Context (checks : bool).
Local Existing Instance mock_types_checks.
Abbreviation MT := (mock_types_checks checks).

Definition utxo_tuple (u : @RgbUtxo MT) : Z * Z * bool :=
  (@txid MT (outpoint u), vout (outpoint u), colored u).
Definition utxo_untuple (t : Z * Z * bool) : @RgbUtxo MT :=
  let '(t, v, c) := t in {| outpoint := @Build_OutPoint MT t v; colored := c |}.

Definition mock_with (dir : string) (args : list string) : @Externals MT := @Build_Externals MT
  (* pk_from_slice *) (fun b => if (Z.of_nat (length b) =? 33) then Some b else None)
  (* pk_from_str *) (fun s => match Hex.to_vec s with Some b => Ok b | None => Err "malformed public key"%string end)
  (* pk_serialize *) (fun b => b)
  (* pk_to_string *) (Hex.hex_str)
  (* our_node_id *) (([2; 7] : list Z))
  (* txid_to_string *) (fun t => dec t)
  (* sha256 *) (fun b => b)
  (* is_swap_scid *) (2 ^ 63)
  (* utxos_to_json *) (fun l => pos_to_str (encode (map utxo_tuple l)))
  (* utxos_from_json *) (fun s => p ← pos_of_str s; l ← decode p; Some (map utxo_untuple l))
  (* blinded_to_json *) (fun c s b => pos_to_str (encode (c : option bool, s : Z, b)))
  (* blinded_from_json *) (fun s => p ← pos_of_str s; decode (A := option bool * Z * bool) p)
  (* blinded_param_to_json *) (fun s => s)
  (* base64_decode *) (fun s => Some s)
  (* invoice_from_str *) (fun _ => Err "not an invoice"%string)
  (* invoice_to_string *) (fun i => Hex.hex_str (mi_hash i))
  (* invoice_amount_msat *) (mi_amt)
  (* invoice_payment_hash *) (mi_hash)
  (* invoice_payment_secret *) (mi_secret)
  (* invoice_rgb_contract_id *) (mi_cid)
  (* invoice_rgb_amount *) (mi_rgb)
  (* invoice_payee *) (fun _ => ([2; 9] : list Z))
  (* address_to_string *) (fun a => a)
  (* script_pubkey *) (fun a => a)
  (* witness_script *) (fun _ _ => Some "script"%string)
  (* extract_tx *) (fun p => Z.of_nat (length p))
  (* tx_txid *) (fun t => t)
  (* psbt_op_returns *) (fun p => p)
  (* rgb_psbt_inputs *) (fun _ => [])
  (* rgb_psbt_op_returns *) (fun p => p)
  (* rgb_psbt_txid *) (fun p => Z.of_nat (length p))
  (* opout_compare *) (Z.compare)
  (* seal_with_vout *) (fun v => v)
  (* conceal *) (fun s => s)
  (* secret_seal_to_string *) (fun s => dec s)
  (* secret_seal_from_str *) (fun s => ok (parse_u64 s))
  (* valid_ticker *) (fun _ => true)
  (* valid_name *) (fun _ => true)
  (* valid_precision *) (fun _ => true)
  (* valid_transport *) (fun _ => true)
  (* cid_debug *) (@cid_to_string mock_ids)
  (* local_utxo_debug *) (fun _ => "utxo"%string)
  (* ldk_data_dir *) dir
  (* network *) (Regtest)
  (* electrum_url *) (ELECTRUM_URL_REGTEST)
  (* proxy_url *) (PROXY_URL_REGTEST)
  (* proxy_endpoint *) (PROXY_ENDPOINT_REGTEST)
  (* anchored_bundles *) (fun _ => [(7, [Some [[AssignRevealed 0 30; AssignOther]; [AssignRevealed 1 12]]; None;
                                       Some [[AssignRevealed 0 5]]])])
  (* derive_channel_keys *) (fun v _ => v)
  (* payment_key *) (fun k => k)
  (* ckd_priv_hardened *) (fun i => Some i)
  (* destination_script *) ("dest"%string)
  (* op_return_script *) (fun _ => "op_return"%string)
  (* max_witness_length *) 100
  (* maybe_add_change_output *) (fun tx v _ _ s => Some (@Build_SpendTx MT (st_version tx) (st_lock_time tx)
                                                         (st_inputs tx) (st_outputs tx ++ [(v, s)])))
  (* psbt_from_unsigned *) (fun tx => Some (map (fun o => String.eqb (snd o) "op_return") (st_outputs tx)))
  (* sign_dynamic_p2wsh_input *) (fun _ _ _ _ => Some tt)
  (* set_witness *) (fun tx _ _ => tx)
  (* env_args *) args
  (* serialize_hex *) (fun tx => dec tx)
  (* address_from_str *) (fun s => Some s)
  (* block_hash_from_hex *) Hex.to_vec
  (* base64_encode *) (fun s => s)
  (* ldk_seed_of *) (fun b => Some b)
  (* master_key_string *) "xprv"%string
  (* rgb_chain_display *) (fun n => match n with Testnet => "testnet3" | _ => "regtest" end%string)
  (* package_name *) "ldk-sample"%string
  (* package_version *) "0.1.0"%string.
Definition mock_externals : @Externals MT :=
  mock_with "d" ["node"; "u:p@host:18443"; "dir"; "9735"; "regtest"]%string.

Lemma mock_with_serde dir args : @SerdeLaws MT (mock_with dir args).
Proof.
  split.
  - intros l. cbn. rewrite pos_of_to_str. cbn. rewrite decode_encode. cbn.
    f_equal. rewrite map_map. rewrite <- (map_id l) at 2. apply map_ext.
    intros [[t v] c]. done.
  - intros c s b. cbn. rewrite pos_of_to_str. cbn. by rewrite decode_encode.
Qed.

Lemma mock_serde : @SerdeLaws MT mock_externals.
Proof. apply mock_with_serde. Qed.

(** What a scenario chooses; everything else succeeds. *)
Record MockCfg := {
  cfg_now : Z;
  cfg_unspent : list (@LocalUtxo MT);
  cfg_balance : Z;
  cfg_fungibles : option (list (@FungibleOutput MT));
  cfg_pay_ok : bool;
  cfg_channels : list (@ChannelDetails MT);
  cfg_rgb_info : list (bytes * @RgbInfo MT);
  cfg_peers : list bytes;
  cfg_route : bool -> list (@RouteHop MT)
}.

(** An intercepted HTLC is failed or forwarded at most once. *)
Definition uses_id (id : bytes) (e : @Event MT) : bool :=
  match e with
  | Ev c r => match c in Call R return R -> bool with
              | CFailIntercepted id' => fun r => bool_decide (id' = id) && is_ok r
              | CForwardIntercepted id' _ _ _ => fun r => bool_decide (id' = id) && is_ok r
              | _ => fun _ => false
              end r
  | Print _ => false
  end.
Definition used (h : list (@Event MT)) (id : bytes) : bool := existsb (uses_id id) h.
Definition once (h : list (@Event MT)) (id : bytes) : result unit string :=
  if used h id then Err "Payment with intercept id not found"%string else Ok tt.

Definition rpc_ok {R} (r : R) : JsonRpcResponse R :=
  {| rpc_id := None; rpc_result := Some r; rpc_error := None |}.

Definition sum_recipients (req : @TxRequest MT) : Z :=
  foldr Z.add 0 (map snd (tr_recipients req)).

Definition mock_rpc (method : string) : Json :=
  if String.eqb method "getnewaddress" then JString "addr"
  else if String.eqb method "generatetoaddress" then JArray [JString "00"]
  else if String.eqb method "getblockchaininfo" then
    JObject [("chain", JString "regtest"); ("blocks", JNumber (PosInt 101)); ("bestblockhash", JString "00")]%string
  else JObject [("feerate", JNumber (PosInt 1))]%string.

Definition mock_answer (cfg : MockCfg) (h : list (@Event MT)) (R : Type) (c : @Call MT R) : R :=
  match c in Call R return R with
  | CNow => cfg_now cfg
  | CFsWrite _ _ | CFsAppend _ _ | CFsRemove _ => true
  | CPathExists p => existsb (fun e => String.eqb p ("d/" +:+ Hex.hex_str (fst e))) (cfg_rgb_info cfg)
  | CResolve s => Some [s]
  | CGenRange low _ => low
  | CSleepMs _ => tt
  | CStopRequested => false
  | CElectrumConnect _ | CWalletSync | CBroadcast _ => true
  | CListUnspent => Some (cfg_unspent cfg)
  | CGetBalanceTotal => Some (cfg_balance cfg)
  | CGetAddress => Some "addr"%string
  | CAddUtxos _ => true
  | CFinishTx req => if sum_recipients req <=? cfg_balance cfg then Some [false; true] else None
  | CSignPsbt p => Some p
  | CCreateDirAll _ | COpenDatabase _ => true
  | CKeyWalletNew _ _ | CKeyWalletSync _ | CKeyWalletAddUtxos _ _ => true
  | CKeyWalletFinish _ _ => Some [false; true]
  | CKeyWalletSign _ p => Some p
  | CGetRuntime | CDropRuntime => tt
  | CFungibles _ => cfg_fungibles cfg
  | CIssueContract _ _ _ _ _ _ => Some true
  | CTransitionBuilder _ => Some []
  | CAssignmentsType _ => Some 4000
  | CAddRawState _ b _ _ a => Some (b ++ [a])
  | CGraphSealFrom op => @txid MT op * 1000 + vout op
  | CStoreSealSecret _ => true
  | CRgbPsbt p => Some p
  | CStateForOutpoints _ _ => Some []
  | CAddInput b _ => Some b
  | CCompleteTransition _ _ => Some tt
  | CContractsByOutpoint _ => Some []
  | CSetRgbConsumer p _ _ _ => Some p
  | CPushTransition p _ => Some p
  | CRgbBundles _ => Some []
  | CSetOpretHost p _ => Some p
  | CBundleToLnpbp4 p => Some p
  | CDbcConclude p => Some (tt, p)
  | CConsumeAnchor _ | CConsumeBundle _ _ _ => true
  | CTransfer _ _ _ => Some tt
  | CPsbtOfRgb p => Some p
  | CSaveConsignment _ _ => true
  | CLoadConsignment _ => Some tt
  | CImportMinimalContract _ | CValidate _ => true
  | CValidity _ | CAcceptTransfer _ => Some true
  | CFileOpen _ => Ok tt
  | CHttpPostMultipart _ _ _ => Ok (rpc_ok true)
  | CHttpPostJson _ _ _ _ _ => Ok (rpc_ok EmptyString)
  | CIsTransferColored p => String.eqb p "d/7_transfer_info"
  | CReadTransferInfo _ => @Build_TransferInfo MT true tt [] 0
  | CIsChannelRgb id => existsb (fun e => bool_decide (fst e = id)) (cfg_rgb_info cfg)
  | CGetRgbChannelInfo id =>
      match List.find (fun e => bool_decide (fst e = id)) (cfg_rgb_info cfg) with
      | Some (_, i) => i
      | None => @Build_RgbInfo MT true 0 0
      end
  | CWriteRgbChannelInfo _ _ => tt
  | CWriteRgbPaymentInfo _ _ _ _ => tt
  | CFailIntercepted id => once h id
  | CForwardIntercepted id _ _ _ => once h id
  | CListChannels | CListUsableChannels => cfg_channels cfg
  | CCreateInboundPayment _ _ => Ok (repeat 171 32, repeat 205 32)
  | CGetPaymentPreimage _ _ => Ok (repeat 239 32)
  | CFindRoute req =>
      Some {| route_paths := [cfg_route cfg (bool_decide (rr_start req = ([2; 7] : list Z)))]; route_keysend := None |}
  | CSendSpontaneous _ _ id => if cfg_pay_ok cfg then Ok id else Err "PathParameterError"%string
  | CSendSpontaneousRetry _ id _ _ _ _ => if cfg_pay_ok cfg then Ok id else Err "DuplicatePayment"%string
  | CPayInvoice i _ => if cfg_pay_ok cfg then Ok (mi_hash i) else Err "DuplicatePayment"%string
  | CCreateInvoice _ amt _ _ cid rgb =>
      Ok {| mi_hash := repeat 171 32; mi_secret := repeat 205 32; mi_amt := amt; mi_cid := cid; mi_rgb := rgb |}
  | CInvoiceExpired _ => false
  | CSecureRandomBytes => repeat 17 32
  | CCreateChannel _ _ _ _ _ _ => Ok (repeat 1 32)
  | CCloseChannel _ _ | CForceCloseChannel _ _ => Ok tt
  | CClaimFunds _ => tt
  | CFundingGenerated _ _ _ => Ok tt
  | CProcessForwards => tt
  | CPeerIds => cfg_peers cfg
  | CConnectOutbound _ _ => true
  | CConnectionClosed _ => false
  | CDisconnect _ => tt
  | CNodeAlias _ => None
  | CSendOnion _ _ _ _ => Ok tt
  | CSignMessage _ => Ok "sig"%string
  | CRpcConnect _ _ _ => Ok tt
  | CRpc method _ => Ok (mock_rpc method)
  | CSendRawTransaction _ => Ok tt
  | CReadLine => Err "end of the scenario"%string
  | CUtcNow => "2023-06-01 00:00:00.000"%string
  | CEnvVar _ | CHomeDir | CReadFile _ => None
  | CReadBytes _ => None
  | CFillBytes n => repeat 9 (Z.to_nat n)
  | CFileCreate _ => Ok tt
  | CFileWriteAll _ _ | CFileSync _ => true
  | CSchemasEmpty => Some true
  | CImportIface | CImportSchema | CImportIfaceImpl | CRestClient _ => true
  | CKeysManager _ => tt
  | CWalletNew _ _ => true
  | CReadMonitors => Some 0%nat
  | CBestBlock => true
  | CReadGraph _ | CReadScorer _ => false
  | CManagerFile _ => false
  | CReadManager => true
  | CFreshManager => tt
  | CSynchronize _ | CWatchChannel _ => true
  | CBroadcastAnnouncement _ _ | CDisconnectAll => tt
  | CStopBackground => true
  | CListen _ | CIntoStd _ | CPollBestTip => true
  | CAccept => Some 3%nat
  | CSetupInbound _ => tt
  | CHttpGetPrice _ => Ok "25000.0"%string
  end.

Definition mock_oracle (cfg : MockCfg) : @Oracle MT := {| answer := mock_answer cfg |}.

Definition base_cfg : MockCfg := {|
  cfg_now := 1000; cfg_unspent := []; cfg_balance := 0; cfg_fungibles := None; cfg_pay_ok := true;
  cfg_channels := []; cfg_rgb_info := []; cfg_peers := []; cfg_route := fun _ => []
|}.

Definition empty_world : @World MT := {|
  fs := ∅; inbound_payments := ∅; outbound_payments := ∅; whitelisted_trades := ∅;
  maker_trades := ∅; tasks := []; trace := []
|}.

End Mock.
End Mock.
