(* ===== verification/IpAddr.v ===== *)
(** * std::net: parsing an IP address

    [IpAddr::from_str] of the Rust standard library, which args.rs uses for
    the announced addresses: dotted decimal without leading zeros, or groups
    of hexadecimal digits with at most one [::] and possibly a dotted decimal
    tail.  A parser takes the text and returns the value with the rest. *)

From Stdlib Require Import ZArith Lia Ascii String.
From stdpp Require Import base list strings.
From S2P Require Import Prelude RustStd.

Open Scope Z_scope.

Module IpAddr.

Definition dot : ascii := ascii_of_nat 46.

(** [char::to_digit] *)
Definition to_digit (radix : Z) (c : ascii) : option Z :=
  let b := byte_of c in
  let d :=
    if (48 <=? b) && (b <=? 57) then b - 48
    else if (97 <=? b) && (b <=? 122) then b - 97 + 10
    else if (65 <=? b) && (b <=? 90) then b - 65 + 10
    else radix in
  if d <? radix then Some d else None.

(** The digits ahead; [None] when there are more than [max_digits] or the
    value exceeds [max]. *)
Fixpoint read_digits (radix max : Z) (max_digits count : nat) (acc : Z) (s : string)
  : option (Z * nat * string) :=
  match s with
  | EmptyString => Some (acc, count, s)
  | String c s' =>
      match to_digit radix c with
      | None => Some (acc, count, s)
      | Some d =>
          if max <? acc * radix + d then None
          else if (max_digits <? S count)%nat then None
          else read_digits radix max max_digits (S count) (acc * radix + d) s'
      end
  end.

Definition starts_with_zero (s : string) : bool :=
  match s with String c _ => Ascii.eqb c "0" | EmptyString => false end.

Definition read_number (radix max : Z) (max_digits : nat) (allow_zero_prefix : bool) (s : string)
  : option (Z * string) :=
  match read_digits radix max max_digits 0 0 s with
  | Some (v, count, rest) =>
      if (count =? 0)%nat then None
      else if negb allow_zero_prefix && starts_with_zero s && (1 <? count)%nat then None
      else Some (v, rest)
  | None => None
  end.

Definition read_given_char (c : ascii) (s : string) : option string :=
  match s with String d s => if Ascii.eqb c d then Some s else None | EmptyString => None end.

(** A separator comes before every element but the first. *)
Definition read_separator {A} (sep : ascii) (index : nat) (inner : string -> option (A * string))
    (s : string) : option (A * string) :=
  match index with
  | 0%nat => inner s
  | S _ => s ← read_given_char sep s; inner s
  end.

Fixpoint read_octets (count index : nat) (s : string) : option (list Z * string) :=
  match count with
  | 0%nat => Some ([], s)
  | S count =>
      '(o, s) ← read_separator dot index (read_number 10 U8_MAX 3 false) s;
      '(os, s) ← read_octets count (S index) s;
      Some (o :: os, s)
  end.
Definition read_ipv4_addr (s : string) : option (list Z * string) := read_octets 4 0 s.

(** At most [left] groups from the [index]-th; whether they end in an IPv4
    address. *)
Fixpoint read_groups (left index : nat) (s : string) : list Z * bool * string :=
  match left with
  | 0%nat => ([], false, s)
  | S left' =>
      match (if (1 <? left)%nat then read_separator colon index read_ipv4_addr s else None) with
      | Some ([one; two; three; four], s) => ([one * 256 + two; three * 256 + four], true, s)
      | _ =>
          match read_separator colon index (read_number 16 U16_MAX 4 true) s with
          | Some (g, s) => let '(gs, v4, s) := read_groups left' (S index) s in (g :: gs, v4, s)
          | None => ([], false, s)
          end
      end
  end.

Definition read_ipv6_addr (s : string) : option (list Z * string) :=
  let '(head, head_ipv4, s) := read_groups 8 0 s in
  if (length head =? 8)%nat then Some (head, s)
  else if head_ipv4 then None
  else
    s ← read_given_char colon s;
    s ← read_given_char colon s;
    let '(tail, _, s) := read_groups (8 - (length head + 1)) 0 s in
    Some (head ++ repeat 0 (8 - length head - length tail) ++ tail, s).

(** The octets of an address. *)
Inductive IpAddr := V4 (octets : list Z) | V6 (octets : list Z).

Definition be_octets (groups : list Z) : list Z := flat_map (fun g => [g / 256; g mod 256]) groups.

Definition from_str (s : string) : option IpAddr :=
  match read_ipv4_addr s with
  | Some (a, rest) => if String.eqb rest "" then Some (V4 a) else None
  | None =>
      match read_ipv6_addr s with
      | Some (gs, rest) => if String.eqb rest "" then Some (V6 (be_octets gs)) else None
      | None => None
      end
  end.

(** [Display] of an IPv4 address. *)
Definition ipv4_display (octets : list Z) : string := join_with dot (map dec octets).

(** ** What is displayed reads back *)

Lemma to_digit_char d : 0 <= d <= 9 -> to_digit 10 (digit_char d) = Some d.
Proof.
  intros Hd. unfold to_digit. rewrite digit_char_byte by done.
  replace ((48 <=? d + 48) && (d + 48 <=? 57))%bool with true by (symmetry; apply andb_true_iff; lia).
  replace (d + 48 - 48 <? 10) with true by (symmetry; apply Z.ltb_lt; lia). f_equal; lia.
Qed.

(** An octet is one of 256; each is checked. *)
Definition octet_ok (n : Z) (sep : string) : bool :=
  match read_number 10 U8_MAX 3 false (dec n +:+ sep) with
  | Some (v, rest) => (v =? n) && String.eqb rest sep
  | None => false
  end.

Lemma read_digits_tail count acc s c tail :
  to_digit 10 c = None ->
  read_digits 10 U8_MAX 3 count acc (s +:+ String c tail) =
  match read_digits 10 U8_MAX 3 count acc (s +:+ String c "") with
  | Some (v, n, rest) => Some (v, n, rest +:+ tail)
  | None => None
  end.
Proof.
  intros Hc. revert count acc. induction s as [|x s IH]; intros count acc;
    rewrite ?string_cons_app, ?string_nil_app; cbn [read_digits].
  - by rewrite Hc.
  - destruct (to_digit 10 x) as [d|]; [|by rewrite string_cons_app, string_append_assoc].
    destruct (_ <? _); [done|]. destruct (_ <? _)%nat; [done|]. apply IH.
Qed.

Lemma octets_ok sep : In sep [""; "."]%string -> forall n, 0 <= n <= 255 -> octet_ok n sep = true.
Proof.
  intros Hsep n Hn. assert (n ∈ seqZ 0 256) as Hin by (apply elem_of_seqZ; lia). clear Hn. revert n Hin.
  intros n Hin%list_elem_of_In. revert n Hin. apply forallb_forall.
  by destruct Hsep as [<-|[<-|[]]].
Qed.

(** An octet in front of the end or of a dot. *)
Lemma read_octet n rest :
  0 <= n <= 255 -> rest = EmptyString \/ (exists tail, rest = String dot tail) ->
  read_number 10 U8_MAX 3 false (dec n +:+ rest) = Some (n, rest).
Proof.
  intros Hn Hrest. pose proof (octets_ok "" ltac:(by left) n Hn) as He.
  pose proof (octets_ok "." ltac:(right; by left) n Hn) as Hd. unfold octet_ok, read_number in *.
  destruct Hrest as [->|[tail ->]].
  - destruct (read_digits _ _ _ _ _ _) as [[[v c] r]|]; [|done]. destruct (_ =? _)%nat; [done|].
    destruct (_ && _ && _); [done|]. apply andb_true_iff in He as [->%Z.eqb_eq ->%String.eqb_eq]. done.
  - rewrite read_digits_tail by done. change (String dot "") with "."%string.
    destruct (read_digits 10 U8_MAX 3 0 0 (dec n +:+ ".")) as [[[v c] r]|]; [|done].
    destruct (_ =? _)%nat; [done|].
    assert (starts_with_zero (dec n +:+ String dot tail) = starts_with_zero (dec n +:+ ".")) as ->.
    { pose proof (dec_nonempty n). by destruct (dec n). }
    destruct (_ && _ && _); [done|]. apply andb_true_iff in Hd as [->%Z.eqb_eq ->%String.eqb_eq]. done.
Qed.

Lemma read_octets_S count index s :
  read_octets (S count) (S index) (String dot s) =
  ('(o, s) ← read_number 10 U8_MAX 3 false s;
   '(os, s) ← read_octets count (S (S index)) s;
   Some (o :: os, s)).
Proof. done. Qed.

Lemma read_octets_0 count s :
  read_octets (S count) 0 s =
  ('(o, s) ← read_number 10 U8_MAX 3 false s; '(os, s) ← read_octets count 1 s; Some (o :: os, s)).
Proof. done. Qed.

Lemma read_octets_display n os :
  Forall (fun o => 0 <= o <= 255) (n :: os) ->
  forall index,
  read_octets (length (n :: os)) (S index) (String dot (join_with dot (map dec (n :: os))))
  = Some (n :: os, EmptyString).
Proof.
  revert n. induction os as [|m os IH]; intros n Hf index; inversion_clear Hf as [|? ? Hn Hos].
  - cbn [map join_with length]. rewrite read_octets_S, <- (string_app_nil (dec n)), read_octet by eauto. done.
  - specialize (IH m Hos (S index)).
    change (join_with dot (map dec (n :: m :: os))) with (dec n +:+ String dot (join_with dot (map dec (m :: os)))).
    change (length (n :: m :: os)) with (S (length (m :: os))).
    rewrite read_octets_S, read_octet by eauto. cbn [mbind option_bind]. by rewrite IH.
Qed.

Lemma from_str_ipv4 a :
  length a = 4%nat -> Forall u8 a -> from_str (ipv4_display a) = Some (V4 a).
Proof.
  intros Hl Hf. destruct a as [|n [|m os]]; [done..|].
  assert (Forall (fun o => 0 <= o <= 255) (n :: m :: os)) as Hf' by exact Hf. inversion_clear Hf' as [|? ? Hn Hos].
  pose proof (read_octets_display m os Hos 0) as Ho. injection Hl as Hl. change (length (m :: os)) with (S (length os)) in Ho.
  rewrite Hl in Ho. unfold from_str, read_ipv4_addr, ipv4_display.
  change (join_with dot (map dec (n :: m :: os))) with (dec n +:+ String dot (join_with dot (map dec (m :: os)))).
  rewrite read_octets_0, read_octet by eauto. cbn [mbind option_bind]. by rewrite Ho.
Qed.

Example loopback : from_str "127.0.0.1" = Some (V4 [127; 0; 0; 1]).
Proof. reflexivity. Qed.
Example leading_zero : from_str "127.0.0.01" = None.
Proof. reflexivity. Qed.
Example too_large : from_str "256.0.0.1" = None.
Proof. reflexivity. Qed.
Example with_port : from_str "127.0.0.1:9735" = None.
Proof. reflexivity. Qed.
Example v6_loopback : from_str "::1" = Some (V6 [0; 0; 0; 0; 0; 0; 0; 0; 0; 0; 0; 0; 0; 0; 0; 1]).
Proof. reflexivity. Qed.
Example v6_any : from_str "::" = Some (V6 (repeat 0 16)).
Proof. reflexivity. Qed.
Example v6_mapped : from_str "::ffff:10.0.0.1" = Some (V6 (repeat 0 10 ++ [255; 255; 10; 0; 0; 1])).
Proof. reflexivity. Qed.
Example v6_groups : from_str "2001:db8::a:0:1" = Some (V6 [32; 1; 13; 184; 0; 0; 0; 0; 0; 0; 0; 10; 0; 0; 0; 1]).
Proof. reflexivity. Qed.
Example v6_two_gaps : from_str "1::2::3" = None.
Proof. reflexivity. Qed.

End IpAddr.
