(* ===== verification/Args.v ===== *)
(** * args.rs: the command line and the sources of the RPC credentials

    [parse_startup_args] reads the arguments of the process ([env_args]), and
    when they carry no credentials the environment variables, a .env file and
    the cookie of bitcoind.  The three fallbacks are arguments of [Result::or],
    so all of them are evaluated, and the error message with them. *)

From Stdlib Require Import ZArith Lia Ascii String.
From stdpp Require Import base list strings gmap.
From S2P Require Import Prelude RustStd IpAddr Swap Config World Effects Mock.

Open Scope Z_scope.

Module Args.

(** cli.rs *)
Record LdkUserInfo := {
  bitcoind_rpc_username : string;
  bitcoind_rpc_password : string;
  bitcoind_rpc_port : Z;
  bitcoind_rpc_host : string;
  ldk_storage_dir_path : string;
  ldk_peer_listening_port : Z;
  ldk_announced_listen_addr : list NetAddress;
  ldk_announced_node_name : bytes;
  info_network : Network
}.

Definition DEFAULT_BITCOIN_DATADIR : string := ".bitcoin".
Definition BITCOIND_RPC_USER_KEY : string := "RPC_USER".
Definition BITCOIND_RPC_PASSWORD_KEY : string := "RPC_PASSWORD".

(** [str::replace] of a backslash. *)
Fixpoint forward_slashes (s : string) : string :=
  match s with
  | EmptyString => EmptyString
  | String c s => String (if Ascii.eqb c "\" then slash else c) (forward_slashes s)
  end.

(** [Result::or], after its argument was evaluated. *)
Definition or_else {A E} (r other : result A E) : result A E :=
  match r with Ok a => Ok a | Err _ => other end.

Definition USAGE : string :=
  "rgb-lightning-sample requires at least 3 arguments: `cargo run [<bitcoind-rpc-username>:<bitcoind-rpc-password>@]<bitcoind-rpc-host>:<bitcoind-rpc-port> ldk_storage_directory_path [<ldk-incoming-peer-listening-port>] [bitcoin-network] [announced-node-name announced-listen-addr*]`".

Section Args.
Context `{T : Types} {X : @Externals T} {O : @Oracle T}.
Local Open Scope m_scope.

Definition print_rpc_auth_help : M unit :=
  let! home := call CHomeDir in
  let home_dir := forward_slashes (default "$HOME" home) in
  let data_dir := home_dir +:+ "/" +:+ DEFAULT_BITCOIN_DATADIR in
  println "To provide the bitcoind RPC username and password, you can either:" ;;;
  println "1. Provide the username and password as the first argument to this program in the format: <bitcoind-rpc-username>:<bitcoind-rpc-password>@<bitcoind-rpc-host>:<bitcoind-rpc-port>" ;;;
  println ("2. Provide <bitcoind-rpc-username>:<bitcoind-rpc-password> in a .cookie file in the default bitcoind data directory (automatically created by bitcoind on startup): `"
           +:+ data_dir +:+ "`") ;;;
  println ("3. Set the " +:+ BITCOIND_RPC_USER_KEY +:+ " and " +:+ BITCOIND_RPC_PASSWORD_KEY
           +:+ " environment variables") ;;;
  println ("4. Provide " +:+ BITCOIND_RPC_USER_KEY +:+ " and " +:+ BITCOIND_RPC_PASSWORD_KEY
           +:+ " fields in a .env file in the current directory").

Definition parse_rpc_auth (rpc_auth : string) : M (result (string * string) unit) :=
  match split_on colon rpc_auth with
  | [rpc_username; rpc_password] => ret (Ok (rpc_username, rpc_password))
  | _ =>
      println "ERROR: bad bitcoind RPC username/password combo provided" ;;;
      ret (Err tt)
  end.

(** The directory of the chain in bitcoind's data directory. *)
Definition chain_dir (data_dir_path : string) (network : option Network) : string :=
  match network with
  | Some Testnet => path_join data_dir_path "testnet3"
  | Some Regtest => path_join data_dir_path "regtest"
  | Some Signet => path_join data_dir_path "signet"
  | _ => data_dir_path
  end.

Definition get_cookie_path (data_dir : option (string * bool)) (network : option Network)
    (cookie_file_name : option string) : M (result string unit) :=
  let! data_dir_path :=
    match data_dir with
    | Some (dir, true) =>
        let! home := call CHomeDir in ret (option_map (fun h => path_join h dir) home)
    | Some (dir, false) => ret (Some dir)
    | None =>
        let! home := call CHomeDir in
        ret (option_map (fun h => path_join h DEFAULT_BITCOIN_DATADIR) home)
    end in
  match data_dir_path with
  | None => ret (Err tt)
  | Some data_dir_path =>
      let data_dir_path_with_net := chain_dir data_dir_path network in
      ret (Ok (path_join data_dir_path_with_net (default ".cookie" cookie_file_name)))
  end.

Definition get_rpc_auth_from_cookie (data_dir : option (string * bool)) (network : option Network)
    (cookie_file_name : option string) : M (result (string * string) unit) :=
  let! cookie_path := get_cookie_path data_dir network cookie_file_name in
  match cookie_path with
  | Err _ => ret (Err tt)
  | Ok cookie_path =>
      let! cookie_contents := call (CReadFile cookie_path) in
      match cookie_contents with
      | None => ret (Err tt)
      | Some cookie_contents => parse_rpc_auth cookie_contents
      end
  end.

Definition get_rpc_auth_from_env_vars : M (result (string * string) unit) :=
  let! username := call (CEnvVar BITCOIND_RPC_USER_KEY) in
  let! password := call (CEnvVar BITCOIND_RPC_PASSWORD_KEY) in
  match username, password with
  | Some username, Some password => ret (Ok (username, password))
  | _, _ => ret (Err tt)
  end.

(** The pairs of the lines, the last one winning. *)
Fixpoint env_lines (ls : list string) (env_file_map : gmap string string)
  : M (result (gmap string string) unit) :=
  match ls with
  | [] => ret (Ok env_file_map)
  | line :: ls =>
      match splitn2 equals line with
      | [key; value] => env_lines ls (<[key := value]> env_file_map)
      | _ => println "ERROR: bad .env file format" ;;; ret (Err tt)
      end
  end.

Definition parse_env_file (env_file_name : option string) : M (result (gmap string string) unit) :=
  let env_file_path := default ".env"%string env_file_name in
  let! env_file_contents := call (CReadFile env_file_path) in
  match env_file_contents with
  | None => ret (Err tt)
  | Some env_file_contents => env_lines (lines env_file_contents) ∅
  end.

Definition get_rpc_auth_from_env_file (env_file_name : option string)
  : M (result (string * string) unit) :=
  let! env_file_map := parse_env_file env_file_name in
  match env_file_map with
  | Err _ => ret (Err tt)
  | Ok env_file_map =>
      match env_file_map !! BITCOIND_RPC_USER_KEY, env_file_map !! BITCOIND_RPC_PASSWORD_KEY with
      | Some username, Some password => ret (Ok (username, password))
      | _, _ => ret (Err tt)
      end
  end.

Definition NO_CREDENTIALS : string := "ERROR: unable to get bitcoind RPC username and password".

(** The chain of [or]: its arguments come first. *)
Definition fallback_credentials (network : Network) : M (result (string * string) unit) :=
  let! from_env_vars := get_rpc_auth_from_env_vars in
  let! from_env_file := get_rpc_auth_from_env_file None in
  let first := or_else from_env_vars from_env_file in
  let! from_cookie := get_rpc_auth_from_cookie None (Some network) None in
  let second := or_else first from_cookie in
  println NO_CREDENTIALS ;;;
  print_rpc_auth_help ;;;
  ret (or_else second (Err tt)).

Definition DEFAULT_PORT : Z := 9735.

(** The fourth argument is the port, when it is a number. *)
Definition listening_port (arg : option string) : Z * bool :=
  match option_map (parse_uint U16_MAX) arg with
  | Some (Ok p) => (p, true)
  | Some (Err _) => (DEFAULT_PORT, false)
  | None => (DEFAULT_PORT, false)
  end.

Definition parse_network (arg : option string) : comp Network :=
  match arg with
  | None => Done Testnet
  | Some net =>
      if String.eqb net "testnet" then Done Testnet
      else if String.eqb net "regtest" then Done Regtest
      else if String.eqb net "signet" then Done Signet
      else Panics ("Unsupported network provided. Options are: `regtest`, `testnet`, and `signet`. Got " +:+ net)
  end.

Definition parse_node_name (arg : option string) : comp bytes :=
  match arg with
  | Some s =>
      if 32 <? str_len s then Panics "Node Alias can not be longer than 32 bytes"
      else Done (as_bytes s ++ repeat 0 (32 - String.length s))
  | None => Done (repeat 0 32)
  end.

Definition parse_listen_addr (port : Z) (s : string) : comp NetAddress :=
  match IpAddr.from_str s with
  | Some (IpAddr.V4 a) => Done (NetIPv4 a port)
  | Some (IpAddr.V6 a) => Done (NetIPv6 a port)
  | None => Panics "Failed to parse announced-listen-addr into an IP address"
  end.

Fixpoint listen_addrs (port : Z) (args : list string) (acc : list NetAddress)
  : comp (list NetAddress) :=
  match args with
  | [] => Done acc
  | s :: args =>
      (let? a := parse_listen_addr port s in listen_addrs port args (acc ++ [a]))%comp
  end.

(** The credentials, once the network is known. *)
Definition credentials (bitcoind_rpc_info_parts : list string) (network : Network)
  : M (result (string * string) unit) :=
  match bitcoind_rpc_info_parts with
  | [_] => fallback_credentials network
  | [_; auth] => parse_rpc_auth auth
  | _ => println "ERROR: bad bitcoind RPC URL provided" ;;; ret (Err tt)
  end.

Definition parse_startup_args : M (result LdkUserInfo unit) :=
  let args := env_args in
  if (length args <? 4)%nat then println USAGE ;;; ret (Err tt)
  else
  let! bitcoind_rpc_info := expect UNWRAP_NONE (nth_error args 1) in
  let bitcoind_rpc_info_parts := rsplitn2 at_sign bitcoind_rpc_info in
  match split_on colon (nth 0 bitcoind_rpc_info_parts ""%string) with
  | [bitcoind_rpc_host; port] =>
      let! bitcoind_rpc_port := expect_result UNWRAP_ERR (parse_uint U16_MAX port) in
      let! ldk_storage_dir_path := expect UNWRAP_NONE (nth_error args 2) in
      let '(ldk_peer_listening_port, ldk_peer_port_set) := listening_port (nth_error args 3) in
      let arg_idx := if ldk_peer_port_set then 4%nat else 3%nat in
      let! network := lift (parse_network (nth_error args arg_idx)) in
      let! auth := credentials bitcoind_rpc_info_parts network in
      match auth with
      | Err _ => ret (Err tt)
      | Ok (username, password) =>
          let! name := lift (parse_node_name (nth_error args (arg_idx + 1))) in
          let arg_idx := if is_some (nth_error args (arg_idx + 1)) then (arg_idx + 1)%nat else arg_idx in
          let! addrs := lift (listen_addrs ldk_peer_listening_port (drop (arg_idx + 1) args) []) in
          ret (Ok {| bitcoind_rpc_username := username;
                     bitcoind_rpc_password := password;
                     bitcoind_rpc_port := bitcoind_rpc_port;
                     bitcoind_rpc_host := bitcoind_rpc_host;
                     ldk_storage_dir_path := ldk_storage_dir_path;
                     ldk_peer_listening_port := ldk_peer_listening_port;
                     ldk_announced_listen_addr := addrs;
                     ldk_announced_node_name := name;
                     info_network := network |})
      end
  | _ => println "ERROR: bad bitcoind RPC path provided" ;;; ret (Err tt)
  end.

(** ** Specification *)

(** The first argument, the argument of a network and the whole command line. *)
Definition rpc_arg (user password host : string) (port : Z) : string :=
  user +:+ ":" +:+ password +:+ "@" +:+ host +:+ ":" +:+ dec port.
Definition network_arg (n : Network) : string :=
  match n with Testnet => "testnet" | Regtest => "regtest" | Signet => "signet" | Bitcoin => "bitcoin" end.

(** What a file, the environment and the cookie make of the credentials. *)
Definition auth_of (s : string) : option (string * string) :=
  match split_on colon s with [u; p] => Some (u, p) | _ => None end.
Fixpoint pairs_of (ls : list string) (m : gmap string string) : option (gmap string string) :=
  match ls with
  | [] => Some m
  | line :: ls => match splitn2 equals line with [k; v] => pairs_of ls (<[k := v]> m) | _ => None end
  end.
Definition lookup_auth (get : string -> option string) : option (string * string) :=
  match get BITCOIND_RPC_USER_KEY, get BITCOIND_RPC_PASSWORD_KEY with
  | Some u, Some p => Some (u, p)
  | _, _ => None
  end.
Definition env_file_auth (contents : string) : option (string * string) :=
  m ← pairs_of (lines contents) ∅; lookup_auth (fun k => m !! k).
Definition cookie_path (home : string) (n : Network) : string :=
  path_join (chain_dir (path_join home DEFAULT_BITCOIN_DATADIR) (Some n)) ".cookie".

Definition to_result {A} (o : option A) : result A unit :=
  match o with Some a => Ok a | None => Err tt end.

Lemma env_lines_run ls m w :
  exists w', env_lines ls m w = Ret (to_result (pairs_of ls m)) w' /\ grows (fun _ => True) w w'.
Proof.
  revert m w. induction ls as [|line ls IH]; intros m w; cbn [env_lines pairs_of].
  - eexists. split; [done|]. reflexivity.
  - destruct (splitn2 equals line) as [|k [|v [|? ?]]]; try apply IH; mrun; eexists; (split; [done|]);
      by apply grows_log.
Qed.

Lemma parse_rpc_auth_run s w :
  exists w', parse_rpc_auth s w = Ret (to_result (auth_of s)) w' /\ grows (fun _ => True) w w'.
Proof.
  unfold parse_rpc_auth, auth_of. destruct (split_on colon s) as [|u [|p [|? ?]]]; mrun; eexists;
    (split; [done|]); first [by apply grows_log|reflexivity].
Qed.

Lemma listen_addrs_ipv4 port addrs acc :
  Forall (fun a => length a = 4%nat /\ Forall u8 a) addrs ->
  listen_addrs port (map IpAddr.ipv4_display addrs) acc = Done (acc ++ map (fun a => NetIPv4 a port) addrs).
Proof.
  intros Hf. revert acc. induction Hf as [|a addrs [Hl Ha] _ IH]; intros acc; cbn [map listen_addrs].
  - by rewrite app_nil_r.
  - unfold parse_listen_addr at 1. rewrite IpAddr.from_str_ipv4 by done. cbn [comp_bind].
    rewrite IH, <- app_assoc. done.
Qed.

Lemma parse_network_arg n : n <> Bitcoin -> parse_network (Some (network_arg n)) = Done n.
Proof. by destruct n. Qed.

Lemma port_of_network_arg n : listening_port (Some (network_arg n)) = (DEFAULT_PORT, false).
Proof. by destruct n. Qed.

Lemma port_of_dec p : fits U16_MAX p -> listening_port (Some (dec p)) = (p, true).
Proof. intros Hp. unfold listening_port. cbn [option_map]. by rewrite parse_uint_dec. Qed.

Lemma rpc_arg_parts user password host port :
  no_char at_sign host -> fits U16_MAX port ->
  rsplitn2 at_sign (rpc_arg user password host port) = [host +:+ ":" +:+ dec port; user +:+ ":" +:+ password].
Proof.
  intros Hh Hp. unfold rpc_arg, rsplitn2.
  assert (user +:+ ":" +:+ password +:+ "@" +:+ host +:+ ":" +:+ dec port
          = (user +:+ ":" +:+ password) +:+ String at_sign (host +:+ ":" +:+ dec port)) as ->.
  { by rewrite !string_append_assoc. }
  rewrite rsplit_once_app; [done|]. apply no_char_app. split; [done|]. apply no_char_app. split.
  - apply (bool_decide_unpack _). reflexivity.
  - apply all_digits_no_char; [done|]. apply dec_digits, Hp.
Qed.

Lemma split_pair a b :
  no_char colon a -> no_char colon b -> split_on colon (a +:+ ":" +:+ b) = [a; b].
Proof. intros Ha Hb. change (":" +:+ b) with (String colon b). by rewrite split_on_app, (split_on_no_char _ b). Qed.

(** The three sources against answers that do not depend on the history. *)
Section Sources.
Context (env file : string -> option string) (home : option string).
Context (He : forall h k, answer h _ (CEnvVar k) = env k).
Context (Hf : forall h p, answer h _ (CReadFile p) = file p).
Context (Hh : forall h, answer h _ CHomeDir = home).

Definition gives {A} (m : M A) (a : A) : Prop :=
  forall w, exists w', m w = Ret a w' /\ grows (fun _ => True) w w'.

Lemma env_vars_give : gives get_rpc_auth_from_env_vars (to_result (lookup_auth env)).
Proof using He.
  intros w. unfold get_rpc_auth_from_env_vars, lookup_auth. mrun. rewrite !He.
  destruct (env BITCOIND_RPC_USER_KEY); [destruct (env BITCOIND_RPC_PASSWORD_KEY)|]; mrun;
    (eexists; split; [done|]); etrans; by apply grows_log.
Qed.

Lemma env_file_gives :
  gives (get_rpc_auth_from_env_file None) (to_result (file ".env"%string ≫= env_file_auth)).
Proof using Hf.
  intros w. unfold get_rpc_auth_from_env_file, parse_env_file. cbn [default]. mrun. rewrite Hf.
  destruct (file ".env"%string) as [contents|]; mrun; [|eexists; split; [done|by apply grows_log]].
  match goal with |- context [bind (env_lines ?l ?m) _ ?w0] => destruct (env_lines_run l m w0) as (w1 & Hr & Hg) end.
  rewrite (bind_eq_Ret _ _ _ _ _ Hr). cbn [mbind option_bind]. unfold env_file_auth.
  exists w1. split; [|etrans; [by apply grows_log|exact Hg]].
  destruct (pairs_of _ _) as [m|]; [|done]. cbn [to_result mbind option_bind]. unfold lookup_auth.
  destruct (m !! BITCOIND_RPC_USER_KEY); [|done]. by destruct (m !! BITCOIND_RPC_PASSWORD_KEY).
Qed.

Lemma cookie_gives n :
  gives (get_rpc_auth_from_cookie None (Some n) None)
        (to_result (home ≫= fun h => file (cookie_path h n) ≫= auth_of)).
Proof using Hf Hh.
  intros w. unfold get_rpc_auth_from_cookie, get_cookie_path. mrun. rewrite Hh.
  destruct home as [h|]; cbn [option_map]; mrun; [|eexists; split; [done|by apply grows_log]].
  cbn [default mbind option_bind]. rewrite Hf. unfold cookie_path.
  destruct (file _) as [contents|]; mrun; [|eexists; split; [done|etrans; by apply grows_log]].
  match goal with |- context [parse_rpc_auth ?s ?w0] => destruct (parse_rpc_auth_run s w0) as (w1 & Hr & Hg) end.
  exists w1. split; [exact Hr|]. etrans; [|exact Hg]. etrans; by apply grows_log.
Qed.

End Sources.

(** ** Properties *)

(** C27: a command line that states a configuration is read back as exactly
    that configuration, without asking the environment for anything: the
    password may contain an [@], the port may be left out (the network is then
    the third argument and 9735 the port), the name is padded to 32 bytes and
    every address gets the listening port. *)
Theorem startup_args_read prog user password host port dir peer_port net name addrs w :
  env_args = [prog; rpc_arg user password host port; dir]
             ++ match peer_port with Some p => [dec p] | None => [] end
             ++ [network_arg net; name] ++ map IpAddr.ipv4_display addrs ->
  no_char colon user -> no_char colon password -> no_char colon host -> no_char at_sign host ->
  fits U16_MAX port -> (forall p, peer_port = Some p -> fits U16_MAX p) ->
  net <> Bitcoin -> str_len name <= 32 ->
  Forall (fun a => length a = 4%nat /\ Forall u8 a) addrs ->
  let listening := default 9735 peer_port in
  parse_startup_args w =
  Ret (Ok {| bitcoind_rpc_username := user; bitcoind_rpc_password := password;
             bitcoind_rpc_port := port; bitcoind_rpc_host := host;
             ldk_storage_dir_path := dir; ldk_peer_listening_port := listening;
             ldk_announced_listen_addr := map (fun a => NetIPv4 a listening) addrs;
             ldk_announced_node_name := as_bytes name ++ repeat 0 (32 - String.length name);
             info_network := net |}) w.
Proof.
  intros Hargs Hu Hpw Hh Hhat Hp Hpp Hn Hname Haddrs. unfold parse_startup_args. rewrite Hargs.
  assert (parse_node_name (Some name) = Done (as_bytes name ++ repeat 0 (32 - String.length name))) as Hnm.
  { unfold parse_node_name. by rewrite (proj2 (Z.ltb_ge _ _) Hname). }
  assert (no_char colon (dec port)) by (apply all_digits_no_char; [done|apply dec_digits, Hp]).
  assert (forall q, listen_addrs q (map IpAddr.ipv4_display addrs) [] = Done (map (fun a => NetIPv4 a q) addrs)) as Hl
    by (intros q; by apply listen_addrs_ipv4).
  destruct peer_port as [q|]; cbn [app length Nat.ltb Nat.leb nth_error]; mrun;
    rewrite rpc_arg_parts by done; cbn [nth]; rewrite split_pair by done; mrun; rewrite parse_uint_dec by done; mrun.
  - rewrite port_of_dec by (by apply Hpp). cbn [nth_error]. mrun. rewrite parse_network_arg by done. mrun.
    unfold credentials, parse_rpc_auth. rewrite split_pair by done. mrun. cbn [Nat.add nth_error is_some is_none negb drop].
    rewrite Hnm. mrun. rewrite Hl. by mrun.
  - rewrite port_of_network_arg. cbn [nth_error]. mrun. rewrite parse_network_arg by done. mrun.
    unfold credentials, parse_rpc_auth. rewrite split_pair by done. mrun. cbn [Nat.add nth_error is_some is_none negb drop].
    rewrite Hnm. mrun. rewrite Hl. by mrun.
Qed.

(** C38: when the command line carries no credentials the environment
    variables win over the .env file and that over the cookie of the chain's
    directory; but the error message is printed before the choice is made,
    also when credentials were found. *)
Theorem credentials_precedence n w env file home :
  (forall h k, answer h _ (CEnvVar k) = env k) ->
  (forall h p, answer h _ (CReadFile p) = file p) ->
  (forall h, answer h _ CHomeDir = home) ->
  let from_env := lookup_auth env in
  let from_file := file ".env"%string ≫= env_file_auth in
  let from_cookie := home ≫= fun h => file (cookie_path h n) ≫= auth_of in
  (exists w', fallback_credentials n w =
     Ret (to_result (match from_env with Some c => Some c | None =>
                     match from_file with Some c => Some c | None => from_cookie end end)) w')
  /\ Print (NO_CREDENTIALS +:+ nl) ∈ emitted (fallback_credentials n) w.
Proof.
  intros He Hf Hh. cbn zeta. unfold emitted, fallback_credentials.
  destruct (env_vars_give _ He w) as (w1 & H1 & G1). rewrite (bind_eq_Ret _ _ _ _ _ H1).
  destruct (env_file_gives _ Hf w1) as (w2 & H2 & G2). rewrite (bind_eq_Ret _ _ _ _ _ H2).
  destruct (cookie_gives _ _ Hf Hh n w2) as (w3 & H3 & G3). rewrite (bind_eq_Ret _ _ _ _ _ H3).
  assert (grows (fun _ => True) w w3) as (new & Ht & _) by (etrans; [|exact G3]; by etrans).
  mrun. split.
  - destruct (lookup_auth env), (file ".env"%string ≫= env_file_auth), (home ≫= _); by eexists.
  - cbn [final]. unfold print_rpc_auth_help. mrun. cbn [final trace log].
    rewrite Ht, <- !app_assoc, drop_app_length. in_list.
Qed.

End Args.

Example no_arguments_port : listening_port (Some "regtest"%string) = (9735, false).
Proof. reflexivity. Qed.
Example chain_cookie : cookie_path "/home/u" Signet = "/home/u/.bitcoin/signet/.cookie"%string.
Proof. reflexivity. Qed.
Example env_file :
  env_file_auth ("RPC_USER=u" +:+ nl +:+ "RPC_PASSWORD=p=q" +:+ nl) = Some ("u", "p=q")%string.
Proof. reflexivity. Qed.
Example bad_env_file : env_file_auth ("RPC_USER=u" +:+ nl +:+ nl +:+ "RPC_PASSWORD=p" +:+ nl) = None.
Proof. reflexivity. Qed.

Section Witnesses.
Import Mock.
Abbreviation MT := (mock_types_checks true).

(** The command line of Mock.v, with a name and an address. *)
#[local] Instance scenario_externals : @Externals MT := mock_with true "d"
  ["node"; "u:p@ss@host:18443"; "dir"; "regtest"; "alice"; "10.0.0.1"]%string.
#[local] Instance scenario_oracle : @Oracle MT := mock_oracle true (base_cfg true).

Lemma startup_args_read_witness :
  exists info, parse_startup_args (T := MT) (empty_world true) = Ret (Ok info) (empty_world true)
    /\ ldk_announced_listen_addr info = [NetIPv4 [10; 0; 0; 1] 9735].
Proof.
  eexists. split.
  - apply (startup_args_read (T := MT) "node" "u" "p@ss" "host" 18443 "dir" None Regtest "alice" [[10; 0; 0; 1]]);
      try done; first [by apply (bool_decide_unpack _) | repeat constructor; done].
  - reflexivity.
Defined.

#[local] Instance env_oracle : @Oracle MT := {|
  answer := fun h R c => match c in Call R return R with
                         | CEnvVar k => Some k
                         | CReadFile _ => Some "a:b"%string
                         | CHomeDir => Some "/root"%string
                         | c => mock_answer true (base_cfg true) h _ c
                         end |}.

Lemma credentials_precedence_witness :
  Print (NO_CREDENTIALS +:+ nl) ∈
    emitted (fallback_credentials (T := MT) (O := env_oracle) Regtest) (empty_world true).
Proof.
  apply (credentials_precedence (T := MT) (O := env_oracle) Regtest (empty_world true)
    Some (fun _ => Some "a:b"%string) (Some "/root"%string)); done.
Defined.

End Witnesses.
End Args.
