(* ===== verification/Bitcoind.v ===== *)
(** * bitcoind: RPC replies, fee estimates, broadcasting, logging

    convert.rs: the conversions of replies; bitcoind_client.rs: the table of
    fee estimates, one turn of the task that refreshes it, [FeeEstimator] and
    [BroadcasterInterface]; disk.rs: [FilesystemLogger]; cli.rs: [mine] (the request to bitcoind).

    The table is shared by atomics; a turn stores its three entries together
    at the end, so it is a function from a table to a table. *)

From Stdlib Require Import ZArith Lia Ascii String.
From stdpp Require Import base list strings gmap.
From S2P Require Import Prelude RustStd Floats Hex Swap Json Config World Effects Mock.

Open Scope Z_scope.

Module Bitcoind.

(** ** convert.rs *)

Definition new_address (v : Json) : comp string := unwrap (Json.as_str v).

Record FeeResponse := { feerate_sat_per_kw : option Z; errored : bool }.

(** From BTC per 1000 virtual bytes to satoshis per 1000 weight units. *)
Definition sat_per_kw (feerate_btc_per_kvbyte : f64) : Z :=
  f64_as_uint U32_MAX
    (f64_round (f64_div (f64_mul feerate_btc_per_kvbyte (f64_of_Z 100000000)) (f64_of_Z 4))).

Definition fee_response (v : Json) : comp FeeResponse :=
  Done {| errored := negb (Json.is_null (Json.index "errors" v));
          feerate_sat_per_kw :=
            match Json.as_f64 (Json.index "feerate" v) with
            | Some feerate_btc_per_kvbyte => Some (sat_per_kw feerate_btc_per_kvbyte)
            | None => None
            end |}.

Record BlockchainInfo := { latest_height : Z; latest_blockhash : bytes; chain : string }.

Section Bitcoind.
Context `{T : Types} {X : @Externals T} {O : @Oracle T}.
Local Open Scope m_scope.

Definition blockchain_info (v : Json) : comp BlockchainInfo :=
  (let? height := unwrap (Json.as_u64 (Json.index "blocks" v)) in
   let? hash := unwrap (Json.as_str (Json.index "bestblockhash" v)) in
   let? hash := expect_some UNWRAP_ERR (block_hash_from_hex hash) in
   let? chain := unwrap (Json.as_str (Json.index "chain" v)) in
   Done {| latest_height := height; latest_blockhash := hash; chain := chain |})%comp.

Definition generated (v : Json) : comp (list string) :=
  expect_some "valid generated response" (Json.string_list v).

(** [RpcClient::call_method::<T>]: the reply goes through [T]'s conversion. *)
Definition call_method {A} (method : string) (params : list Json) (conv : Json -> comp A)
  : M (result A IoError) :=
  let! reply := call (CRpc method params) in
  match reply with
  | Ok v => let! a := lift (conv v) in ret (Ok a)
  | Err e => ret (Err e)
  end.

Definition get_new_address : M Address :=
  let! addr := call_method "getnewaddress" [JString "LDK output address"] new_address in
  let! addr := expect_result UNWRAP_ERR addr in
  expect UNWRAP_ERR (address_from_str addr).

Definition get_blockchain_info : M BlockchainInfo :=
  let! info := call_method "getblockchaininfo" [] blockchain_info in
  expect_result UNWRAP_ERR info.

Definition generate_to_adress (blocks : Z) (address : string) : M (list string) :=
  let! res := call_method "generatetoaddress" [JNumber (PosInt blocks); JString address] generated in
  expect_result UNWRAP_ERR res.

(** cli.rs *)
Definition mine (num_blocks : Z) : M unit :=
  let! address := get_new_address in
  generate_to_adress num_blocks (address_to_string address) ;;;
  ret tt.

(** ** The fee table *)

Inductive Target : Set := Background | Normal | HighPriority.

Record FeeTable := { background : Z; normal : Z; high_priority : Z }.

Definition MIN_FEERATE : Z := 253.

(** The table [new] starts with. *)
Definition initial_fees : FeeTable :=
  {| background := MIN_FEERATE; normal := 2000; high_priority := 5000 |}.

(** [BitcoindClient::new]. *)
Definition NEW_FAILED : string :=
  "Failed to make initial call to bitcoind - please check your RPC user/password and access settings".
Definition new_client (host : string) (port : Z) (rpc_user rpc_password : string)
  : M (result FeeTable string) :=
  let! connected := call (CRpcConnect host port (base64_encode (rpc_user +:+ ":" +:+ rpc_password))) in
  match connected with
  | Err e => ret (Err e)
  | Ok _ =>
      let! dummy := call_method "getblockchaininfo" [] blockchain_info in
      match dummy with
      | Err _ => ret (Err NEW_FAILED)
      | Ok _ => ret (Ok initial_fees)
      end
  end.

(** One of the three estimates. *)
Definition estimate (conf_target : Z) (mode : string) (fallback : Z) : M Z :=
  let! resp := call_method "estimatesmartfee" [JNumber (PosInt conf_target); JString mode] fee_response in
  let! resp := expect_result UNWRAP_ERR resp in
  ret (match feerate_sat_per_kw resp with
       | Some feerate => Z.max feerate MIN_FEERATE
       | None => fallback
       end).

(** One turn of [poll_for_fee_estimates]. *)
Definition poll_for_fee_estimates (fees : FeeTable) : M FeeTable :=
  let! background_estimate := estimate 144 "ECONOMICAL" MIN_FEERATE in
  let! normal_estimate := estimate 18 "ECONOMICAL" 2000 in
  let! high_prio_estimate := estimate 6 "CONSERVATIVE" 5000 in
  let fees := {| background := background_estimate; normal := normal fees;
                 high_priority := high_priority fees |} in
  let fees := {| background := background fees; normal := normal_estimate;
                 high_priority := high_priority fees |} in
  let fees := {| background := background fees; normal := normal fees;
                 high_priority := high_prio_estimate |} in
  call (CSleepMs 60000) ;;;
  ret fees.

Fixpoint poll_many (turns : nat) (fees : FeeTable) : M FeeTable :=
  match turns with
  | 0%nat => ret fees
  | S turns => let! fees := poll_for_fee_estimates fees in poll_many turns fees
  end.

(** [FeeEstimator] *)
Definition get_est_sat_per_1000_weight (fees : FeeTable) (confirmation_target : Target) : Z :=
  match confirmation_target with
  | Background => background fees
  | Normal => normal fees
  | HighPriority => high_priority fees
  end.

(** ** [FilesystemLogger] *)

Definition logs_path : string := ldk_data_dir +:+ "/logs".
Definition new_logger : M unit :=
  let! created := call (CCreateDirAll logs_path) in expect_true UNWRAP_ERR created.

(** [{:<5}] *)
Definition pad5 (s : string) : string :=
  s +:+ string_of_list_ascii (repeat " "%char (5 - String.length s)).

Definition log_line (now level module_path : string) (line : Z) (raw_log : string) : string :=
  now +:+ " " +:+ pad5 level +:+ " [" +:+ module_path +:+ ":" +:+ dec line +:+ "] " +:+ raw_log +:+ nl.

Definition logger_log (level module_path : string) (line : Z) (raw_log : string) : M unit :=
  let! now := call CUtcNow in
  let! appended := fs_append (logs_path +:+ "/logs.txt") (log_line now level module_path line raw_log) in
  expect_true UNWRAP_ERR appended.

(** ** [BroadcasterInterface] *)

Definition BROADCAST_FAILED : string :=
  "Warning, failed to broadcast a transaction, this is likely okay but may indicate an error: ".

Definition broadcast_transaction (tx : Transaction) : M unit := spawn (TBroadcast tx).

(** The spawned task. *)
Definition send_raw_transaction (tx : Transaction) : M unit :=
  let tx_serialized := serialize_hex tx in
  let! sent := call (CSendRawTransaction tx_serialized) in
  match sent with
  | Ok _ => ret tt
  | Err e =>
      let! err_str := expect UNWRAP_NONE (into_inner e) in
      logger_log "ERROR" "ldk_sample::bitcoind_client" 232
        (BROADCAST_FAILED +:+ err_str +:+ nl +:+ "Transaction: " +:+ tx_serialized) ;;;
      print (BROADCAST_FAILED +:+ err_str +:+ nl +:+ "> ")
  end.

(** ** Specification *)

Definition fee_ok (fee : Z) : Prop := MIN_FEERATE <= fee <= U32_MAX.
Definition fees_ok (fees : FeeTable) : Prop :=
  forall target, fee_ok (get_est_sat_per_1000_weight fees target).

(** What a reply makes of an estimate. *)
Definition estimate_of (reply : Json) (fallback : Z) : Z :=
  match Json.as_f64 (Json.index "feerate" reply) with
  | Some f => Z.max (sat_per_kw f) MIN_FEERATE
  | None => fallback
  end.

Lemma estimate_of_ok reply fallback : fee_ok fallback -> fee_ok (estimate_of reply fallback).
Proof.
  unfold fee_ok, estimate_of, sat_per_kw, MIN_FEERATE. intros Hf. destruct (Json.as_f64 _) as [f|]; [|done].
  match goal with |- context [f64_as_uint _ ?g] => pose proof (f64_as_uint_fits U32_MAX g ltac:(by unfold U32_MAX)) as Hx end.
  unfold fits, U32_MAX in *. lia.
Qed.

Lemma estimate_run conf mode fallback w :
  let m := CRpc "estimatesmartfee" [JNumber (PosInt conf); JString mode] in
  estimate conf mode fallback w =
  match answer (trace w) _ m with
  | Ok v => Ret (estimate_of v fallback) (log (Ev m (Ok v)) w)
  | Err e => Panic UNWRAP_ERR (log (Ev m (Err e)) w)
  end.
Proof.
  unfold estimate, call_method. mrun. destruct (answer _ _ _) as [v|e]; mrun; [|done].
  cbn [fee_response]. mrun. unfold estimate_of. cbn [feerate_sat_per_kw]. by destruct (Json.as_f64 _).
Qed.

Lemma initial_fees_ok : fees_ok initial_fees.
Proof. intros []; unfold fee_ok; cbn; unfold MIN_FEERATE, U32_MAX; lia. Qed.

Lemma poll_ok fees w fees' w' : poll_for_fee_estimates fees w = Ret fees' w' -> fees_ok fees'.
Proof.
  unfold poll_for_fee_estimates. intros Hr.
  apply bind_Ret_inv in Hr as (a & w1 & Ha & Hr). apply bind_Ret_inv in Hr as (b & w2 & Hb & Hr).
  apply bind_Ret_inv in Hr as (c & w3 & Hc & Hr). mrun_in Hr. injection Hr as <- <-.
  rewrite estimate_run in Ha, Hb, Hc.
  destruct (answer (trace w) _ _); [|done]. destruct (answer (trace w1) _ _); [|done].
  destruct (answer (trace w2) _ _); [|done]. injection Ha as <- _. injection Hb as <- _. injection Hc as <- _.
  intros []; cbn; apply estimate_of_ok; unfold fee_ok, MIN_FEERATE, U32_MAX; lia.
Qed.

(** ** Properties *)

(** Every fee estimate the node gives LDK, at any time, is between the
    253 satoshis per 1000 weight units LDK asks for and what fits in 32 bits,
    whatever bitcoind replied: negative, huge, infinite or missing rates
    included. *)
Theorem fee_estimates_bounded turns w fees w' target :
  poll_many turns initial_fees w = Ret fees w' ->
  253 <= get_est_sat_per_1000_weight fees target <= U32_MAX.
Proof.
  intros Hr. cut (fees_ok fees); [intros Hf; apply Hf|].
  assert (forall f w, fees_ok f -> poll_many turns f w = Ret fees w' -> fees_ok fees) as Hgen; [|by eapply Hgen, Hr; apply initial_fees_ok].
  clear Hr w. induction turns as [|n IH]; intros f w Hf Hr; [by injection Hr as <- _|].
  cbn in Hr. apply bind_Ret_inv in Hr as (f1 & w1 & Hp & Hr). eapply IH; [|exact Hr]. by eapply poll_ok.
Qed.

(** A turn of the poller asks for the three estimates in order and stores
    for each the rate of the reply raised to the minimum, or its default when
    the reply has no rate; a failed request brings the node down. *)
Theorem poll_turn_spec fees w :
  let ask h conf mode := answer h _ (CRpc "estimatesmartfee" [JNumber (PosInt conf); JString mode]) in
  let ev conf mode r := Ev (CRpc "estimatesmartfee" [JNumber (PosInt conf); JString mode]) r in
  let r1 := ask (trace w) 144 "ECONOMICAL"%string in
  let h1 := trace w ++ [ev 144 "ECONOMICAL"%string r1] in
  let r2 := ask h1 18 "ECONOMICAL"%string in
  let h2 := h1 ++ [ev 18 "ECONOMICAL"%string r2] in
  let r3 := ask h2 6 "CONSERVATIVE"%string in
  match r1, r2, r3 with
  | Ok v1, Ok v2, Ok v3 => exists w', poll_for_fee_estimates fees w =
      Ret {| background := estimate_of v1 253; normal := estimate_of v2 2000;
             high_priority := estimate_of v3 5000 |} w'
  | _, _, _ => panicked (poll_for_fee_estimates fees w) = true
  end.
Proof.
  cbn zeta. unfold poll_for_fee_estimates.
  pose proof (estimate_run 144 "ECONOMICAL" MIN_FEERATE w) as H1. cbn zeta in H1.
  destruct (answer (trace w) _ _) as [v1|e]; [|by rewrite (bind_eq_Panic _ _ _ _ _ H1)].
  rewrite (bind_eq_Ret _ _ _ _ _ H1).
  match type of H1 with _ = Ret _ ?w1 => pose proof (estimate_run 18 "ECONOMICAL" 2000 w1) as H2 end. cbn [trace log] in H2.
  destruct (answer (trace w ++ _) _ _) as [v2|e]; [|by rewrite (bind_eq_Panic _ _ _ _ _ H2)].
  rewrite (bind_eq_Ret _ _ _ _ _ H2).
  match type of H2 with _ = Ret _ ?w2 => pose proof (estimate_run 6 "CONSERVATIVE" 5000 w2) as H3 end. cbn [trace log] in H3.
  destruct (answer ((trace w ++ _) ++ _) _ _) as [v3|e]; [|by rewrite (bind_eq_Panic _ _ _ _ _ H3)].
  rewrite (bind_eq_Ret _ _ _ _ _ H3). mrun. by eexists.
Qed.

(** C39: the broadcast task reports a failure and goes on: the log file grows by
    one line, with the time, the error and the transaction in hex, and the error
    is printed.  But an error of the operating system (a refused connection, a
    timeout) has no inner error: unwrapping it brings the node down, with
    nothing logged or printed. *)
Theorem broadcast_failure tx w e :
  let log_file := (ldk_data_dir +:+ "/logs") +:+ "/logs.txt" in
  let warning := "Warning, failed to broadcast a transaction, this is likely okay but may indicate an error: "%string in
  answer (trace w) _ (CSendRawTransaction (serialize_hex tx)) = Err e ->
  (forall h p c, answer h _ (CFsAppend p c) = true) ->
  match e with
  | Custom message => exists w' now, send_raw_transaction tx w = Ret tt w'
      /\ Ev CUtcNow now ∈ emitted (send_raw_transaction tx) w
      /\ fs w' = <[log_file := default EmptyString (fs w !! log_file)
           +:+ (now +:+ " ERROR [ldk_sample::bitcoind_client:232] " +:+ warning +:+ message +:+ nl
                +:+ "Transaction: " +:+ serialize_hex tx +:+ nl)]> (fs w)
      /\ Print (warning +:+ message +:+ nl +:+ "> ") ∈ emitted (send_raw_transaction tx) w
  | Os _ => exists w', send_raw_transaction tx w = Panic UNWRAP_NONE w'
      /\ emitted (send_raw_transaction tx) w = [Ev (CSendRawTransaction (serialize_hex tx)) (Err e)]
      /\ fs w' = fs w
  end.
Proof.
  intros log_file warning He Ha. unfold emitted, send_raw_transaction. rewrite bind_call, He.
  destruct e as [message|d]; cbn [into_inner].
  - unfold logger_log, fs_append. mrun. rewrite Ha. mrun. eexists _, _. split; [reflexivity|].
    cbn [fs upd_fs log final trace]. rewrite <- !app_assoc, drop_app_length.
    split; [in_list|]. split; [|in_list]. fold log_file. do 2 f_equal. unfold log_line.
    change (pad5 "ERROR") with "ERROR"%string. change (dec 232) with "232"%string.
    subst warning. unfold BROADCAST_FAILED. by rewrite !string_append_assoc.
  - mrun. eexists. split; [reflexivity|]. cbn [final trace log]. by rewrite drop_app_length.
Qed.

End Bitcoind.

(** One BTC per 1000 virtual bytes, the default relay fee, rates that round. *)
Example kw_one : sat_per_kw (f64_of_Z 1) = 25000000.
Proof. reflexivity. Qed.
Example kw_relay : sat_per_kw (f64_of_decimal false 1 (-5)) = 250.
Proof. reflexivity. Qed.
Example kw_half : sat_per_kw (f64_of_decimal false 1002 (-8)) = 251.
Proof. reflexivity. Qed.
Example kw_negative : sat_per_kw (f64_of_decimal true 1 0) = 0.
Proof. reflexivity. Qed.

Section Witnesses.
Import Mock.
Abbreviation MT := (mock_types_checks true).
#[local] Instance scenario_externals : @Externals MT := mock_externals true.
#[local] Instance scenario_oracle : @Oracle MT := mock_oracle true (base_cfg true).

Lemma fee_estimates_bounded_witness :
  253 <= get_est_sat_per_1000_weight {| background := 25000000; normal := 25000000; high_priority := 25000000 |}
           Normal <= U32_MAX.
Proof.
  apply (fee_estimates_bounded (T := MT) 2 (empty_world true) _
    (final (poll_many (T := MT) 2 initial_fees (empty_world true)))).
  vm_compute. reflexivity.
Defined.

Definition refused : IoError := Os "Connection refused (os error 111)".
#[local] Instance refusing_oracle : @Oracle MT := {|
  answer := fun h R c => match c in Call R return R with
                         | CSendRawTransaction _ => Err refused
                         | c => mock_answer true (base_cfg true) h _ c
                         end |}.
Lemma broadcast_failure_witness :
  exists w', send_raw_transaction (T := MT) (O := refusing_oracle) 7 (empty_world true) = Panic UNWRAP_NONE w'.
Proof.
  destruct (broadcast_failure (T := MT) (O := refusing_oracle) 7 (empty_world true) refused eq_refl
           (fun _ _ _ => eq_refl)) as (w' & H & _). exists w'. exact H.
Defined.
End Witnesses.
End Bitcoind.
