(* ===== verification/Payments.v ===== *)
(** * Payments: the payment tables and everything that changes them

    main.rs: the [PaymentClaimable], [PaymentClaimed], [PaymentSent] and
    [PaymentFailed] arms of [handle_ldk_events]; cli.rs: [send_payment],
    [keysend], [get_invoice], [invoice_status] and [list_payments].

    The abstract specification is a pair of per-hash automata ([out_step] for
    outbound payments, [in_step] for inbound ones); the refinement lemmas
    show that every handler is a step of them. *)

From Stdlib Require Import ZArith Lia Ascii String.
From stdpp Require Import base list strings gmap.
From S2P Require Import Prelude RustStd Hex Swap World Config Effects Mock.

Open Scope Z_scope.

Module Payments.

(** [PaymentPurpose] of lightning. *)
Inductive PaymentPurpose :=
| InvoicePayment (payment_preimage : option bytes) (payment_secret : bytes)
| SpontaneousPayment (preimage : bytes).

Section Payments.
Context `{T : Types} {X : @Externals T} {O : @Oracle T}.
Local Open Scope m_scope.

(** [impl Display for MillisatAmount] *)
Definition millisat_display (a : option Z) : string :=
  match a with Some amt => dec amt | None => "unknown" end.

Definition debug_str (s : string) : string := dquote +:+ s +:+ dquote.

(** [Event::PaymentClaimable] *)
Definition payment_claimable (payment_hash : PaymentHash) (purpose : PaymentPurpose)
    (amount_msat : Z) : M unit :=
  println (nl +:+ "EVENT: received payment from payment hash " +:+ Hex.hex_str payment_hash
           +:+ " of " +:+ dec amount_msat +:+ " millisatoshis") ;;;
  print "> " ;;;
  let payment_preimage := match purpose with
                          | InvoicePayment payment_preimage _ => payment_preimage
                          | SpontaneousPayment preimage => Some preimage
                          end in
  let! payment_preimage := lift (unwrap payment_preimage) in
  call (CClaimFunds payment_preimage).

(** [Event::PaymentClaimed] *)
Definition payment_claimed (payment_hash : PaymentHash) (purpose : PaymentPurpose)
    (amount_msat : Z) : M unit :=
  println (nl +:+ "EVENT: claimed payment from payment hash " +:+ Hex.hex_str payment_hash
           +:+ " of " +:+ dec amount_msat +:+ " millisatoshis") ;;;
  print "> " ;;;
  let '(payment_preimage, payment_secret) :=
    match purpose with
    | InvoicePayment payment_preimage payment_secret => (payment_preimage, Some payment_secret)
    | SpontaneousPayment preimage => (Some preimage, None)
    end in
  let! payments := gets inbound_payments in
  match payments !! payment_hash with
  | Some payment =>
      modify (upd_inbound (<[payment_hash := {|
        preimage := payment_preimage; secret := payment_secret;
        status := Succeeded; amt_msat := amt_msat payment |}]>))
  | None =>
      modify (upd_inbound (<[payment_hash := {|
        preimage := payment_preimage; secret := payment_secret;
        status := Succeeded; amt_msat := Some amount_msat |}]>))
  end ;;;
  println "Event::PaymentClaimed end" ;;;
  modify (upd_maker (delete payment_hash)).

(** [Event::PaymentSent]: a scan of the whole table. *)
Definition payment_sent (payment_preimage : bytes) (payment_hash : PaymentHash)
    (fee_paid_msat : option Z) : M unit :=
  let! payments := gets outbound_payments in
  for_each (map_to_list payments) (fun '(hash, payment) =>
    if decide (hash = payment_hash) then
      modify (upd_outbound (<[hash := {|
        preimage := Some payment_preimage; secret := secret payment;
        status := Succeeded; amt_msat := amt_msat payment |}]>)) ;;;
      println (nl +:+ "EVENT: successfully sent payment of "
               +:+ millisat_display (amt_msat payment) +:+ " millisatoshis"
               +:+ (match fee_paid_msat with
                    | Some fee => " (fee " +:+ dec fee +:+ " msat)"
                    | None => ""
                    end)
               +:+ " from payment hash " +:+ debug_str (Hex.hex_str payment_hash)
               +:+ " with preimage " +:+ debug_str (Hex.hex_str payment_preimage)) ;;;
      print "> "
    else ret tt) ;;;
  print "> ".

(** [Event::PaymentFailed]; [reason] is the [Debug] text of the reason. *)
Definition payment_failed (payment_hash : PaymentHash) (reason : option string) : M unit :=
  print (nl +:+ "EVENT: Failed to send payment to payment hash "
         +:+ debug_str (Hex.hex_str payment_hash) +:+ ": "
         +:+ (match reason with Some r => r | None => "RetriesExhausted" end)) ;;;
  print "> " ;;;
  let! payments := gets outbound_payments in
  match payments !! payment_hash with
  | Some payment =>
      modify (upd_outbound (<[payment_hash := {|
        preimage := preimage payment; secret := secret payment;
        status := Failed; amt_msat := amt_msat payment |}]>))
  | None => ret tt
  end.

(** The common end of the functions that initiate a payment. *)
Definition record_outbound (payment_hash : PaymentHash) (info : PaymentInfo) : M unit :=
  modify (upd_outbound (<[payment_hash := info]>)).

(** [send_payment] up to the lock on the payment table... *)
Definition send_payment_attempt (invoice : Invoice) : M HTLCStatus :=
  let payment_hash := invoice_payment_hash invoice in
  match invoice_rgb_contract_id invoice with
  | Some contract_id =>
      let! amt := lift (unwrap (invoice_rgb_amount invoice)) in
      call (CWriteRgbPaymentInfo payment_hash contract_id amt (Some amt))
  | None => ret tt
  end ;;;
  let! res := call (CPayInvoice invoice 10) in
  match res with
  | Ok _payment_id =>
      let payee_pubkey := invoice_payee invoice in
      let! amt := lift (unwrap (invoice_amount_msat invoice)) in
      println ("EVENT: initiated sending " +:+ dec amt +:+ " msats to "
               +:+ pk_to_string payee_pubkey) ;;;
      print "> " ;;;
      ret Pending
  | Err e =>
      println ("ERROR: failed to send payment: " +:+ e) ;;;
      print "> " ;;;
      ret Failed
  end.

(** ... and the record it then inserts. *)
Definition send_payment_info (invoice : Invoice) (st : HTLCStatus) : PaymentInfo :=
  {| preimage := None; secret := Some (invoice_payment_secret invoice); status := st;
     amt_msat := invoice_amount_msat invoice |}.

Definition send_payment (invoice : Invoice) : M unit :=
  let! st := send_payment_attempt invoice in
  record_outbound (invoice_payment_hash invoice) (send_payment_info invoice st).

Definition keysend (payee_pubkey : PublicKey) (amt_msat : Z)
    (rgb_payment : option (ContractId * Z)) : M unit :=
  let! payment_preimage := call CSecureRandomBytes in
  let payment_hash := sha256 payment_preimage in
  match rgb_payment with
  | Some (contract_id, amt_rgb) =>
      call (CWriteRgbPaymentInfo payment_hash contract_id amt_rgb (Some amt_rgb))
  | None => ret tt
  end ;;;
  let! res := call (CSendSpontaneousRetry payment_preimage payment_hash payee_pubkey 40 amt_msat 10) in
  let! st :=
    match res with
    | Ok _payment_hash =>
        println ("EVENT: initiated sending " +:+ dec amt_msat +:+ " msats to "
                 +:+ pk_to_string payee_pubkey) ;;;
        print "> " ;;;
        ret Pending
    | Err e =>
        println ("ERROR: failed to send payment: " +:+ e) ;;;
        print "> " ;;;
        ret Failed
    end in
  record_outbound payment_hash
    {| preimage := None; secret := None; status := st; amt_msat := Some amt_msat |}.

Definition currency_of (n : Network) : Currency :=
  match n with
  | Bitcoin => CurBitcoin
  | Testnet => CurBitcoinTestnet
  | Regtest => CurRegtest
  | Signet => CurSignet
  end.

(** [get_invoice]: the payment table stays locked from before the invoice is
    created until it is recorded. *)
Definition get_invoice (amt_msat : Z) (expiry_secs : Z) (contract_id : option ContractId)
    (amt_rgb : option Z) : M unit :=
  let currency := currency_of network in
  let! res := call (CCreateInvoice currency (Some amt_msat) "ldk-tutorial-node" expiry_secs
                      contract_id amt_rgb) in
  let! invoice :=
    match res with
    | Ok inv => println ("SUCCESS: generated invoice: " +:+ invoice_to_string inv) ;;; ret inv
    | Err e => println ("ERROR: failed to create invoice: " +:+ e) ;;; leave
    end in
  modify (upd_inbound (<[invoice_payment_hash invoice := {|
    preimage := None; secret := Some (invoice_payment_secret invoice);
    status := Pending; amt_msat := Some amt_msat |}]>)).

Definition invoice_status (invoice : Invoice) : M unit :=
  let! inbound := gets inbound_payments in
  match inbound !! invoice_payment_hash invoice with
  | Some v =>
      let! status_str :=
        match status v with
        | Pending => let! expired := call (CInvoiceExpired invoice) in
                     ret (if expired then "expired" else "pending")%string
        | Succeeded => ret "succeeded"%string
        | Failed => ret "failed"%string
        end in
      println status_str
  | None => println "ERROR: unknown invoice"
  end.

Definition status_display (s : HTLCStatus) : string :=
  match s with Pending => "pending" | Succeeded => "succeeded" | Failed => "failed" end.

Definition tab2 : string := tab +:+ tab.

(** One entry of [list_payments], printed in both loops. *)
Definition print_payment (direction : string) (p : PaymentHash * PaymentInfo) : M unit :=
  println "" ;;;
  println (tab +:+ "{") ;;;
  println (tab2 +:+ "amount_millisatoshis: " +:+ millisat_display (amt_msat (snd p)) +:+ ",") ;;;
  println (tab2 +:+ "payment_hash: " +:+ Hex.hex_str (fst p) +:+ ",") ;;;
  println (tab2 +:+ "htlc_direction: " +:+ direction +:+ ",") ;;;
  println (tab2 +:+ "htlc_status: " +:+ status_display (status (snd p)) +:+ ",") ;;;
  println (tab +:+ "},").

Definition list_payments : M unit :=
  let! inbound := gets inbound_payments in
  let! outbound := gets outbound_payments in
  print "[" ;;;
  for_each (map_to_list inbound) (print_payment "inbound") ;;;
  for_each (map_to_list outbound) (print_payment "outbound") ;;;
  println "]".

(** ** Abstract specification: the payment automata *)

Definition settle (pre : bytes) (p : PaymentInfo) : PaymentInfo :=
  {| preimage := Some pre; secret := secret p; status := Succeeded; amt_msat := amt_msat p |}.
Definition fail (p : PaymentInfo) : PaymentInfo :=
  {| preimage := preimage p; secret := secret p; status := Failed; amt_msat := amt_msat p |}.

(** Outbound: a payment is initiated as pending or failed, with no preimage; a
    known payment is settled by a preimage or failed. *)
Inductive out_step : gmap PaymentHash PaymentInfo -> gmap PaymentHash PaymentInfo -> Prop :=
| out_initiate m h p :
    preimage p = None -> status p <> Succeeded -> out_step m (<[h := p]> m)
| out_settle m h p pre : m !! h = Some p -> out_step m (<[h := settle pre p]> m)
| out_fail m h p : m !! h = Some p -> out_step m (<[h := fail p]> m).

(** Inbound: a payment is requested by an invoice, and claimed; claiming an
    unknown payment records it. *)
Inductive in_step : gmap PaymentHash PaymentInfo -> gmap PaymentHash PaymentInfo -> Prop :=
| in_request m h s amt :
    in_step m (<[h := {| preimage := None; secret := Some s; status := Pending; amt_msat := Some amt |}]> m)
| in_claim m h pre s amt :
    in_step m (<[h := {| preimage := pre; secret := s; status := Succeeded;
                         amt_msat := match m !! h with Some p => amt_msat p | None => Some amt end |}]> m).

Definition opt_step {A} (R : A -> A -> Prop) (a b : A) : Prop := a = b \/ R a b.

(** A succeeded outbound payment has a preimage. *)
Definition out_inv (m : gmap PaymentHash PaymentInfo) : Prop :=
  forall h p, m !! h = Some p -> status p = Succeeded -> is_Some (preimage p).

(** An inbound payment has not failed, and a pending one has a payment secret. *)
Definition in_inv (m : gmap PaymentHash PaymentInfo) : Prop :=
  forall h p, m !! h = Some p ->
    status p <> Failed /\ (status p = Pending -> is_Some (secret p) /\ preimage p = None).

(** The operations of this file, as one interface to the tables. *)
Inductive PaymentOp :=
| OpClaimable (h : PaymentHash) (purpose : PaymentPurpose) (amount_msat : Z)
| OpClaimed (h : PaymentHash) (purpose : PaymentPurpose) (amount_msat : Z)
| OpSent (pre : bytes) (h : PaymentHash) (fee : option Z)
| OpFailed (h : PaymentHash) (reason : option string)
| OpSendPayment (inv : Invoice)
| OpKeysend (pk : PublicKey) (amt : Z) (rgb : option (ContractId * Z))
| OpGetInvoice (amt expiry : Z) (cid : option ContractId) (rgb : option Z)
| OpInvoiceStatus (inv : Invoice)
| OpListPayments.

Definition run_op (op : PaymentOp) : M unit :=
  match op with
  | OpClaimable h purpose amount_msat => payment_claimable h purpose amount_msat
  | OpClaimed h purpose amount_msat => payment_claimed h purpose amount_msat
  | OpSent pre h fee => payment_sent pre h fee
  | OpFailed h reason => payment_failed h reason
  | OpSendPayment inv => send_payment inv
  | OpKeysend pk amt rgb => keysend pk amt rgb
  | OpGetInvoice amt expiry cid rgb => get_invoice amt expiry cid rgb
  | OpInvoiceStatus inv => invoice_status inv
  | OpListPayments => list_payments
  end.

(** ** Lemmas *)

(** What [payment_sent] prints for a known payment. *)
Definition sent_message (pre : bytes) (h : PaymentHash) (fee : option Z) (p : PaymentInfo) : string :=
  nl +:+ "EVENT: successfully sent payment of "
  +:+ millisat_display (amt_msat p) +:+ " millisatoshis"
  +:+ (match fee with Some fee => " (fee " +:+ dec fee +:+ " msat)" | None => "" end)
  +:+ " from payment hash " +:+ debug_str (Hex.hex_str h)
  +:+ " with preimage " +:+ debug_str (Hex.hex_str pre).

(** In a table listed as pairs, a key occurs once: the list splits at it. *)
Lemma map_to_list_split (m : gmap PaymentHash PaymentInfo) h p :
  m !! h = Some p ->
  exists l1 l2, map_to_list m = l1 ++ (h, p) :: l2 /\ forall q, (h, q) ∉ l1 ++ l2.
Proof.
  intros Hp. apply elem_of_map_to_list in Hp as Hin.
  apply list_elem_of_split in Hin as (l1 & l2 & Hl). exists l1, l2. split; [done|].
  intros q Hq. pose proof (NoDup_fst_map_to_list m) as Hnd. rewrite Hl in Hnd.
  rewrite fmap_app, fmap_cons in Hnd. apply NoDup_app in Hnd as (_ & Hd & Hnd).
  apply NoDup_cons in Hnd as [Hn _]. apply elem_of_app in Hq as [Hq|Hq].
  - apply (Hd h); [|by left]. by apply (list_elem_of_fmap_2 fst _ (h, q)).
  - apply Hn. by apply (list_elem_of_fmap_2 fst _ (h, q)).
Qed.

Lemma payment_sent_known pre h fee p w :
  outbound_payments w !! h = Some p ->
  payment_sent pre h fee w =
  Ret tt (log (Print "> ") (log (Print "> ") (log (Print (sent_message pre h fee p +:+ nl))
    (upd_outbound (<[h := settle pre p]>) w)))).
Proof.
  intros Hp. unfold payment_sent. mrun.
  destruct (map_to_list_split _ _ _ Hp) as (l1 & l2 & -> & Hn).
  assert (forall body w', (forall x, x.1 <> h -> body x = ret tt) ->
    for_each (l1 ++ (h, p) :: l2) body w' = bind (body (h, p)) (fun _ => ret tt) w') as Hloop.
  { intros body w' Hb. rewrite for_each_app. unfold bind at 1.
    assert (forall l, l ⊆ l1 ++ l2 -> forall w', for_each l body w' = Ret tt w') as Hskip.
    { intros l Hl w''. apply for_each_skip. intros [h' q] Hx. apply Hb. intros <-. simpl in Hl.
      by apply (Hn q), Hl. }
    rewrite Hskip by set_solver. cbn [for_each]. unfold bind. destruct (body (h, p) w'); try done.
    rewrite Hskip by set_solver. by destruct a. }
  unfold bind at 1. rewrite Hloop.
  2: { intros [h' q] Hne. simpl in Hne. by rewrite decide_False. }
  rewrite decide_True by done. mrun. reflexivity.
Qed.

Lemma payment_sent_unknown pre h fee w :
  outbound_payments w !! h = None ->
  payment_sent pre h fee w = Ret tt (log (Print "> ") w).
Proof.
  intros Hp. unfold payment_sent. mrun. unfold bind at 1. rewrite for_each_skip; [done|].
  intros [h' q] Hx%elem_of_map_to_list. rewrite decide_False; [done|]. congruence.
Qed.

Lemma out_inv_step m m' : out_step m m' -> out_inv m -> out_inv m'.
Proof.
  intros Hs Hinv. destruct Hs as [m h p Hn Hst|m h p pre Hp|m h p Hp];
    intros h' q Hq Hsucc; apply lookup_insert_Some in Hq as [[<- <-]|[_ Hq]]; eauto; done.
Qed.

Lemma in_inv_step m m' : in_step m m' -> in_inv m -> in_inv m'.
Proof.
  intros Hs Hinv. destruct Hs;
    intros h' q Hq; apply lookup_insert_Some in Hq as [[<- <-]|[_ Hq]]; eauto; done.
Qed.

Lemma out_inv_empty : out_inv ∅.
Proof. intros h p Hp. by rewrite lookup_empty in Hp. Qed.
Lemma in_inv_empty : in_inv ∅.
Proof. intros h p Hp. by rewrite lookup_empty in Hp. Qed.

(** Printing and asking change neither table. *)
Lemma keeps_print_payment {B} (f : World -> B) dir p :
  (forall w e, f (log e w) = f w) -> Preserves (keeps f) (print_payment dir p).
Proof. intros Hf. unfold print_payment. pres; apply Hf. Qed.
Lemma keeps_list_payments {B} (f : World -> B) :
  (forall w e, f (log e w) = f w) -> Preserves (keeps f) list_payments.
Proof. intros Hf. unfold list_payments. pres; auto using keeps_print_payment; apply Hf. Qed.
Lemma keeps_send_payment_attempt {B} (f : World -> B) inv :
  (forall w e, f (log e w) = f w) -> Preserves (keeps f) (send_payment_attempt inv).
Proof. intros Hf. unfold send_payment_attempt. pres; apply Hf. Qed.

(** The status an attempt returns is never [Succeeded]. *)
Lemma send_payment_attempt_status inv w st w' :
  send_payment_attempt inv w = Ret st w' ->
  st <> Succeeded /\ outbound_payments w' = outbound_payments w.
Proof.
  intros Hr. split.
  - unfold send_payment_attempt in Hr. destruct (invoice_rgb_contract_id inv).
    + revert Hr. mrun. destruct (unwrap (invoice_rgb_amount inv)); [|done]. mrun.
      case_match; mrun; [destruct (unwrap (invoice_amount_msat inv)); [|done]; mrun|]; intros [= <- _]; done.
    + revert Hr. mrun.
      case_match; mrun; [destruct (unwrap (invoice_amount_msat inv)); [|done]; mrun|]; intros [= <- _]; done.
  - pose proof (keeps_send_payment_attempt outbound_payments inv (fun _ _ => eq_refl) w) as Hk.
    by rewrite Hr in Hk.
Qed.

Lemma keeps_get_invoice amt expiry cid rgb :
  Preserves (keeps outbound_payments) (get_invoice amt expiry cid rgb).
Proof. unfold get_invoice. pres; reflexivity. Qed.
Lemma keeps_send_payment inv : Preserves (keeps inbound_payments) (send_payment inv).
Proof. unfold send_payment, record_outbound. pres; by try apply keeps_send_payment_attempt. Qed.
Lemma keeps_keysend pk amt rgb : Preserves (keeps inbound_payments) (keysend pk amt rgb).
Proof. unfold keysend, record_outbound. pres; reflexivity. Qed.
Lemma keeps_payment_sent pre h fee : Preserves (keeps inbound_payments) (payment_sent pre h fee).
Proof. unfold payment_sent. pres; reflexivity. Qed.

(** The table of the outbound payments after [PaymentSent]. *)
Lemma payment_sent_table pre h fee w :
  payment_sent pre h fee w = Ret tt (final (payment_sent pre h fee w))
  /\ outbound_payments (final (payment_sent pre h fee w)) =
     match outbound_payments w !! h with
     | Some p => <[h := settle pre p]> (outbound_payments w)
     | None => outbound_payments w
     end.
Proof.
  destruct (outbound_payments w !! h) as [p|] eqn:Hp.
  - by rewrite (payment_sent_known _ _ _ _ _ Hp).
  - by rewrite (payment_sent_unknown _ _ _ _ Hp).
Qed.

Lemma send_payment_out_step inv w :
  opt_step out_step (outbound_payments w) (outbound_payments (final (send_payment inv w))).
Proof.
  pose proof (keeps_send_payment_attempt outbound_payments inv (fun _ _ => eq_refl) w) as Hk.
  unfold keeps in Hk. unfold send_payment.
  destruct (send_payment_attempt inv w) as [st w1|w1|m w1|w1] eqn:Ha; cbn [final] in Hk.
  - rewrite (bind_eq_Ret _ _ _ _ _ Ha). right. unfold record_outbound. cbn. rewrite Hk.
    apply send_payment_attempt_status in Ha as [Hst _]. by apply out_initiate.
  - left. by rewrite (bind_eq_Exit _ _ _ _ Ha).
  - left. by rewrite (bind_eq_Panic _ _ _ _ _ Ha).
  - left. by rewrite (bind_eq_Waits _ _ _ _ Ha).
Qed.

Lemma keysend_out_step pk amt rgb w :
  opt_step out_step (outbound_payments w) (outbound_payments (final (keysend pk amt rgb w))).
Proof.
  right. unfold keysend, record_outbound. mrun.
  destruct rgb as [[cid a]|]; mrun; (destruct (answer _ (result bytes string) _); mrun; cbn;
    apply out_initiate; done).
Qed.

Lemma run_op_out_step op w :
  opt_step out_step (outbound_payments w) (outbound_payments (final (run_op op w))).
Proof.
  destruct op as [h pu a|h pu a|pre h fee|h reason|inv|pk a rgb|a x cid rgb|inv|]; cbn [run_op].
  - left. assert (Preserves (keeps outbound_payments) (payment_claimable h pu a)) as Hk
      by (unfold payment_claimable; pres; reflexivity). by rewrite (Hk w).
  - left. assert (Preserves (keeps outbound_payments) (payment_claimed h pu a)) as Hk
      by (unfold payment_claimed; pres; reflexivity). by rewrite (Hk w).
  - destruct (payment_sent_table pre h fee w) as [_ ->].
    destruct (outbound_payments w !! h) eqn:Hp; [right; by apply out_settle|by left].
  - unfold payment_failed. mrun. cbn [outbound_payments log].
    destruct (outbound_payments w !! h) eqn:Hp; cbn; [right; by apply out_fail|by left].
  - apply send_payment_out_step.
  - apply keysend_out_step.
  - left. by rewrite (keeps_get_invoice a x cid rgb w).
  - left. assert (Preserves (keeps outbound_payments) (invoice_status inv)) as Hk
      by (unfold invoice_status; pres; reflexivity). by rewrite (Hk w).
  - left. by rewrite (keeps_list_payments outbound_payments (fun _ _ => eq_refl) w).
Qed.

Lemma run_op_in_step op w :
  opt_step in_step (inbound_payments w) (inbound_payments (final (run_op op w))).
Proof.
  destruct op as [h pu a|h pu a|pre h fee|h reason|inv|pk a rgb|a x cid rgb|inv|]; cbn [run_op].
  - left. assert (Preserves (keeps inbound_payments) (payment_claimable h pu a)) as Hk
      by (unfold payment_claimable; pres; reflexivity). by rewrite (Hk w).
  - right. unfold payment_claimed. mrun. destruct pu as [pre s|pre]; mrun;
      cbn [inbound_payments log];
      match goal with |- in_step _ (inbound_payments (final ?o)) => set (o' := o) end;
      pose proof (in_claim (inbound_payments w) h) as Hc;
      destruct (inbound_payments w !! h) eqn:Hp; subst o'; cbn; apply Hc; exact a.
  - left. by rewrite (keeps_payment_sent pre h fee w).
  - left. assert (Preserves (keeps inbound_payments) (payment_failed h reason)) as Hk
      by (unfold payment_failed; pres; reflexivity). by rewrite (Hk w).
  - left. by rewrite (keeps_send_payment inv w).
  - left. by rewrite (keeps_keysend pk a rgb w).
  - unfold get_invoice. mrun. destruct (answer _ (result Invoice string) _); mrun; cbn;
      [right; apply in_request|by left].
  - left. assert (Preserves (keeps inbound_payments) (invoice_status inv)) as Hk
      by (unfold invoice_status; pres; reflexivity). by rewrite (Hk w).
  - left. by rewrite (keeps_list_payments inbound_payments (fun _ _ => eq_refl) w).
Qed.

(** A session: operations in order, an early exit ends one, a panic ends all. *)
Definition run_ops (ops : list PaymentOp) : M unit := for_each ops (fun op => scope (run_op op)).

Lemma final_scope m w : final (scope m w) = final (m w).
Proof. unfold scope. by destruct (m w). Qed.

Lemma for_each_rtc {A B} (R : B -> B -> Prop) (f : World -> B) (body : A -> M unit) l w :
  (forall x w, opt_step R (f w) (f (final (body x w)))) ->
  rtc R (f w) (f (final (for_each l body w))).
Proof.
  intros Hb. revert w. induction l as [|x l IH]; intros w; [apply rtc_refl|]. cbn [for_each].
  specialize (Hb x w). unfold bind.
  assert (rtc R (f w) (f (final (body x w)))) as Hone.
  { destruct Hb as [->|Hb]; [apply rtc_refl|by apply rtc_once]. }
  destruct (body x w) as [[] w'|w'|m w'|w']; [|done..]. etrans; [exact Hone|apply IH].
Qed.

(** ** Properties *)

(** Every handler and command is a step, or no step, of the payment
    automata: a session of any operations, whatever LDK answers, moves both
    tables along the abstract specification. *)
Theorem payments_refine_automata ops w :
  rtc out_step (outbound_payments w) (outbound_payments (final (run_ops ops w)))
  /\ rtc in_step (inbound_payments w) (inbound_payments (final (run_ops ops w))).
Proof.
  split; apply for_each_rtc; intros op w'; rewrite final_scope;
    [apply run_op_out_step|apply run_op_in_step].
Qed.

(** An invariant of the payment tables: a succeeded outbound payment has
    its preimage; an inbound payment never fails, and a pending one has a
    payment secret and no preimage. *)
Theorem payment_tables_invariant ops w :
  out_inv (outbound_payments w) -> in_inv (inbound_payments w) ->
  let w' := final (run_ops ops w) in
  out_inv (outbound_payments w') /\ in_inv (inbound_payments w').
Proof.
  intros Ho Hi w'. subst w'.
  pose proof (for_each_rtc out_step outbound_payments (fun op => scope (run_op op)) ops w) as Hos.
  pose proof (for_each_rtc in_step inbound_payments (fun op => scope (run_op op)) ops w) as His.
  split.
  - unfold run_ops. induction Hos as [|m1 m2 m3 Hs _ IH]; eauto using out_inv_step.
    intros op w'. rewrite final_scope. apply run_op_out_step.
  - unfold run_ops. induction His as [|m1 m2 m3 Hs _ IH]; eauto using in_inv_step.
    intros op w'. rewrite final_scope. apply run_op_in_step.
Qed.

(** [PaymentSent] settles exactly the payment of its hash, if there is one:
    the scan over the whole table is a lookup and an update. *)
Theorem payment_sent_settles pre h fee w :
  payment_sent pre h fee w = Ret tt (final (payment_sent pre h fee w))
  /\ outbound_payments (final (payment_sent pre h fee w)) =
     match outbound_payments w !! h with
     | Some p => <[h := settle pre p]> (outbound_payments w)
     | None => outbound_payments w
     end
  /\ emitted (payment_sent pre h fee) w =
     match outbound_payments w !! h with
     | Some p => [Print (sent_message pre h fee p +:+ nl); Print "> "; Print "> "]
     | None => [Print "> "]
     end.
Proof.
  destruct (payment_sent_table pre h fee w) as [Hr Ht]. split; [done|]. split; [done|].
  apply emitted_app. destruct (outbound_payments w !! h) as [p|] eqn:Hp.
  - rewrite (payment_sent_known _ _ _ _ _ Hp). cbn. by rewrite <- !app_assoc.
  - by rewrite (payment_sent_unknown _ _ _ _ Hp).
Qed.

(** Once a payment is claimed, [invoicestatus] reports its invoice as
    succeeded, and the recorded amount is the invoice's when it was known. *)
Theorem claimed_invoice_succeeds h purpose amt inv w w' :
  payment_claimed h purpose amt w = Ret tt w' -> invoice_payment_hash inv = h ->
  emitted (invoice_status inv) w' = [Print ("succeeded" +:+ nl)]
  /\ (amt_msat <$> inbound_payments w' !! h) =
     Some (match inbound_payments w !! h with Some p => amt_msat p | None => Some amt end)
  /\ maker_trades w' = delete h (maker_trades w).
Proof.
  intros Hc Hh. assert (exists p, inbound_payments w' !! h = Some p /\ status p = Succeeded
    /\ amt_msat p = (match inbound_payments w !! h with Some p => amt_msat p | None => Some amt end)
    /\ maker_trades w' = delete h (maker_trades w)) as (p & Hp & Hs & Ha & Hm).
  { unfold payment_claimed in Hc. mrun_in Hc. destruct purpose as [pre s|pre]; mrun_in Hc;
      cbn [inbound_payments log] in Hc; destruct (inbound_payments w !! h) eqn:Hw; mrun_in Hc;
      injection Hc as <-; cbn; (eexists; split; [apply lookup_insert_eq|done]). }
  split_and!; [|by rewrite Hp; cbn; rewrite Ha|done].
  apply emitted_app. unfold invoice_status. mrun. rewrite Hh, Hp, Hs. by mrun.
Qed.

(** [get_invoice] registers the invoice it prints, as pending, under the
    invoice's own hash, and nothing else; when the invoice cannot be created
    the table is unchanged. *)
Theorem get_invoice_registers amt expiry cid rgb w :
  let o := get_invoice amt expiry cid rgb w in
  (exists inv, Print ("SUCCESS: generated invoice: " +:+ invoice_to_string inv +:+ nl)
                 ∈ emitted (get_invoice amt expiry cid rgb) w
     /\ o = Ret tt (final o)
     /\ inbound_payments (final o) = <[invoice_payment_hash inv :=
          {| preimage := None; secret := Some (invoice_payment_secret inv);
             status := Pending; amt_msat := Some amt |}]> (inbound_payments w))
  \/ (o = Exit (final o) /\ inbound_payments (final o) = inbound_payments w).
Proof.
  cbn zeta. unfold emitted, get_invoice. mrun. destruct (answer _ (result Invoice string) _) as [inv|e]; mrun; cbn.
  - left. exists inv. split; [|done].
    rewrite <- app_assoc, drop_app_length. right. by left.
  - by right.
Qed.

(** C35: paying an uncoloured invoice that was already paid, which LDK refuses, replaces
    the succeeded payment by a failed one and loses its preimage. *)
Theorem resend_forgets_success inv w p e :
  outbound_payments w !! invoice_payment_hash inv = Some p -> status p = Succeeded ->
  invoice_rgb_contract_id inv = None ->
  answer (trace w) _ (CPayInvoice inv 10) = Err e ->
  exists q, outbound_payments (final (send_payment inv w)) !! invoice_payment_hash inv = Some q
            /\ status q = Failed /\ preimage q = None.
Proof.
  intros Hp Hs Hc He. unfold send_payment, send_payment_attempt, record_outbound.
  rewrite Hc. mrun. rewrite He. mrun. cbn. eexists. split; [apply lookup_insert_eq|done].
Qed.

(** C36: [send_payment] records the payment only after handing it to LDK, so the
    order in which it and the event handler take the lock matters: a
    [PaymentSent] handled after the record settles the payment, one handled
    before leaves it pending, without its preimage. *)
Theorem settlement_before_record_is_lost inv pre fee w st w1 :
  send_payment_attempt inv w = Ret st w1 ->
  let h := invoice_payment_hash inv in
  let record := record_outbound h (send_payment_info inv st) in
  let sent := payment_sent pre h fee in
  (exists p, outbound_payments (final ((record ;;; sent) w1)) !! h = Some p
             /\ status p = Succeeded /\ preimage p = Some pre)
  /\ (exists p, outbound_payments (final ((sent ;;; record) w1)) !! h = Some p
                /\ status p <> Succeeded /\ preimage p = None).
Proof.
  intros Ha h record sent. apply send_payment_attempt_status in Ha as [Hst _]. split.
  - eexists. subst record sent. unfold record_outbound. mrun.
    rewrite (payment_sent_known _ _ _ (send_payment_info inv st)) by apply lookup_insert_eq.
    cbn. split; [apply lookup_insert_eq|done].
  - destruct (payment_sent_table pre h fee w1) as [Hr _]. rewrite (bind_eq_Ret _ _ _ _ _ Hr).
    exists (send_payment_info inv st). split; [apply lookup_insert_eq|done].
Qed.

End Payments.

(** ** Witnesses *)
Section Witnesses.
Import Mock.
Abbreviation MT := (mock_types_checks true).
#[local] Instance scenario_externals : @Externals MT := mock_externals true.
#[local] Instance failing_oracle : @Oracle MT := mock_oracle true {|
  cfg_now := 1000; cfg_unspent := []; cfg_balance := 0; cfg_fungibles := Some []; cfg_pay_ok := false;
  cfg_channels := []; cfg_rgb_info := []; cfg_peers := []; cfg_route := fun _ => [] |}.

Definition paid_hash : PaymentHash := repeat 7 32.
Definition mock_invoice : @Invoice MT :=
  {| mi_hash := paid_hash; mi_secret := [1]; mi_amt := Some 3000000; mi_cid := None; mi_rgb := None |}.
Definition paid_world : @World MT :=
  upd_outbound (T := MT) (<[paid_hash := {| preimage := Some [5]; secret := Some [1];
                                  status := Succeeded; amt_msat := Some 3000000 |}]>) (empty_world true).

Lemma payment_tables_invariant_witness :
  let w' := final (run_ops (T := MT) [OpSendPayment mock_invoice; OpSent [5] paid_hash None;
                            OpGetInvoice 3000000 100 None None] (empty_world true)) in
  out_inv (outbound_payments w') /\ in_inv (inbound_payments w').
Proof.
  apply (payment_tables_invariant (T := MT)); [apply out_inv_empty|apply in_inv_empty].
Defined.

Lemma claimed_invoice_succeeds_witness :
  let w := @empty_world true in
  emitted (invoice_status (T := MT) mock_invoice)
    (final (payment_claimed (T := MT) paid_hash (SpontaneousPayment [5]) 10 w))
  = [Print ("succeeded" +:+ nl)].
Proof.
  apply (claimed_invoice_succeeds (T := MT) paid_hash (SpontaneousPayment [5]) 10 mock_invoice
           (empty_world true)); reflexivity.
Defined.

Lemma resend_forgets_success_witness :
  exists q, outbound_payments (final (send_payment (T := MT) mock_invoice paid_world))
              !! invoice_payment_hash mock_invoice = Some q
            /\ status q = Failed /\ preimage q = None.
Proof.
  apply (resend_forgets_success (T := MT) mock_invoice paid_world
    {| preimage := Some [5]; secret := Some [1]; status := Succeeded; amt_msat := Some 3000000 |}
    "DuplicatePayment"); reflexivity.
Defined.

Definition attempted_world : @World MT := final (send_payment_attempt (T := MT) mock_invoice (empty_world true)).

Lemma settlement_before_record_is_lost_witness :
  let h := invoice_payment_hash mock_invoice in
  let record := record_outbound h (send_payment_info mock_invoice Failed) in
  let sent := payment_sent (T := MT) [5] h None in
  exists p, outbound_payments (final (bind record (fun _ => sent) attempted_world)) !! h = Some p
            /\ status p = Succeeded /\ preimage p = Some [5].
Proof.
  cbn zeta. refine (proj1 (settlement_before_record_is_lost (T := MT) mock_invoice [5] None
    (empty_world true) Failed attempted_world _)).
  vm_compute. reflexivity.
Defined.
End Witnesses.
End Payments.
