(* ===== verification/RgbUtils.v ===== *)
(** * bdk_utils.rs, rgb_utils.rs and error.rs

    Synchronising and broadcasting through Electrum, the assets the wallet
    owns, the selection of RGB inputs (the loop [sendasset] and
    [FundingGenerationReady] share), the beneficiary of a sweep, and
    [send_rgb]. *)

From Stdlib Require Import ZArith Lia Ascii String Sorted.
From stdpp Require Import base list strings gmap.
From S2P Require Import Prelude RustStd Hex Swap World Config Effects Mock.

Open Scope Z_scope.

Module RgbUtils.

(** error.rs *)
Inductive Error : Set :=
| IO (e : string)
| Proxy (e : string)
| NoAvailableUtxos
| UnknownContractId.

Definition error_display (e : Error) : string :=
  match e with
  | IO e => "IO error: " +:+ e
  | Proxy e => "Proxy error: " +:+ e
  | NoAvailableUtxos => "ERROR: no uncolored UTXOs are available (hint: call createutxos)"
  | UnknownContractId => "ERROR: unknown RGB contract ID"
  end.

Section RgbUtils.
Context `{T : Types} {X : @Externals T} {O : @Oracle T}.
Local Open Scope m_scope.

(** ** bdk_utils.rs *)

Definition electrum_config (stop_gap : Z) : ElectrumConfig :=
  {| ec_url := electrum_url; ec_socks5 := None; ec_retry := 3; ec_timeout := Some 5;
     ec_stop_gap := stop_gap; ec_validate_domain := false |}.

Definition broadcast_tx (tx : Transaction) : M unit :=
  let! connected := call (CElectrumConnect (electrum_config 2000)) in
  expect_true "valid blockchain config" connected ;;;
  let! done := call (CBroadcast tx) in
  expect_true "able to broadcast" done.

Definition sync_wallet : M unit :=
  let! connected := call (CElectrumConnect (electrum_config 20)) in
  expect_true "valid blockchain config" connected ;;;
  let! done := call CWalletSync in
  expect_true "successful sync" done.

(** ** Owned assets *)

(** The loop over the history: outputs on the wallet's outpoints, in a
    [BTreeMap] keyed by [Opout]. *)
Definition contract_state (outpoints : list OutPoint) (fungibles : list FungibleOutput)
  : list (Opout * (OutPoint * Z)) :=
  foldl (fun m output =>
    if bool_decide (fo_seal output ∈ outpoints)
    then btree_insert opout_compare (fo_opout output) (fo_seal output, fo_value output) m
    else m) [] fungibles.

(** Conversions between the [Txid] types of bdk and RGB go through the textual
    form and are the identity on it. *)
Definition get_asset_owned_values (contract_id : ContractId)
  : M (result (list (Opout * (OutPoint * Z))) Error) :=
  sync_wallet ;;;
  let! unspents := call CListUnspent in
  let! unspents := expect "valid unspent list" unspents in
  let outpoints := map lu_outpoint unspents in
  let! history := call (CFungibles contract_id) in
  match history with
  | None => ret (Err UnknownContractId)
  | Some fungibles => ret (Ok (contract_state outpoints fungibles))
  end.

Definition get_rgb_total_amount (contract_id : ContractId) : M (result Z Error) :=
  let! asset_owned_values := get_asset_owned_values contract_id in
  match asset_owned_values with
  | Err e => ret (Err e)
  | Ok owned => let! total := lift (u64_sum (map (fun e => snd (snd e)) owned)) in ret (Ok total)
  end.

(** ** Input selection *)

(** [for (_opout, (outpoint, amount)) in asset_owned_values { if input_amount
    >= amt { break; } ... }] *)
Fixpoint select_inputs (amt : Z) (owned : list (Opout * (OutPoint * Z)))
    (rgb_inputs : list OutPoint) (input_amount : Z) : comp (list OutPoint * Z) :=
  match owned with
  | [] => Done (rgb_inputs, input_amount)
  | (_, (outpoint, amount)) :: owned =>
      if amt <=? input_amount then Done (rgb_inputs, input_amount)
      else comp_bind (u64_add input_amount amount)
             (fun input_amount => select_inputs amt owned (rgb_inputs ++ [outpoint]) input_amount)
  end.

(** ** [update_transition_beneficiary] *)

Definition seal_vout_of (op_returns : list bool) : Z :=
  match find_index op_returns with
  | Some index => Z.lxor (Z.of_nat index) 1
  | None => 0
  end.

Definition update_transition_beneficiary (psbt : Psbt) (beneficiaries : list BuilderSeal)
    (asset_transition_builder : TransitionBuilder) (assignment_id amt_rgb : Z)
  : M (Z * TransitionBuilder * list BuilderSeal) :=
  let seal_vout := seal_vout_of (psbt_op_returns psbt) in
  let seal := Revealed (seal_with_vout seal_vout) in
  let beneficiaries := beneficiaries ++ [seal] in
  let! b := call (CAddRawState true asset_transition_builder assignment_id seal amt_rgb) in
  let! b := expect "ok" b in
  ret (seal_vout, b, beneficiaries).

(** ** [RgbUtilities for Runtime] *)

Definition I32_MAX : Z := 2 ^ 31 - 1.

Definition issue_contract (amount : Z) (op : OutPoint) (ticker name : string) (precision : Z)
  : M ContractId :=
  expect_true "valid ticker" (valid_ticker ticker) ;;;
  expect_true "valid name" (valid_name name) ;;;
  expect_true "valid precision" (valid_precision precision) ;;;
  let! created_at := call CNow in
  expect_true UNWRAP_ERR (created_at <=? I32_MAX) ;;;
  let! contract := call (CIssueContract amount op ticker name precision created_at) in
  expect "failure issuing contract" contract.

(** [contract_inputs]: the outpoints of each contract. *)
Fixpoint group_inputs (prev_outputs : list OutPoint)
    (m : gmap ContractId (list OutPoint)) : M (gmap ContractId (list OutPoint)) :=
  match prev_outputs with
  | [] => ret m
  | outpoint :: prev_outputs =>
      let! ids := call (CContractsByOutpoint outpoint) in
      let! ids := expect "ok" ids in
      group_inputs prev_outputs
        (foldl (fun m id => <[id := default [] (m !! id) ++ [outpoint]]> m) m ids)
  end.

(** The loop over the inputs of the transaction, with their positions. *)
Fixpoint set_consumers (contract_id : ContractId) (t : OpId) (inputs : list OutPoint)
    (index : nat) (txins : list OutPoint) (p : RgbPsbt) : M RgbPsbt :=
  match txins with
  | [] => ret p
  | outpoint :: txins =>
      let! p := (if bool_decide (outpoint ∈ inputs) then
                   let! p := call (CSetRgbConsumer p index contract_id t) in expect "ok" p
                 else ret p) in
      set_consumers contract_id t inputs (S index) txins p
  end.

Definition send_rgb (contract_id : ContractId) (psbt : Psbt)
    (asset_transition_builder : TransitionBuilder) (beneficiaries : list BuilderSeal)
  : M (Psbt * Consignment) :=
  let! psbt := call (CRgbPsbt psbt) in
  let! psbt := expect UNWRAP_ERR psbt in
  let prev_outputs := rgb_psbt_inputs psbt in
  let! state := call (CStateForOutpoints contract_id prev_outputs) in
  let! state := expect "ok" state in
  let! asset_transition_builder :=
    fold_m state asset_transition_builder (fun b opout =>
      let! b := call (CAddInput b opout) in expect "valid input" b) in
  let! transition := call (CCompleteTransition asset_transition_builder contract_id) in
  let! transition := expect "should complete transition" transition in
  let! contract_inputs := group_inputs prev_outputs ∅ in
  let inputs := default [] (contract_inputs !! contract_id) in
  let! psbt := set_consumers contract_id transition inputs 0 prev_outputs psbt in
  let! psbt := call (CPushTransition psbt transition) in
  let! psbt := expect "ok" psbt in
  let! bundles := call (CRgbBundles psbt) in
  let! bundles := expect "able to get bundles" bundles in
  let! opreturn_index :=
    expect "psbt should have an op_return output" (find_index (rgb_psbt_op_returns psbt)) in
  let! psbt := call (CSetOpretHost psbt opreturn_index) in
  let! psbt := expect "cannot set opret host" psbt in
  let! psbt := call (CBundleToLnpbp4 psbt) in
  let! psbt := expect "ok" psbt in
  let! concluded := call (CDbcConclude psbt) in
  let! (anchor, psbt) := expect "should conclude" concluded in
  let witness_txid := rgb_psbt_txid psbt in
  let! consumed := call (CConsumeAnchor anchor) in
  expect_true "should consume anchor" consumed ;;;
  for_each bundles (fun '(id, bundle) =>
    let! consumed := call (CConsumeBundle id bundle witness_txid) in
    expect_true "should consume bundle" consumed) ;;;
  let! transfer := call (CTransfer contract_id beneficiaries witness_txid) in
  let! transfer := expect "valid transfer" transfer in
  let! psbt := call (CPsbtOfRgb psbt) in
  let! psbt := expect UNWRAP_ERR psbt in
  ret (psbt, transfer).

(** ** Specifications *)

(** Total amount of a list of owned values. *)
Definition owned_total (owned : list (Opout * (OutPoint * Z))) : Z :=
  foldr Z.add 0 (map (fun e => snd (snd e)) owned).

Definition owned_ok (owned : list (Opout * (OutPoint * Z))) : Prop :=
  Forall (fun e => 0 <= snd (snd e)) owned /\ owned_total owned <= U64_MAX.

(** ** Lemmas *)

(** The calls [send_rgb] makes; a relation they respect is respected by it. *)
Definition send_event (ev : Event) : bool :=
  match ev with
  | Ev c _ =>
      match c with
      | CRgbPsbt _ | CStateForOutpoints _ _ | CAddInput _ _ | CCompleteTransition _ _
      | CContractsByOutpoint _ | CSetRgbConsumer _ _ _ _ | CPushTransition _ _ | CRgbBundles _
      | CSetOpretHost _ _ | CBundleToLnpbp4 _ | CDbcConclude _ | CConsumeAnchor _
      | CConsumeBundle _ _ _ | CTransfer _ _ _ | CPsbtOfRgb _ => true
      | _ => false
      end
  | Print _ => false
  end.

Section SendEvents.
Context (R : World -> World -> Prop) `{!PreOrder R}
  (Hlog : forall ev w, send_event ev = true -> R w (log ev w)).

Lemma set_consumers_events cid t inputs i txins p : Preserves R (set_consumers cid t inputs i txins p).
Proof.
  revert i p. induction txins as [|o txins IH]; intros i p; cbn; pres; auto; by apply Hlog.
Qed.
Lemma group_inputs_events l m : Preserves R (group_inputs l m).
Proof. revert m. induction l as [|o l IH]; intros m; cbn; pres; auto; by apply Hlog. Qed.
Lemma send_rgb_events cid psbt b bs : Preserves R (send_rgb cid psbt b bs).
Proof.
  unfold send_rgb. pres; auto using set_consumers_events, group_inputs_events; by apply Hlog.
Qed.
End SendEvents.


Lemma owned_total_cons e owned : owned_total (e :: owned) = snd (snd e) + owned_total owned.
Proof. done. Qed.

Lemma owned_total_app l1 l2 : owned_total (l1 ++ l2) = owned_total l1 + owned_total l2.
Proof. induction l1 as [|e l1 IH]; [done|]. simpl. rewrite !owned_total_cons, IH. lia. Qed.

Lemma owned_total_nonneg owned : Forall (fun e => 0 <= snd (snd e)) owned -> 0 <= owned_total owned.
Proof. induction 1; [done|]. rewrite owned_total_cons. lia. Qed.

Lemma select_inputs_go amt owned ins n :
  0 <= n -> Forall (fun e => 0 <= snd (snd e)) owned -> n + owned_total owned <= U64_MAX ->
  exists taken rest,
    owned = taken ++ rest
    /\ select_inputs amt owned ins n =
       Done (ins ++ map (fun e => fst (snd e)) taken, n + owned_total taken)
    /\ (rest <> [] -> amt <= n + owned_total taken)
    /\ (forall init e, taken = init ++ [e] -> n + owned_total init < amt).
Proof.
  revert ins n. induction owned as [|[o [op a]] owned IH]; intros ins n Hn Hf Hsum.
  { exists [], []. cbn. rewrite app_nil_r, Z.add_0_r. split_and!; try done. by intros [|??] ?. }
  apply Forall_cons in Hf as [Ha Hf]. rewrite owned_total_cons in Hsum. simpl in Ha, Hsum.
  pose proof (owned_total_nonneg _ Hf). cbn [select_inputs].
  destruct (amt <=? n) eqn:Hle; reflect_bools.
  - exists [], ((o, (op, a)) :: owned). cbn. rewrite app_nil_r, Z.add_0_r.
    split_and!; try done. by intros [|??] ?.
  - rewrite u64_add_ok by lia. cbn [comp_bind].
    destruct (IH (ins ++ [op]) (n + a) ltac:(lia) Hf ltac:(lia)) as (tk & rest & -> & Hs & Hr & Hi).
    exists ((o, (op, a)) :: tk), rest. split_and!.
    + done.
    + rewrite Hs, <- app_assoc. f_equal. rewrite owned_total_cons. simpl. f_equal. lia.
    + intros Hne. rewrite owned_total_cons. simpl. specialize (Hr Hne). lia.
    + intros [|e' init] e Heq; simplify_eq/=; [rewrite Z.add_0_r; lia|].
      specialize (Hi _ _ eq_refl). rewrite owned_total_cons. simpl. lia.
Qed.

(** The keys of [contract_state] are sorted when [opout_compare] is an order,
    so that no output is counted twice. *)
Class OpoutOrder : Prop := {
  opout_compare_eq : forall a b, opout_compare a b = Eq <-> a = b;
  opout_compare_opp : forall a b, opout_compare b a = CompOpp (opout_compare a b);
  opout_compare_trans : forall a b c,
    opout_compare a b = Lt -> opout_compare b c = Lt -> opout_compare a c = Lt
}.

Lemma contract_state_snoc outpoints l o :
  contract_state outpoints (l ++ [o]) =
  if bool_decide (fo_seal o ∈ outpoints)
  then btree_insert opout_compare (fo_opout o) (fo_seal o, fo_value o) (contract_state outpoints l)
  else contract_state outpoints l.
Proof. unfold contract_state. by rewrite foldl_snoc. Qed.

Lemma contract_state_wf `{!OpoutOrder} outpoints l :
  btree_wf opout_compare (contract_state outpoints l).
Proof.
  induction l as [|o l IH] using rev_ind; [constructor|].
  rewrite contract_state_snoc. case_bool_decide; [|done].
  by apply (btree_insert_wf _ opout_compare_opp opout_compare_trans).
Qed.

Lemma contract_state_elem `{!OpoutOrder} outpoints l k s v :
  NoDup (map fo_opout l) ->
  (k, (s, v)) ∈ contract_state outpoints l <->
  exists o, o ∈ l /\ fo_opout o = k /\ fo_seal o = s /\ fo_value o = v /\ s ∈ outpoints.
Proof.
  induction l as [|o l IH] using rev_ind; intros Hnd.
  { split; [by intros ?%not_elem_of_nil|intros (o & Ho & _); by apply not_elem_of_nil in Ho]. }
  rewrite map_app in Hnd. apply NoDup_app in Hnd as (Hnd & Hd & _). specialize (IH Hnd).
  rewrite contract_state_snoc. setoid_rewrite elem_of_app. setoid_rewrite list_elem_of_singleton.
  assert (forall o', o' ∈ l -> fo_opout o' <> fo_opout o) as Hne.
  { intros o' Ho' Heq. apply (Hd (fo_opout o)); [|by left].
    rewrite <- Heq. by apply list_elem_of_fmap_2. }
  case_bool_decide as Hin.
  - rewrite (btree_insert_elem _ opout_compare_eq opout_compare_opp opout_compare_trans)
      by apply contract_state_wf.
    rewrite IH. split.
    + intros [[-> [= -> ->]]|[_ (o' & ? & ?)]]; [exists o|exists o']; naive_solver.
    + intros (o' & [Ho'| ->] & <- & <- & <- & Hs); [right|left; done].
      split; [by apply Hne|]. eauto 6.
  - rewrite IH. split; [intros (o' & ? & ?); exists o'; naive_solver|].
    intros (o' & [Ho'| ->] & Hrest); [eauto|]. naive_solver.
Qed.

Lemma find_index_from_spec i l n :
  find_index_from i l = Some n <->
  exists k, n = (i + k)%nat /\ l !! k = Some true /\ forall j, (j < k)%nat -> l !! j = Some false.
Proof.
  revert i. induction l as [|b l IH]; intros i; cbn [find_index_from].
  { split; [done|]. by intros (k & _ & ? & _). }
  destruct b.
  - split.
    + intros [= <-]. exists 0%nat. repeat split; [lia|]. lia.
    + intros ([|k] & -> & Hk & Hj); [f_equal; lia|].
      specialize (Hj 0%nat ltac:(lia)). done.
  - rewrite IH. split.
    + intros (k & -> & Hk & Hj). exists (S k). repeat split; [lia|done|].
      intros [|j] Hlt; [done|]. apply Hj. lia.
    + intros ([|k] & -> & Hk & Hj); [done|]. exists k. repeat split; [lia|done|].
      intros j Hlt. apply (Hj (S j)). lia.
Qed.

(** Synchronising only talks to the outside. *)
Lemma pres_sync_wallet R `{!PreOrder R} :
  (forall (b : bool) w, R w (log (Ev (CElectrumConnect (electrum_config 20)) b) w)) ->
  (forall (b : bool) w, R w (log (Ev CWalletSync b) w)) ->
  Preserves R sync_wallet.
Proof. intros H1 H2. unfold sync_wallet. pres; auto. Qed.

Lemma keeps_total_amount {B} (f : World -> B) cid :
  (forall w e, f (log e w) = f w) -> Preserves (keeps f) (get_rgb_total_amount cid).
Proof.
  intros Hf. unfold get_rgb_total_amount, get_asset_owned_values, sync_wallet. pres; apply Hf.
Qed.

Lemma owned_total_insert `{!OpoutOrder} k v m :
  k ∉ m.*1 -> owned_total (btree_insert opout_compare k v m) = snd v + owned_total m.
Proof.
  induction m as [|[k' v'] m IH]; [done|]. rewrite fmap_cons. cbn [btree_insert fst].
  intros [Hk Hn]%not_elem_of_cons.
  destruct (opout_compare k k') eqn:Hc; rewrite ?owned_total_cons; cbn [snd].
  - by apply opout_compare_eq in Hc.
  - done.
  - rewrite IH by done. lia.
Qed.

Lemma contract_state_keys outpoints l k :
  k ∈ (contract_state outpoints l).*1 -> k ∈ map fo_opout l.
Proof.
  induction l as [|o l IH] using rev_ind; [done|].
  rewrite contract_state_snoc, map_app, elem_of_app. case_bool_decide; [|auto].
  intros [->|Hk]%btree_insert_keys; [right; by left|auto].
Qed.

(** What the history says the wallet owns. *)
Definition owned_in_history (outpoints : list OutPoint) (l : list FungibleOutput) : Z :=
  foldr Z.add 0 (map fo_value (List.filter (fun o => bool_decide (fo_seal o ∈ outpoints)) l)).

Lemma contract_state_total `{!OpoutOrder} outpoints l :
  NoDup (map fo_opout l) ->
  owned_total (contract_state outpoints l) = owned_in_history outpoints l.
Proof.
  unfold owned_in_history. induction l as [|o l IH] using rev_ind; [done|].
  rewrite map_app. intros (Hnd & Hd & _)%NoDup_app. specialize (IH Hnd).
  rewrite contract_state_snoc, List.filter_app, map_app, foldr_app. cbn [List.filter].
  assert (forall l a, foldr Z.add a l = a + foldr Z.add 0 l) as Hfold.
  { clear. intros l a. induction l as [|x l IH]; cbn; [lia|]. rewrite IH. lia. }
  case_bool_decide as Hin; cbn [map foldr]; [|by rewrite IH].
  rewrite owned_total_insert, IH; cbn [snd].
  - rewrite (Hfold _ (fo_value o + 0)). lia.
  - intros Hk%contract_state_keys. apply (Hd _ Hk). by left.
Qed.

Lemma contract_state_nonneg outpoints l :
  Forall (fun o => 0 <= fo_value o) l ->
  Forall (fun e => 0 <= snd (snd e)) (contract_state outpoints l).
Proof.
  induction l as [|o l IH] using rev_ind; [constructor|].
  intros [Hl Ho]%Forall_app. apply Forall_cons in Ho as [Ho _]. rewrite contract_state_snoc.
  case_bool_decide; [|auto]. specialize (IH Hl). clear -IH Ho.
  induction IH as [|[k v] m Hv Hm IH]; cbn; [by repeat constructor|].
  case_match; repeat (constructor; try done).
Qed.

Lemma lxor_one n : 0 <= n -> Z.lxor n 1 = if Z.even n then n + 1 else n - 1.
Proof.
  intros Hn.
  assert (forall a, Z.even a = true -> Z.lxor a 1 = a + 1) as He.
  { intros a [m ->]%Z.even_spec. symmetry. apply Z.add_nocarry_lxor.
    change 1 with (Z.ones 1). rewrite Z.land_ones by lia. rewrite Z.mul_comm. by apply Z.mod_mul. }
  destruct (Z.even n) eqn:Hev; [by apply He|].
  assert (Z.even (n - 1) = true) as Hp by (by rewrite Z.even_sub, Hev).
  specialize (He _ Hp). replace n with (Z.lxor (n - 1) 1) at 1 by lia.
  by rewrite Z.lxor_assoc, Z.lxor_nilpotent, Z.lxor_0_r.
Qed.

Lemma Nat2Z_even k : Z.even (Z.of_nat k) = Nat.even k.
Proof.
  induction k as [|k IH]; [done|]. rewrite Nat2Z.inj_succ, Z.even_succ, Nat.even_succ.
  by rewrite <- Z.negb_even, <- Nat.negb_even, IH.
Qed.

(** ** Properties *)

(** C14: the input loop of [sendasset] and of the funding of a coloured channel
    takes a prefix of the owned outputs, reports its exact total, stops as
    soon as the amount is reached and reaches it whenever the wallet can. *)
Theorem select_inputs_spec amt owned :
  owned_ok owned ->
  exists taken rest,
    owned = taken ++ rest
    /\ select_inputs amt owned [] 0 = Done (map (fun e => fst (snd e)) taken, owned_total taken)
    /\ (amt <= owned_total owned -> amt <= owned_total taken)
    /\ (forall init e, taken = init ++ [e] -> owned_total init < amt).
Proof.
  intros [Hf Hmax]. destruct (select_inputs_go amt owned [] 0) as (taken & rest & He & Hs & Hr & Hi);
    [lia|done|lia|].
  exists taken, rest. split_and!; [done|done| |done].
  intros Ha. destruct rest as [|r rest]; [|by apply Hr].
  by rewrite He, app_nil_r in Ha.
Qed.

(** C15: the balance the program works with counts every output of the contract
    on one of the wallet's unspent outpoints, once, and nothing else; it is
    produced whenever the contract is known and the sum fits in 64 bits. *)
Theorem rgb_balance_exact `{!OpoutOrder} cid w w1 unspents history :
  sync_wallet w = Ret tt w1 ->
  answer (trace w1) _ CListUnspent = Some unspents ->
  let w2 := log (Ev CListUnspent (Some unspents)) w1 in
  answer (trace w2) _ (CFungibles cid) = Some history ->
  NoDup (map fo_opout history) -> Forall (fun o => 0 <= fo_value o) history ->
  let total := owned_in_history (map lu_outpoint unspents) history in
  total <= U64_MAX ->
  get_rgb_total_amount cid w = Ret (Ok total) (log (Ev (CFungibles cid) (Some history)) w2).
Proof.
  intros Hs Hu w2 Hh Hnd Hpos total Hmax. unfold get_rgb_total_amount, get_asset_owned_values.
  rewrite bind_assoc, (bind_eq_Ret _ _ _ _ _ Hs). mrun. rewrite Hu. mrun.
  subst w2 total. rewrite Hh. mrun.
  pose proof (contract_state_total (map lu_outpoint unspents) history Hnd) as Ht.
  rewrite u64_sum_ok; [by rewrite <- Ht| |by rewrite <- Ht in Hmax].
  apply Forall_map, contract_state_nonneg, Hpos.
Qed.

(** The seal of a sweep never lands on the OP_RETURN output: its position is
    the neighbour of the first OP_RETURN, so of two outputs the other one. *)
Theorem seal_avoids_op_return op_returns k :
  find_index op_returns = Some k ->
  op_returns !! k = Some true
  /\ seal_vout_of op_returns = (if Nat.even k then Z.of_nat k + 1 else Z.of_nat k - 1)
  /\ (length op_returns = 2%nat -> seal_vout_of op_returns = 1 - Z.of_nat k).
Proof.
  intros Hk. unfold find_index in Hk. apply find_index_from_spec in Hk as Hs.
  destruct Hs as (k' & -> & Hl & _). cbn [Nat.add] in *. unfold seal_vout_of, find_index.
  rewrite Hk. split; [done|].
  pose proof (lxor_one (Z.of_nat k')) as Hx. rewrite Nat2Z_even in Hx.
  specialize (Hx ltac:(lia)). split; [done|]. rewrite Hx. intros Hlen. apply lookup_lt_Some in Hl.
  destruct k' as [|[|]]; [done|done|lia].
Qed.

End RgbUtils.

(** ** Witnesses *)
Section Witnesses.
Import Mock.
Abbreviation MT := (mock_types_checks true).
#[local] Instance scenario_externals : @Externals MT := mock_externals true.

Definition mock_utxo (t : Z) : @OutPoint MT := @Build_OutPoint MT t 0.
Definition mock_history : list (@FungibleOutput MT) :=
  [@Build_FungibleOutput MT 2 (mock_utxo 1) 30; @Build_FungibleOutput MT 1 (mock_utxo 5) 99;
   @Build_FungibleOutput MT 3 (mock_utxo 2) 12].
Definition mock_unspents : list (@LocalUtxo MT) :=
  [@Build_LocalUtxo MT (mock_utxo 1) 32000; @Build_LocalUtxo MT (mock_utxo 2) 32000].

#[local] Instance assets_oracle : @Oracle MT := mock_oracle true {|
  cfg_now := 1000; cfg_unspent := mock_unspents; cfg_balance := 0; cfg_fungibles := Some mock_history;
  cfg_pay_ok := true; cfg_channels := []; cfg_rgb_info := []; cfg_peers := []; cfg_route := fun _ => [] |}.

Lemma mock_opout_order : @OpoutOrder MT _.
Proof.
  split.
  - intros a b. apply Z.compare_eq_iff.
  - intros a b. apply Z.compare_antisym.
  - intros a b c. cbn. rewrite !Z.compare_lt_iff. lia.
Qed.

Lemma select_inputs_spec_witness :
  exists taken rest : list (Z * (@OutPoint MT * Z)),
    [(1, (mock_utxo 1, 30)); (2, (mock_utxo 2, 12)); (3, (mock_utxo 3, 5))] = taken ++ rest
    /\ select_inputs (T := MT) 40 [(1, (mock_utxo 1, 30)); (2, (mock_utxo 2, 12)); (3, (mock_utxo 3, 5))] [] 0
       = Done (map (fun e => fst (snd e)) taken, owned_total (T := MT) taken).
Proof.
  destruct (select_inputs_spec (T := MT) 40
    [(1, (mock_utxo 1, 30)); (2, (mock_utxo 2, 12)); (3, (mock_utxo 3, 5))]) as (tk & rest & H1 & H2 & _).
  - split; [repeat constructor; cbn; lia|vm_compute; discriminate].
  - by exists tk, rest.
Defined.

Definition synced_world : @World MT := final (sync_wallet (T := MT) (empty_world true)).

Lemma rgb_balance_exact_witness :
  exists w', get_rgb_total_amount (T := MT) true (empty_world true) = Ret (Ok 42) w'.
Proof.
  eexists. eapply (rgb_balance_exact (T := MT) (H := mock_opout_order) true (empty_world true)
    synced_world mock_unspents mock_history).
  - vm_compute. reflexivity.
  - reflexivity.
  - reflexivity.
  - apply (bool_decide_unpack _). vm_compute. reflexivity.
  - repeat constructor; cbn; lia.
  - vm_compute. discriminate.
Defined.

Lemma seal_avoids_op_return_witness : seal_vout_of [false; true] = 1 - Z.of_nat 1.
Proof. apply (seal_avoids_op_return [false; true] 1); reflexivity. Defined.

End Witnesses.
End RgbUtils.
