(* ===== verification/Trades.v ===== *)
(** * Trades: swap offers, the taker's whitelist and intercepted HTLCs

    cli.rs: the [makerinit], [taker] and [tradeslist] commands, [maker_init]
    and [fetch_price]; main.rs: the [HTLCIntercepted] arm of
    [handle_ldk_events], which decides whether a swap goes through.

    LDK's table of intercepted HTLCs is not modelled: [InterceptLaws] is its
    documented contract. *)

From Stdlib Require Import ZArith Lia Ascii String.
From stdpp Require Import base list strings gmap.
From S2P Require Import Prelude RustStd Floats Hex Swap Config World Effects Mock RgbUtils.
Import Swap RgbUtils.

Open Scope Z_scope.

Module Trades.

(** [Event::HTLCIntercepted] *)
Record Intercepted := {
  is_swap : bool;
  i_payment_hash : PaymentHash;
  intercept_id : bytes;
  inbound_amount_msat : Z;
  expected_outbound_amount_msat : Z;
  inbound_rgb_amount : option Z;
  expected_outbound_rgb_amount : option Z;
  requested_next_hop_scid : Z;
  prev_short_channel_id : Z
}.

Section Trades.
Context `{T : Types} {X : @Externals T} {O : @Oracle T}.
Local Open Scope m_scope.

Definition debug_option {A} (show : A -> string) (o : option A) : string :=
  match o with Some a => "Some(" +:+ show a +:+ ")" | None => "None" end.

(** The closure [get_rgb_info]. *)
Definition get_rgb_info (channel_id : bytes) : M (option RgbInfo) :=
  let! exists_ := call (CPathExists (path_join ldk_data_dir (Hex.hex_str channel_id))) in
  if exists_ then
    let! rgb_info := call (CGetRgbChannelInfo channel_id) in ret (Some rgb_info)
  else ret None.

Definition fail_intercepted_htlc (id : bytes) : M unit :=
  let! r := call (CFailIntercepted id) in expect_result UNWRAP_ERR r.

(** The two conditions under which a whitelisted trade is rejected. *)
Definition mismatch (contract : ContractId) (t : SwapType) (e : Intercepted)
    (inbound_rgb_info outbound_rgb_info : option RgbInfo) : bool :=
  match t with
  | BuyAsset amount_rgb amount_msats =>
      let net_msat_diff := saturating_sub (expected_outbound_amount_msat e)
                             (saturating_sub (inbound_amount_msat e) HTLC_MIN_MSAT) in
      negb (bool_decide (inbound_rgb_amount e = Some amount_rgb))
      || negb (bool_decide (contract_id <$> inbound_rgb_info = Some contract))
      || negb (net_msat_diff =? amount_msats)
      || is_some outbound_rgb_info
  | SellAsset amount_rgb amount_msats =>
      let net_msat_diff := saturating_sub (inbound_amount_msat e) (expected_outbound_amount_msat e) in
      negb (bool_decide (expected_outbound_rgb_amount e = Some amount_rgb))
      || negb (bool_decide (contract_id <$> outbound_rgb_info = Some contract))
      || negb (net_msat_diff =? amount_msats)
      || is_some inbound_rgb_info
  end.

(** Up to the lock on the whitelist: the channels of the HTLC and their RGB
    information. *)
Definition intercept_context (e : Intercepted) : M (option RgbInfo * option RgbInfo) :=
  (if is_swap e then ret tt else fail_intercepted_htlc (intercept_id e)) ;;;
  let! channels := call CListChannels in
  let! inbound_channel :=
    expect "Should always be a valid channel"
      (List.find (fun d => bool_decide (short_channel_id d = Some (prev_short_channel_id e))) channels) in
  let! channels := call CListChannels in
  let! outbound_channel :=
    expect "Should always be a valid channel"
      (List.find (fun d => bool_decide (short_channel_id d = Some (requested_next_hop_scid e))) channels) in
  let! inbound_rgb_info := get_rgb_info (channel_id inbound_channel) in
  let! outbound_rgb_info := get_rgb_info (channel_id outbound_channel) in
  println ("EVENT: Requested swap with params inbound_msat=" +:+ dec (inbound_amount_msat e)
           +:+ " outbound_msat=" +:+ dec (expected_outbound_amount_msat e)
           +:+ " inbound_rgb=" +:+ debug_option dec (inbound_rgb_amount e)
           +:+ " outbound_rgb=" +:+ debug_option dec (expected_outbound_rgb_amount e)
           +:+ " inbound_contract_id="
           +:+ debug_option cid_debug (contract_id <$> inbound_rgb_info)
           +:+ ", outbound_contract_id="
           +:+ debug_option cid_debug (contract_id <$> outbound_rgb_info)) ;;;
  ret (inbound_rgb_info, outbound_rgb_info).

Definition reject (e : Intercepted) (msg : string) {A} : M A :=
  println msg ;;;
  fail_intercepted_htlc (intercept_id e) ;;;
  leave.

Definition REJECT_UNKNOWN : string := "ERROR: rejecting non-whitelisted swap".
Definition REJECT_MISMATCH : string :=
  "ERROR: swap doesn't match the whitelisted info, rejecting it".

(** Under the lock: compare with the whitelisted trade, and forward. *)
Definition intercept_decide (e : Intercepted) (inbound_rgb_info outbound_rgb_info : option RgbInfo)
  : M unit :=
  let! trades_lock := gets whitelisted_trades in
  let! (whitelist_contract_id, whitelist_swap_type) :=
    match trades_lock !! i_payment_hash e with
    | None => reject e REJECT_UNKNOWN
    | Some x => ret x
    end in
  (if mismatch whitelist_contract_id whitelist_swap_type e inbound_rgb_info outbound_rgb_info
   then reject e REJECT_MISMATCH
   else ret tt) ;;;
  println "Swap is whitelisted, forwarding the htlc..." ;;;
  modify (upd_whitelisted (delete (i_payment_hash e))) ;;;
  let! forwarded := call (CForwardIntercepted (intercept_id e) (requested_next_hop_scid e)
                            (expected_outbound_amount_msat e) (expected_outbound_rgb_amount e)) in
  expect_result "Forward should be valid" forwarded.

Definition htlc_intercepted (e : Intercepted) : M unit :=
  let! (inbound_rgb_info, outbound_rgb_info) := intercept_context e in
  intercept_decide e inbound_rgb_info outbound_rgb_info.

(** ** Commands *)

Definition get_current_timestamp : M Z := call CNow.

(** [fetch_price]: msats per asset, from the price of one bitcoin. *)
Definition BITFINEX_URL : string := "https://api.bitfinex.com/v1/pubticker/btcust".
Definition price_of_last (last_price : f64) : Z :=
  f64_as_uint U64_MAX (f64_mul (f64_div (f64_of_Z 1) last_price) (f64_of_Z (10 ^ 11))).

Definition fetch_price (asset_id : ContractId) : M (result Z string) :=
  let! body := call (CHttpGetPrice BITFINEX_URL) in
  match body with
  | Err e => ret (Err e)
  | Ok last_price =>
      match parse_f64 last_price with
      | Err e => ret (Err e)
      | Ok last_price =>
          if f64_eqb last_price (f64_of_Z 0) then
            ret (Err "BTC/USDt price fetched from bitfinex is zero"%string)
          else
            let price := price_of_last last_price in
            println ("Using price from Bitfinex: " +:+ dec price +:+ " mSAT = 1 "
                     +:+ cid_to_string asset_id) ;;;
            ret (Ok price)
      end
  end.

Definition maker_init (swaptype : SwapType) (timeout_secs : Z) (contract_id : ContractId)
  : M (PaymentHash * bytes) :=
  let! payment := call (CCreateInboundPayment (Some (amount_msats swaptype)) timeout_secs) in
  let! (payment_hash, payment_secret) := expect_result UNWRAP_ERR payment in
  modify (upd_maker (<[payment_hash := (contract_id, swaptype)]>)) ;;;
  ret (payment_hash, payment_secret).

(** "Do we have enough?": the block [makerinit], [taker], [assetbalance] and
    [opencoloredchannel] share.  On an error the command ends there. *)
Definition total_rgb_amount (asset_id : ContractId) : M Z :=
  call CGetRuntime ;;;
  let! total := get_rgb_total_amount asset_id in
  let! total :=
    match total with
    | Ok a => ret a
    | Err e => println (error_display e) ;;; leave
    end in
  call CDropRuntime ;;;
  ret total.

(** The price per asset [makerinit] works with, given or fetched. *)
Definition makerinit_price (asset_id : ContractId) (price : option string) : M (result Z unit) :=
  match price with
  | Some x =>
      if bool_decide (split_whitespace x = []) then
        let! p := fetch_price asset_id in
        match p with
        | Ok p => ret (Ok p)
        | Err e => println ("ERROR: invalid price_msats_per_asset: " +:+ e) ;;; ret (Err tt)
        end
      else
        match parse_u64 x with
        | Ok p => ret (Ok p)
        | Err _ => println "ERROR: invalid price_msats_per_asset" ;;; ret (Err tt)
        end
  | None =>
      let! p := fetch_price asset_id in
      match p with
      | Ok p => ret (Ok p)
      | Err e => println ("ERROR: invalid price_msats_per_asset: " +:+ e) ;;; ret (Err tt)
      end
  end.

Definition makerinit_swaptype (swaptype : option string) (amt_asset price : Z) : M SwapType :=
  match swaptype with
  | Some "buy"%string => let! m := lift (u64_mul amt_asset price) in ret (BuyAsset amt_asset m)
  | Some "sell"%string => let! m := lift (u64_mul amt_asset price) in ret (SellAsset amt_asset m)
  | _ => println "ERROR: invalid swap type, use either `buy` or `sell`" ;;; leave
  end.

(** The end of [makerinit]: register the payment and print the offer. *)
Definition makerinit_publish (asset_id : ContractId) (amt_asset price timeout : Z)
    (swaptype : SwapType) : M unit :=
  let! (payment_hash, payment_secret) := maker_init swaptype timeout asset_id in
  let! now := get_current_timestamp in
  let! expiry := lift (u64_add now timeout) in
  let swapstring := format_swapstring amt_asset asset_id swaptype price expiry payment_hash in
  println ("SUCCESS! swap_string = " +:+ swapstring) ;;;
  let payment_secret := Hex.hex_str payment_secret in
  println ("payment_secret: " +:+ payment_secret) ;;;
  println ("To execute the swap run `makerexecute " +:+ swapstring +:+ " " +:+ payment_secret
           +:+ " <peer_pubkey>`").

Definition makerinit_cmd (words : list string) : M unit :=
  let '(amt_asset, words) := next words in
  let '(asset_id_str, words) := next words in
  let '(swaptype, words) := next words in
  let '(timeout, words) := next words in
  let '(price, words) := next words in
  if is_none timeout then
    println "ERROR: makerinit requires at least 4 args: makerinit <amount> <asset_id> <buy|sell> <expiry_secs> [<price_msats_per_asset>]" ;;;
    leave
  else
  let! asset_str := lift (unwrap asset_id_str) in
  let! asset_id :=
    match cid_from_str asset_str with
    | Some cid => ret cid
    | None => println ("ERROR: invalid contract ID: " +:+ asset_str) ;;; leave
    end in
  let! timeout := lift (unwrap timeout) in
  let! timeout :=
    match parse_u32 timeout with
    | Ok t => if 0 <? t then ret t else println "ERROR: Invalid expiry_secs value" ;;; leave
    | Err _ => println "ERROR: Invalid expiry_secs value" ;;; leave
    end in
  let! price := makerinit_price asset_id price in
  if is_err price then leave else
  let! price := lift (unwrap_ok price) in
  if price =? 0 then println "ERROR: invalid price_msats_per_asset" ;;; leave else
  let! amt_asset := lift (unwrap amt_asset) in
  let! amt_asset :=
    match parse_u64 amt_asset with
    | Ok amt => if 0 <? amt then ret amt else println "ERROR: invalid amt_asset" ;;; leave
    | Err _ => println "ERROR: invalid amt_asset" ;;; leave
    end in
  let! swaptype := makerinit_swaptype swaptype amt_asset price in
  (if is_buy swaptype then
     let! total := total_rgb_amount asset_id in
     if total <? amt_asset then println "ERROR: do not have enough RGB assets" ;;; leave else ret tt
   else ret tt) ;;;
  makerinit_publish asset_id amt_asset price timeout swaptype.

Definition TAKER_USAGE : string := "ERROR: taker requires 1 arg: taker <swap_string>".
Definition OFFER_EXPIRED : string := "ERROR: the swap offer has already expired".

(** Parse an offer and refuse an expired one, as [taker] and [makerexecute] do. *)
Definition read_offer (s : string) : M SwapString :=
  let! parsed := lift (from_str s) in
  let! swapstring :=
    match parsed with
    | Ok v => ret v
    | Err e => println ("ERROR: " +:+ e) ;;; leave
    end in
  let! now := get_current_timestamp in
  if expiry swapstring <? now then println OFFER_EXPIRED ;;; leave else ret swapstring.

Definition taker_cmd (words : list string) : M unit :=
  let '(swapstring, _) := next words in
  match swapstring with
  | None => println TAKER_USAGE ;;; leave
  | Some s =>
      let! swapstring := read_offer s in
      (if negb (is_buy (swap_type swapstring)) then
         let! total := total_rgb_amount (asset_id swapstring) in
         if total <? amount_rgb (swap_type swapstring) then
           println "ERROR: do not have enough RGB assets" ;;; leave
         else ret tt
       else ret tt) ;;;
      modify (upd_whitelisted
        (<[payment_hash swapstring := (asset_id swapstring, swap_type swapstring)]>)) ;;;
      println "SUCCESS: Trade whitelisted!" ;;;
      println ("our_pk: " +:+ pk_to_string our_node_id)
  end.

Definition tab3 : string := tab +:+ tab +:+ tab.

Definition print_trade (kv : PaymentHash * (ContractId * SwapType)) : M unit :=
  let '(k, v) := kv in
  println (tab +:+ tab +:+ "{") ;;;
  println (tab3 +:+ "payment_hash: " +:+ Hex.hex_str k) ;;;
  println (tab3 +:+ "contract_id: " +:+ cid_to_string (fst v)) ;;;
  println (tab3 +:+ "side: " +:+ side (snd v)) ;;;
  println (tab3 +:+ "amount_msats: " +:+ dec (amount_msats (snd v))) ;;;
  println (tab3 +:+ "amount_rgb: " +:+ dec (amount_rgb (snd v))) ;;;
  println (tab +:+ tab +:+ "},").

Definition tradeslist_cmd (words : list string) : M unit :=
  let '(filter, _) := next words in
  println "{" ;;;
  (if is_none filter || bool_decide (filter = Some "taker"%string) then
     let! lock := gets whitelisted_trades in
     println (tab +:+ "taker: [") ;;;
     for_each (map_to_list lock) print_trade ;;;
     println (tab +:+ "],")
   else ret tt) ;;;
  (if is_none filter || bool_decide (filter = Some "maker"%string) then
     let! lock := gets maker_trades in
     println (tab +:+ "maker: [") ;;;
     for_each (map_to_list lock) print_trade ;;;
     println (tab +:+ "],")
   else ret tt) ;;;
  println "}".

(** ** Laws of the interceptor

    Documented by LDK: an intercepted HTLC is identified by its [InterceptId]
    until it is failed or forwarded; afterwards both functions return an
    error for it. *)
Definition uses_intercept (id : bytes) (e : Event) : bool :=
  match e with
  | Ev c r => match c in Call R return R -> bool with
              | CFailIntercepted id' => fun r => bool_decide (id' = id) && is_ok r
              | CForwardIntercepted id' _ _ _ => fun r => bool_decide (id' = id) && is_ok r
              | _ => fun _ => false
              end r
  | Print _ => false
  end.

Class InterceptLaws : Prop := {
  fail_used : forall h id, existsb (uses_intercept id) h = true ->
    is_err (answer h _ (CFailIntercepted id)) = true;
  forward_used : forall h id scid amt rgb, existsb (uses_intercept id) h = true ->
    is_err (answer h _ (CForwardIntercepted id scid amt rgb)) = true
}.

(** ** What the whitelist authorises

    The abstract contract of a swap, from the taker's point of view: what the
    whitelisted entry lets an HTLC take from the channels. *)
Definition authorised (contract : ContractId) (t : SwapType) (e : Intercepted)
    (inbound_rgb_info outbound_rgb_info : option RgbInfo) : Prop :=
  match t with
  | BuyAsset rgb msats =>
      inbound_rgb_amount e = Some rgb
      /\ (exists i, inbound_rgb_info = Some i /\ contract_id i = contract)
      /\ outbound_rgb_info = None
      /\ expected_outbound_amount_msat e <= msats + saturating_sub (inbound_amount_msat e) HTLC_MIN_MSAT
  | SellAsset rgb msats =>
      expected_outbound_rgb_amount e = Some rgb
      /\ (exists i, outbound_rgb_info = Some i /\ contract_id i = contract)
      /\ inbound_rgb_info = None
      /\ saturating_sub (inbound_amount_msat e) (expected_outbound_amount_msat e) = msats
  end.

Lemma mismatch_false contract t e i o :
  mismatch contract t e i o = false -> authorised contract t e i o.
Proof.
  unfold mismatch, authorised, saturating_sub. intros Hm.
  destruct t as [rgb msats|rgb msats]; reflect_bools;
    match goal with H : contract_id <$> _ = Some _ |- _ =>
      apply fmap_Some in H as (x & -> & ->) end;
    (split_and!; [done|eauto|match goal with |- ?x = None => by destruct x end|lia]).
Qed.

(** *** Intercepted HTLCs *)

Definition forward_view (ev : Event) : option (bytes * Z * Z * option Z) :=
  match ev with
  | Ev c _ => match c with
              | CForwardIntercepted id scid amt rgb => Some (id, scid, amt, rgb)
              | _ => None
              end
  | Print _ => None
  end.

(** [i] is what the program read about the channel with identifier [scid]. *)
Definition looked_up (scid : Z) (i : option RgbInfo) (evs : list Event) : Prop :=
  exists channels d,
    Ev CListChannels channels ∈ evs
    /\ List.find (fun d => bool_decide (short_channel_id d = Some scid)) channels = Some d
    /\ match i with
       | Some info => Ev (CGetRgbChannelInfo (channel_id d)) info ∈ evs
       | None => Ev (CPathExists (path_join ldk_data_dir (Hex.hex_str (channel_id d)))) false ∈ evs
       end.

Lemma looked_up_mono scid i evs evs' : evs ⊆ evs' -> looked_up scid i evs -> looked_up scid i evs'.
Proof.
  intros Hsub (chs & d & H1 & H2 & H3). exists chs, d.
  split_and!; [by apply Hsub|done|]. destruct i; by apply Hsub.
Qed.

Lemma pres_get_rgb_info R `{!PreOrder R} id :
  (forall p b w, R w (log (Ev (CPathExists p) b) w)) ->
  (forall id i w, R w (log (Ev (CGetRgbChannelInfo id) i) w)) ->
  Preserves R (get_rgb_info id).
Proof. intros H1 H2. unfold get_rgb_info. pres; auto. Qed.

Lemma context_keeps {B} (f : World -> B) e :
  (forall w ev, f (log ev w) = f w) -> Preserves (keeps f) (intercept_context e).
Proof.
  intros Hf. unfold intercept_context, fail_intercepted_htlc, get_rgb_info. pres; apply Hf.
Qed.

Lemma context_no_forward e :
  Preserves (grows (fun ev => forward_view ev = None)) (intercept_context e).
Proof. unfold intercept_context, fail_intercepted_htlc, get_rgb_info. pres. Qed.

Lemma get_rgb_info_ret id w i w1 :
  get_rgb_info id w = Ret i w1 ->
  exists new, trace w1 = trace w ++ new
    /\ match i with
       | Some info => Ev (CGetRgbChannelInfo id) info ∈ new
       | None => Ev (CPathExists (path_join ldk_data_dir (Hex.hex_str id))) false ∈ new
       end.
Proof.
  unfold get_rgb_info. intros Hr. msolve_in Hr; injection Hr as <- <-; eexists.
  - cbn [trace log]. rewrite <- app_assoc. split; [reflexivity|]. cbn. by right; left.
  - cbn [trace log]. split; [reflexivity|]. left.
Qed.

Lemma context_ret e w i o w1 :
  intercept_context e w = Ret (i, o) w1 ->
  exists new, trace w1 = trace w ++ new
    /\ looked_up (prev_short_channel_id e) i new
    /\ looked_up (requested_next_hop_scid e) o new.
Proof.
  intros Hr. unfold intercept_context in Hr.
  apply bind_Ret_inv in Hr as ([] & w0 & H0 & Hr).
  assert (exists new, trace w0 = trace w ++ new) as [new0 Ht0].
  { unfold fail_intercepted_htlc in H0. destruct (is_swap e); msolve_in H0;
      simplify_eq; first [exists []; by rewrite app_nil_r|eexists; reflexivity]. }
  mrun_in Hr. destruct (List.find _ _) as [ch1|] eqn:Hf1 in Hr; [|done].
  mrun_in Hr. destruct (List.find _ _) as [ch2|] eqn:Hf2 in Hr; [|done].
  apply bind_Ret_inv in Hr as (i' & w2 & Hi & Hr).
  apply bind_Ret_inv in Hr as (o' & w3 & Ho & Hr). mrun_in Hr.
  injection Hr as <- <- <-.
  apply get_rgb_info_ret in Hi as (n1 & Ht1 & Hi). apply get_rgb_info_ret in Ho as (n2 & Ht2 & Ho).
  cbn [trace log] in Ht1, Hf2. eexists. split.
  { cbn [trace log]. eapply suffix_trans; [exact Ht0|]. rewrite Ht2, Ht1, <- !app_assoc. reflexivity. }
  split; eexists _, _; (split_and!; [|eassumption|]).
  - in_list.
  - destruct i'; in_list.
  - in_list.
  - destruct o'; in_list.
Qed.

Lemma reject_emitted e msg w A :
  exists r, @reject e msg A w =
    match r with
    | Ok _ => Exit (log (Ev (CFailIntercepted (intercept_id e)) r) (log (Print (msg +:+ nl)) w))
    | Err _ => Panic UNWRAP_ERR
                 (log (Ev (CFailIntercepted (intercept_id e)) r) (log (Print (msg +:+ nl)) w))
    end.
Proof.
  exists (answer (trace (log (Print (msg +:+ nl)) w)) _ (CFailIntercepted (intercept_id e))).
  unfold reject, fail_intercepted_htlc. mrun. by destruct (answer _ _ _).
Qed.

(** Nothing after a rejection runs. *)
Lemma bind_reject {A B} e msg (k : A -> M B) w :
  bind (reject e msg) k w = reject e msg w.
Proof. unfold reject, fail_intercepted_htlc. mrun. by destruct (answer _ _ _). Qed.

(** The three ways a decision goes. *)
Lemma decide_unknown e i o w :
  whitelisted_trades w !! i_payment_hash e = None ->
  intercept_decide e i o w = reject e REJECT_UNKNOWN w.
Proof. intros Hn. unfold intercept_decide. mrun. rewrite Hn. apply bind_reject. Qed.

Lemma decide_mismatch e i o w cid t :
  whitelisted_trades w !! i_payment_hash e = Some (cid, t) ->
  mismatch cid t e i o = true ->
  intercept_decide e i o w = reject e REJECT_MISMATCH w.
Proof.
  intros Hs Hm. unfold intercept_decide. mrun. rewrite Hs. mrun. rewrite Hm. apply bind_reject.
Qed.

Definition forward_world (e : Intercepted) (w : World) : World :=
  upd_whitelisted (delete (i_payment_hash e))
    (log (Print ("Swap is whitelisted, forwarding the htlc..." +:+ nl)) w).

Lemma decide_forward e i o w cid t :
  whitelisted_trades w !! i_payment_hash e = Some (cid, t) ->
  mismatch cid t e i o = false ->
  exists r,
    let w' := log (Ev (CForwardIntercepted (intercept_id e) (requested_next_hop_scid e)
                         (expected_outbound_amount_msat e) (expected_outbound_rgb_amount e)) r)
                  (forward_world e w) in
    intercept_decide e i o w =
    match r with Ok _ => Ret tt w' | Err _ => Panic "Forward should be valid" w' end.
Proof.
  intros Hs Hm.
  exists (answer (trace (forward_world e w)) _
            (CForwardIntercepted (intercept_id e) (requested_next_hop_scid e)
               (expected_outbound_amount_msat e) (expected_outbound_rgb_amount e))).
  unfold intercept_decide. mrun. rewrite Hs. mrun. rewrite Hm. mrun.
  unfold forward_world. cbn [trace log upd_whitelisted].
  by destruct (answer _ (result unit string) _) as [[]|].
Qed.

Definition forward_event (e : Intercepted) (r : result unit string) : Event :=
  Ev (CForwardIntercepted (intercept_id e) (requested_next_hop_scid e)
        (expected_outbound_amount_msat e) (expected_outbound_rgb_amount e)) r.

Definition no_forward (ev : Event) : Prop := forward_view ev = None.

(** Either nothing is forwarded, the whitelist stays and the handler does not
    return; or the HTLC matched its entry, which is gone. *)
Inductive intercept_result (e : Intercepted) (w : World) : Prop :=
| result_not_forwarded :
    Forall no_forward (emitted (htlc_intercepted e) w) ->
    whitelisted_trades (final (htlc_intercepted e w)) = whitelisted_trades w ->
    returns (htlc_intercepted e w) = false ->
    intercept_result e w
| result_forwarded i o cid t new r :
    whitelisted_trades w !! i_payment_hash e = Some (cid, t) ->
    mismatch cid t e i o = false ->
    looked_up (prev_short_channel_id e) i new ->
    looked_up (requested_next_hop_scid e) o new ->
    Forall no_forward new ->
    emitted (htlc_intercepted e) w =
      new ++ [Print ("Swap is whitelisted, forwarding the htlc..." +:+ nl); forward_event e r] ->
    whitelisted_trades (final (htlc_intercepted e w)) =
      delete (i_payment_hash e) (whitelisted_trades w) ->
    returns (htlc_intercepted e w) = is_ok r ->
    intercept_result e w.

Lemma reject_result e msg A w :
  Forall no_forward (emitted (reject e msg (A := A)) w)
  /\ whitelisted_trades (final (reject e msg (A := A) w)) = whitelisted_trades w
  /\ returns (reject e msg (A := A) w) = false
  /\ grows no_forward w (final (reject e msg (A := A) w)).
Proof.
  assert (Preserves (grows no_forward) (reject e msg (A := A))) as Hg.
  { unfold reject, fail_intercepted_htlc. pres. }
  split; [by apply emitted_grows|]. split; [|split; [|apply Hg]];
    destruct (reject_emitted e msg w A) as [r ->]; by destruct r.
Qed.

Lemma htlc_result e w : intercept_result e w.
Proof.
  assert (Preserves (keeps whitelisted_trades) (intercept_context e)) as Hk
    by (by apply context_keeps).
  specialize (Hk w). pose proof (context_no_forward e w) as Hg. unfold keeps in Hk.
  destruct (intercept_context e w) as [[i o] w1|w1|msg w1|w1] eqn:Hc; cbn [final] in Hk, Hg.
  2, 3, 4: constructor 1; unfold emitted, htlc_intercepted, bind; rewrite Hc; cbn [final];
    [destruct Hg as (new & -> & Hf); by rewrite drop_app_length|done|done].
  destruct Hg as (new & Ht & Hf). apply context_ret in Hc as Hl.
  destruct Hl as (new' & Ht' & Hi & Ho). rewrite Ht' in Ht. apply app_inv_head in Ht as ->.
  assert (forall o', htlc_intercepted e w = o' <-> intercept_decide e i o w1 = o') as Hd.
  { intros o'. unfold htlc_intercepted. by rewrite (bind_eq_Ret _ _ _ _ _ Hc). }
  assert (htlc_intercepted e w = intercept_decide e i o w1) as Hdec by (by apply Hd). clear Hd.
  destruct (whitelisted_trades w1 !! i_payment_hash e) as [[cid t]|] eqn:Hw;
    [destruct (mismatch cid t e i o) eqn:Hm|].
  2: { destruct (decide_forward e i o w1 cid t Hw Hm) as [r Hr]. cbn zeta in Hr.
       apply (result_forwarded e w i o cid t new r); try done; [by rewrite <- Hk| | |].
       - apply emitted_app. rewrite Hdec, Hr. destruct r; cbn; by rewrite Ht', <- !app_assoc.
       - rewrite Hdec, Hr, <- Hk. by destruct r.
       - rewrite Hdec, Hr. by destruct r. }
  1: rewrite (decide_mismatch _ _ _ _ _ _ Hw Hm) in Hdec.
  2: rewrite (decide_unknown _ _ _ _ Hw) in Hdec.
  1: destruct (reject_result e REJECT_MISMATCH unit w1) as (_ & Hwl & Hret & new2 & Ht2 & Hf2).
  2: destruct (reject_result e REJECT_UNKNOWN unit w1) as (_ & Hwl & Hret & new2 & Ht2 & Hf2).
  all: constructor 1; [|by rewrite Hdec, Hwl, Hk|by rewrite Hdec].
  all: rewrite (emitted_app _ _ (new ++ new2));
    [by apply Forall_app|rewrite Hdec, Ht2, Ht'; by rewrite app_assoc].
Qed.

(** *** Commands *)

Lemma keeps_total_rgb {B} (f : World -> B) cid :
  (forall w e, f (log e w) = f w) -> Preserves (keeps f) (total_rgb_amount cid).
Proof.
  intros Hf. unfold total_rgb_amount. pres; auto using keeps_total_amount; apply Hf.
Qed.

Lemma keeps_read_offer {B} (f : World -> B) s :
  (forall w e, f (log e w) = f w) -> Preserves (keeps f) (read_offer s).
Proof. intros Hf. unfold read_offer, get_current_timestamp. pres; apply Hf. Qed.

(** What [read_offer] lets through. *)
Lemma read_offer_ret s w v w1 :
  read_offer s w = Ret v w1 ->
  from_str s = Done (Ok v) /\
  exists now, trace w1 = trace w ++ [Ev CNow now] /\ now <= expiry v.
Proof.
  unfold read_offer, get_current_timestamp. intros Hr. mrun_in Hr.
  destruct (from_str s) as [[v'|]|]; try done; msolve_in Hr; try done.
  injection Hr as -> <-. split; [done|]. eexists. split; [reflexivity|]. by reflect_bools.
Qed.

Definition accepted_offer (words : list string) (v : SwapString) : Prop :=
  exists s, fst (next words) = Some s /\ from_str s = Done (Ok v).

(** [taker] either returns, having whitelisted the offer, or changes nothing. *)
Lemma taker_result words w :
  (returns (taker_cmd words w) = false
   /\ whitelisted_trades (final (taker_cmd words w)) = whitelisted_trades w)
  \/ (returns (taker_cmd words w) = true
      /\ exists v, accepted_offer words v
         /\ whitelisted_trades (final (taker_cmd words w)) =
            <[payment_hash v := (asset_id v, swap_type v)]> (whitelisted_trades w)).
Proof.
  unfold taker_cmd, accepted_offer. destruct words as [|s rest]; cbn [next]; [by left; mrun|].
  pose proof (keeps_read_offer whitelisted_trades s (fun _ _ => eq_refl) w) as Hk. unfold keeps in Hk.
  destruct (read_offer s w) as [v w1|w1|m w1|w1] eqn:Hr; cbn [final] in Hk.
  2: { left. by rewrite (bind_eq_Exit _ _ _ _ Hr). }
  2: { left. by rewrite (bind_eq_Panic _ _ _ _ _ Hr). }
  2: { left. by rewrite (bind_eq_Waits _ _ _ _ Hr). }
  rewrite (bind_eq_Ret _ _ _ _ _ Hr). apply read_offer_ret in Hr as [Hs _].
  match goal with |- context [bind ?m ?k w1] => set (enough := m) end.
  assert (Preserves (keeps whitelisted_trades) enough) as He.
  { subst enough. pres. by apply keeps_total_rgb. }
  specialize (He w1). unfold keeps in He. rewrite Hk in He.
  destruct (enough w1) as [[] w2|w2|m w2|w2] eqn:Hen; cbn [final] in He.
  2: { left. by rewrite (bind_eq_Exit _ _ _ _ Hen). }
  2: { left. by rewrite (bind_eq_Panic _ _ _ _ _ Hen). }
  2: { left. by rewrite (bind_eq_Waits _ _ _ _ Hen). }
  right. rewrite (bind_eq_Ret _ _ _ _ _ Hen). mrun. cbn. rewrite He.
  split; [done|]. exists v. eauto.
Qed.

(** Once an HTLC has been failed or forwarded, deciding on it panics. *)
Lemma decide_used `{!InterceptLaws} e i o w :
  existsb (uses_intercept (intercept_id e)) (trace w) = true ->
  panicked (intercept_decide e i o w) = true.
Proof.
  intros Hu.
  assert (forall ev, existsb (uses_intercept (intercept_id e)) (trace (log ev w)) = true) as Hl.
  { intros ev. cbn. by rewrite existsb_app, Hu. }
  assert (forall msg, panicked (reject e msg w : outcome unit) = true) as Hrej.
  { intros msg. unfold reject, fail_intercepted_htlc. mrun.
    pose proof (fail_used _ (intercept_id e) (Hl (Print (msg +:+ nl)))) as Hf.
    by destruct (answer _ _ _). }
  destruct (whitelisted_trades w !! i_payment_hash e) as [[cid t]|] eqn:Hw;
    [destruct (mismatch cid t e i o) eqn:Hm|].
  - by rewrite (decide_mismatch _ _ _ _ _ _ Hw Hm).
  - unfold intercept_decide. mrun. rewrite Hw. mrun. rewrite Hm. mrun.
    cbn [trace log upd_whitelisted].
    pose proof (forward_used _ (intercept_id e) (requested_next_hop_scid e)
      (expected_outbound_amount_msat e) (expected_outbound_rgb_amount e)
      (Hl (Print ("Swap is whitelisted, forwarding the htlc..." +:+ nl)))) as Hf.
    cbn [trace log] in Hf. by destruct (answer _ (result unit string) _).
  - by rewrite (decide_unknown _ _ _ _ Hw).
Qed.

Lemma makerinit_price_fits asset_id price w p w1 :
  makerinit_price asset_id price w = Ret (Ok p) w1 -> 0 <= p <= U64_MAX.
Proof.
  unfold makerinit_price, fetch_price. intros Hr.
  assert (forall f, 0 <= price_of_last f <= U64_MAX) as Hf by (intros f; by apply f64_as_uint_fits).
  msolve_in Hr; simplify_eq; auto.
  eapply parse_uint_fits; [|eassumption]. done.
Qed.

Lemma makerinit_swaptype_ret side_str amt price w t w1 :
  makerinit_swaptype side_str amt price w = Ret t w1 ->
  w1 = w /\ amount_rgb t = amt /\ u64_mul amt price = Done (amount_msats t).
Proof.
  unfold makerinit_swaptype. intros Hr.
  repeat match type of Hr with (match ?x with _ => _ end) _ = _ => destruct x; try done end;
    msolve_in Hr; by simplify_eq.
Qed.

Lemma keeps_makerinit_price {B} (f : World -> B) asset_id price :
  (forall w e, f (log e w) = f w) -> Preserves (keeps f) (makerinit_price asset_id price).
Proof. intros Hf. unfold makerinit_price, fetch_price. pres; apply Hf. Qed.

(** What a [makerinit] that publishes has checked of its arguments. *)
Lemma makerinit_terms words w w' :
  makerinit_cmd words w = Ret tt w' ->
  exists cid secs price t w1,
    0 < secs <= U32_MAX /\ 1 <= price <= U64_MAX /\ 1 <= amount_rgb t <= U64_MAX
    /\ u64_mul (amount_rgb t) price = Done (amount_msats t)
    /\ maker_trades w1 = maker_trades w
    /\ makerinit_publish cid (amount_rgb t) price secs t w1 = Ret tt w'.
Proof.
  unfold makerinit_cmd. intros Hr.
  destruct words as [|amt [|asset [|side [|timeout words]]]]; cbn [next is_none] in Hr; try done.
  destruct (next words) as [price ?]. cbn [unwrap expect_some] in Hr. mrun_in Hr.
  destruct (cid_from_str asset) as [cid|]; [|done]. mrun_in Hr.
  destruct (parse_u32 timeout) as [secs|] eqn:Hsecs; [|done]. mrun_in Hr.
  destruct (0 <? secs) eqn:Hpos; [|done]. mrun_in Hr.
  apply bind_Ret_inv in Hr as (p & w1 & Hp & Hr).
  pose proof (keeps_makerinit_price maker_trades cid price (fun _ _ => eq_refl) w) as Hk1.
  rewrite Hp in Hk1. destruct p as [p|]; [|done]. apply makerinit_price_fits in Hp.
  cbn [is_err is_ok negb unwrap_ok expect_ok] in Hr. mrun_in Hr.
  destruct (p =? 0) eqn:Hp0; [done|]. mrun_in Hr.
  destruct (parse_u64 amt) as [a|] eqn:Ha; [|done]. mrun_in Hr.
  destruct (0 <? a) eqn:Ha0; [|done]. mrun_in Hr.
  apply bind_Ret_inv in Hr as (t & w2 & Ht & Hr).
  apply makerinit_swaptype_ret in Ht as (-> & <- & Hmul).
  apply bind_Ret_inv in Hr as ([] & w2 & Henough & Hr).
  apply parse_uint_fits in Hsecs, Ha; try done. unfold fits in *. reflect_bools.
  exists cid, secs, p, t, w2. split_and!; try lia; try done.
  etrans; [|exact Hk1]. cbn [final].
  match type of Henough with ?m _ = _ => assert (Preserves (keeps maker_trades) m) as He end.
  { pres. by apply keeps_total_rgb. }
  specialize (He w1). by rewrite Henough in He.
Qed.

(** ** Sequences of trade operations *)

Inductive TradeOp :=
| OpIntercepted (e : Intercepted)
| OpMakerinit (words : list string)
| OpTaker (words : list string)
| OpTradeslist (words : list string).

Definition trade_op (op : TradeOp) : M unit :=
  match op with
  | OpIntercepted e => htlc_intercepted e
  | OpMakerinit words => makerinit_cmd words
  | OpTaker words => taker_cmd words
  | OpTradeslist words => tradeslist_cmd words
  end.

Definition is_forward (ev : Event) : bool := is_some (forward_view ev).

(** The payment hashes an operation forwards an HTLC for, and those it puts
    on the whitelist. *)
Definition forwarded_by (op : TradeOp) (w : World) : list PaymentHash :=
  match op with
  | OpIntercepted e =>
      map (fun _ => i_payment_hash e) (List.filter is_forward (emitted (htlc_intercepted e) w))
  | _ => []
  end.
Definition whitelisted_by (op : TradeOp) (w : World) : list PaymentHash :=
  match op with
  | OpTaker (s :: _) =>
      match taker_cmd [s] w, from_str s with
      | Ret _ _, Done (Ok v) => [payment_hash v]
      | _, _ => []
      end
  | _ => []
  end.

(** A run: the operations in order, ended by a panic; the state it ends in, the
    hashes forwarded and the hashes whitelisted on the way. *)
Fixpoint run_trades (ops : list TradeOp) (w : World)
  : World * list PaymentHash * list PaymentHash :=
  match ops with
  | [] => (w, [], [])
  | op :: ops =>
      let w1 := final (trade_op op w) in
      let '(w2, fwd, wl) := if panicked (trade_op op w) then (w1, [], []) else run_trades ops w1 in
      (w2, forwarded_by op w ++ fwd, whitelisted_by op w ++ wl)
  end.

Definition count (h : PaymentHash) (l : list PaymentHash) : nat :=
  length (base.filter (fun x => x = h) l).

Definition credit (w : World) (h : PaymentHash) : nat :=
  if decide (is_Some (whitelisted_trades w !! h)) then 1%nat else 0%nat.

Lemma count_app h l1 l2 : count h (l1 ++ l2) = (count h l1 + count h l2)%nat.
Proof. unfold count. by rewrite filter_app, length_app. Qed.
Lemma count_single h h' : count h [h'] = if decide (h' = h) then 1%nat else 0%nat.
Proof. unfold count. rewrite filter_cons, filter_nil. by case_decide. Qed.

Lemma filter_no_forward l : Forall no_forward l -> List.filter is_forward l = [].
Proof.
  induction 1 as [|ev l Hev _ IH]; [done|].
  assert (is_forward ev = false) as He by (unfold is_forward; by rewrite Hev).
  cbn. by rewrite He, IH.
Qed.

Lemma keeps_whitelist_makerinit words : Preserves (keeps whitelisted_trades) (makerinit_cmd words).
Proof.
  unfold makerinit_cmd, makerinit_publish, makerinit_swaptype, makerinit_price, fetch_price, maker_init, get_current_timestamp.
  pres; try apply keeps_total_rgb; reflexivity.
Qed.
Lemma keeps_whitelist_tradeslist words : Preserves (keeps whitelisted_trades) (tradeslist_cmd words).
Proof. unfold tradeslist_cmd, print_trade. pres; reflexivity. Qed.

(** [taker] reads one word. *)
Lemma taker_one_word s rest : taker_cmd (s :: rest) = taker_cmd [s].
Proof. done. Qed.

(** One operation spends as many credits as it forwards HTLCs. *)
Lemma trade_op_credit op w h :
  (count h (forwarded_by op w) + credit (final (trade_op op w)) h
   <= count h (whitelisted_by op w) + credit w h)%nat.
Proof.
  assert (forall w', whitelisted_trades w' = whitelisted_trades w -> credit w' h = credit w h) as Heq.
  { intros w' Hw. unfold credit. by rewrite Hw. }
  destruct op as [e|words|words|words]; cbn [trade_op forwarded_by].
  - destruct (htlc_result e w) as [Hf Hw _|i o cid t new r Hs _ _ _ Hf Hem Hw _].
    + rewrite (filter_no_forward _ Hf), (Heq _ Hw). cbn. lia.
    + rewrite Hem, List.filter_app, (filter_no_forward _ Hf).
      change (map _ _) with [i_payment_hash e]. rewrite count_single.
      unfold credit. rewrite Hw. case_decide as Hh.
      * subst h. rewrite lookup_delete_eq, decide_False by (by intros [? ?]).
        by rewrite decide_True by eauto.
      * by rewrite lookup_delete_ne by done.
  - rewrite Heq; [cbn; lia|apply keeps_whitelist_makerinit].
  - destruct words as [|s rest]; [rewrite Heq by (by destruct (taker_result [] w) as [[]|[? (?&(?&?&?)&?)]]); cbn; lia|].
    rewrite (taker_one_word s rest). cbn [whitelisted_by].
    destruct (taker_result [s] w) as [[Hr Hw]|[Hr (v & (s' & [= <-] & Hs) & Hw)]].
    + rewrite (Heq _ Hw). cbn. lia.
    + destruct (taker_cmd [s] w) as [[] w'| | |] eqn:Ht; try done. rewrite Hs, count_single.
      unfold credit. rewrite Hw. cbn. destruct (decide (payment_hash v = h)) as [->|].
      * repeat case_decide; lia.
      * by rewrite lookup_insert_ne by done.
  - rewrite Heq; [cbn; lia|apply keeps_whitelist_tradeslist].
Qed.

(** ** Properties *)

(** C1: an intercepted HTLC is forwarded only on the terms the taker agreed to:
    its payment hash is on the whitelist, the channels' RGB information was
    read from the channels the HTLC names, the HTLC matches the whitelisted
    trade, what is forwarded is what the HTLC asked for, and the whitelist
    entry is used up. *)
Theorem forwarded_was_authorised e w ev v :
  ev ∈ emitted (htlc_intercepted e) w -> forward_view ev = Some v ->
  v = (intercept_id e, requested_next_hop_scid e, expected_outbound_amount_msat e,
       expected_outbound_rgb_amount e)
  /\ whitelisted_trades (final (htlc_intercepted e w)) =
     delete (i_payment_hash e) (whitelisted_trades w)
  /\ exists cid t i o,
      whitelisted_trades w !! i_payment_hash e = Some (cid, t)
      /\ looked_up (prev_short_channel_id e) i (emitted (htlc_intercepted e) w)
      /\ looked_up (requested_next_hop_scid e) o (emitted (htlc_intercepted e) w)
      /\ authorised cid t e i o.
Proof.
  intros Hin Hv. destruct (htlc_result e w) as [Hf _ _|i o cid t new r Hs Hm Hi Ho Hf Hem Hw _].
  { rewrite Forall_forall in Hf. specialize (Hf _ Hin). unfold no_forward in Hf. congruence. }
  rewrite Hem in Hin |- *. rewrite Forall_forall in Hf. split_and!; [|done|].
  - apply elem_of_app in Hin as [Hin|Hin]; [specialize (Hf _ Hin); unfold no_forward in Hf; congruence|].
    rewrite !elem_of_cons in Hin.
    destruct Hin as [->|[->|Hin]]; [done|by simplify_eq/=|by apply not_elem_of_nil in Hin].
  - exists cid, t, i, o. split_and!; [done| | |by apply mismatch_false];
      (eapply looked_up_mono; [|eassumption]); set_solver.
Qed.

(** C2: the taker's money is bounded by the trade: for a bought asset a
    forwarded HTLC takes at most the agreed msats from the node, and for an
    asset sold for a non-zero amount it brings in exactly that amount. *)
Theorem forwarded_cost_bounded e w cid t ev :
  whitelisted_trades w !! i_payment_hash e = Some (cid, t) ->
  ev ∈ emitted (htlc_intercepted e) w -> is_forward ev = true ->
  0 <= inbound_amount_msat e ->
  match t with
  | BuyAsset _ msats => expected_outbound_amount_msat e - inbound_amount_msat e <= msats
  | SellAsset _ msats =>
      0 < msats -> inbound_amount_msat e = expected_outbound_amount_msat e + msats
  end.
Proof.
  intros Hs Hin Hv Hpos. destruct (htlc_result e w) as [Hf _ _|i o cid' t' new r Hs' Hm _ _ _ _ _ _].
  { rewrite Forall_forall in Hf. specialize (Hf _ Hin). unfold is_forward in Hv. by rewrite Hf in Hv. }
  rewrite Hs in Hs'. injection Hs' as <- <-. apply mismatch_false in Hm.
  unfold authorised, saturating_sub, HTLC_MIN_MSAT in Hm.
  destruct t as [rgb msats|rgb msats]; destruct Hm as (_ & _ & _ & Hm); lia.
Qed.

(** C3: over any sequence of trade operations and intercepted HTLCs, an offer
    is used at most once: the HTLCs forwarded for a payment hash are no more
    than the times [taker] whitelisted it, plus one if it already was. *)
Theorem one_forward_per_whitelisting ops w h :
  let '(_, fwd, wl) := run_trades ops w in
  (count h fwd <= count h wl + credit w h)%nat.
Proof.
  revert w. induction ops as [|op ops IH]; intros w; cbn [run_trades].
  { unfold count. cbn. lia. }
  pose proof (trade_op_credit op w h) as Hop. specialize (IH (final (trade_op op w))).
  destruct (panicked (trade_op op w)).
  - rewrite !count_app. change (count h []) with 0%nat. lia.
  - destruct (run_trades ops _) as [[w2 fwd] wl]. rewrite !count_app. lia.
Qed.

(** C32: an HTLC that is not a swap always brings the node down: the early
    failure does not return, so the HTLC is failed or forwarded a second
    time, and the interceptor's error is unwrapped. *)
Theorem non_swap_htlc_panics `{!InterceptLaws} e w :
  is_swap e = false -> panicked (htlc_intercepted e w) = true.
Proof.
  intros Hs. unfold htlc_intercepted, intercept_context. rewrite Hs. unfold fail_intercepted_htlc.
  mrun. destruct (answer (trace w) (result unit string) _) as [[]|] eqn:Hr; [|done].
  mrun. destruct (List.find _ _); [|done]. mrun. destruct (List.find _ _); [|done].
  unfold get_rgb_info. mrun.
  repeat (mcase; mrun); apply decide_used; cbn; rewrite !existsb_app; cbn;
    rewrite bool_decide_eq_true_2 by done; cbn; by rewrite ?orb_true_r.
Qed.

(** C20: [taker] puts a trade on the whitelist exactly as the offer states it,
    and only if the offer parses and has not expired when it is read; in every
    other case the whitelist is left as it was. *)
Theorem taker_whitelists_valid_offers words w :
  whitelisted_trades (final (taker_cmd words w)) = whitelisted_trades w
  \/ exists v now,
      accepted_offer words v
      /\ Ev CNow now ∈ emitted (taker_cmd words) w /\ now <= expiry v
      /\ whitelisted_trades (final (taker_cmd words w)) =
         <[payment_hash v := (asset_id v, swap_type v)]> (whitelisted_trades w).
Proof.
  destruct (taker_result words w) as [[_ Hw]|[Hr (v & Ha & Hw)]]; [by left|right].
  destruct Ha as (s & Hn & Hs). destruct words as [|s' rest]; [done|]. injection Hn as ->.
  assert (exists now w1, read_offer s w = Ret v w1 /\ trace w1 = trace w ++ [Ev CNow now]
          /\ now <= expiry v) as (now & w1 & Ho & Ht & Hle).
  { unfold taker_cmd in Hr. cbn [next] in Hr.
    destruct (read_offer s w) as [v' w1|w1|m w1|w1] eqn:Ho.
    - destruct (read_offer_ret _ _ _ _ Ho) as (Hs' & now & Ht & Hle).
      rewrite Hs in Hs'. injection Hs' as <-. by exists now, w1.
    - by rewrite (bind_eq_Exit _ _ _ _ Ho) in Hr.
    - by rewrite (bind_eq_Panic _ _ _ _ _ Ho) in Hr.
    - by rewrite (bind_eq_Waits _ _ _ _ Ho) in Hr. }
  exists v, now. split_and!; [by exists s| |done|done].
  unfold taker_cmd, emitted. cbn [next]. rewrite (bind_eq_Ret _ _ _ _ _ Ho).
  match goal with |- context [final (?m w1)] => assert (Preserves (grows (fun _ => True)) m) as Hg end.
  { unfold total_rgb_amount, get_rgb_total_amount, get_asset_owned_values, sync_wallet. pres. }
  destruct (Hg w1) as (new & -> & _). rewrite Ht, <- app_assoc, drop_app_length. by left.
Qed.

(** What the makers' clock and LDK promise: the time is far from the end of the
    64-bit range, and a payment hash has 32 bytes. *)
Class MakerLaws : Prop := {
  now_range : forall h, 0 <= answer h _ CNow <= 2 ^ 62;
  inbound_hash : forall h amt t ph ps,
    answer h _ (CCreateInboundPayment amt t) = Ok (ph, ps) -> length ph = 32%nat /\ Forall u8 ph
}.

(** C10: the offer [makerinit] prints is, read by [SwapString::from_str], the
    trade it has recorded: same asset, side, amounts and payment hash. *)
Theorem makerinit_offer_reads_back `{!ContractIdLaws _, !MakerLaws} words w w' :
  makerinit_cmd words w = Ret tt w' ->
  exists s v,
    Print ("SUCCESS! swap_string = " +:+ s +:+ nl) ∈ trace w'
    /\ from_str s = Done (Ok v)
    /\ maker_trades w' = <[payment_hash v := (asset_id v, swap_type v)]> (maker_trades w).
Proof.
  intros Hr. apply makerinit_terms in Hr as (cid & secs & price & t & w1 & Hs & Hp & Ha & Hmul & Hk & Hr).
  unfold makerinit_publish, maker_init, get_current_timestamp in Hr. mrun_in Hr.
  destruct (answer (trace w1) _ _) as [[ph ps]|] eqn:Hph; [|done]. mrun_in Hr.
  destruct (inbound_hash _ _ _ _ _ Hph) as [Hlen Hbytes].
  match type of Hr with context [u64_add ?n _] =>
    assert (0 <= n <= 2 ^ 62) as Hnow by apply now_range; remember n as now eqn:Hn; clear Hn end.
  unfold U32_MAX in Hs. rewrite u64_add_ok in Hr by (unfold U64_MAX; lia). mrun_in Hr.
  injection Hr as <-. eexists _, _. split_and!.
  - cbn [trace log]. in_list.
  - apply from_str_printed; try done; unfold U64_MAX in *; lia.
  - cbn. by rewrite Hk.
Qed.
(** C33: without overflow checks the product of amount and price wraps: an offer
    to pay 2^32 msats for each of 2^32 units is read as a sale for nothing, and
    the whitelisted trade then accepts every HTLC that takes the units out of
    the taker's channel, whatever msats it brings or takes along. *)
Theorem wrapped_sale_is_free `{!ContractIdLaws _} asset exp hash :
  overflow_checks = false -> 1 <= exp <= U64_MAX -> length hash = 32%nat -> Forall u8 hash ->
  let t := SellAsset (2 ^ 32) 0 in
  from_str (format_swapstring (2 ^ 32) asset t (2 ^ 32) exp hash) =
    Done (Ok {| asset_id := asset; swap_type := t; expiry := exp; payment_hash := hash |})
  /\ forall e i,
      expected_outbound_rgb_amount e = Some (2 ^ 32) -> contract_id i = asset ->
      inbound_amount_msat e <= expected_outbound_amount_msat e ->
      mismatch asset t e None (Some i) = false.
Proof.
  intros Hc Hexp Hl Hh t. split.
  - apply (from_str_printed t); try done; try (cbn; unfold U64_MAX; lia).
    cbn. unfold u64_mul. by rewrite Hc.
  - intros e i Hrgb Hcid Hle. subst t. unfold mismatch, saturating_sub. rewrite Hrgb. cbn [fmap option_fmap option_map].
    rewrite Hcid, !bool_decide_eq_true_2 by done. cbn. by rewrite orb_false_r, negb_false_iff, Z.eqb_eq; lia.
Qed.

End Trades.

(** ** Witnesses

    A node with an RGB channel (short identifier 1) and a vanilla channel
    (short identifier 2). *)
Section Witnesses.
Import Mock.
Context (checks : bool).
Abbreviation MT := (mock_types_checks checks).
#[local] Existing Instance mock_externals.

Definition mock_channel (id : bytes) (scid : Z) : @ChannelDetails MT := @Build_ChannelDetails MT
  id [2; 8] None None (Some scid) 100000 50000000 40000000 50000000 true true false.

Definition trade_cfg : MockCfg checks := {|
  cfg_now := 1000; cfg_unspent := []; cfg_balance := 0; cfg_fungibles := Some []; cfg_pay_ok := true;
  cfg_channels := [mock_channel (repeat 1 32) 1; mock_channel (repeat 2 32) 2];
  cfg_rgb_info := [(repeat 1 32, @Build_RgbInfo MT true 10 90)]; cfg_peers := [];
  cfg_route := fun _ => []
|}.

Lemma trade_intercept_laws : @InterceptLaws MT (mock_oracle checks trade_cfg).
Proof.
  split; intros h id *; intros Hu; change (used checks h id = true) in Hu; cbn; unfold once;
    by rewrite Hu.
Qed.

Lemma trade_maker_laws : @MakerLaws MT (mock_oracle checks trade_cfg).
Proof.
  split; [intros; cbn; lia|]. intros h amt t ph ps. cbn. intros [= <- <-].
  split; [done|]. repeat constructor; done.
Qed.
End Witnesses.

Definition trade_hash : PaymentHash := repeat 171 32.

Definition htlc (swap : bool) : Intercepted := {|
  is_swap := swap; i_payment_hash := trade_hash; intercept_id := [9];
  inbound_amount_msat := 3000000; expected_outbound_amount_msat := 5000;
  inbound_rgb_amount := Some 10; expected_outbound_rgb_amount := None;
  requested_next_hop_scid := 2; prev_short_channel_id := 1
|}.

Section Scenario.
Import Mock.
Local Existing Instance mock_types_checks.
Abbreviation MT := (mock_types_checks true).
#[local] Instance scenario_externals : @Externals MT := mock_externals true.
#[local] Instance scenario_oracle : @Oracle MT := mock_oracle true (trade_cfg true).

Definition trade_world : @World MT :=
  upd_whitelisted (T := MT) (<[trade_hash := (true, BuyAsset 10 5000)]>) (empty_world true).

Definition scenario_forward : @Event MT :=
  Ev (@CForwardIntercepted MT [9] 2 5000 None) (Ok tt).

Lemma scenario_forwarded : scenario_forward ∈ emitted (htlc_intercepted (htlc true)) trade_world.
Proof.
  replace (emitted (htlc_intercepted (htlc true)) trade_world)
    with (List.filter (fun _ => true) (emitted (htlc_intercepted (htlc true)) trade_world)) by
    (vm_compute; reflexivity).
  vm_compute. repeat (first [left|right]).
Qed.

Lemma forwarded_was_authorised_witness :
  whitelisted_trades (final (htlc_intercepted (htlc true) trade_world)) = ∅.
Proof.
  destruct (forwarded_was_authorised (htlc true) trade_world scenario_forward ([9], 2, 5000, None)
    scenario_forwarded eq_refl) as (_ & Hw & _).
  rewrite Hw. reflexivity.
Defined.

Lemma forwarded_cost_bounded_witness : 5000 - 3000000 <= 5000.
Proof.
  apply (forwarded_cost_bounded (htlc true) trade_world true (BuyAsset 10 5000) scenario_forward
    eq_refl scenario_forwarded eq_refl). cbn. lia.
Defined.

Lemma non_swap_htlc_panics_witness :
  panicked (htlc_intercepted (htlc false) trade_world) = true.
Proof. apply (non_swap_htlc_panics (H := trade_intercept_laws true)). reflexivity. Defined.

Lemma wrapped_sale_is_free_witness :
  @from_str (@TypesProfile (mock_types_checks false)) mock_ids
    (@format_swapstring mock_ids (2 ^ 32) true (SellAsset (2 ^ 32) 0) (2 ^ 32) 2000 trade_hash)
  = Done (Ok (@Build_SwapString mock_ids true (SellAsset (2 ^ 32) 0) 2000 trade_hash)).
Proof.
  apply (wrapped_sale_is_free (T := mock_types_checks false) (ContractIdLaws0 := mock_ids_laws) true 2000 trade_hash);
    [reflexivity|unfold U64_MAX; lia|reflexivity|repeat constructor; done].
Defined.

Definition makerinit_words : list string := ["10"; "rgb1a"; "sell"; "100"; "7"].
Definition makerinit_final : @World MT := final (makerinit_cmd (T := MT) makerinit_words (empty_world true)).

Lemma makerinit_offer_reads_back_witness :
  exists s v, Print (H := MT) ("SUCCESS! swap_string = " +:+ s +:+ nl) ∈ trace makerinit_final
    /\ from_str (H := @TypesProfile MT) (H0 := mock_ids) s = Done (Ok v)
    /\ maker_trades makerinit_final =
       <[payment_hash v := (asset_id v, swap_type v)]> (maker_trades (empty_world true)).
Proof.
  apply (makerinit_offer_reads_back (T := MT) (ContractIdLaws0 := mock_ids_laws)
           (H := trade_maker_laws true) makerinit_words (empty_world true)).
  vm_compute. reflexivity.
Defined.

End Scenario.
End Trades.
