(* ===== verification/MakerExecute.v ===== *)
(** * The maker's side of a swap

    cli.rs: [get_route], [maker_execute] and the [makerexecute] command.  The
    router and the payment machinery are LDK's: [CFindRoute] and
    [CSendSpontaneous]; what is modelled is how the program joins the two
    legs into one circular route, and what it records. *)

From Stdlib Require Import ZArith Lia Ascii String.
From stdpp Require Import base list strings gmap.
From S2P Require Import Prelude RustStd Hex Swap Config World Effects Mock Payments Trades.
Import Swap Payments Trades.

Open Scope Z_scope.

Module MakerExecute.

Section MakerExecute.
Context `{T : Types} {X : @Externals T} {O : @Oracle T}.
Local Open Scope m_scope.

Definition get_route (start dest : PublicKey) (asset_id : option ContractId)
    (final_value_msat : option Z) (hints : list RouteHintHop) : M (option Route) :=
  call (CFindRoute {|
    rr_start := start; rr_payee := dest; rr_hints := hints; rr_max_path_count := 1;
    rr_saturation_power_of_half := 2; rr_final_cltv_expiry_delta := 14;
    rr_final_value_msat := default HTLC_MIN_MSAT final_value_msat; rr_asset_id := asset_id |}).

(** The hint for one of our usable channels. *)
Definition hint_of (details : ChannelDetails) : comp RouteHintHop :=
  (let? config := unwrap (forwarding_info details) in
   let? scid := unwrap (short_channel_id details) in
   Done {| src_node_id := counterparty details; rh_short_channel_id := scid;
           rh_cltv_expiry_delta := fi_cltv_expiry_delta config;
           rh_base_msat := fee_base_msat config;
           rh_proportional_millionths := fee_proportional_millionths config |})%comp.

Fixpoint receive_hints (l : list ChannelDetails) : comp (list RouteHintHop) :=
  match l with
  | [] => Done []
  | d :: l => (let? h := hint_of d in let? hs := receive_hints l in Done (h :: hs))%comp
  end.

(** [hops.last_mut()] *)
Fixpoint update_last (f : RouteHop -> RouteHop) (l : list RouteHop) : option (list RouteHop) :=
  match l with
  | [] => None
  | [h] => Some [f h]
  | h :: l => cons h <$> update_last f l
  end.

(** [hops[0]] *)
Definition update_first (f : RouteHop -> RouteHop) (l : list RouteHop) : option (list RouteHop) :=
  match l with
  | [] => None
  | h :: l => Some (f h :: l)
  end.

Definition set_swap_flag (h : RouteHop) : RouteHop :=
  {| hop_rest := hop_rest h; hop_short_channel_id := Z.lor (hop_short_channel_id h) is_swap_scid;
     fee_msat := fee_msat h; rgb_amount := rgb_amount h; payment_amount := payment_amount h |}.
Definition set_fee (fee : Z) (h : RouteHop) : RouteHop :=
  {| hop_rest := hop_rest h; hop_short_channel_id := hop_short_channel_id h;
     fee_msat := fee; rgb_amount := rgb_amount h; payment_amount := payment_amount h |}.
Definition carry_rgb (amount_rgb : Z) (h : RouteHop) : RouteHop :=
  {| hop_rest := hop_rest h; hop_short_channel_id := hop_short_channel_id h;
     fee_msat := fee_msat h; rgb_amount := Some amount_rgb; payment_amount := HTLC_MIN_MSAT |}.

Definition INDEX_0 : string := "index out of bounds: the len is 0 but the index is 0".

(** The two legs joined: [swaptype] is the maker's. *)
Definition join_legs (swaptype : SwapType) (first_leg second_leg : Route) : comp (list RouteHop) :=
  (let? second_path := expect_some INDEX_0 (head (route_paths second_leg)) in
   let? second_path := expect_some INDEX_0 (update_first set_swap_flag second_path) in
   let? first_path := expect_some INDEX_0 (head (route_paths first_leg)) in
   let? first_path := expect_some "Path not to be empty"
     (update_last (set_fee (if is_buy swaptype then HTLC_MIN_MSAT else 0)) first_path) in
   Done (match swaptype with
         | SellAsset amount_rgb _ => map (carry_rgb amount_rgb) first_path ++ second_path
         | BuyAsset amount_rgb _ => first_path ++ map (carry_rgb amount_rgb) second_path
         end))%comp.

Definition NO_PREIMAGE : string :=
  "ERROR: unable to find payment preimage, have you provided the correct swapstring and payment secret? ".

(** Both routes. *)
Definition swap_legs (taker_pk : PublicKey) (swaptype : SwapType) (asset_id : ContractId)
    (hints : list RouteHintHop) : M (Route * Route) :=
  let! first_leg := get_route our_node_id taker_pk
    (if is_buy swaptype then None else Some asset_id)
    (if is_buy swaptype then Some (amount_msats swaptype) else None) [] in
  let! second_leg := get_route taker_pk our_node_id
    (if is_buy swaptype then Some asset_id else None)
    (if is_buy swaptype then Some HTLC_MIN_MSAT else Some (amount_msats swaptype)) hints in
  match first_leg, second_leg with
  | Some f, Some s => ret (f, s)
  | Some _, _ => println "ERROR: unable to find from the taker to us" ;;; leave
  | _, Some _ => println "ERROR: unable to find path to the taker" ;;; leave
  | _, _ => println "ERROR: no path found" ;;; leave
  end.

(** Sending along the joined route. *)
Definition swap_send (swaptype : SwapType) (asset_id : ContractId) (payment_hash : PaymentHash)
    (payment_preimage : bytes) (fullpaths : list RouteHop) : M HTLCStatus :=
  let route := {| route_paths := [fullpaths]; route_keysend := Some (our_node_id, 40) |} in
  match swaptype with
  | SellAsset amount_rgb _ => call (CWriteRgbPaymentInfo payment_hash asset_id amount_rgb None)
  | BuyAsset _ _ => ret tt
  end ;;;
  let! sent := call (CSendSpontaneous route payment_preimage payment_hash) in
  match sent with
  | Ok _payment_hash => println "EVENT: initiated swap" ;;; print "> " ;;; ret Pending
  | Err e => println ("ERROR: failed to send payment: " +:+ e) ;;; print "> " ;;; ret Failed
  end.

(** [maker_execute] up to the joined route... *)
Definition maker_route (taker_pk : PublicKey) (swaptype : SwapType) (asset_id : ContractId)
    (payment_hash : PaymentHash) (payment_secret : bytes) : M (bytes * list RouteHop) :=
  let! payment_preimage := call (CGetPaymentPreimage payment_hash payment_secret) in
  let! payment_preimage :=
    match payment_preimage with
    | Ok p => ret p
    | Err e => println (NO_PREIMAGE +:+ e) ;;; leave
    end in
  let swaptype := opposite swaptype in
  let! usable := call CListUsableChannels in
  let! hints := lift (receive_hints usable) in
  let! (first_leg, second_leg) := swap_legs taker_pk swaptype asset_id hints in
  let! fullpaths := lift (join_legs swaptype first_leg second_leg) in
  ret (payment_preimage, fullpaths).

(** ... and the payment along it. *)
Definition maker_execute (taker_pk : PublicKey) (swaptype : SwapType) (asset_id : ContractId)
    (payment_hash : PaymentHash) (payment_secret : bytes) : M unit :=
  let! (payment_preimage, fullpaths) :=
    maker_route taker_pk swaptype asset_id payment_hash payment_secret in
  let swaptype := opposite swaptype in
  let! st := swap_send swaptype asset_id payment_hash payment_preimage fullpaths in
  record_outbound payment_hash
    {| preimage := None; secret := None; status := st; amt_msat := Some (amount_msats swaptype) |}.

Definition makerexecute_cmd (words : list string) : M unit :=
  let '(swapstring, words) := next words in
  let '(payment_secret, words) := next words in
  let '(peer_pubkey, words) := next words in
  if is_none peer_pubkey then
    println "ERROR: makerexecute requires 3 args: makerexecute <swap_string> <payment_secret> <peer_pubkey>" ;;;
    leave
  else
  let! swapstring := lift (unwrap swapstring) in
  let! swapstring := read_offer swapstring in
  let! payment_secret := lift (unwrap payment_secret) in
  let! payment_secret :=
    match Hex.to_vec payment_secret ≫= Hex.to_array32 with
    | Some v => ret v
    | None => println "ERROR: invalid payment hash" ;;; leave
    end in
  let! peer_pubkey := lift (unwrap peer_pubkey) in
  let! peer_pubkey :=
    match pk_from_str peer_pubkey with
    | Ok pubkey => ret pubkey
    | Err e => println ("ERROR: " +:+ e) ;;; leave
    end in
  scope (maker_execute peer_pubkey (swap_type swapstring) (asset_id swapstring)
           (payment_hash swapstring) payment_secret).

(** ** Lemmas *)

Lemma update_last_Some f l l' :
  update_last f l = Some l' -> exists init h, l = init ++ [h] /\ l' = init ++ [f h].
Proof.
  revert l'. induction l as [|h l IH]; intros l' Hl; [done|]. cbn in Hl.
  destruct l as [|h' l]; [injection Hl as <-; by exists [], h|].
  apply fmap_Some in Hl as (l1 & Hl & ->). destruct (IH _ Hl) as (init & x & -> & ->).
  by exists (h :: init), x.
Qed.

Lemma join_legs_inv t f s hops :
  join_legs t f s = Done hops ->
  exists init last first rest,
    head (route_paths f) = Some (init ++ [last])
    /\ head (route_paths s) = Some (first :: rest)
    /\ hops =
       (let first_path := init ++ [set_fee (if is_buy t then HTLC_MIN_MSAT else 0) last] in
        let second_path := set_swap_flag first :: rest in
        match t with
        | SellAsset amount_rgb _ => map (carry_rgb amount_rgb) first_path ++ second_path
        | BuyAsset amount_rgb _ => first_path ++ map (carry_rgb amount_rgb) second_path
        end).
Proof.
  unfold join_legs. intros Hj.
  destruct (head (route_paths s)) as [[|first rest]|]; cbn [expect_some comp_bind update_first] in Hj; try done.
  destruct (head (route_paths f)) as [fp|]; cbn [expect_some comp_bind] in Hj; [|done].
  destruct (update_last _ fp) as [fp'|] eqn:Hu; cbn [expect_some comp_bind] in Hj; [|done].
  apply update_last_Some in Hu as (init & last & -> & ->).
  exists init, last, first, rest. split_and!; [done|done|]. by injection Hj as <-.
Qed.

(** Joining succeeds exactly when both routes have a path with a hop. *)
Lemma join_legs_done t init last fps first rest sps kf ks :
  exists hops, join_legs t {| route_paths := (init ++ [last]) :: fps; route_keysend := kf |}
                           {| route_paths := (first :: rest) :: sps; route_keysend := ks |} = Done hops.
Proof.
  unfold join_legs. cbn.
  assert (forall f, exists l, update_last f (init ++ [last]) = Some l) as Hu.
  { intros f. induction init as [|h init [l IH]]; cbn; [eauto|].
    rewrite IH. destruct init; cbn; eauto. }
  destruct (Hu (set_fee (if is_buy t then HTLC_MIN_MSAT else 0))) as [l ->]. cbn. eauto.
Qed.

(** ** The shape of a swap's route

    [user] is the trade as the offer states it, [f] the path from the maker to
    the taker, [s] the path back.  When the user buys, the asset travels on
    [f]; when it sells, on [s]. *)
Record swap_route (user : SwapType) (f s hops : list RouteHop) : Prop := {
  route_rest : map hop_rest hops = map hop_rest (f ++ s);
  route_scids : map hop_short_channel_id hops =
    map hop_short_channel_id f
    ++ match s with
       | h :: s => Z.lor (hop_short_channel_id h) is_swap_scid :: map hop_short_channel_id s
       | [] => []
       end;
  route_rgb : map rgb_amount hops =
    if is_buy user
    then repeat (Some (Swap.amount_rgb user)) (length f) ++ map rgb_amount s
    else map rgb_amount f ++ repeat (Some (Swap.amount_rgb user)) (length s);
  route_payment : map payment_amount hops =
    if is_buy user
    then repeat HTLC_MIN_MSAT (length f) ++ map payment_amount s
    else map payment_amount f ++ repeat HTLC_MIN_MSAT (length s);
  route_fees : map fee_msat hops =
    map fee_msat (removelast f) ++ [if is_buy user then 0 else HTLC_MIN_MSAT] ++ map fee_msat s
}.

Lemma map_constant {A B} (b : B) (l : list A) : map (fun _ => b) l = repeat b (length l).
Proof. induction l as [|a l IH]; cbn; [done|]. by rewrite IH. Qed.

Lemma join_legs_swap_route user f s hops :
  join_legs (opposite user) f s = Done hops ->
  exists fp sp, head (route_paths f) = Some fp /\ head (route_paths s) = Some sp
                /\ fp <> [] /\ sp <> [] /\ swap_route user fp sp hops.
Proof.
  intros Hj. apply join_legs_inv in Hj as (init & last & first & rest & Hf & Hs & ->).
  exists (init ++ [last]), (first :: rest). split_and!; [done|done|by destruct init|done|].
  destruct user as [rgb msats|rgb msats]; cbn [opposite is_buy Swap.amount_rgb]; split;
    rewrite ?removelast_last, ?map_app, ?length_app; cbn; rewrite ?map_map, ?map_app; cbn;
    rewrite ?repeat_app, <- ?app_assoc; cbn;
    rewrite ?map_constant; done.
Qed.

(** What [maker_execute] asks the router for. *)
Definition first_request (taker : PublicKey) (user : SwapType) (asset : ContractId) : RouteRequest := {|
  rr_start := our_node_id; rr_payee := taker; rr_hints := []; rr_max_path_count := 1;
  rr_saturation_power_of_half := 2; rr_final_cltv_expiry_delta := 14;
  rr_final_value_msat := if is_buy user then HTLC_MIN_MSAT else amount_msats user;
  rr_asset_id := if is_buy user then Some asset else None |}.
Definition second_request (taker : PublicKey) (user : SwapType) (asset : ContractId)
    (hints : list RouteHintHop) : RouteRequest := {|
  rr_start := taker; rr_payee := our_node_id; rr_hints := hints; rr_max_path_count := 1;
  rr_saturation_power_of_half := 2; rr_final_cltv_expiry_delta := 14;
  rr_final_value_msat := if is_buy user then amount_msats user else HTLC_MIN_MSAT;
  rr_asset_id := if is_buy user then None else Some asset |}.

Definition no_send (ev : Event) : Prop :=
  match ev with
  | Ev c _ => match c with CSendSpontaneous _ _ _ => False | _ => True end
  | Print _ => True
  end.

Lemma maker_route_no_send taker t asset h secret :
  Preserves (grows no_send) (maker_route taker t asset h secret).
Proof. unfold maker_route, swap_legs, get_route. pres. Qed.
Lemma maker_route_keeps taker t asset h secret :
  Preserves (keeps outbound_payments) (maker_route taker t asset h secret).
Proof. unfold maker_route, swap_legs, get_route. pres; reflexivity. Qed.

Lemma maker_route_ret taker t asset h secret w pre hops w1 :
  maker_route taker t asset h secret w = Ret (pre, hops) w1 ->
  exists new f s hints usable,
    trace w1 = trace w ++ new
    /\ Ev (CGetPaymentPreimage h secret) (Ok pre) ∈ new
    /\ Ev CListUsableChannels usable ∈ new /\ receive_hints usable = Done hints
    /\ Ev (CFindRoute (first_request taker t asset)) (Some f) ∈ new
    /\ Ev (CFindRoute (second_request taker t asset hints)) (Some s) ∈ new
    /\ join_legs (opposite t) f s = Done hops.
Proof.
  unfold maker_route, swap_legs, get_route. intros Hr. mrun_in Hr.
  destruct (answer (trace w) _ _) as [pre'|] eqn:Hpre; [|done]. mrun_in Hr.
  match type of Hr with context [receive_hints ?u] => destruct (receive_hints u) as [hints|] eqn:Hh; [|done] end.
  mrun_in Hr.
  match type of Hr with context [match ?a with Some _ => _ | None => _ end] =>
    destruct a as [f|] eqn:Hf; mrun_in Hr end;
  match type of Hr with context [match ?a with Some _ => _ | None => _ end] =>
    destruct a as [s|] eqn:Hs; mrun_in Hr end; try done.
  destruct (join_legs (opposite t) f s) as [hops'|] eqn:Hj; [|done]. mrun_in Hr.
  injection Hr as -> -> <-.
  eexists _, f, s, hints, _. cbn [trace log]. rewrite <- !app_assoc. cbn [app].
  assert (first_request taker t asset =
    {| rr_start := our_node_id; rr_payee := taker; rr_hints := []; rr_max_path_count := 1;
       rr_saturation_power_of_half := 2; rr_final_cltv_expiry_delta := 14;
       rr_final_value_msat := default HTLC_MIN_MSAT
         (if is_buy (opposite t) then Some (amount_msats (opposite t)) else None);
       rr_asset_id := if is_buy (opposite t) then None else Some asset |}) as -> by (by destruct t).
  assert (second_request taker t asset hints =
    {| rr_start := taker; rr_payee := our_node_id; rr_hints := hints; rr_max_path_count := 1;
       rr_saturation_power_of_half := 2; rr_final_cltv_expiry_delta := 14;
       rr_final_value_msat := default HTLC_MIN_MSAT
         (if is_buy (opposite t) then Some HTLC_MIN_MSAT else Some (amount_msats (opposite t)));
       rr_asset_id := if is_buy (opposite t) then Some asset else None |}) as -> by (by destruct t).
  split; [reflexivity|]. rewrite !elem_of_cons.
  split_and!; eauto 10.
Qed.

Lemma swap_send_ret t asset h pre hops w :
  exists r w1,
    swap_send t asset h pre hops w = Ret (if is_ok r then Pending else Failed) w1
    /\ outbound_payments w1 = outbound_payments w
    /\ exists new, trace w1 = trace w ++ new
       /\ Ev (CSendSpontaneous {| route_paths := [hops]; route_keysend := Some (our_node_id, 40) |} pre h) r ∈ new.
Proof.
  unfold swap_send.
  destruct t as [rgb msats|rgb msats]; mrun;
    (match goal with |- context [match answer ?hist ?R ?c with _ => _ end] => exists (answer hist R c) end);
    (destruct (answer _ (result bytes string) _) as [v|err]); mrun; eexists; (split; [reflexivity|]);
    (split; [reflexivity|]); eexists; cbn [trace log]; rewrite <- !app_assoc; cbn [app];
    (split; [reflexivity|in_list]).
Qed.

(** ** Properties *)

(** C9: a swap that is attempted sends one payment, along the joined route:
    the path to the taker the router gave for the maker's side of the trade,
    then the path back, flagged as a swap at its first hop, with the asset
    carried on the right leg and the taker's fee replaced; the payment is
    recorded as pending or failed by what LDK answered. *)
Theorem maker_execute_swaps taker t asset h secret w w' :
  maker_execute taker t asset h secret w = Ret tt w' ->
  exists f s fp sp hints usable hops pre r,
    Ev (CFindRoute (first_request taker t asset)) (Some f) ∈ trace w'
    /\ Ev (CFindRoute (second_request taker t asset hints)) (Some s) ∈ trace w'
    /\ Ev CListUsableChannels usable ∈ trace w' /\ receive_hints usable = Done hints
    /\ head (route_paths f) = Some fp /\ head (route_paths s) = Some sp
    /\ swap_route t fp sp hops
    /\ Ev (CGetPaymentPreimage h secret) (Ok pre) ∈ trace w'
    /\ Ev (CSendSpontaneous {| route_paths := [hops]; route_keysend := Some (our_node_id, 40) |} pre h) r
       ∈ trace w'
    /\ outbound_payments w' = <[h := {| preimage := None; secret := None;
         status := if is_ok r then Pending else Failed; amt_msat := Some (amount_msats t) |}]>
         (outbound_payments w).
Proof.
  intros Hr. unfold maker_execute in Hr. apply bind_Ret_inv in Hr as ([pre hops] & w1 & Hm & Hr).
  pose proof (maker_route_keeps taker t asset h secret w) as Hk. rewrite Hm in Hk.
  apply maker_route_ret in Hm as (new & f & s & hints & usable & Ht & Hpre & Hu & Hh & Hf & Hs & Hj).
  apply join_legs_swap_route in Hj as (fp & sp & Hfp & Hsp & _ & _ & Hroute).
  destruct (swap_send_ret (opposite t) asset h pre hops w1) as (r & w2 & Hsend & Hout & new2 & Ht2 & Hin).
  rewrite (bind_eq_Ret _ _ _ _ _ Hsend) in Hr. unfold record_outbound in Hr. mrun_in Hr.
  injection Hr as <-. exists f, s, fp, sp, hints, usable, hops, pre, r. cbn [trace upd_outbound].
  rewrite Ht2, Ht. split_and!; try done; try in_list.
  cbn. rewrite Hout. unfold keeps in Hk. cbn in Hk. rewrite Hk. by destruct t.
Qed.

(** A swap that stops - no preimage for the secret, no path on one of the
    legs, a panic - has sent nothing and recorded nothing. *)
Theorem maker_execute_stops taker t asset h secret w :
  returns (maker_execute taker t asset h secret w) = false ->
  Forall no_send (emitted (maker_execute taker t asset h secret) w)
  /\ outbound_payments (final (maker_execute taker t asset h secret w)) = outbound_payments w.
Proof.
  unfold emitted, maker_execute.
  pose proof (maker_route_keeps taker t asset h secret w) as Hk.
  pose proof (maker_route_no_send taker t asset h secret w) as (new & Ht & Hf).
  destruct (maker_route taker t asset h secret w) as [[pre hops] w1|w1|m w1|w1] eqn:Hm.
  - rewrite (bind_eq_Ret _ _ _ _ _ Hm).
    destruct (swap_send_ret (opposite t) asset h pre hops w1) as (r & w2 & Hsend & _).
    by rewrite (bind_eq_Ret _ _ _ _ _ Hsend).
  - rewrite (bind_eq_Exit _ _ _ _ Hm). cbn [final] in *. by rewrite Ht, drop_app_length.
  - rewrite (bind_eq_Panic _ _ _ _ _ Hm). cbn [final] in *. by rewrite Ht, drop_app_length.
  - rewrite (bind_eq_Waits _ _ _ _ Hm). cbn [final] in *. by rewrite Ht, drop_app_length.
Qed.

(** C21: [makerexecute] starts a swap only for an offer that parses and has not
    expired: otherwise no route is asked for, nothing is sent and no table
    changes. *)
Theorem makerexecute_needs_valid_offer words w ev :
  ev ∈ emitted (makerexecute_cmd words) w -> ~ no_send ev ->
  exists s v now,
    fst (next words) = Some s /\ from_str s = Done (Ok v)
    /\ Ev CNow now ∈ emitted (makerexecute_cmd words) w /\ now <= expiry v.
Proof.
  assert (forall m : M unit, Preserves (grows no_send) m -> ev ∈ emitted m w -> ~ no_send ev -> False) as Hno.
  { intros m Hm Hin Hev. apply Hev. pose proof (emitted_grows _ _ w Hm) as Hf.
    by apply (proj1 (Forall_forall _ _) Hf). }
  unfold makerexecute_cmd. destruct words as [|s [|secret [|peer rest]]]; cbn [next is_none].
  1-3: intros Hin Hev; exfalso; refine (Hno _ _ Hin Hev); pres.
  cbn [unwrap expect_some lift fst]. unfold emitted at 1 2. rewrite !bind_ret.
  pose proof (fun A (k : SwapString -> M A) => pres_bind (grows no_send) (read_offer s) k) as Hb.
  destruct (read_offer s w) as [v w1|w1|m w1|w1] eqn:Ho.
  - apply read_offer_ret in Ho as Hv. destruct Hv as (Hv & now & Ht & Hle).
    rewrite !(bind_eq_Ret _ _ _ _ _ Ho). intros _ _. exists s, v, now. split_and!; [done|done| |done].
    match goal with |- context [final (?m w1)] => assert (Preserves (grows (fun _ => True)) m) as Hg end.
    { pres. unfold maker_execute, maker_route, swap_legs, get_route, swap_send, record_outbound. pres. }
    destruct (Hg w1) as (new & -> & _). rewrite Ht, <- app_assoc, drop_app_length. by left.
  - rewrite !(bind_eq_Exit _ _ _ _ Ho). intros Hin Hev. exfalso. cbn [final] in Hin.
    refine (Hno (scope (bind (read_offer s) (fun _ => ret tt))) _ _ Hev).
    + unfold read_offer, get_current_timestamp. pres.
    + unfold emitted, scope. by rewrite (bind_eq_Exit _ _ _ _ Ho).
  - rewrite !(bind_eq_Panic _ _ _ _ _ Ho). intros Hin Hev. exfalso. cbn [final] in Hin.
    refine (Hno (bind (read_offer s) (fun _ => ret tt)) _ _ Hev).
    + unfold read_offer, get_current_timestamp. pres.
    + unfold emitted. by rewrite (bind_eq_Panic _ _ _ _ _ Ho).
  - rewrite !(bind_eq_Waits _ _ _ _ Ho). intros Hin Hev. exfalso. cbn [final] in Hin.
    refine (Hno (bind (read_offer s) (fun _ => ret tt)) _ _ Hev).
    + unfold read_offer, get_current_timestamp. pres.
    + unfold emitted. by rewrite (bind_eq_Waits _ _ _ _ Ho).
Qed.

End MakerExecute.

(** ** Witnesses *)
Section Witnesses.
Import Mock.
Abbreviation MT := (mock_types_checks true).
#[local] Instance scenario_externals : @Externals MT := mock_externals true.
#[local] Instance swap_oracle : @Oracle MT := mock_oracle true {|
  cfg_now := 1000; cfg_unspent := []; cfg_balance := 0; cfg_fungibles := Some []; cfg_pay_ok := true;
  cfg_channels := []; cfg_rgb_info := []; cfg_peers := [];
  cfg_route := fun outward => [@Build_RouteHop MT tt (if outward then 11 else 22) 3000000 None 3000000] |}.

Definition mock_taker : @PublicKey MT := [2; 9].
Definition swap_world : @World MT :=
  final (maker_execute (T := MT) mock_taker (BuyAsset 10 5000) true trade_hash [1] (empty_world true)).

Lemma maker_execute_swaps_witness :
  maker_execute (T := MT) mock_taker (BuyAsset 10 5000) true trade_hash [1] (empty_world true)
    = Ret tt swap_world
  /\ exists f s fp sp hops,
      Ev (CFindRoute (first_request (T := MT) mock_taker (BuyAsset 10 5000) true)) (Some f) ∈ trace swap_world
      /\ head (route_paths f) = Some fp /\ head (route_paths s) = Some sp
      /\ swap_route (T := MT) (BuyAsset 10 5000) fp sp hops.
Proof.
  assert (maker_execute (T := MT) mock_taker (BuyAsset 10 5000) true trade_hash [1] (empty_world true)
    = Ret tt swap_world) as Hr by (vm_compute; reflexivity).
  split; [exact Hr|].
  destruct (maker_execute_swaps (T := MT) _ _ _ _ _ _ _ Hr)
    as (f & s & fp & sp & hints & us & hops & pre & r & H1 & _ & _ & _ & H2 & H3 & H4 & _).
  exists f, s, fp, sp, hops. split; [exact H1|split; [exact H2|split; [exact H3|exact H4]]].
Defined.

(** A router that finds no path. *)
Definition no_path_oracle : @Oracle MT := {|
  answer := fun h R c => match c in Call R return R with
                         | CFindRoute _ => None
                         | c => mock_answer true (base_cfg true) h _ c
                         end |}.

Lemma maker_execute_stops_witness :
  outbound_payments (final (maker_execute (T := MT) (O := no_path_oracle) mock_taker (BuyAsset 10 5000)
    true trade_hash [1] (empty_world true))) = ∅.
Proof.
  refine (proj2 (maker_execute_stops (T := MT) (O := no_path_oracle) mock_taker (BuyAsset 10 5000)
    true trade_hash [1] (empty_world true) _)).
  vm_compute. reflexivity.
Defined.

Definition offer_words : list string :=
  ["10:rgb1a:buy:500:2000:abababababababababababababababababababababababababababababababab";
   "cdcdcdcdcdcdcdcdcdcdcdcdcdcdcdcdcdcdcdcdcdcdcdcdcdcdcdcdcdcdcdcd"; "0209"]%string.
Definition offer_sent : @Event MT :=
  Ev (@CSendSpontaneous MT {| route_paths := [[@Build_RouteHop MT tt 11 0 (Some 10) 3000000;
        @Build_RouteHop MT tt (22 + 2 ^ 63) 3000000 None 3000000]];
        route_keysend := Some ([2; 7] : list Z, 40) |} (repeat 239 32) (repeat 171 32)) (Ok (repeat 171 32)).

Lemma makerexecute_needs_valid_offer_witness :
  exists s v now, fst (next offer_words) = Some s
    /\ from_str (H := @TypesProfile MT) (H0 := mock_ids) s = Done (Ok v) /\ now <= expiry v.
Proof.
  destruct (makerexecute_needs_valid_offer (T := MT) offer_words (empty_world true) offer_sent)
    as (s & v & now & H1 & H2 & _ & H3).
  - vm_compute. repeat (first [left|right]).
  - intros [].
  - exists s, v, now. split; [exact H1|split; [exact H2|exact H3]].
Defined.
End Witnesses.
End MakerExecute.
