(* ===== verification/Peers.v ===== *)
(** * Peers: connecting, disconnecting and the file of channel peers

    cli.rs: [parse_peer_info], [connect_peer_if_necessary],
    [do_connect_peer], [do_disconnect_peer] and their commands; disk.rs:
    [persist_channel_peer] and [read_channel_peer_data]; main.rs: one turn of
    the task that reconnects to channel peers.

    [do_connect_peer] polls every ten milliseconds until the peer appears or
    the connection closes, for as long as that takes; [patience] bounds the
    number of polls, and after them the computation is still waiting ([Waits]):
    nothing that follows has run.  [connect_patience] shows that the bound only
    decides when, never what, the answer is. *)

From Stdlib Require Import ZArith Lia Ascii String.
From stdpp Require Import base list strings gmap.
From S2P Require Import Prelude RustStd Hex Swap Config World Effects Mock.

Open Scope Z_scope.

Module Peers.

Section Peers.
Context `{T : Types} {X : @Externals T} {O : @Oracle T}.
Context (patience : nat).
Local Open Scope m_scope.

Definition BAD_PEER_FORMAT : string :=
  "ERROR: incorrectly formatted peer info. Should be formatted as: `pubkey@host:port`".
Definition BAD_PEER_ADDR : string :=
  "ERROR: couldn't parse pubkey@host:port into a socket address".
Definition BAD_PEER_PUBKEY : string := "ERROR: unable to parse given pubkey for node".

Definition parse_peer_info (peer_pubkey_and_ip_addr : string)
  : M (result (PublicKey * SocketAddr) IoError) :=
  let pubkey_and_addr := split_on at_sign peer_pubkey_and_ip_addr in
  let '(pubkey, pubkey_and_addr) := next pubkey_and_addr in
  let '(peer_addr_str, _) := next pubkey_and_addr in
  if is_none peer_addr_str then ret (Err (Custom BAD_PEER_FORMAT)) else
  let! addr_str := lift (unwrap peer_addr_str) in
  let! peer_addrs := call (CResolve addr_str) in
  let peer_addr := peer_addrs ≫= head in
  if is_none peer_addr then ret (Err (Custom BAD_PEER_ADDR)) else
  let! pubkey := lift (unwrap pubkey) in
  let pubkey := Hex.to_compressed_pubkey pk_from_slice pubkey in
  if is_none pubkey then ret (Err (Custom BAD_PEER_PUBKEY)) else
  let! pubkey := lift (unwrap pubkey) in
  let! peer_addr := lift (unwrap peer_addr) in
  ret (Ok (pubkey, peer_addr)).

(** The polling loop of [do_connect_peer]. *)
Fixpoint await_connection (rounds : nat) (pubkey : PublicKey) : M (result unit unit) :=
  match rounds with
  | 0%nat => wait
  | S rounds =>
      let! closed := call (CConnectionClosed pubkey) in
      if closed then ret (Err tt) else
      let! ids := call CPeerIds in
      if bool_decide (pubkey ∈ ids) then ret (Ok tt) else await_connection rounds pubkey
  end.

Definition do_connect_peer (pubkey : PublicKey) (peer_addr : SocketAddr)
  : M (result unit unit) :=
  let! connecting := call (CConnectOutbound pubkey peer_addr) in
  if connecting then await_connection patience pubkey else ret (Err tt).

Definition connect_peer_if_necessary (pubkey : PublicKey) (peer_addr : SocketAddr)
  : M (result unit unit) :=
  let! ids := call CPeerIds in
  if existsb (fun node_pubkey => bool_decide (node_pubkey = pubkey)) ids then ret (Ok tt)
  else
    let! res := do_connect_peer pubkey peer_addr in
    (if is_err res then println "ERROR: failed to connect to peer" else ret tt) ;;;
    ret res.

Definition do_disconnect_peer (pubkey : PublicKey) : M (result unit unit) :=
  let! channels := call CListChannels in
  if existsb (fun channel => bool_decide (counterparty channel = pubkey)) channels then
    println "Error: Node has an active channel with this peer, close any channels first" ;;;
    ret (Err tt)
  else
    let! peers := call CPeerIds in
    if negb (existsb (fun pk => bool_decide (pubkey = pk)) peers) then
      println ("Error: Could not find peer " +:+ pk_to_string pubkey) ;;;
      ret (Err tt)
    else
      call (CDisconnect pubkey) ;;;
      ret (Ok tt).

(** ** disk.rs *)

Definition persist_channel_peer (path : string) (peer_info : string) : M bool :=
  fs_append path (peer_info +:+ nl).

Fixpoint read_peer_lines (l : list string) (peer_data : gmap PublicKey SocketAddr)
  : M (result (gmap PublicKey SocketAddr) IoError) :=
  match l with
  | [] => ret (Ok peer_data)
  | line :: l =>
      let! info := parse_peer_info line in
      match info with
      | Ok (pubkey, socket_addr) => read_peer_lines l (<[pubkey := socket_addr]> peer_data)
      | Err e => ret (Err e)
      end
  end.

Definition read_channel_peer_data (path : string)
  : M (result (gmap PublicKey SocketAddr) IoError) :=
  let! contents := fs_read path in
  match contents with
  | None => ret (Ok ∅)
  | Some contents =>
      let! opened := call (CFileOpen path) in
      match opened with
      | Err e => ret (Err (Os e))
      | Ok _ => read_peer_lines (lines contents) ∅
      end
  end.

(** One turn of the reconnection task: [false] when it is told to stop. *)
Definition reconnect_node (info : gmap PublicKey SocketAddr) (node_id : PublicKey) : M unit :=
  for_each (map_to_list info) (fun '(pubkey, peer_addr) =>
    if decide (pubkey = node_id) then
      do_connect_peer pubkey peer_addr ;;;
      ret tt
    else ret tt).

Fixpoint reconnect_nodes (info : gmap PublicKey SocketAddr) (nodes : list PublicKey) : M bool :=
  match nodes with
  | [] => ret true
  | node_id :: nodes =>
      let! stop := call CStopRequested in
      if stop then ret false else
      reconnect_node info node_id ;;;
      reconnect_nodes info nodes
  end.

Definition peer_data_path : string := ldk_data_dir +:+ "/channel_peer_data".

Definition reconnect_turn : M bool :=
  let! data := read_channel_peer_data peer_data_path in
  match data with
  | Ok info =>
      let! peers := call CPeerIds in
      let! channels := call CListChannels in
      reconnect_nodes info
        (List.filter (fun id => negb (existsb (fun pk => bool_decide (id = pk)) peers))
           (map counterparty channels))
  | Err e => println ("ERROR: errored reading channel peer info from disk: "
                      +:+ io_error_debug e) ;;; ret true
  end.

(** ** Commands *)

Definition connectpeer_cmd (words : list string) : M unit :=
  let '(peer_pubkey_and_ip_addr, _) := next words in
  match peer_pubkey_and_ip_addr with
  | None => println "ERROR: connectpeer requires peer connection info: `connectpeer pubkey@host:port`" ;;; leave
  | Some s =>
      let! info := parse_peer_info s in
      let! (pubkey, peer_addr) :=
        match info with
        | Ok info => ret info
        | Err e =>
            let! message := lift (unwrap (into_inner e)) in
            println (dquote +:+ message +:+ dquote) ;;;
            leave
        end in
      let! res := connect_peer_if_necessary pubkey peer_addr in
      if is_ok res then println ("SUCCESS: connected to peer " +:+ pk_to_string pubkey)
      else ret tt
  end.

Definition disconnectpeer_cmd (words : list string) : M unit :=
  let '(peer_pubkey, _) := next words in
  match peer_pubkey with
  | None => println "ERROR: disconnectpeer requires peer public key: `disconnectpeer <peer_pubkey>`" ;;; leave
  | Some s =>
      let! peer_pubkey :=
        match pk_from_str s with
        | Ok pubkey => ret pubkey
        | Err e => println ("ERROR: " +:+ e) ;;; leave
        end in
      let! res := do_disconnect_peer peer_pubkey in
      if is_ok res then println ("SUCCESS: disconnected from peer " +:+ pk_to_string peer_pubkey)
      else ret tt
  end.

(** ** Specifications *)

(** The system resolves a host the same way every time, and lets the program
    use its own files. *)
Class SystemLaws (resolve : string -> option (list SocketAddr)) : Prop := {
  resolve_stable : forall h s, answer h _ (CResolve s) = resolve s;
  append_works : forall h p c, answer h _ (CFsAppend p c) = true;
  open_works : forall h p, answer h _ (CFileOpen p) = Ok tt
}.

(** What a line of the file denotes. *)
Definition peer_of (resolve : string -> option (list SocketAddr)) (s : string)
  : result (PublicKey * SocketAddr) IoError :=
  match split_on at_sign s with
  | pubkey :: addr :: _ =>
      match resolve addr ≫= head with
      | Some a => match Hex.to_compressed_pubkey pk_from_slice pubkey with
                  | Some pk => Ok (pk, a)
                  | None => Err (Custom BAD_PEER_PUBKEY)
                  end
      | None => Err (Custom BAD_PEER_ADDR)
      end
  | _ => Err (Custom BAD_PEER_FORMAT)
  end.

(** A line [persist_channel_peer] can write and [lines] can find again. *)
Definition one_line (s : string) : Prop := no_char newline s /\ strip_cr s = s.

Fixpoint file_of (l : list string) : string :=
  match l with [] => EmptyString | s :: l => s +:+ String newline (file_of l) end.

(** Same world but for the trace. *)
Definition same_state (w w' : World) : Prop :=
  fs w' = fs w /\ inbound_payments w' = inbound_payments w
  /\ outbound_payments w' = outbound_payments w /\ whitelisted_trades w' = whitelisted_trades w
  /\ maker_trades w' = maker_trades w /\ tasks w' = tasks w.

(** ** Lemmas *)

Lemma split_on_file l : Forall one_line l -> split_on newline (file_of l) = l ++ [EmptyString].
Proof.
  induction 1 as [|s l [Hn _] _ IH]; [done|]. cbn [file_of]. by rewrite split_on_app, IH.
Qed.

Lemma strip_terminated_lines l :
  Forall one_line l -> strip_terminated (l ++ [EmptyString]) = l ++ [EmptyString].
Proof.
  induction 1 as [|s l [_ Hs] _ IH]; [done|]. cbn [app strip_terminated].
  destruct (l ++ [EmptyString]) as [|x l'] eqn:Hl; [by destruct l|]. by rewrite Hs, IH.
Qed.

Lemma drop_last_empty_snoc l : drop_last_empty (l ++ [EmptyString]) = l.
Proof.
  induction l as [|s l IH]; [done|]. cbn [app drop_last_empty]. rewrite IH.
  destruct s, (l ++ [EmptyString]) eqn:Hl; try done; by destruct l.
Qed.

Lemma lines_file l : Forall one_line l -> lines (file_of l) = l.
Proof.
  intros Hl. unfold lines. by rewrite split_on_file, strip_terminated_lines, drop_last_empty_snoc.
Qed.

Lemma file_of_snoc l s : file_of (l ++ [s]) = file_of l +:+ (s +:+ nl).
Proof.
  induction l as [|x l IH]; [done|]. cbn [app file_of]. rewrite IH.
  exact (eq_sym (string_append_assoc x (String newline (file_of l)) (s +:+ nl))).
Qed.

Section Laws.
Context (resolve : string -> option (list SocketAddr)) `{!SystemLaws resolve}.

Lemma parse_peer_info_spec s w :
  exists w', parse_peer_info s w = Ret (peer_of resolve s) w' /\ same_state w w'.
Proof.
  unfold parse_peer_info, peer_of.
  destruct (split_on at_sign s) as [|pk [|addr l]]; cbn [next is_none]; [by exists w..|].
  cbn [unwrap expect_some]. mrun. rewrite resolve_stable.
  destruct (resolve addr ≫= head) as [a|]; cbn [is_none]; [|by eexists].
  mrun. destruct (Hex.to_compressed_pubkey _ _); cbn [is_none unwrap expect_some]; mrun; by eexists.
Qed.

Lemma same_state_trans w1 w2 w3 : same_state w1 w2 -> same_state w2 w3 -> same_state w1 w3.
Proof. unfold same_state. intros H1 H2. split_hyps. split_and!; congruence. Qed.

Lemma read_peer_lines_ok l kvs m w :
  Forall2 (fun s kv => peer_of resolve s = Ok kv) l kvs ->
  exists w', read_peer_lines l m w =
               Ret (Ok (foldl (fun m kv => <[fst kv := snd kv]> m) m kvs)) w' /\ same_state w w'.
Proof.
  intros Hl. revert m w. induction Hl as [|s [pk a] l kvs Hs _ IH]; intros m w; [by exists w|].
  cbn [read_peer_lines foldl]. destruct (parse_peer_info_spec s w) as (w1 & Hp & Hw1).
  rewrite (bind_eq_Ret _ _ _ _ _ Hp), Hs. destruct (IH (<[pk := a]> m) w1) as (w2 & Hr & Hw2).
  exists w2. split; [done|]. by eapply same_state_trans.
Qed.

Lemma read_peer_lines_err l m w s :
  s ∈ l -> is_err (peer_of resolve s) = true ->
  exists e w', read_peer_lines l m w = Ret (Err e) w'.
Proof.
  intros Hs He. revert m w. induction l as [|s' l IH]; intros m w; [by apply not_elem_of_nil in Hs|].
  cbn [read_peer_lines]. destruct (parse_peer_info_spec s' w) as (w1 & Hp & _).
  rewrite (bind_eq_Ret _ _ _ _ _ Hp).
  apply elem_of_cons in Hs as [->|Hs].
  - destruct (peer_of resolve s') as [[pk a]|e]; [done|]. by exists e, w1.
  - destruct (peer_of resolve s') as [[pk a]|e]; [|by exists e, w1]. by apply IH.
Qed.

Lemma persist_file path l s w :
  default EmptyString (fs w !! path) = file_of l ->
  fs (final (persist_channel_peer path s w)) !! path = Some (file_of (l ++ [s]))
  /\ persist_channel_peer path s w = Ret true (final (persist_channel_peer path s w)).
Proof.
  intros Hc. unfold persist_channel_peer, fs_append. mrun. rewrite append_works. mrun. cbn.
  split; [|done]. by rewrite lookup_insert_eq, Hc, file_of_snoc.
Qed.

End Laws.

(** Only these events open a connection. *)
Definition connects (ev : Event) : option (PublicKey * SocketAddr) :=
  match ev with
  | Ev c _ => match c with CConnectOutbound pk addr => Some (pk, addr) | _ => None end
  | Print _ => None
  end.

Lemma pres_parse_peer_info s : Preserves (grows (fun ev => connects ev = None)) (parse_peer_info s).
Proof. unfold parse_peer_info. pres. Qed.

Lemma pres_read_peer_lines l m : Preserves (grows (fun ev => connects ev = None)) (read_peer_lines l m).
Proof. revert m. induction l as [|s l IH]; intros m; cbn; pres; auto using pres_parse_peer_info. Qed.

Lemma pres_read_peer_data path :
  Preserves (grows (fun ev => connects ev = None)) (read_channel_peer_data path).
Proof. unfold read_channel_peer_data. pres; auto using pres_read_peer_lines. Qed.

Lemma pres_await P n pk :
  (forall b, P (Ev (CConnectionClosed pk) b)) -> (forall l, P (Ev CPeerIds l)) ->
  Preserves (grows P) (await_connection n pk).
Proof.
  intros H1 H2. induction n as [|n IH]; cbn; pres; auto using grows_log.
Qed.

Definition known_connect (info : gmap PublicKey SocketAddr) (nodes : list PublicKey) (ev : Event) : Prop :=
  forall a, connects ev = Some a -> info !! fst a = Some (snd a) /\ fst a ∈ nodes.

Lemma known_connect_other info nodes ev : connects ev = None -> known_connect info nodes ev.
Proof. intros Hn a Ha. congruence. Qed.

Lemma pres_reconnect_nodes info nodes l :
  l ⊆ nodes -> Preserves (grows (known_connect info nodes)) (reconnect_nodes info l).
Proof.
  induction l as [|n l IH]; intros Hl; cbn [reconnect_nodes]; [pres|].
  assert (Preserves (grows (known_connect info nodes)) (reconnect_node info n)) as Hn.
  { unfold reconnect_node. apply pres_for_each; [typeclasses eauto|].
    intros [pk addr] Hin%elem_of_map_to_list. destruct (decide (pk = n)) as [->|]; [|pres].
    unfold do_connect_peer. pres.
    - apply grows_log. intros a [= <-]. cbn. split; [done|]. apply Hl. by left.
    - apply pres_await; intros; by apply known_connect_other. }
  pres; first [by apply Hn | apply IH; set_solver | apply grows_log; by apply known_connect_other].
Qed.

Lemma await_monotone n m pk w r w' :
  (n <= m)%nat -> await_connection n pk w = Ret r w' ->
  await_connection m pk w = Ret r w'.
Proof.
  revert m w. induction n as [|n IH]; intros m w Hle Hr; [done|].
  destruct m as [|m]; [lia|]. cbn [await_connection] in *. mrun. mrun_in Hr.
  destruct (answer _ bool _); [done|]. mrun. mrun_in Hr.
  destruct (bool_decide _); [done|]. apply IH; [lia|done].
Qed.

(** ** Properties *)

(** C18: what is persisted is read back: after any number of channel peers has
    been appended to a fresh file, reading it gives every peer with the address
    of its last entry. *)
Theorem persisted_peers_read_back resolve `{!SystemLaws resolve} path l kvs w :
  fs w !! path = None -> l <> [] -> Forall one_line l ->
  Forall2 (fun s kv => peer_of resolve s = Ok kv) l kvs ->
  let w1 := final (for_each l (fun s => persist_channel_peer path s ;;; ret tt) w) in
  exists w2, read_channel_peer_data path w1 =
    Ret (Ok (foldl (fun m kv => <[fst kv := snd kv]> m) ∅ kvs)) w2.
Proof.
  intros Hw Hne Hl Hkvs w1.
  assert (forall l1 l2 w, default EmptyString (fs w !! path) = file_of l1 -> l2 <> [] ->
    fs (final (for_each l2 (fun s => persist_channel_peer path s ;;; ret tt) w)) !! path
    = Some (file_of (l1 ++ l2))) as Hwrite.
  { clear -SystemLaws0. intros l1 l2. revert l1.
    induction l2 as [|s l2 IH]; intros l1 w Hd Hn; [done|]. cbn [for_each].
    destruct (persist_file resolve path l1 s w Hd) as [Hf Hr]. rewrite bind_assoc, (bind_eq_Ret _ _ _ _ _ Hr), bind_ret.
    destruct l2 as [|s' l2]; [done|].
    replace (l1 ++ s :: s' :: l2) with ((l1 ++ [s]) ++ s' :: l2) by (by rewrite <- app_assoc).
    apply IH; [by rewrite Hf|done]. }
  assert (fs w1 !! path = Some (file_of l)) as Hf.
  { apply (Hwrite []); [by rewrite Hw|done]. }
  clearbody w1. unfold read_channel_peer_data, fs_read. mrun. rewrite Hf. mrun.
  rewrite open_works, lines_file by done.
  destruct (read_peer_lines_ok resolve l kvs ∅ (log (Ev (CFileOpen path) (Ok tt)) w1) Hkvs) as (w2 & Hr & _).
  by exists w2.
Qed.

(** C40: one bad line in the file of channel peers - say a host that does not
    resolve just now - stops the reconnection to every peer. *)
Theorem bad_peer_line_blocks_all resolve `{!SystemLaws resolve} contents s w :
  fs w !! peer_data_path = Some contents -> s ∈ lines contents ->
  is_err (peer_of resolve s) = true ->
  Forall (fun ev => connects ev = None) (emitted reconnect_turn w)
  /\ exists e w1, reconnect_turn w =
       Ret true (log (Print ("ERROR: errored reading channel peer info from disk: "
                             +:+ io_error_debug e +:+ nl)) w1).
Proof.
  intros Hc Hs He.
  assert (exists e w1, read_channel_peer_data peer_data_path w = Ret (Err e) w1) as (e & w1 & Hr).
  { unfold read_channel_peer_data, fs_read. mrun. rewrite Hc. mrun. rewrite open_works.
    by apply (read_peer_lines_err resolve _ _ _ s). }
  pose proof (pres_read_peer_data peer_data_path w) as (new & Ht & Hf). rewrite Hr in Ht. cbn in Ht.
  unfold emitted, reconnect_turn. rewrite (bind_eq_Ret _ _ _ _ _ Hr). mrun.
  split; [|exists e, w1; by rewrite string_append_assoc].
  cbn. rewrite Ht, <- app_assoc, drop_app_length. apply Forall_app. by split; repeat constructor.
Qed.

(** C24: a turn of the reconnection task opens a connection only after it has read
    the file of channel peers, then asked for the connected peers and for the
    channels, and only to the address the file gives for a peer that is not
    connected and with whom there is a channel. *)
Theorem reconnects_channel_peers_only pk addr r w :
  Ev (CConnectOutbound pk addr) r ∈ emitted reconnect_turn w ->
  exists info peers channels w1 before after,
    read_channel_peer_data peer_data_path w = Ret (Ok info) w1 /\ info !! pk = Some addr
    /\ trace w1 = trace w ++ before
    /\ emitted reconnect_turn w = before ++ [Ev CPeerIds peers; Ev CListChannels channels] ++ after
    /\ Ev (CConnectOutbound pk addr) r ∈ after
    /\ pk ∉ peers /\ exists d, d ∈ channels /\ counterparty d = pk.
Proof.
  intros Hin. unfold emitted in Hin. pose proof (pres_read_peer_data peer_data_path w) as (new & Ht & Hf).
  unfold reconnect_turn in Hin.
  assert (Ev (CConnectOutbound pk addr) r ∉ new) as Hnew.
  { intros Hn. by apply (proj1 (Forall_forall _ _) Hf) in Hn. }
  destruct (read_channel_peer_data peer_data_path w) as [[info|e] w1|w1|m w1|w1] eqn:Hr;
    [rewrite (bind_eq_Ret _ _ _ _ _ Hr) in Hin|rewrite (bind_eq_Ret _ _ _ _ _ Hr) in Hin
    |rewrite (bind_eq_Exit _ _ _ _ Hr) in Hin|rewrite (bind_eq_Panic _ _ _ _ _ Hr) in Hin
    |rewrite (bind_eq_Waits _ _ _ _ Hr) in Hin];
    cbn [final] in Ht.
  3, 4, 5: exfalso; apply Hnew; cbn [final] in Hin; by rewrite Ht, drop_app_length in Hin.
  2: { exfalso. cbn in Hin. rewrite Ht, <- app_assoc, drop_app_length in Hin.
       apply elem_of_app in Hin as [Hin|Hin]; [done|]. apply list_elem_of_singleton in Hin. done. }
  mrun_in Hin.
  match type of Hin with _ ∈ drop _ (trace (final (reconnect_nodes info ?nodes ?w2))) =>
    destruct (pres_reconnect_nodes info nodes nodes ltac:(done) w2) as (new2 & Ht2 & Hf2) end.
  rewrite Ht2 in Hin. cbn [trace log] in Hin. rewrite Ht, <- !app_assoc, drop_app_length in Hin.
  rewrite !elem_of_app, !list_elem_of_singleton in Hin.
  destruct Hin as [Hin|[Hin|[Hin|Hin]]]; [done|discriminate Hin|discriminate Hin|].
  apply (proj1 (Forall_forall _ _) Hf2) in Hin as Hk. destruct (Hk (pk, addr) eq_refl) as [Hi Hn].
  apply list_elem_of_In, filter_In in Hn as [Hn Hp]. apply in_map_iff in Hn as (d & Hd & Hn).
  eexists info, (_ : list PublicKey), (_ : list ChannelDetails), w1, new, new2. split; [done|]. split; [done|]. split; [exact Ht|]. split.
  { apply emitted_app. unfold reconnect_turn. rewrite (bind_eq_Ret _ _ _ _ _ Hr). mrun.
    rewrite Ht2, (app_assoc (trace w)), <- Ht. cbn [trace log]. rewrite <- !app_assoc. reflexivity. }
  split; [exact Hin|]. split.
  - intros Hpk. apply negb_true_iff in Hp. apply not_true_iff_false in Hp. apply Hp.
    apply existsb_exists. exists pk. split; [by apply list_elem_of_In|by apply bool_decide_eq_true].
  - exists d. split; [by apply list_elem_of_In|done].
Qed.

(** [disconnectpeer] drops only a connected peer that no channel is open
    with. *)
Theorem disconnects_idle_peers_only words w pk r :
  Ev (CDisconnect pk) r ∈ emitted (disconnectpeer_cmd words) w ->
  exists channels peers,
    Ev CListChannels channels ∈ emitted (disconnectpeer_cmd words) w
    /\ Ev CPeerIds peers ∈ emitted (disconnectpeer_cmd words) w
    /\ pk ∈ peers /\ forall d, d ∈ channels -> counterparty d <> pk.
Proof.
  unfold emitted, disconnectpeer_cmd. destruct words as [|s rest]; cbn [next].
  { mrun. cbn. rewrite drop_app_length. by intros ?%list_elem_of_singleton. }
  destruct (pk_from_str s) as [pk'|e]; mrun.
  2: { cbn. rewrite drop_app_length. by intros ?%list_elem_of_singleton. }
  unfold do_disconnect_peer. mrun.
  destruct (existsb _ _) eqn:Hch; mrun.
  { cbn. rewrite <- app_assoc, drop_app_length. cbn. rewrite !elem_of_cons. by intros [?|[?|?%not_elem_of_nil]]. }
  destruct (negb _) eqn:Hp; mrun.
  { cbn. rewrite <- !app_assoc, drop_app_length. cbn. rewrite !elem_of_cons.
    by intros [?|[?|[?|?%not_elem_of_nil]]]. }
  cbn [is_ok]. mrun. cbn [trace log final]. rewrite <- !app_assoc, drop_app_length. cbn [app].
  rewrite !elem_of_cons. intros Hin.
  assert (pk' = pk) as ->.
  { destruct Hin as [?|[?|[Hin|[?|?%not_elem_of_nil]]]]; try done. by simplify_eq. }
  eexists _, _. split; [by left|]. split; [by right; left|].
  apply negb_false_iff, existsb_exists in Hp as (pk' & Hpk & Heq). reflect_bools. subst pk'. split.
  - by apply list_elem_of_In.
  - intros d Hd Heq. apply not_true_iff_false in Hch. apply Hch, existsb_exists. exists d.
    split; [by apply list_elem_of_In|by apply bool_decide_eq_true].
Qed.

End Peers.

Section Patience.
Context `{T : Types} {X : @Externals T} {O : @Oracle T}.

(** The bound on the polls of [do_connect_peer] decides when, not what: an
    answer with some patience is the answer, in the same world, with more. *)
Theorem connect_patience n m pk addr w r w' :
  (n <= m)%nat -> do_connect_peer n pk addr w = Ret r w' ->
  do_connect_peer m pk addr w = Ret r w'.
Proof.
  unfold do_connect_peer. intros Hle Hr. mrun. mrun_in Hr.
  destruct (answer _ bool _); [|done]. by apply (await_monotone n).
Qed.

(** The history of a wait that starts after [h]: two questions per poll. *)
Fixpoint poll_history (pk : PublicKey) (h : list Event) (k : nat) : list Event :=
  match k with
  | 0%nat => h
  | S k =>
      let h := poll_history pk h k in
      let h := h ++ [Ev (CConnectionClosed pk) (answer h _ (CConnectionClosed pk))] in
      h ++ [Ev CPeerIds (answer h _ CPeerIds)]
  end.

(** At the [k]-th poll the connection is found closed, or the peer is listed. *)
Definition closed_at (pk : PublicKey) (h : list Event) (k : nat) : bool :=
  answer (poll_history pk h k) _ (CConnectionClosed pk).
Definition listed_at (pk : PublicKey) (h : list Event) (k : nat) : bool :=
  bool_decide (pk ∈ answer (poll_history pk h k ++ [Ev (CConnectionClosed pk) (closed_at pk h k)]) _ CPeerIds).

(** [k] is the first poll of a wait that gets an answer. *)
Definition first_answer (pk : PublicKey) (h : list Event) (k : nat) : Prop :=
  (forall j, (j < k)%nat -> closed_at pk h j = false /\ listed_at pk h j = false)
  /\ (closed_at pk h k = true \/ listed_at pk h k = true).

Lemma await_answers pk h k : first_answer pk h k ->
  forall n i w, trace w = poll_history pk h i -> (i <= k)%nat ->
  ((k < i + n)%nat -> exists w',
     await_connection n pk w = Ret (if closed_at pk h k then Err tt else Ok tt) w'
     /\ trace w' = (if closed_at pk h k then poll_history pk h k ++ [Ev (CConnectionClosed pk) true]
                    else poll_history pk h (S k)))
  /\ ((i + n <= k)%nat -> waits (await_connection n pk w) = true).
Proof.
  intros [Hno Hk] n. induction n as [|n IH]; intros i w Hw Hi; [split; [lia|done]|].
  cbn [await_connection]. mrun. rewrite Hw. fold (closed_at pk h i).
  destruct (decide (i = k)) as [->|Hne].
  - split; [|lia]. intros _. destruct (closed_at pk h k) eqn:Hc.
    + eexists. split; [done|]. cbn. by rewrite Hw.
    + mrun. destruct Hk as [?|Hl]; [done|]. unfold listed_at in Hl. rewrite Hc in Hl.
      cbn [trace log]. rewrite Hw, Hl. eexists. split; [done|]. cbn [trace log poll_history].
      fold (closed_at pk h k). by rewrite Hc, Hw.
  - destruct (Hno i) as [Hc Hl]; [lia|]. rewrite Hc. mrun. unfold listed_at in Hl. rewrite Hc in Hl.
    cbn [trace log]. rewrite Hw, Hl.
    destruct (IH (S i) (log (Ev CPeerIds (answer (poll_history pk h i ++ [Ev (CConnectionClosed pk) false]) _ CPeerIds))
        (log (Ev (CConnectionClosed pk) false) w))) as [IH1 IH2]; [|lia|split; intros; [apply IH1|apply IH2]; lia].
    cbn [trace log poll_history]. fold (closed_at pk h i). by rewrite Hc, Hw.
Qed.

(** C19: [do_connect_peer] answers at the first poll at which the connection is
    closed or the peer is listed: with enough polls it returns then and there,
    an error exactly when the connection was found closed, having asked nothing
    more; with fewer it is still waiting.  An attempt that cannot be made is an
    error at once. *)
Theorem connect_terminates k n pk addr w :
  let h := trace w ++ [Ev (CConnectOutbound pk addr) true] in
  first_answer pk h k ->
  if answer (trace w) _ (CConnectOutbound pk addr) then
    ((k < n)%nat -> exists w',
       do_connect_peer n pk addr w = Ret (if closed_at pk h k then Err tt else Ok tt) w'
       /\ trace w' = (if closed_at pk h k then poll_history pk h k ++ [Ev (CConnectionClosed pk) true]
                      else poll_history pk h (S k)))
    /\ ((n <= k)%nat -> waits (do_connect_peer n pk addr w) = true)
  else exists w', do_connect_peer n pk addr w = Ret (Err tt) w'.
Proof.
  intros h Hk. unfold do_connect_peer. mrun. destruct (answer _ _ (CConnectOutbound pk addr)) eqn:Ha; [|by eexists].
  apply (await_answers pk h k Hk n 0); [done|lia].
Qed.
End Patience.

(** ** Witnesses *)
Section Witnesses.
Import Mock.
Abbreviation MT := (mock_types_checks true).
#[local] Instance scenario_externals : @Externals MT := mock_externals true.
#[local] Instance peers_oracle : @Oracle MT := mock_oracle true {|
  cfg_now := 1000; cfg_unspent := []; cfg_balance := 0; cfg_fungibles := Some []; cfg_pay_ok := true;
  cfg_channels := [@Build_ChannelDetails MT [1] (repeat 2 33) None None (Some 1) 0 0 0 0 true true true];
  cfg_rgb_info := []; cfg_peers := [repeat 3 33]; cfg_route := fun _ => [] |}.

Definition mock_resolve (s : string) : option (list (@SocketAddr MT)) := Some [s].
Lemma mock_system_laws : SystemLaws (T := MT) mock_resolve.
Proof. by split. Qed.

Definition mock_line : string :=
  "020202020202020202020202020202020202020202020202020202020202020202@localhost:9735".

Lemma persisted_peers_read_back_witness :
  exists w2, read_channel_peer_data (T := MT) "d/channel_peer_data"
    (final (for_each [mock_line] (fun s => bind (persist_channel_peer (T := MT) "d/channel_peer_data" s)
       (fun _ => ret tt)) (empty_world true)))
  = Ret (Ok {[ (repeat 2 33 : @PublicKey MT) := "localhost:9735"%string ]}) w2.
Proof.
  apply (persisted_peers_read_back (T := MT) mock_resolve (SystemLaws0 := mock_system_laws)
    "d/channel_peer_data" [mock_line] [(repeat 2 33, "localhost:9735"%string)] (empty_world true)).
  - reflexivity.
  - discriminate.
  - repeat constructor. apply (bool_decide_unpack _). vm_compute. reflexivity.
  - repeat constructor.
Defined.

Definition bad_peer_world : @World MT :=
  upd_fs (T := MT) (<["d/channel_peer_data"%string := mock_line +:+ nl +:+ "oops" +:+ nl]>) (empty_world true).

Lemma bad_peer_line_blocks_all_witness :
  Forall (fun ev => connects (T := MT) ev = None) (emitted (reconnect_turn (T := MT) 5) bad_peer_world).
Proof.
  refine (proj1 (bad_peer_line_blocks_all (T := MT) 5 mock_resolve (SystemLaws0 := mock_system_laws)
    (mock_line +:+ nl +:+ "oops" +:+ nl) "oops" bad_peer_world _ _ _)).
  - vm_compute. reflexivity.
  - vm_compute. right. left.
  - reflexivity.
Defined.

Definition good_peer_world : @World MT :=
  upd_fs (T := MT) (<["d/channel_peer_data"%string := mock_line +:+ nl]>) (empty_world true).

Lemma reconnects_channel_peers_only_witness :
  exists info w1 (peers : list (@PublicKey MT)), read_channel_peer_data (T := MT) (peer_data_path (T := MT)) good_peer_world = Ret (Ok info) w1
    /\ info !! (repeat 2 33 : @PublicKey MT) = Some "localhost:9735"%string
    /\ (repeat 2 33 : @PublicKey MT) ∉ peers.
Proof.
  destruct (reconnects_channel_peers_only (T := MT) 2 (repeat 2 33) "localhost:9735"%string true
    good_peer_world) as (info & peers & _ & w1 & _ & _ & H1 & H2 & _ & _ & _ & H3 & _).
  - vm_compute. repeat (first [left|right]).
  - exists info, w1, peers. split; [exact H1|]. split; [exact H2|exact H3].
Defined.

Definition idle_words : list string :=
  ["030303030303030303030303030303030303030303030303030303030303030303"%string].

Lemma disconnects_idle_peers_only_witness :
  exists peers : list (@PublicKey MT), (repeat 3 33 : @PublicKey MT) ∈ peers.
Proof.
  destruct (disconnects_idle_peers_only (T := MT) idle_words (empty_world true) (repeat 3 33) tt)
    as (_ & peers & _ & _ & H & _).
  - vm_compute. repeat (first [left|right]).
  - exists peers. exact H.
Defined.

Lemma connect_patience_witness :
  do_connect_peer (T := MT) 7 (repeat 3 33) "a"%string (empty_world true)
  = Ret (Ok tt) (final (do_connect_peer (T := MT) 1 (repeat 3 33) "a"%string (empty_world true))).
Proof. apply (connect_patience (T := MT) 1); [lia|vm_compute; reflexivity]. Defined.

(** A peer that is listed from the third poll on. *)
Definition polled (h : list (@Event MT)) : nat :=
  length (List.filter (fun ev => match ev with
                                 | Ev c _ => match c with CConnectionClosed _ => true | _ => false end
                                 | Print _ => false
                                 end) h).
Definition slow_oracle : @Oracle MT := {|
  answer := fun h R c => match c in Call R return R with
                         | CConnectionClosed _ => false
                         | CPeerIds => if (polled h <? 3)%nat then [] else [repeat 3 33]
                         | c => answer (Oracle := peers_oracle) h _ c
                         end |}.

Lemma connect_terminates_witness :
  (exists w', do_connect_peer (T := MT) (O := slow_oracle) 3 (repeat 3 33) "a"%string (empty_world true) = Ret (Ok tt) w')
  /\ waits (do_connect_peer (T := MT) (O := slow_oracle) 2 (repeat 3 33) "a"%string (empty_world true)) = true.
Proof.
  assert (first_answer (T := MT) (O := slow_oracle) (repeat 3 33)
    (trace (empty_world true) ++ [Ev (CConnectOutbound (repeat 3 33 : @PublicKey MT) ("a"%string : @SocketAddr MT)) true]) 2) as Hk.
  { split; [|right; vm_compute; reflexivity]. intros [|[|j]] Hj; [split; vm_compute; reflexivity..|lia]. }
  split.
  - destruct (proj1 (connect_terminates (T := MT) (O := slow_oracle) 2 3 (repeat 3 33) "a"%string (empty_world true) Hk)
      ltac:(lia)) as (w' & Hr & _). exists w'. exact Hr.
  - apply (connect_terminates (T := MT) (O := slow_oracle) 2 2 (repeat 3 33) "a"%string (empty_world true) Hk). lia.
Defined.
End Witnesses.
End Peers.
