(* ===== verification/Utxos.v ===== *)
(** * The file of RGB UTXOs

    The outputs reserved for RGB, each coloured once an asset sits on it:
    cli.rs [check_uncolored_utxos], [get_utxo], the block that colours the
    output it picked (in [issueasset], [sendasset] and [receiveasset]), and
    [createutxos]. *)

From Stdlib Require Import ZArith Lia Ascii String.
From stdpp Require Import base list strings gmap.
From S2P Require Import Prelude RustStd Swap Config World Effects Mock RgbUtils.
Import RgbUtils.

Open Scope Z_scope.

Module Utxos.

Section Utxos.
Context `{T : Types} {X : @Externals T} {O : @Oracle T}.
Local Open Scope m_scope.

Definition rgb_utxos_path : string := ldk_data_dir +:+ "/rgb_utxos".

Definition read_utxos : M (list RgbUtxo) :=
  let! serialized_utxos := fs_read rgb_utxos_path in
  let! serialized_utxos := expect "able to read rgb utxos file" serialized_utxos in
  expect "valid rgb utxos" (utxos_from_json serialized_utxos).

Definition write_utxos (rgb_utxos : list RgbUtxo) : M unit :=
  let! written := fs_write rgb_utxos_path (utxos_to_json rgb_utxos) in
  expect_true "able to write rgb utxos file" written.

Definition check_uncolored_utxos : M (result unit Error) :=
  let! rgb_utxos := read_utxos in
  match List.find (fun u => negb (colored u)) rgb_utxos with
  | Some _ => ret (Ok tt)
  | None => ret (Err NoAvailableUtxos)
  end.

Definition get_utxo : M RgbUtxo :=
  let! rgb_utxos := read_utxos in
  expect "at least one unlocked UTXO" (List.find (fun u => negb (colored u)) rgb_utxos).

(** [iter_mut().find(|u| u.outpoint == outpoint).expect("UTXO found").colored = true] *)
Fixpoint color_first (op : OutPoint) (l : list RgbUtxo) : option (list RgbUtxo) :=
  match l with
  | [] => None
  | u :: l =>
      if decide (outpoint u = op) then Some ({| outpoint := op; colored := true |} :: l)
      else cons u <$> color_first op l
  end.

(** Pick an uncoloured output and colour it; the command ends when there is
    none. *)
Definition reserve_utxo : M OutPoint :=
  let! checked := check_uncolored_utxos in
  match checked with
  | Ok _ => ret tt
  | Err e => println (error_display e) ;;; leave
  end ;;;
  let! utxo := get_utxo in
  let op := outpoint utxo in
  let! rgb_utxos := read_utxos in
  let! rgb_utxos := expect "UTXO found" (color_first op rgb_utxos) in
  write_utxos rgb_utxos ;;;
  ret op.

(** [for i in 0..UTXO_NUM] *)
Definition new_utxos (t : Txid) : list RgbUtxo :=
  map (fun i => {| outpoint := {| txid := t; vout := Z.of_nat i |}; colored := false |})
      (seq 0 (Z.to_nat UTXO_NUM)).

Fixpoint add_recipients (n : nat) (acc : list (Script * Z)) : M (list (Script * Z)) :=
  match n with
  | 0%nat => ret acc
  | S n =>
      let! address := call CGetAddress in
      let! address := expect "address" address in
      add_recipients n (acc ++ [(script_pubkey address, UTXO_SIZE_SAT)])
  end.

(** What [createutxos] asks the wallet for. *)
Definition create_request (unspendable : list OutPoint) (recipients : list (Script * Z)) : TxRequest := {|
  tr_utxos := []; tr_unspendable := unspendable; tr_fee_rate := FEE_RATE; tr_untouched := true;
  tr_recipients := recipients; tr_drain_to := None; tr_data := None;
  tr_manually_selected_only := false |}.

(** The satoshis not locked in the outputs of the file. *)
Definition available_sats (rgb_utxos : list RgbUtxo) : M Z :=
  let unspendable_utxos := map outpoint rgb_utxos in
  let! unspents := call CListUnspent in
  let! unspents := expect "unspents" unspents in
  let! unspendable_amt := lift (u64_sum (map lu_value
    (List.filter (fun u => bool_decide (lu_outpoint u ∈ unspendable_utxos)) unspents))) in
  let! balance := call CGetBalanceTotal in
  let! balance := expect "wallet balance" balance in
  lift (u64_sub balance unspendable_amt).

(** Build, sign and broadcast the transaction. *)
Definition create_tx (unspendable_utxos : list OutPoint) : M Transaction :=
  let! recipients := add_recipients (Z.to_nat UTXO_NUM) [] in
  let! psbt := call (CFinishTx (create_request unspendable_utxos recipients)) in
  let! psbt := expect "successful psbt creation" psbt in
  let! psbt := call (CSignPsbt psbt) in
  let! psbt := expect "successful sign" psbt in
  let tx := extract_tx psbt in
  broadcast_tx tx ;;;
  ret tx.

Definition createutxos_cmd : M unit :=
  sync_wallet ;;;
  let! rgb_utxos := read_utxos in
  let! available := available_sats rgb_utxos in
  if available <? MIN_CREATE_UTXOS_SATS then
    println ("ERROR: not enough funds, call getaddress and send "
             +:+ dec (MIN_CREATE_UTXOS_SATS - available) +:+ " satoshis") ;;;
    leave
  else
  let! tx := create_tx (map outpoint rgb_utxos) in
  write_utxos (rgb_utxos ++ new_utxos (tx_txid tx)) ;;;
  sync_wallet ;;;
  println "UTXO creation complete".

(** ** Specification

    The file holds a list of outputs; [stored w l] reads "it holds [l]". *)
Definition stored (w : World) (l : list RgbUtxo) : Prop :=
  exists s, fs w !! rgb_utxos_path = Some s /\ utxos_from_json s = Some l.

(** No output is listed twice. *)
Definition utxos_wf (l : list RgbUtxo) : Prop := NoDup (map outpoint l).

Definition uncolored_outpoints (l : list RgbUtxo) : list OutPoint :=
  map outpoint (List.filter (fun u => negb (colored u)) l).

(** ** Lemmas *)

Lemma read_utxos_stored w l : stored w l -> read_utxos w = Ret l w.
Proof.
  intros (s & Hs & Hl). unfold read_utxos, fs_read. mrun. rewrite Hs. mrun. by rewrite Hl.
Qed.

Lemma stored_log w e l : stored (log e w) l <-> stored w l.
Proof. done. Qed.

Lemma find_uncolored l :
  match List.find (fun u => negb (colored u)) l with
  | Some u => exists l1 l2, l = l1 ++ u :: l2 /\ colored u = false
                            /\ Forall (fun u => colored u = true) l1
  | None => Forall (fun u => colored u = true) l
  end.
Proof.
  induction l as [|u l IH]; cbn; [done|]. destruct (colored u) eqn:Hc; cbn.
  - destruct (List.find _ l) as [v|]; [|by constructor].
    destruct IH as (l1 & l2 & -> & Hv & Hf). exists (u :: l1), l2. split_and!; [done|done|by constructor].
  - by exists [], l.
Qed.

Lemma color_first_wf l1 u l2 :
  utxos_wf (l1 ++ u :: l2) ->
  color_first (outpoint u) (l1 ++ u :: l2) = Some (l1 ++ {| outpoint := outpoint u; colored := true |} :: l2).
Proof.
  unfold utxos_wf. induction l1 as [|v l1 IH]; cbn [app map color_first]; intros Hnd.
  { by rewrite decide_True. }
  apply NoDup_cons in Hnd as [Hn Hnd]. rewrite decide_False.
  - by rewrite IH.
  - intros Heq. apply Hn. rewrite Heq, map_app, elem_of_app. right. by left.
Qed.

Section Serde.
Context `{!SerdeLaws}.

Lemma write_utxos_stored l w :
  answer (trace w) _ (CFsWrite rgb_utxos_path (utxos_to_json l)) = true ->
  exists w', write_utxos l w = Ret tt w' /\ stored w' l.
Proof.
  intros Ha. unfold write_utxos, fs_write. mrun. rewrite Ha. mrun. eexists. split; [reflexivity|].
  exists (utxos_to_json l). split; [apply lookup_insert_eq|apply utxos_json_roundtrip].
Qed.

(** With a writable file, the reservation is a function of the list. *)
Lemma reserve_utxo_spec w l :
  stored w l -> utxos_wf l -> (forall h p c, answer h _ (CFsWrite p c) = true) ->
  match List.find (fun u => negb (colored u)) l with
  | Some u => exists l1 l2 w', l = l1 ++ u :: l2 /\ colored u = false
      /\ reserve_utxo w = Ret (outpoint u) w'
      /\ stored w' (l1 ++ {| outpoint := outpoint u; colored := true |} :: l2)
  | None => reserve_utxo w = Exit (log (Print (error_display NoAvailableUtxos +:+ nl)) w)
  end.
Proof.
  intros Hs Hwf Hwr. unfold reserve_utxo, check_uncolored_utxos, get_utxo.
  pose proof (find_uncolored l) as Hf. rewrite bind_assoc, (bind_eq_Ret _ _ _ _ _ (read_utxos_stored _ _ Hs)).
  destruct (List.find _ l) as [u|] eqn:Hfind; mrun.
  - rewrite (bind_eq_Ret _ _ _ _ _ (read_utxos_stored _ _ Hs)), Hfind. mrun.
    rewrite (bind_eq_Ret _ _ _ _ _ (read_utxos_stored _ _ Hs)).
    destruct Hf as (l1 & l2 & -> & Hu & _). rewrite (color_first_wf _ _ _ Hwf). mrun.
    destruct (write_utxos_stored (l1 ++ {| outpoint := outpoint u; colored := true |} :: l2) w)
      as (w' & Hw & Hst); [apply Hwr|].
    rewrite (bind_eq_Ret _ _ _ _ _ Hw). exists l1, l2, w'. done.
  - done.
Qed.

Lemma uncolored_split l1 u l2 :
  Forall (fun u => colored u = true) l1 -> colored u = false ->
  uncolored_outpoints (l1 ++ u :: l2) = outpoint u :: uncolored_outpoints l2
  /\ uncolored_outpoints (l1 ++ {| outpoint := outpoint u; colored := true |} :: l2)
     = uncolored_outpoints l2.
Proof.
  intros Hl Hu. unfold uncolored_outpoints. rewrite !List.filter_app, !map_app.
  assert (List.filter (fun u => negb (colored u)) l1 = []) as ->.
  { induction Hl as [|v l1 Hv _ IH]; [done|]. cbn. by rewrite Hv, IH. }
  cbn. by rewrite Hu.
Qed.

Lemma utxos_wf_recolor l1 op c c' l2 :
  utxos_wf (l1 ++ {| outpoint := op; colored := c |} :: l2) ->
  utxos_wf (l1 ++ {| outpoint := op; colored := c' |} :: l2).
Proof. unfold utxos_wf. by rewrite !map_app. Qed.

Lemma uncolored_nodup l : utxos_wf l -> NoDup (uncolored_outpoints l).
Proof.
  unfold utxos_wf, uncolored_outpoints. induction l as [|u l IH]; [done|]. cbn [map List.filter].
  intros [Hn Hnd]%NoDup_cons. destruct (negb (colored u)); [|by apply IH]. cbn [map].
  apply NoDup_cons. split; [|by apply IH]. intros Hin. apply Hn.
  apply list_elem_of_In in Hin. apply in_map_iff in Hin as (v & <- & [Hv _]%filter_In).
  apply list_elem_of_In. by apply in_map.
Qed.

(** One reservation, as a step on the list of uncoloured outputs. *)
Lemma reserve_utxo_step w l op ops :
  stored w l -> utxos_wf l -> (forall h p c, answer h _ (CFsWrite p c) = true) ->
  uncolored_outpoints l = op :: ops ->
  exists w' l', reserve_utxo w = Ret op w' /\ stored w' l' /\ utxos_wf l'
    /\ map outpoint l' = map outpoint l /\ uncolored_outpoints l' = ops.
Proof.
  intros Hs Hwf Hwr Hu. pose proof (reserve_utxo_spec w l Hs Hwf Hwr) as Hr.
  pose proof (find_uncolored l) as Hf.
  destruct (List.find _ l) as [u|].
  - destruct Hf as (m1 & m2 & Hm & _ & Hf1). destruct Hr as (l1 & l2 & w' & -> & Hc & Hr & Hst).
    assert (m1 = l1 /\ m2 = l2) as [-> ->].
    { unfold utxos_wf in Hwf. clear -Hm Hwf. revert m1 Hm. induction l1 as [|v l1 IH]; intros [|v' m1] Hm; cbn in *; simplify_eq; try done.
      - apply NoDup_cons in Hwf as [Hn _]. exfalso. apply Hn. rewrite map_app, elem_of_app. right. by left.
      - apply NoDup_cons in Hwf as [Hn _]. exfalso. apply Hn. rewrite map_app, elem_of_app. right. by left.
      - apply NoDup_cons in Hwf as [_ Hwf]. by destruct (IH Hwf m1) as [-> ->]. }
    destruct (uncolored_split l1 u l2 Hf1 Hc) as [H1 H2]. rewrite H1 in Hu. injection Hu as <- <-.
    eexists w', _. split_and!; [done|done| |by rewrite !map_app|done].
    destruct u as [op c]. by apply (utxos_wf_recolor _ _ c).
  - unfold uncolored_outpoints in Hu. assert (List.filter (fun u => negb (colored u)) l = []) as Hn.
    { clear -Hf. induction Hf as [|v l1 Hv _ IH]; [done|]. cbn. by rewrite Hv, IH. }
    by rewrite Hn in Hu.
Qed.

(** ** Properties *)

Fixpoint reserve_many (n : nat) : M (list OutPoint) :=
  match n with
  | 0%nat => ret []
  | S n => let! op := reserve_utxo in let! ops := reserve_many n in ret (op :: ops)
  end.

(** C12: no output is ever given to two assets: successive reservations take the
    uncoloured outputs in the order of the file, each once, and leave the
    others as they were. *)
Theorem reservations_distinct n w l :
  stored w l -> utxos_wf l -> (forall h p c, answer h _ (CFsWrite p c) = true) ->
  (n <= length (uncolored_outpoints l))%nat ->
  exists w' l',
    reserve_many n w = Ret (take n (uncolored_outpoints l)) w'
    /\ NoDup (take n (uncolored_outpoints l))
    /\ stored w' l' /\ utxos_wf l' /\ map outpoint l' = map outpoint l
    /\ uncolored_outpoints l' = drop n (uncolored_outpoints l).
Proof.
  intros Hs Hwf Hwr Hn.
  assert (NoDup (take n (uncolored_outpoints l))) as Hnd.
  { apply (sublist_NoDup _ (uncolored_outpoints l)); [by apply uncolored_nodup|apply sublist_take]. }
  cut (exists w' l', reserve_many n w = Ret (take n (uncolored_outpoints l)) w'
    /\ stored w' l' /\ utxos_wf l' /\ map outpoint l' = map outpoint l
    /\ uncolored_outpoints l' = drop n (uncolored_outpoints l)); [naive_solver|].
  clear Hnd. revert w l Hs Hwf Hn. induction n as [|n IH]; intros w l Hs Hwf Hn.
  { exists w, l. by rewrite drop_0. }
  destruct (uncolored_outpoints l) as [|op ops] eqn:Hu; [cbn in Hn; lia|].
  destruct (reserve_utxo_step w l op ops Hs Hwf Hwr Hu) as (w1 & l1 & Hr & Hs1 & Hwf1 & Hm1 & Hu1).
  destruct (IH w1 l1 Hs1 Hwf1) as (w2 & l2 & Hr2 & Hs2 & Hwf2 & Hm2 & Hu2); [rewrite Hu1; cbn in Hn; lia|].
  exists w2, l2. cbn [reserve_many]. rewrite (bind_eq_Ret _ _ _ _ _ Hr), (bind_eq_Ret _ _ _ _ _ Hr2), Hu1.
  split_and!; [done|done|done|congruence|by rewrite Hu2, Hu1].
Qed.

(** Without an uncoloured output the command says so and ends, and the file
    stays as it was. *)
Theorem reserve_without_utxos w l :
  stored w l -> uncolored_outpoints l = [] ->
  reserve_utxo w = Exit (log (Print (error_display NoAvailableUtxos +:+ nl)) w).
Proof.
  intros Hs Hu. unfold reserve_utxo, check_uncolored_utxos.
  rewrite bind_assoc, (bind_eq_Ret _ _ _ _ _ (read_utxos_stored _ _ Hs)).
  pose proof (find_uncolored l) as Hf. destruct (List.find _ l) as [u|]; [|by mrun].
  destruct Hf as (l1 & l2 & -> & Hc & Hf). destruct (uncolored_split l1 u l2 Hf Hc) as [Hx _].
  by rewrite Hx in Hu.
Qed.

Lemma available_sats_keeps l w a w1 : available_sats l w = Ret a w1 -> fs w1 = fs w.
Proof.
  intros Hr. assert (Preserves (keeps fs) (available_sats l)) as Hk by (unfold available_sats; pres; reflexivity).
  specialize (Hk w). by rewrite Hr in Hk.
Qed.
Lemma sync_keeps_fs w w1 : sync_wallet w = Ret tt w1 -> fs w1 = fs w.
Proof.
  intros Hr. assert (Preserves (keeps fs) sync_wallet) as Hk by (unfold sync_wallet; pres; reflexivity).
  specialize (Hk w). by rewrite Hr in Hk.
Qed.
Lemma add_recipients_keeps {B} (f : World -> B) n acc :
  (forall w e, f (log e w) = f w) -> Preserves (keeps f) (add_recipients n acc).
Proof. intros Hf. revert acc. induction n; intros acc; cbn; pres; apply Hf. Qed.

Lemma add_recipients_ret n acc w r w1 :
  add_recipients n acc w = Ret r w1 ->
  exists l, r = acc ++ l /\ length l = n /\ Forall (fun x => snd x = UTXO_SIZE_SAT) l.
Proof.
  revert acc w. induction n as [|n IH]; intros acc w Hr; cbn in Hr.
  { injection Hr as <- <-. exists []. by rewrite app_nil_r. }
  mrun_in Hr. destruct (answer (trace w) _ CGetAddress) as [a|]; [|done]. mrun_in Hr.
  apply IH in Hr as (l & -> & Hl & Hf). eexists (_ :: l). rewrite <- app_assoc. cbn [app].
  split_and!; [done|cbn; by rewrite Hl|by constructor].
Qed.

Lemma add_recipients_appends n acc : appends (add_recipients n acc).
Proof. unfold appends. revert acc. induction n as [|n IH]; intros acc; cbn [add_recipients]; pres. Qed.

Lemma create_tx_ret l w tx w1 :
  create_tx l w = Ret tx w1 ->
  fs w1 = fs w
  /\ exists recipients psbt signed new, trace w1 = trace w ++ new
     /\ Ev (CFinishTx (create_request l recipients)) (Some psbt) ∈ new
     /\ Ev (CSignPsbt psbt) (Some signed) ∈ new /\ tx = extract_tx signed
     /\ Ev (CBroadcast tx) true ∈ new
     /\ length recipients = Z.to_nat UTXO_NUM
     /\ Forall (fun x => snd x = UTXO_SIZE_SAT) recipients.
Proof.
  intros Hr. assert (Preserves (keeps fs) (create_tx l)) as Hk.
  { unfold create_tx, broadcast_tx. pres; try reflexivity. by apply add_recipients_keeps. }
  specialize (Hk w). rewrite Hr in Hk. split; [done|].
  unfold create_tx in Hr. apply bind_Ret_inv in Hr as (rs & w2 & Hrs & Hr).
  apply ret_extends in Hrs as Hx; [|by apply add_recipients_appends]. destruct Hx as (n & Hn & _).
  apply add_recipients_ret in Hrs as (rs' & -> & Hlen & Hf).
  mrun_in Hr. destruct (answer (trace w2) _ _) as [psbt|] eqn:Hp; [|done]. mrun_in Hr.
  destruct (answer _ (option Psbt) (CSignPsbt psbt)) as [psbt'|] eqn:Hsg; [|done].
  unfold broadcast_tx in Hr. mrun_in Hr.
  destruct (answer _ bool _) eqn:Hc; [|done]. mrun_in Hr.
  destruct (answer _ bool (CBroadcast _)) eqn:Hb; [|done]. mrun_in Hr. injection Hr as <- <-.
  eexists ([] ++ rs'), psbt, psbt', _. cbn [trace log app]. rewrite Hn, <- !app_assoc.
  split; [reflexivity|]. split_and!; [in_list|in_list|done|in_list|done|done].
Qed.

Lemma new_utxos_outpoints t :
  map outpoint (new_utxos t) =
  [{| txid := t; vout := 0 |}; {| txid := t; vout := 1 |}; {| txid := t; vout := 2 |};
   {| txid := t; vout := 3 |}].
Proof. reflexivity. Qed.

Lemma map_snd_repeat (l : list (Script * Z)) c :
  Forall (fun x => snd x = c) l -> map snd l = repeat c (length l).
Proof. induction 1 as [|x l Hx _ IH]; cbn; [done|]. by rewrite IH, Hx. Qed.

(** C30: a [createutxos] that completes has had the wallet build a transaction
    that pays 32000 satoshis four times, with the outputs in that order, and
    spends none of the listed outputs; it has broadcast it, and has appended its
    first four outputs, not coloured, to the unchanged list. *)
Theorem createutxos_appends w w1 l :
  stored w l -> createutxos_cmd w = Ret tt w1 ->
  exists tx recipients psbt signed,
    let output i := {| txid := tx_txid tx; vout := i |} in
    let l1 := l ++ [{| outpoint := output 0; colored := false |}; {| outpoint := output 1; colored := false |};
                    {| outpoint := output 2; colored := false |}; {| outpoint := output 3; colored := false |}] in
    stored w1 l1
    /\ Ev (CFinishTx {| tr_utxos := []; tr_unspendable := map outpoint l; tr_fee_rate := FEE_RATE;
                        tr_untouched := true; tr_recipients := recipients; tr_drain_to := None; tr_data := None;
                        tr_manually_selected_only := false |}) (Some psbt) ∈ emitted createutxos_cmd w
    /\ map snd recipients = [32000; 32000; 32000; 32000]
    /\ Ev (CSignPsbt psbt) (Some signed) ∈ emitted createutxos_cmd w /\ tx = extract_tx signed
    /\ Ev (CBroadcast tx) true ∈ emitted createutxos_cmd w
    /\ (utxos_wf l -> (forall o, o ∈ map outpoint l -> txid o <> tx_txid tx) -> utxos_wf l1).
Proof.
  intros Hs Hr. unfold emitted. rewrite Hr. cbn [final]. unfold createutxos_cmd in Hr.
  assert (appends sync_wallet) as Hsy by (unfold appends, sync_wallet; pres).
  assert (appends (available_sats l)) as Hav by (unfold appends, available_sats; pres).
  apply bind_Ret_inv in Hr as ([] & w2 & Hsync & Hr).
  apply ret_extends in Hsync as Hx; [|done]. destruct Hx as (n2 & Ht2 & _). apply sync_keeps_fs in Hsync.
  assert (stored w2 l) as Hs2 by (unfold stored; by rewrite Hsync).
  rewrite (bind_eq_Ret _ _ _ _ _ (read_utxos_stored _ _ Hs2)) in Hr.
  apply bind_Ret_inv in Hr as (a & w3 & Ha & Hr).
  apply ret_extends in Ha as Hx; [|done]. destruct Hx as (n3 & Ht3 & _). apply available_sats_keeps in Ha.
  destruct (a <? MIN_CREATE_UTXOS_SATS); [done|].
  apply bind_Ret_inv in Hr as (tx & w4 & Htx & Hr).
  apply create_tx_ret in Htx as (Hfs & rs & psbt & signed & n4 & Ht4 & Hfin & Hsig & Heq & Hbr & Hlen & Hrs).
  apply bind_Ret_inv in Hr as ([] & w5 & Hw & Hr).
  assert (stored w5 (l ++ new_utxos (tx_txid tx)) /\ exists new, trace w5 = trace w4 ++ new) as [Hs5 [n5 Ht5]].
  { unfold write_utxos, fs_write in Hw. mrun_in Hw.
    destruct (answer _ bool _); mrun_in Hw; [|done]. injection Hw as <-. split; [|by eexists].
    eexists. split; [apply lookup_insert_eq|apply utxos_json_roundtrip]. }
  apply bind_Ret_inv in Hr as ([] & w6 & Hsync2 & Hr). mrun_in Hr. injection Hr as <-.
  apply ret_extends in Hsync2 as Hx; [|done]. destruct Hx as (n6 & Ht6 & _).
  apply sync_keeps_fs in Hsync2. exists tx, rs, psbt, signed. cbn [trace log]. cbn zeta.
  rewrite Ht6, Ht5, Ht4, Ht3, Ht2, <- !app_assoc, drop_app_length.
  change ([{| outpoint := {| txid := tx_txid tx; vout := 0 |}; colored := false |}; _; _; _])
    with (new_utxos (tx_txid tx)).
  split_and!; [|in_list| |in_list|done|in_list|].
  - unfold stored. cbn. by rewrite Hsync2.
  - by rewrite (map_snd_repeat _ _ Hrs), Hlen.
  - intros Hwf Hnew. unfold utxos_wf. rewrite map_app, new_utxos_outpoints. apply NoDup_app.
    split; [done|]. split; [|repeat constructor; rewrite ?elem_of_cons, ?elem_of_nil; intros Hin; naive_solver].
    intros o Ho Hn. apply (Hnew o Ho).
    rewrite !elem_of_cons in Hn. by destruct Hn as [->|[->|[->|[->|?%not_elem_of_nil]]]].
Qed.

(** The wallet cannot pay more than it has outside the outputs it must not
    spend. *)
Class WalletLaws (funds : list OutPoint -> Z) : Prop := {
  finish_needs_funds : forall h req,
    funds (tr_unspendable req) < foldr Z.add 0 (map snd (tr_recipients req)) ->
    answer h _ (CFinishTx req) = None
}.

(** [createutxos] asks for 10000 satoshis but needs 128000: with an amount
    in between it passes the guard and then panics. *)
Theorem createutxos_underfunded_panics funds `{!WalletLaws funds} w w1 w2 l a :
  sync_wallet w = Ret tt w1 -> stored w1 l ->
  available_sats l w1 = Ret a w2 -> a = funds (map outpoint l) ->
  10000 <= a < 128000 ->
  (forall h, is_Some (answer h _ CGetAddress)) ->
  exists w', createutxos_cmd w = Panic "successful psbt creation" w'.
Proof.
  intros Hsync Hs Ha -> Hrange Haddr. unfold createutxos_cmd.
  rewrite (bind_eq_Ret _ _ _ _ _ Hsync), (bind_eq_Ret _ _ _ _ _ (read_utxos_stored _ _ Hs)),
    (bind_eq_Ret _ _ _ _ _ Ha).
  destruct (Z.ltb_spec (funds (map outpoint l)) MIN_CREATE_UTXOS_SATS); [unfold MIN_CREATE_UTXOS_SATS in *; lia|].
  unfold create_tx. rewrite !bind_assoc.
  assert (forall n acc w, exists r w', add_recipients n acc w = Ret r w') as Hadd.
  { clear -Haddr. induction n as [|n IH]; intros acc w; cbn; [by exists acc, w|]. mrun.
    destruct (Haddr (trace w)) as [x ->]. mrun. apply IH. }
  destruct (Hadd (Z.to_nat UTXO_NUM) [] w2) as (r & w3 & Hr). rewrite (bind_eq_Ret _ _ _ _ _ Hr).
  apply add_recipients_ret in Hr as (l' & -> & Hlen & Hf). mrun.
  rewrite finish_needs_funds; [mrun; by eexists|].
  cbn [tr_unspendable tr_recipients create_request app]. rewrite (map_snd_repeat _ _ Hf), Hlen.
  change (foldr Z.add 0 (repeat UTXO_SIZE_SAT (Z.to_nat UTXO_NUM))) with 128000. lia.
Qed.

End Serde.
End Utxos.

(** ** Witnesses *)
Section Witnesses.
Import Mock.
Abbreviation MT := (mock_types_checks true).
#[local] Instance scenario_externals : @Externals MT := mock_externals true.
Definition utxos_oracle (balance : Z) : @Oracle MT := mock_oracle true {|
  cfg_now := 1000; cfg_unspent := []; cfg_balance := balance; cfg_fungibles := Some []; cfg_pay_ok := true;
  cfg_channels := []; cfg_rgb_info := []; cfg_peers := []; cfg_route := fun _ => [] |}.
#[local] Instance rich_oracle : @Oracle MT := utxos_oracle 500000.

Definition op (t v : Z) : @OutPoint MT := @Build_OutPoint MT t v.
Definition listed : list (@RgbUtxo MT) :=
  [@Build_RgbUtxo MT (op 1 0) true; @Build_RgbUtxo MT (op 1 1) false; @Build_RgbUtxo MT (op 1 2) false].
Definition listed_world (l : list (@RgbUtxo MT)) : @World MT :=
  upd_fs (T := MT) (<[rgb_utxos_path (T := MT) := utxos_to_json (H := MT) l]>) (empty_world true).

Lemma listed_stored l : stored (T := MT) (listed_world l) l.
Proof.
  exists (utxos_to_json (H := MT) l). split; [apply lookup_insert_eq|].
  apply (utxos_json_roundtrip (SerdeLaws := mock_serde true)).
Qed.

Lemma reservations_distinct_witness :
  exists w', reserve_many (T := MT) 2 (listed_world listed) = Ret [op 1 1; op 1 2] w'.
Proof.
  destruct (reservations_distinct (T := MT) (H := mock_serde true) 2 (listed_world listed) listed
    (listed_stored listed)) as (w' & l' & H & _).
  - apply (bool_decide_unpack _). vm_compute. reflexivity.
  - reflexivity.
  - vm_compute. lia.
  - exists w'. exact H.
Defined.

Lemma reserve_without_utxos_witness :
  reserve_utxo (T := MT) (listed_world []) =
  Exit (log (Print (error_display NoAvailableUtxos +:+ nl)) (listed_world [])).
Proof. apply (reserve_without_utxos (T := MT) (listed_world []) []); [apply listed_stored|reflexivity]. Defined.

Definition created_world : @World MT := final (createutxos_cmd (T := MT) (listed_world listed)).

Lemma createutxos_appends_witness :
  exists t, stored (T := MT) created_world (listed ++ map (fun v => {| outpoint := {| txid := t; vout := v |}; colored := false |}) [0; 1; 2; 3]).
Proof.
  destruct (createutxos_appends (T := MT) (H := mock_serde true) (listed_world listed) created_world listed
    (listed_stored listed)) as (tx & _ & _ & _ & H & _).
  - vm_compute. reflexivity.
  - exists (tx_txid (H := MT) tx). exact H.
Defined.

Lemma mock_wallet_laws : WalletLaws (T := MT) (O := utxos_oracle 50000) (fun _ => 50000).
Proof.
  split. intros h req Hlt. cbn. unfold sum_recipients.
  destruct (Z.leb_spec (foldr Z.add 0 (map snd (tr_recipients req))) 50000); [lia|done].
Qed.

Lemma createutxos_underfunded_panics_witness :
  exists w', createutxos_cmd (T := MT) (O := utxos_oracle 50000) (listed_world listed)
             = Panic "successful psbt creation" w'.
Proof.
  set (O := utxos_oracle 50000).
  refine (createutxos_underfunded_panics (T := MT) (O := O) (fun _ => 50000)
    (WalletLaws0 := mock_wallet_laws) (listed_world listed)
    (final (sync_wallet (T := MT) (O := O) (listed_world listed)))
    (final (available_sats (T := MT) (O := O) listed (final (sync_wallet (T := MT) (O := O) (listed_world listed)))))
    listed 50000 _ _ _ _ _ _).
  - vm_compute. reflexivity.
  - apply listed_stored.
  - vm_compute. reflexivity.
  - reflexivity.
  - lia.
  - intros h. exists "addr"%string. reflexivity.
Defined.
End Witnesses.
End Utxos.
