(* ===== verification/Assets.v ===== *)
(** * RGB assets: issuing, sending, receiving and refreshing

    proxy.rs and the [mine], [listunspent], [getaddress], [issueasset],
    [assetbalance], [sendasset], [receiveasset] and [refresh] commands of
    cli.rs.  The RGB runtime is on disk and locked: [get_rgb_runtime] takes
    the lock ([CGetRuntime]) and [drop_rgb_runtime] gives it back
    ([CDropRuntime]). *)

From Stdlib Require Import ZArith Lia Ascii String.
From stdpp Require Import base list strings gmap.
From S2P Require Import Prelude RustStd Swap Config World Effects Mock Bitcoind RgbUtils Utxos Trades.
Import RgbUtils Utxos Trades.

Open Scope Z_scope.

Module Assets.

Section Assets.
Context `{T : Types} {X : @Externals T} {O : @Oracle T}.
Local Open Scope m_scope.

(** ** proxy.rs *)

(** [Path::file_name] of a path that ends in a plain name. *)
Definition file_name (path : string) : option string :=
  match rsplitn2 slash path with
  | EmptyString :: _ => None
  | name :: _ => Some name
  | [] => None
  end.

Definition post_consignment (url consignment_id consignment_path : string)
  : M (result (JsonRpcResponse bool) Error) :=
  let! opened := call (CFileOpen consignment_path) in
  match opened with
  | Err e => ret (Err (IO e))
  | Ok _ =>
      let! name := expect "valid file name" (file_name consignment_path) in
      let params := blinded_param_to_json consignment_id in
      let! res := call (CHttpPostMultipart url
        [("method", "consignment.post"); ("jsonrpc", "2.0"); ("id", "1"); ("params", params)]%string name) in
      match res with
      | Ok r => ret (Ok r)
      | Err e => ret (Err (Proxy e))
      end
  end.

Definition get_consignment (url consignment_id : string) : M (result (JsonRpcResponse string) string) :=
  call (CHttpPostJson url "consignment.get" "2.0" None (Some consignment_id)).

(** ** Wallet commands *)

Definition mine_cmd (words : list string) : M unit :=
  if negb (bool_decide (network = Regtest)) then
    println "ERROR: mine command is available only on regtest" ;;; leave
  else
  let '(num_blocks, _) := next words in
  match num_blocks with
  | None => println "ERROR: mine has 1 required argument: `mine num_blocks`" ;;; leave
  | Some n =>
      match parse_u16 n with
      | Err _ => println "ERROR: num_blocks must be a number" ;;; leave
      | Ok n => Bitcoind.mine n
      end
  end.

Definition listunspent_cmd : M unit :=
  let! unspents := call CListUnspent in
  let! unspents := expect "unspents" unspents in
  println "Unspents:" ;;;
  for_each unspents (fun unspent => println (" - " +:+ local_utxo_debug unspent)).

Definition getaddress_cmd : M unit :=
  let! address := call CGetAddress in
  let! address := expect "valid address" address in
  println ("Address: " +:+ address_to_string address).

(** ** [issueasset] and [assetbalance] *)

Definition issueasset_cmd (words : list string) : M unit :=
  let '(amount, words) := next words in
  let '(ticker, words) := next words in
  let '(name, words) := next words in
  let '(precision, words) := next words in
  match amount, ticker, name, precision with
  | Some amount, Some ticker, Some name, Some precision =>
      let! amount :=
        match parse_u64 amount with
        | Ok a => ret a
        | Err _ => println "ERROR: amount must be a number" ;;; leave
        end in
      (if negb (is_ascii ticker) then println "ERROR: ticker must be an ASCII string" ;;; leave
       else ret tt) ;;;
      (if negb (is_ascii name) then println "ERROR: name must be an ASCII string" ;;; leave
       else ret tt) ;;;
      let! precision :=
        match parse_u8 precision with
        | Ok p => ret p
        | Err _ => println "ERROR: precision must be a number" ;;; leave
        end in
      let! op := reserve_utxo in
      call CGetRuntime ;;;
      let! contract_id := issue_contract amount op ticker name precision in
      call CDropRuntime ;;;
      println ("Asset ID: " +:+ cid_to_string contract_id)
  | _, _, _, _ =>
      println "ERROR: issueasset has 4 required arguments: `issueasset <amount> <ticker> <name> <precision>`" ;;;
      leave
  end.

Definition assetbalance_cmd (words : list string) : M unit :=
  let '(contract_id, _) := next words in
  match contract_id with
  | None => println "ERROR: assetbalance has 1 required argument: `assetbalance <contract_id>`" ;;; leave
  | Some s =>
      match cid_from_str s with
      | None => println "ERROR: contract_id must be a valid RGB asset ID" ;;; leave
      | Some cid =>
          let! total := total_rgb_amount cid in
          println ("Asset balance: " +:+ dec total)
      end
  end.

(** ** [sendasset] *)

(** Give the change, if any, to an uncoloured output of ours. *)
Definition assign_change (builder : TransitionBuilder) (assignment_id rgb_change_amount : Z)
  : M TransitionBuilder :=
  if 0 <? rgb_change_amount then
    let! rgb_change_outpoint := reserve_utxo in
    let! seal := call (CGraphSealFrom rgb_change_outpoint) in
    let! b := call (CAddRawState false builder assignment_id (Revealed seal) rgb_change_amount) in
    expect UNWRAP_ERR b
  else ret builder.

(** What [sendasset] asks the wallet for. *)
Definition send_request (rgb_inputs : list OutPoint) (drain_to : Script) : TxRequest := {|
  tr_utxos := rgb_inputs; tr_unspendable := []; tr_fee_rate := FEE_RATE; tr_untouched := false;
  tr_recipients := []; tr_drain_to := Some drain_to; tr_data := Some [1];
  tr_manually_selected_only := true |}.

(** The transition and the transaction that carries it. *)
Definition build_transfer (contract_id : ContractId) (amt_rgb : Z) (concealed_seal : SecretSeal)
  : M (Psbt * Consignment) :=
  let! owned := get_asset_owned_values contract_id in
  let! owned := expect_result "known contract" owned in
  let! builder := call (CTransitionBuilder contract_id) in
  let! builder := expect "ok" builder in
  let! assignment_id := call (CAssignmentsType builder) in
  let! assignment_id := expect "valid assignment" assignment_id in
  let! (rgb_inputs, input_amount) := lift (select_inputs amt_rgb owned [] 0) in
  let! rgb_change_amount := lift (u64_sub input_amount amt_rgb) in
  let! builder := assign_change builder assignment_id rgb_change_amount in
  let! address := call CGetAddress in
  let! address := expect "valid address" address in
  let! added := call (CAddUtxos rgb_inputs) in
  expect_true "valid utxos" added ;;;
  let! psbt := call (CFinishTx (send_request rgb_inputs (script_pubkey address))) in
  let! psbt := expect "valid psbt finish" psbt in
  let! builder := call (CAddRawState false builder assignment_id (Concealed concealed_seal) amt_rgb) in
  let! builder := expect "ok" builder in
  send_rgb contract_id psbt builder [Concealed concealed_seal].

Definition consignment_path : string := ldk_data_dir +:+ "/consignment".

(** Hand the consignment over, then broadcast. *)
Definition deliver_transfer (psbt : Psbt) (consignment : Consignment) (blinded_utxo : string) : M unit :=
  let! saved := call (CSaveConsignment consignment consignment_path) in
  expect_true "successful save" saved ;;;
  let! res := post_consignment proxy_url blinded_utxo consignment_path in
  match res with
  | Ok {| rpc_result := Some _ |} => ret tt
  | _ => println "ERROR: unable to post consignment" ;;; leave
  end ;;;
  let! psbt := call (CSignPsbt psbt) in
  let! psbt := expect "able to sign" psbt in
  let tx := extract_tx psbt in
  broadcast_tx tx ;;;
  call (CValidate consignment) ;;;
  let! status := call (CAcceptTransfer consignment) in
  expect "valid transfer" status ;;;
  call CDropRuntime ;;;
  sync_wallet ;;;
  println ("RGB send complete, txid: " +:+ txid_to_string (tx_txid tx)).

Definition sendasset_cmd (words : list string) : M unit :=
  let '(contract_id, words) := next words in
  let '(amt_rgb_str, words) := next words in
  let '(blinded_utxo, _) := next words in
  match contract_id, amt_rgb_str, blinded_utxo with
  | Some contract_id, Some amt_rgb_str, Some blinded_utxo =>
      let! contract_id :=
        match cid_from_str contract_id with
        | Some cid => ret cid
        | None => println "ERROR: contract_id must be a valid RGB asset ID" ;;; leave
        end in
      let! amt_rgb :=
        match parse_u64 amt_rgb_str with
        | Ok amt => ret amt
        | Err e => println ("ERROR: couldn't parse amt_rgb: " +:+ parse_int_error_display e) ;;; leave
        end in
      call CGetRuntime ;;;
      let! total := get_rgb_total_amount contract_id in
      let! total :=
        match total with
        | Ok a => ret a
        | Err e => println (error_display e) ;;; leave
        end in
      (if total <? amt_rgb then println "ERROR: do not have enough RGB assets" ;;; leave
       else ret tt) ;;;
      let! concealed_seal :=
        match secret_seal_from_str blinded_utxo with
        | Some s => ret s
        | None => println "ERROR: blinded_utxo must be a valid RGB blinded UTXO" ;;; leave
        end in
      let! (psbt, consignment) := build_transfer contract_id amt_rgb concealed_seal in
      deliver_transfer psbt consignment blinded_utxo
  | _, _, _ =>
      println "ERROR: sendasset has 3 required arguments: `sendasset <contract_id> <amt_rgb> <blinded_utxo>`" ;;;
      leave
  end.

(** ** [receiveasset] and [refresh] *)

Definition blinded_dir : string := path_join ldk_data_dir "blinded_utxos".

Definition receiveasset_cmd : M unit :=
  let! op := reserve_utxo in
  let! seal := call (CGraphSealFrom op) in
  call CGetRuntime ;;;
  let! stored := call (CStoreSealSecret seal) in
  expect_true "successful seal store" stored ;;;
  call CDropRuntime ;;;
  let blinded_utxo := secret_seal_to_string (conceal seal) in
  let blinded_path := path_join blinded_dir blinded_utxo in
  let! written := fs_write blinded_path (blinded_to_json None seal false) in
  expect_true "successful file write" written ;;;
  println ("Blinded UTXO: " +:+ blinded_utxo).

(** The body of the loop over the blinded UTXOs; a [continue] ends it.  First
    the consignment is fetched... *)
Definition refresh_fetch (path : string) : M Consignment :=
  let! serialized_info := fs_read path in
  let! serialized_info := expect "valid blinded info file" serialized_info in
  let! info := expect "valid blinded data" (blinded_from_json serialized_info) in
  let '(_, seal, consumed) := info in
  if consumed then leave else
  let blinded_utxo := secret_seal_to_string (conceal seal) in
  let! res := get_consignment proxy_url blinded_utxo in
  let! consignment :=
    match res with
    | Ok {| rpc_result := Some c |} => ret c
    | _ => println "WARNING: unable to get consignment" ;;; leave
    end in
  let! consignment_bytes := expect "valid consignment" (base64_decode consignment) in
  let consignment_path := ldk_data_dir +:+ "/consignment_" +:+ blinded_utxo in
  let! written := fs_write consignment_path consignment_bytes in
  expect_true "unable to write file" written ;;;
  let! transfer := call (CLoadConsignment consignment_path) in
  expect "successful consignment load" transfer.

(** ... then it is validated and accepted... *)
Definition refresh_import (transfer : Consignment) : M unit :=
  call CGetRuntime ;;;
  let! imported := call (CImportMinimalContract transfer) in
  expect_true "failure importing issued contract" imported ;;;
  let! valid := call (CValidate transfer) in
  expect_true "invalid contract" valid ;;;
  let! status := call (CAcceptTransfer transfer) in
  let! validity := expect "valid transfer" status in
  call CDropRuntime ;;;
  if negb validity then println "WARNING: error accepting transfer" ;;; leave else
  sync_wallet.

(** ... and then the file of the pending reception is removed. *)
Definition refresh_one (path : string) : M unit :=
  let! transfer := refresh_fetch path in
  refresh_import transfer ;;;
  let! removed := fs_remove path in
  expect_true "successful file remove" removed.

(** [fs::read_dir]: the entries of a directory, in no specified order. *)
Definition read_dir (dir : string) : M (list string) :=
  gets (fun w => List.filter (fun p =>
    match rsplitn2 slash p with [_; d] => String.eqb d dir | _ => false end)
    (map fst (map_to_list (fs w)))).

Definition refresh_cmd : M unit :=
  let! blinded_files := read_dir blinded_dir in
  for_each blinded_files (fun bf => scope (refresh_one bf)) ;;;
  println "Refresh complete".

(** ** Views of the trace *)

(** The amounts put on a transition, and where. *)
Definition raw_state (ev : Event) : option (BuilderSeal * Z) :=
  match ev with
  | Ev c _ => match c with CAddRawState false _ _ seal amount => Some (seal, amount) | _ => None end
  | Print _ => None
  end.

(** The lock of the RGB runtime: taken minus given back. *)
Definition lock_change (ev : Event) : Z :=
  match ev with
  | Ev c _ => match c with CGetRuntime => 1 | CDropRuntime => -1 | _ => 0 end
  | Print _ => 0
  end.
Definition locks (l : list Event) : Z := foldr Z.add 0 (map lock_change l).

Lemma locks_app l1 l2 : locks (l1 ++ l2) = locks l1 + locks l2.
Proof. unfold locks. induction l1 as [|e l1 IH]; cbn; [done|]. rewrite IH. lia. Qed.
Lemma locks_none l : Forall (fun ev => lock_change ev = 0) l -> locks l = 0.
Proof. unfold locks. induction 1 as [|e l He _ IH]; cbn; [done|]. by rewrite He, IH. Qed.
Lemma raw_states_none l : Forall (fun ev => raw_state ev = None) l -> omap raw_state l = [].
Proof. induction 1 as [|e l He _ IH]; cbn; [done|]. by rewrite He. Qed.

(** ** Lemmas *)

Lemma pres_reserve_utxo P :
  (forall s, P (Print s)) -> (forall p c r, P (Ev (CFsWrite p c) r)) ->
  Preserves (grows P) reserve_utxo.
Proof.
  intros H1 H2. unfold reserve_utxo, check_uncolored_utxos, get_utxo, read_utxos, write_utxos.
  pres; first [by apply grows_log | by apply grows_same].
Qed.

Lemma pres_get_asset P cid :
  (forall c r, P (Ev (CElectrumConnect c) r)) -> (forall r, P (Ev CWalletSync r)) ->
  (forall r, P (Ev CListUnspent r)) -> (forall r, P (Ev (CFungibles cid) r)) ->
  Preserves (grows P) (get_asset_owned_values cid).
Proof.
  intros H1 H2 H3 H4. unfold get_asset_owned_values, sync_wallet. pres; by apply grows_log.
Qed.

Lemma pres_send_rgb cid psbt b bs :
  Preserves (grows (fun ev => raw_state ev = None)) (send_rgb cid psbt b bs).
Proof.
  apply send_rgb_events; [typeclasses eauto|]. intros [|? c r] w Hs; [done|].
  apply grows_log. by destruct c.
Qed.

Lemma select_inputs_exact amt owned ins n ins' n' :
  overflow_checks = true -> select_inputs amt owned ins n = Done (ins', n') ->
  exists taken rest, owned = taken ++ rest
    /\ ins' = ins ++ map (fun e => fst (snd e)) taken /\ n' = n + owned_total taken.
Proof.
  intros Hc. revert ins n. induction owned as [|[o [op a]] owned IH]; intros ins n Hs; cbn in Hs.
  { injection Hs as <- <-. exists [], []. cbn. rewrite app_nil_r. split_and!; [done|done|unfold owned_total; cbn; lia]. }
  destruct (amt <=? n).
  { injection Hs as <- <-. exists [], ((o, (op, a)) :: owned). cbn. rewrite app_nil_r.
    split_and!; [done|done|unfold owned_total; cbn; lia]. }
  unfold u64_add in Hs. rewrite Hc in Hs. destruct (n + a <=? U64_MAX); [|done]. cbn in Hs.
  destruct (IH _ _ Hs) as (tk & rest & -> & -> & ->). exists ((o, (op, a)) :: tk), rest.
  rewrite owned_total_cons, <- app_assoc. split_and!; [done|done|cbn; lia].
Qed.

(** Between [w] and [w'] the change went to an output reserved for it. *)
Definition change_assigned (w w' : World) (change : Z) (states : list (BuilderSeal * Z)) : Prop :=
  (change <= 0 /\ states = [])
  \/ exists op seal w1 w2, 0 < change /\ trace w `prefix_of` trace w1 /\ reserve_utxo w1 = Ret op w2
       /\ trace w2 ++ [Ev (CGraphSealFrom op) seal] `prefix_of` trace w' /\ states = [(Revealed seal, change)].

Lemma change_assigned_within w w1 w2 w' change states :
  trace w `prefix_of` trace w1 -> trace w2 `prefix_of` trace w' ->
  change_assigned w1 w2 change states -> change_assigned w w' change states.
Proof.
  intros H1 H2 [?|(op & seal & w3 & w4 & Hc & Hp & Hr & Hin & ->)]; [by left|right].
  exists op, seal, w3, w4. split_and!; [done|by etrans|done|by etrans|done].
Qed.

Lemma assign_change_ret b a change w b' w' :
  assign_change b a change w = Ret b' w' ->
  exists new, trace w' = trace w ++ new /\ change_assigned w w' change (omap raw_state new).
Proof.
  unfold assign_change. intros Hr. destruct (0 <? change) eqn:Hc; reflect_bools.
  2: { injection Hr as <- <-. exists []. rewrite app_nil_r. split; [done|by left]. }
  apply bind_Ret_inv in Hr as (op & w1 & Hop & Hr).
  pose proof (pres_reserve_utxo (fun ev => raw_state ev = None) (fun _ => eq_refl) (fun _ _ _ => eq_refl) w)
    as (n1 & Ht1 & Hf1). rewrite Hop in Ht1. cbn [final] in Ht1.
  mrun_in Hr. destruct (answer _ (option TransitionBuilder) _) as [b1|] eqn:Hb; [|done]. mrun_in Hr.
  injection Hr as -> <-. eexists (n1 ++ _). cbn [trace log]. split.
  { rewrite (app_assoc (trace w)), <- Ht1, <- !app_assoc. reflexivity. }
  right. eexists op, _, w, w1. split_and!; [done|done|done| |by rewrite omap_app, (raw_states_none _ Hf1)].
  in_prefix.
Qed.

(** Up to the transition that is completed: what is put in and what is put on. *)
Lemma build_transfer_ret cid amt seal w r w' :
  overflow_checks = true -> build_transfer cid amt seal w = Ret r w' ->
  exists owned w1 taken rest new change_states drain_to psbt,
    get_asset_owned_values cid w = Ret (Ok owned) w1
    /\ owned = taken ++ rest /\ amt <= owned_total taken
    /\ trace w' = trace w1 ++ new
    /\ Ev (CAddUtxos (map (fun e => fst (snd e)) taken)) true ∈ new
    /\ Ev (CFinishTx (send_request (map (fun e => fst (snd e)) taken) drain_to)) (Some psbt) ∈ new
    /\ change_assigned w1 w' (owned_total taken - amt) change_states
    /\ omap raw_state new = change_states ++ [(Concealed seal, amt)].
Proof.
  intros Hc Hr. unfold build_transfer in Hr. apply bind_Ret_inv in Hr as (owned & w1 & Ho & Hr).
  destruct owned as [owned|e]; [|done]. mrun_in Hr.
  destruct (answer (trace w1) _ _) as [b|]; [|done]. mrun_in Hr.
  destruct (answer _ (option Z) _) as [a|]; [|done]. mrun_in Hr.
  destruct (select_inputs amt owned [] 0) as [[ins n]|] eqn:Hs; [|done]. mrun_in Hr.
  destruct (select_inputs_exact _ _ _ _ _ _ Hc Hs) as (taken & rest & Hown & -> & ->).
  unfold u64_sub in Hr. rewrite Hc in Hr. destruct (amt <=? 0 + owned_total taken) eqn:Hle; [|done]. mrun_in Hr.
  reflect_bools. apply bind_Ret_inv in Hr as (b' & w2 & Hch & Hr).
  apply assign_change_ret in Hch as (n1 & Ht1 & Hm1). mrun_in Hr.
  destruct (answer (trace w2) _ _) as [addr|]; [|done]. mrun_in Hr.
  destruct (answer _ bool _) eqn:Hadd; [|done]. mrun_in Hr.
  destruct (answer _ (option Psbt) _) as [psbt|] eqn:Hfin; [|done]. mrun_in Hr.
  destruct (answer _ (option TransitionBuilder) _) as [b2|]; [|done]. mrun_in Hr.
  match type of Hr with send_rgb ?c ?p ?bb ?bs ?w3 = _ =>
    pose proof (pres_send_rgb c p bb bs w3) as (n2 & Ht2 & Hf2) end.
  rewrite Hr in Ht2. cbn [final] in Ht2. cbn [trace log] in Ht1, Ht2.
  exists owned, w1, taken, rest. rewrite Ht2, Ht1, <- !app_assoc.
  eexists _, (omap raw_state n1), _, psbt. split; [done|].
  split; [done|]. split; [lia|]. split; [reflexivity|]. rewrite Z.add_0_l in Hm1.
  split; [in_list|]. split; [in_list|]. split.
  - eapply change_assigned_within; [| |exact Hm1]; cbn [trace log]; [in_prefix|rewrite Ht2; in_prefix].
  - rewrite !omap_app. cbn. by rewrite (raw_states_none _ Hf2).
Qed.

(** Nothing after the transfer is built assigns an amount. *)
Lemma pres_deliver psbt c b :
  Preserves (grows (fun ev => raw_state ev = None)) (deliver_transfer psbt c b).
Proof. unfold deliver_transfer, post_consignment, broadcast_tx, sync_wallet. pres. Qed.

Lemma pres_total_locks cid : Preserves (grows (fun ev => lock_change ev = 0)) (get_rgb_total_amount cid).
Proof. unfold get_rgb_total_amount, get_asset_owned_values, sync_wallet. pres. Qed.

(** What [sendasset] has checked when it builds the transfer. *)
Lemma sendasset_parts words w w' :
  sendasset_cmd words w = Ret tt w' ->
  exists cid_str amt_str blinded more cid amt seal psbt c w1 w2 new,
    words = cid_str :: amt_str :: blinded :: more
    /\ cid_from_str cid_str = Some cid /\ parse_u64 amt_str = Ok amt
    /\ trace w1 = trace w ++ new /\ Forall (fun ev => raw_state ev = None) new
    /\ build_transfer cid amt seal w1 = Ret (psbt, c) w2
    /\ secret_seal_from_str blinded = Some seal
    /\ deliver_transfer psbt c blinded w2 = Ret tt w'.
Proof.
  unfold sendasset_cmd. intros Hr.
  destruct words as [|cid_str [|amt_str [|blinded rest]]]; cbn [next] in Hr; try done.
  destruct (cid_from_str cid_str) as [cid|] eqn:Hcid; [|done]. mrun_in Hr.
  destruct (parse_u64 amt_str) as [amt|] eqn:Hamt; [|done]. mrun_in Hr.
  apply bind_Ret_inv in Hr as (total & w1 & Ht & Hr).
  assert (Preserves (grows (fun ev => raw_state ev = None)) (get_rgb_total_amount cid)) as Hp.
  { unfold get_rgb_total_amount, get_asset_owned_values, sync_wallet. pres. }
  match type of Ht with _ ?w0 = _ => destruct (Hp w0) as (new & Hnew & Hf) end.
  rewrite Ht in Hnew. cbn [final trace log] in Hnew.
  destruct total as [total|]; [|done]. mrun_in Hr. destruct (total <? amt); [done|]. mrun_in Hr.
  destruct (secret_seal_from_str blinded) as [seal|] eqn:Hseal; [|done]. mrun_in Hr.
  apply bind_Ret_inv in Hr as ([psbt c] & w2 & Hb & Hr).
  eexists cid_str, amt_str, blinded, rest, cid, amt, seal, psbt, c, w1, w2, _.
  rewrite Hnew, <- app_assoc. do 4 (split; [done|]). split; [by constructor|done].
Qed.

(** The file of a pending reception outlives everything before its removal. *)
Definition still_there (path : string) (w w' : World) : Prop :=
  is_Some (fs w !! path) -> is_Some (fs w' !! path).
#[export] Instance still_there_preorder path : PreOrder (still_there path).
Proof. split; unfold still_there; [by intros ?|intros ? ? ?; tauto]. Qed.

Lemma refresh_fetch_keeps path : Preserves (still_there path) (refresh_fetch path).
Proof.
  unfold refresh_fetch, get_consignment. pres; unfold still_there; cbn; try done.
  intros Hs. destruct (decide (ldk_data_dir +:+ "/consignment_" +:+ secret_seal_to_string (conceal g) = path)) as [<-|Hne];
    [rewrite lookup_insert_eq; eauto|by rewrite lookup_insert_ne].
Qed.
Lemma refresh_import_keeps t : Preserves (keeps fs) (refresh_import t).
Proof. unfold refresh_import, sync_wallet. pres; reflexivity. Qed.

Lemma refresh_fetch_ret path s w t w' :
  fs w !! path = Some s -> refresh_fetch path w = Ret t w' ->
  exists cid seal resp c bytes,
    let blinded := secret_seal_to_string (conceal seal) in
    let path := ldk_data_dir +:+ "/consignment_" +:+ blinded in
    blinded_from_json s = Some (cid, seal, false)
    /\ rpc_result resp = Some c /\ base64_decode c = Some bytes
    /\ trace w' = trace w ++
         [Ev (CHttpPostJson proxy_url "consignment.get" "2.0" None (Some blinded)) (Ok resp);
          Ev (CFsWrite path bytes) true; Ev (CLoadConsignment path) (Some t)].
Proof.
  intros Hs Hr. unfold refresh_fetch, fs_read, get_consignment, fs_write in Hr.
  mrun_in Hr. rewrite Hs in Hr. mrun_in Hr.
  destruct (blinded_from_json s) as [[[cid seal] []]|]; [done| |done]. mrun_in Hr.
  destruct (answer (trace w) _ _) as [[id [c|] err]|] eqn:Hres; try done. mrun_in Hr.
  destruct (base64_decode c) as [bs|] eqn:Hb; [|done]. mrun_in Hr.
  destruct (answer _ bool (CFsWrite _ _)); mrun_in Hr; [|done].
  destruct (answer _ (option Consignment) _) as [t'|]; [|done]. mrun_in Hr. injection Hr as -> <-.
  exists cid, seal, {| rpc_id := id; rpc_result := Some c; rpc_error := err |}, c, bs. cbn zeta. do 3 (split; [done|]). cbn [trace log upd_fs].
  by rewrite <- !app_assoc.
Qed.

(** How an import ends, by what the runtime answered. *)
Definition validation (ev : Event) : option bool :=
  match ev with
  | Ev c r => match c in Call R return R -> option bool with
              | CValidate _ => fun r => Some r
              | _ => fun _ => None
              end r
  | Print _ => None
  end.

Lemma refresh_import_cases t w :
  (exists w', refresh_import t w = Ret tt w' /\ trace w' = trace w ++
     [Ev CGetRuntime tt; Ev (CImportMinimalContract t) true; Ev (CValidate t) true;
      Ev (CAcceptTransfer t) (Some true); Ev CDropRuntime tt;
      Ev (CElectrumConnect (electrum_config 20)) true; Ev CWalletSync true])
  \/ (exists w' new, refresh_import t w = Panic "invalid contract" w' /\ trace w' = trace w ++ new
        /\ locks new = 1)
  \/ (returns (refresh_import t w) = false
      /\ exists new, trace (final (refresh_import t w)) = trace w ++ new
         /\ Forall (fun ev => validation ev <> Some false) new).
Proof.
  unfold refresh_import, sync_wallet. mrun.
  destruct (answer _ bool (CImportMinimalContract t)); mrun;
    [|right; right; split; [done|]; eexists; cbn; rewrite <- !app_assoc; split; [reflexivity|by repeat constructor]].
  destruct (answer _ bool (CValidate t)); mrun;
    [|right; left; eexists _, _; split; [reflexivity|]; cbn; rewrite <- !app_assoc; split; reflexivity].
  destruct (answer _ (option bool) (CAcceptTransfer t)) as [[]|]; mrun; cbn [negb]; mrun;
    [|right; right; split; [done|]; eexists; cbn; rewrite <- !app_assoc; split; [reflexivity|by repeat constructor]..].
  destruct (answer _ bool (CElectrumConnect _)); mrun;
    [|right; right; split; [done|]; eexists; cbn; rewrite <- !app_assoc; split; [reflexivity|by repeat constructor]].
  destruct (answer _ bool CWalletSync); mrun;
    [|right; right; split; [done|]; eexists; cbn; rewrite <- !app_assoc; split; [reflexivity|by repeat constructor]].
  left. eexists. split; [reflexivity|]. cbn. rewrite <- !app_assoc. cbn [app].
  by repeat match goal with |- context [answer ?h unit ?c] => destruct (answer h unit c) end.
Qed.

Lemma refresh_fetch_quiet path :
  Preserves (grows (fun ev => validation ev <> Some false /\ lock_change ev = 0)) (refresh_fetch path).
Proof. unfold refresh_fetch, get_consignment. pres. Qed.

(** ** Properties *)

(** C5: [sendasset] neither creates nor destroys assets (with overflow checks):
    when it completes, it has made the wallet spend exactly outputs it owns that
    hold the asset, and of what these hold it has assigned the amount asked for
    to the recipient's blinded seal, and all of the rest, if any, to a seal on an
    output it has just reserved - and nothing else to anyone. *)
Theorem sendasset_conserves words w w' :
  overflow_checks = true -> sendasset_cmd words w = Ret tt w' ->
  exists cid_str amt_str blinded more cid amt recipient owned w1 w2 taken rest drain_to psbt,
    let new := emitted (sendasset_cmd words) w in
    let spent := map (fun e => fst (snd e)) taken in
    words = cid_str :: amt_str :: blinded :: more
    /\ cid_from_str cid_str = Some cid /\ parse_u64 amt_str = Ok amt
    /\ secret_seal_from_str blinded = Some recipient
    /\ trace w `prefix_of` trace w1 /\ get_asset_owned_values cid w1 = Ret (Ok owned) w2
    /\ trace w2 `prefix_of` trace w' /\ owned = taken ++ rest
    /\ Ev (CAddUtxos spent) true ∈ new
    /\ Ev (CFinishTx {| tr_utxos := spent; tr_unspendable := []; tr_fee_rate := FEE_RATE; tr_untouched := false;
                        tr_recipients := []; tr_drain_to := Some drain_to; tr_data := Some [1];
                        tr_manually_selected_only := true |}) (Some psbt) ∈ new
    /\ (owned_total taken = amt /\ omap raw_state new = [(Concealed recipient, amt)]
        \/ exists change op seal w3 w4,
             0 < change /\ owned_total taken = amt + change
             /\ trace w2 `prefix_of` trace w3 /\ reserve_utxo w3 = Ret op w4
             /\ trace w4 ++ [Ev (CGraphSealFrom op) seal] `prefix_of` trace w'
             /\ omap raw_state new = [(Revealed seal, change); (Concealed recipient, amt)]).
Proof.
  intros Hc Hr. unfold emitted. rewrite Hr. cbn [final].
  apply sendasset_parts in Hr as (cs & as' & bl & more & cid & amt & seal & psbt & c & w1 & w2 & n1
    & Hws & Hcid & Hamt & Ht1 & Hf1 & Hb & Hseal & Hd).
  apply (build_transfer_ret _ _ _ _ _ _ Hc) in Hb
    as (owned & w3 & taken & rest & n2 & st & drain & psbt' & Ho & Hown & Hle & Ht2 & Hin & Hfin & Hch & Hraw).
  destruct (pres_deliver psbt c bl w2) as (n3 & Ht3 & Hf3). rewrite Hd in Ht3. cbn [final] in Ht3.
  assert (Preserves (grows (fun ev => raw_state ev = None)) (get_asset_owned_values cid)) as Hg.
  { by apply pres_get_asset. }
  destruct (Hg w1) as (n4 & Ht4 & Hf4). rewrite Ho in Ht4. cbn [final] in Ht4.
  exists cs, as', bl, more, cid, amt, seal, owned, w1, w3, taken, rest, drain, psbt'.
  assert (trace w2 `prefix_of` trace w') as Hp2 by (rewrite Ht3; in_prefix).
  assert (trace w3 `prefix_of` trace w') as Hp3 by (etrans; [|exact Hp2]; rewrite Ht2; in_prefix).
  assert (drop (length (trace w)) (trace w') = n1 ++ n4 ++ n2 ++ n3) as Hnew
    by (by rewrite Ht3, Ht2, Ht4, Ht1, <- !app_assoc, drop_app_length).
  rewrite Hnew. cbn zeta. do 4 (split; [done|]). split; [rewrite Ht1; in_prefix|].
  do 3 (split; [done|]). split; [in_list|]. split; [in_list|].
  assert (omap raw_state (n1 ++ n4 ++ n2 ++ n3) = st ++ [(Concealed seal, amt)]) as ->.
  { by rewrite !omap_app, (raw_states_none _ Hf1), (raw_states_none _ Hf3), (raw_states_none _ Hf4), app_nil_r. }
  destruct Hch as [[Hz ->]|(op & cseal & w4 & w5 & Hpos & Hpre & Hres & Hgs & ->)]; [left; split; [lia|done]|right].
  exists (owned_total taken - amt), op, cseal, w4, w5. split_and!; [done|lia|done|done| |done]. by etrans.
Qed.

(** [assetbalance] gives the lock of the RGB runtime back when it prints a
    balance, and keeps it when the contract is unknown. *)
Theorem unknown_asset_keeps_lock s cid w r w1 :
  cid_from_str s = Some cid ->
  get_rgb_total_amount cid (log (Ev CGetRuntime tt) w) = Ret r w1 ->
  locks (emitted (assetbalance_cmd [s]) w) = (if is_ok r then 0 else 1)
  /\ returns (assetbalance_cmd [s] w) = is_ok r.
Proof.
  intros Hs Ht. unfold emitted, assetbalance_cmd, total_rgb_amount. cbn [next]. rewrite Hs. mrun.
  destruct (answer (trace w) unit CGetRuntime). rewrite (bind_eq_Ret _ _ _ _ _ Ht).
  destruct (pres_total_locks cid (log (Ev CGetRuntime tt) w)) as (new & Hnew & Hf).
  rewrite Ht in Hnew. cbn [final trace log] in Hnew.
  destruct r as [total|e]; mrun; cbn [final trace log returns]; (split; [|done]);
    rewrite Hnew, <- !app_assoc, drop_app_length, !locks_app, (locks_none _ Hf); reflexivity.
Qed.

(** C17: [refresh] forgets a pending reception only after this: the proxy was
    asked for the consignment of its blinded UTXO, what it gave was written and
    loaded, and that very consignment was imported, found valid and accepted as
    valid, under the lock of the RGB runtime; then the wallet was synchronised
    and the file removed.  Nothing else was asked for. *)
Theorem refresh_forgets_accepted_only path s w :
  fs w !! path = Some s -> fs (final (refresh_one path w)) !! path = None ->
  exists cid seal resp c bytes transfer,
    let blinded := secret_seal_to_string (conceal seal) in
    let file := ldk_data_dir +:+ "/consignment_" +:+ blinded in
    blinded_from_json s = Some (cid, seal, false)
    /\ rpc_result resp = Some c /\ base64_decode c = Some bytes
    /\ emitted (refresh_one path) w =
         [Ev (CHttpPostJson proxy_url "consignment.get" "2.0" None (Some blinded)) (Ok resp);
          Ev (CFsWrite file bytes) true; Ev (CLoadConsignment file) (Some transfer);
          Ev CGetRuntime tt; Ev (CImportMinimalContract transfer) true; Ev (CValidate transfer) true;
          Ev (CAcceptTransfer transfer) (Some true); Ev CDropRuntime tt;
          Ev (CElectrumConnect (electrum_config 20)) true; Ev CWalletSync true;
          Ev (CFsRemove path) true].
Proof.
  intros Hs Hn. unfold emitted, refresh_one in *.
  pose proof (refresh_fetch_keeps path w) as Hk.
  destruct (refresh_fetch path w) as [t w1|w1|m w1|w1] eqn:Hr; cbn [final] in Hk;
    [|unfold bind in Hn; rewrite Hr in Hn; cbn [final] in Hn; destruct Hk as [? Hk]; [eauto|congruence]..].
  destruct Hk as [s1 Hk]; [eauto|]. rewrite (bind_eq_Ret _ _ _ _ _ Hr) in Hn |- *.
  apply (refresh_fetch_ret _ s) in Hr as (cid & seal & resp & c & bytes & Hj & Hc & Hb & Ht); [|done].
  pose proof (refresh_import_keeps t w1) as Hk2. unfold keeps in Hk2.
  destruct (refresh_import_cases t w1) as [(w2 & Hi & Ht2)|[(w2 & n2 & Hi & _)|(Hi & _)]].
  - rewrite Hi in Hk2. rewrite (bind_eq_Ret _ _ _ _ _ Hi) in *. unfold fs_remove in *. mrun. mrun_in Hn.
    exists cid, seal, resp, c, bytes, t. cbn zeta. do 3 (split; [done|]).
    destruct (answer _ bool (CFsRemove path)); mrun; mrun_in Hn; cbn [final] in *.
    + cbn [trace log upd_fs]. by rewrite Ht2, Ht, <- !app_assoc, drop_app_length.
    + cbn [fs log] in *. congruence.
  - rewrite Hi in Hk2. rewrite (bind_eq_Panic _ _ _ _ _ Hi) in Hn. cbn [final] in *. congruence.
  - unfold bind in Hn. destruct (refresh_import t w1); [done|cbn [final] in *; congruence..].
Qed.

(** A consignment that does not validate brings the node down, with the RGB
    runtime still locked. *)
Theorem invalid_consignment_panics path w transfer :
  Ev (CValidate transfer) false ∈ emitted (refresh_one path) w ->
  exists w', refresh_one path w = Panic "invalid contract" w'
             /\ locks (emitted (refresh_one path) w) = 1.
Proof.
  unfold emitted, refresh_one. intros Hin.
  destruct (refresh_fetch_quiet path w) as (n1 & Ht1 & Hf1).
  assert (forall l, Forall (fun ev => validation ev <> Some false) l -> Ev (CValidate transfer) false ∉ l) as Hno.
  { intros l Hl Hl'. by apply (proj1 (Forall_forall _ _) Hl) in Hl'. }
  assert (Forall (fun ev => validation ev <> Some false) n1) as Hq.
  { eapply Forall_impl; [exact Hf1|]. by intros ev [? _]. }
  destruct (refresh_fetch path w) as [t w1|w1|m w1|w1] eqn:Hr; cbn [final] in Ht1.
  2-4: unfold bind in Hin; rewrite Hr in Hin; cbn [final] in Hin;
    rewrite Ht1, drop_app_length in Hin; by apply Hno in Hin.
  rewrite (bind_eq_Ret _ _ _ _ _ Hr) in Hin |- *.
  destruct (refresh_import_cases t w1) as [(w2 & Hi & Ht2)|[(w2 & n2 & Hi & Ht2 & Hl)|(Hi & n2 & Ht2 & Hf2)]].
  - exfalso. rewrite (bind_eq_Ret _ _ _ _ _ Hi) in Hin. mrun_in Hin. unfold fs_remove in Hin. mrun_in Hin.
    assert (forall b w3 n3, trace w3 = trace w2 ++ [Ev (CFsRemove path) b] ++ n3 -> n3 = [] ->
      Ev (CValidate transfer) false ∉ drop (length (trace w)) (trace w3)) as Hend.
    { intros b w3 n3 -> ->. rewrite Ht2, Ht1, <- !app_assoc, drop_app_length. apply Hno.
      repeat apply Forall_app_2; first [done|by repeat constructor]. }
    destruct (answer _ bool (CFsRemove path)) eqn:Hb; mrun_in Hin; cbn [final] in Hin;
      (eapply Hend; [|reflexivity|exact Hin]); reflexivity.
  - rewrite (bind_eq_Panic _ _ _ _ _ Hi). eexists. split; [reflexivity|]. cbn [final].
    rewrite Ht2, Ht1, <- app_assoc, drop_app_length, locks_app, Hl, locks_none; [done|].
    eapply Forall_impl; [exact Hf1|]. by intros ev [_ ?].
  - exfalso. unfold bind in Hin. destruct (refresh_import t w1) as [|w2|m w2|w2] eqn:Hi'; [done|..];
      cbn [final] in *; rewrite Ht2, Ht1, <- app_assoc, drop_app_length in Hin;
      apply elem_of_app in Hin as [Hin|Hin]; by apply Hno in Hin.
Qed.

(** C31: what [receiveasset] hands out, [refresh] asks the proxy for: the file it
    writes names the very blinded UTXO it prints. *)
Theorem received_utxo_is_refreshed `{!SerdeLaws} w w1 w2 :
  receiveasset_cmd w = Ret tt w1 ->
  exists blinded,
    Print ("Blinded UTXO: " +:+ blinded +:+ nl) ∈ trace w1
    /\ let path := path_join blinded_dir blinded in
       (fs w2 !! path = fs w1 !! path ->
        exists r, Ev (CHttpPostJson proxy_url "consignment.get" "2.0" None (Some blinded)) r
                  ∈ emitted (refresh_one path) w2).
Proof.
  unfold receiveasset_cmd, fs_write. intros Hr. apply bind_Ret_inv in Hr as (op & w3 & _ & Hr).
  mrun_in Hr. destruct (answer _ bool (CStoreSealSecret _)); mrun_in Hr; [|done].
  set (seal := answer (trace w3) GraphSeal (CGraphSealFrom op)) in *.
  destruct (answer _ bool (CFsWrite _ _)); mrun_in Hr; [|done]. injection Hr as <-.
  exists (secret_seal_to_string (conceal seal)). cbn zeta. split; [cbn [trace log]; in_list|].
  cbn [fs log upd_fs]. rewrite lookup_insert_eq. intros Hfs.
  unfold refresh_one, refresh_fetch, get_consignment, fs_read, emitted. mrun. rewrite Hfs. mrun.
  rewrite blinded_json_roundtrip. mrun. eexists.
  match goal with |- context [final (?m (log ?ev w2))] =>
    assert (Preserves (grows (fun _ => True)) m) as Hg end.
  { unfold refresh_import, sync_wallet. pres. }
  match goal with |- context [final (_ ?w0)] => destruct (Hg w0) as (n3 & -> & _) end.
  cbn [trace log]. rewrite <- app_assoc, drop_app_length. by left.
Qed.

End Assets.

(** ** Witnesses *)
Section Witnesses.
Import Mock.
Abbreviation MT := (mock_types_checks true).
#[local] Instance scenario_externals : @Externals MT := mock_externals true.
Definition asset_oracle (known : bool) : @Oracle MT := mock_oracle true {|
  cfg_now := 1000; cfg_unspent := mock_unspents; cfg_balance := 500000;
  cfg_fungibles := if known then Some mock_history else None; cfg_pay_ok := true;
  cfg_channels := []; cfg_rgb_info := []; cfg_peers := []; cfg_route := fun _ => [] |}.
#[local] Instance owned_oracle : @Oracle MT := asset_oracle true.

Definition send_words : list string := ["rgb1a"; "35"; "77"]%string.
Definition sent_asset_world : @World MT := final (sendasset_cmd (T := MT) send_words (listed_world listed)).

Lemma sendasset_conserves_witness :
  exists (change : Z) (seal : @GraphSeal MT), 0 < change
    /\ omap (raw_state (T := MT)) (emitted (sendasset_cmd (T := MT) send_words) (listed_world listed))
      = [(Revealed seal, change); (Concealed (77 : @SecretSeal MT), 35)].
Proof.
  destruct (sendasset_conserves (T := MT) send_words (listed_world listed) sent_asset_world)
    as (cs & am & bl & more & cid & amt & to & owned & w1 & w2 & taken & rest & dr & ps & Hw & _ & Ham & Hto & _ & _ & _ & _ & _ & _ & H).
  - reflexivity.
  - vm_compute. reflexivity.
  - injection Hw as <- <- <- <-. vm_compute in Ham. injection Ham as <-. vm_compute in Hto. injection Hto as <-.
    destruct H as [[_ H]|(change & op & seal & w3 & w4 & Hpos & _ & _ & _ & _ & H)].
    + exfalso. vm_compute in H. discriminate H.
    + exists change, seal. split; [exact Hpos|exact H].
Defined.

Definition locked_world : @World MT := log (T := MT) (Ev CGetRuntime tt) (empty_world true).

Lemma unknown_asset_keeps_lock_witness :
  locks (T := MT) (emitted (assetbalance_cmd (T := MT) (O := asset_oracle false) ["rgb1a"%string]) (empty_world true)) = 1.
Proof.
  refine (proj1 (unknown_asset_keeps_lock (T := MT) (O := asset_oracle false) "rgb1a" true (empty_world true)
    (Err UnknownContractId)
    (final (get_rgb_total_amount (T := MT) (O := asset_oracle false) true locked_world)) _ _)).
  - reflexivity.
  - vm_compute. reflexivity.
Defined.

Definition pending_path : string := "d/blinded_utxos/1002".
Definition pending_world : @World MT :=
  upd_fs (T := MT) (<[pending_path := blinded_to_json (H := MT) None 1002 false]>) (empty_world true).

Lemma refresh_forgets_accepted_only_witness :
  exists transfer : @Consignment MT, Ev (@CValidate MT transfer) true
    ∈ emitted (refresh_one (T := MT) pending_path) pending_world.
Proof.
  destruct (refresh_forgets_accepted_only (T := MT) pending_path (blinded_to_json (H := MT) None 1002 false)
    pending_world) as (cid & seal & resp & c & bytes & t & _ & _ & _ & H).
  - apply lookup_insert_eq.
  - vm_compute. reflexivity.
  - exists t. rewrite H. do 5 right. left.
Defined.

(** A runtime that finds every consignment invalid. *)
Definition invalid_oracle : @Oracle MT := {|
  answer := fun h R c => match c in Call R return R with
                         | CValidate _ => false
                         | c => mock_answer true (base_cfg true) h _ c
                         end |}.

Lemma invalid_consignment_panics_witness :
  locks (T := MT) (emitted (refresh_one (T := MT) (O := invalid_oracle) pending_path) pending_world) = 1.
Proof.
  destruct (invalid_consignment_panics (T := MT) (O := invalid_oracle) pending_path pending_world tt)
    as (w' & _ & H).
  - vm_compute. repeat (first [left|right]).
  - exact H.
Defined.

Definition received_world : @World MT := final (receiveasset_cmd (T := MT) (listed_world listed)).

Lemma received_utxo_is_refreshed_witness :
  exists blinded r, Ev (@CHttpPostJson MT PROXY_URL_REGTEST "consignment.get" "2.0" None (Some blinded)) r
    ∈ emitted (refresh_one (T := MT) (path_join (blinded_dir (T := MT)) blinded)) received_world.
Proof.
  destruct (received_utxo_is_refreshed (T := MT) (H := mock_serde true) (listed_world listed)
    received_world received_world) as (b & _ & H).
  - vm_compute. reflexivity.
  - destruct (H eq_refl) as [r Hr]. exists b, r. exact Hr.
Defined.
End Witnesses.
End Assets.
