(* ===== verification/Channels.v ===== *)
(** * Channels: opening, funding and closing

    main.rs: the [FundingGenerationReady], [PaymentForwarded],
    [PendingHTLCsForwardable], [ChannelPending], [ChannelReady] and
    [ChannelClosed] arms of [handle_ldk_events], with the two tasks they
    spawn; cli.rs: [open_channel], [close_channel], [force_close_channel] and
    the [openchannel], [opencoloredchannel], [closechannel] and
    [forceclosechannel] commands. *)

From Stdlib Require Import ZArith Lia Ascii String.
From stdpp Require Import base list strings gmap.
From S2P Require Import Prelude RustStd Hex Swap Config World Effects Mock Bitcoind RgbUtils Utxos Trades Assets Peers.
Import RgbUtils Utxos Trades Assets Peers.

Open Scope Z_scope.

Module Channels.

Section Channels.
Context `{T : Types} {X : @Externals T} {O : @Oracle T}.
Context (patience : nat).
Local Open Scope m_scope.

(** ** [FundingGenerationReady] *)

Record FundingGeneration := {
  temporary_channel_id : bytes;
  counterparty_node_id : PublicKey;
  fg_channel_value_satoshis : Z;
  output_script : bytes
}.

Record RgbState := {
  rgb_change_amount : Z;
  channel_rgb_amount : Z;
  rgb_inputs : list OutPoint;
  rgb_info : RgbInfo;
  asset_transition_builder : TransitionBuilder;
  assignment_id : Z
}.

(** What a coloured channel takes from the wallet. *)
Definition funding_rgb_state (temporary_id : bytes) : M RgbState :=
  let! rgb_info := call (CGetRgbChannelInfo temporary_id) in
  call CGetRuntime ;;;
  let channel_rgb_amount := local_rgb_amount rgb_info in
  let! asset_owned_values := get_asset_owned_values (contract_id rgb_info) in
  let! asset_owned_values := expect_result "known contract" asset_owned_values in
  let! builder := call (CTransitionBuilder (contract_id rgb_info)) in
  let! builder := expect "ok" builder in
  let! assignment_id := call (CAssignmentsType builder) in
  let! assignment_id := expect "valid assignment" assignment_id in
  let! (rgb_inputs, input_amount) := lift (select_inputs channel_rgb_amount asset_owned_values [] 0) in
  let! rgb_change_amount := lift (u64_sub input_amount channel_rgb_amount) in
  call CDropRuntime ;;;
  ret {| rgb_change_amount := rgb_change_amount; channel_rgb_amount := channel_rgb_amount;
         rgb_inputs := rgb_inputs; rgb_info := rgb_info;
         asset_transition_builder := builder; assignment_id := assignment_id |}.

(** The outputs of the file the funding transaction must not spend. *)
Definition funding_unspendable (rgb_state : option RgbState) (rgb_utxos : list RgbUtxo) : list OutPoint :=
  map outpoint (List.filter (fun u =>
    match rgb_state with
    | Some state => negb (bool_decide (outpoint u ∈ rgb_inputs state)) || negb (colored u)
    | None => true
    end) rgb_utxos).

Definition funding_request (rgb_state : option RgbState) (rgb_utxos : list RgbUtxo)
    (script : Script) (value : Z) (drain_to : Script) : TxRequest := {|
  tr_utxos := match rgb_state with Some state => rgb_inputs state | None => [] end;
  tr_unspendable := funding_unspendable rgb_state rgb_utxos;
  tr_fee_rate := FEE_RATE; tr_untouched := true; tr_recipients := [(script, value)];
  tr_drain_to := Some drain_to; tr_data := Some [1]; tr_manually_selected_only := false |}.

Definition funding_psbt (rgb_state : option RgbState) (rgb_utxos : list RgbUtxo)
    (script : Script) (value : Z) : M Psbt :=
  match rgb_state with
  | Some state =>
      let! added := call (CAddUtxos (rgb_inputs state)) in expect_true "valid utxos" added
  | None => ret tt
  end ;;;
  let! address := call CGetAddress in
  let! address := expect "able to get new address" address in
  let! psbt := call (CFinishTx (funding_request rgb_state rgb_utxos script value (script_pubkey address))) in
  expect "valid psbt finish" psbt.

Definition CHANGE_VOUT : Z := 2.

(** The transition: the channel's amount on output 0, the change on output 2. *)
Definition funding_transition (state : RgbState) (psbt : Psbt) : M (Psbt * Consignment) :=
  let funding_seal := Revealed (seal_with_vout 0) in
  let! b := call (CAddRawState true (asset_transition_builder state) (assignment_id state)
                    funding_seal (channel_rgb_amount state)) in
  let! b := expect "ok" b in
  let! (beneficiaries, b) :=
    (if 0 <? rgb_change_amount state then
       let change_seal := Revealed (seal_with_vout CHANGE_VOUT) in
       let! b := call (CAddRawState true b (assignment_id state) change_seal (rgb_change_amount state)) in
       let! b := expect "ok" b in
       ret ([funding_seal; change_seal], b)
     else ret ([funding_seal], b)) in
  call CGetRuntime ;;;
  let! res := send_rgb (contract_id (rgb_info state)) psbt b beneficiaries in
  call CDropRuntime ;;;
  ret res.

(** Before the task is spawned: save the consignment and record the change. *)
Definition funding_records (temporary_id : bytes) (rgb_utxos : list RgbUtxo) (state : RgbState)
    (consignment : Consignment) (funding_txid : Txid) (consignment_path : string) : M unit :=
  let! saved := call (CSaveConsignment consignment consignment_path) in
  expect_true "successful save" saved ;;;
  (if 0 <? rgb_change_amount state then
     write_utxos (rgb_utxos ++ [{| outpoint := {| txid := funding_txid; vout := CHANGE_VOUT |};
                                   colored := true |}])
   else ret tt) ;;;
  let! saved := call (CSaveConsignment consignment
                        (ldk_data_dir +:+ "/consignment_" +:+ Hex.hex_str temporary_id)) in
  expect_true "successful save" saved.

Definition funding_generation_ready (e : FundingGeneration) : M unit :=
  let! script := expect "Lightning funding tx should always be to a SegWit output"
                   (witness_script (output_script e) network) in
  let! is_colored := call (CIsChannelRgb (temporary_channel_id e)) in
  let! rgb_state := (if is_colored then
                       let! s := funding_rgb_state (temporary_channel_id e) in ret (Some s)
                     else ret None) in
  let! rgb_utxos := read_utxos in
  let! psbt := funding_psbt rgb_state rgb_utxos script (fg_channel_value_satoshis e) in
  let! (psbt, sc) :=
    match rgb_state with
    | Some state =>
        let! (psbt, consignment) := funding_transition state psbt in
        ret (psbt, Some (state, consignment))
    | None => ret (psbt, None)
    end in
  let! psbt := call (CSignPsbt psbt) in
  let! psbt := expect "able to sign" psbt in
  let funding_tx := extract_tx psbt in
  let funding_txid := tx_txid funding_tx in
  let consignment_path := ldk_data_dir +:+ "/consignment_" +:+ txid_to_string funding_txid in
  match sc with
  | Some (state, consignment) =>
      funding_records (temporary_channel_id e) rgb_utxos state consignment funding_txid consignment_path
  | None => ret tt
  end ;;;
  spawn (TFunding (temporary_channel_id e) (counterparty_node_id e) funding_tx
           (match sc with Some (_, consignment) => Some (consignment, consignment_path) | None => None end)).

(** ** The spawned tasks *)

(** [thread_rng().gen_range(low, high)]: rand documents that it panics unless
    [low < high]. *)
Definition gen_range (low high : Z) : M Z :=
  if low <? high then call (CGenRange low high)
  else panic "Rng.gen_range called with low >= high".

Definition forward_htlcs (min : Z) : M unit :=
  let! high := lift (u64_mul min 5) in
  let! millis_to_sleep := gen_range min high in
  call (CSleepMs millis_to_sleep) ;;;
  call CProcessForwards.

(** Publish and check the consignment before the funding goes on. *)
Definition check_consignment (funding_tx : Transaction) (consignment : Consignment)
    (consignment_path : string) : M unit :=
  let! res := post_consignment proxy_url (txid_to_string (tx_txid funding_tx)) consignment_path in
  match res with
  | Ok {| rpc_result := Some _ |} => ret tt
  | _ => leave
  end ;;;
  call CGetRuntime ;;;
  call (CValidate consignment) ;;;
  let! validity := call (CValidity consignment) in
  let! valid := expect UNWRAP_NONE validity in
  if negb valid then leave else
  call CDropRuntime.

Definition fund_channel (temporary_id : bytes) (counterparty : PublicKey) (funding_tx : Transaction)
    (colored : option (Consignment * string)) : M unit :=
  match colored with
  | Some (consignment, consignment_path) => check_consignment funding_tx consignment consignment_path
  | None => ret tt
  end ;;;
  let! given := call (CFundingGenerated temporary_id counterparty funding_tx) in
  (if is_err given then
     println (nl +:+ "ERROR: Channel went away before we could fund it. The peer disconnected or refused the channel.")
   else println "FUNDING COMPLETED") ;;;
  print "> ".

(** The task the listener spawns for a connection. *)
Definition setup_inbound (stream : nat) : M unit :=
  let! std := call (CIntoStd stream) in
  expect_true UNWRAP_ERR std ;;;
  call (CSetupInbound stream).

Definition run_task (t : Task) : M unit :=
  match t with
  | TForwardHtlcs min => forward_htlcs min
  | TFunding id counterparty tx colored => scope (fund_channel id counterparty tx colored)
  | TBroadcast tx => Bitcoind.send_raw_transaction tx
  | TInbound stream => setup_inbound stream
  end.

(** [PendingHTLCsForwardable]; [min] is [as_millis() as u64]. *)
Definition pending_htlcs_forwardable (min : Z) : M unit := spawn (TForwardHtlcs min).

(** ** The other channel events *)

Definition node_str (channels : list ChannelDetails) (channel_id : option bytes) : M string :=
  match channel_id with
  | None => ret EmptyString
  | Some id =>
      match List.find (fun c => bool_decide (World.channel_id c = id)) channels with
      | None => ret EmptyString
      | Some channel =>
          let! node := call (CNodeAlias (counterparty channel)) in
          ret (match node with
               | None => "private node"
               | Some None => "unnamed node"
               | Some (Some alias) => "node " +:+ alias
               end)
      end
  end.

Definition channel_str (channel_id : option bytes) : string :=
  match channel_id with
  | Some id => " with channel " +:+ Hex.hex_str id
  | None => EmptyString
  end.

Definition payment_forwarded (prev_channel_id next_channel_id : option bytes)
    (fee_earned_msat : option Z) (claim_from_onchain_tx : bool)
    (outbound_amount_forwarded_msat : option Z) : M unit :=
  let! channels := call CListChannels in
  let! from_node := node_str channels prev_channel_id in
  let from_prev_str := " from " +:+ from_node +:+ channel_str prev_channel_id in
  let! to_node := node_str channels next_channel_id in
  let to_next_str := " to " +:+ to_node +:+ channel_str next_channel_id in
  let from_onchain_str := if claim_from_onchain_tx then "from onchain downstream claim"%string
                          else "from HTLC fulfill message"%string in
  let amt_args := match outbound_amount_forwarded_msat with Some v => dec v | None => "?"%string end in
  match fee_earned_msat with
  | Some fee_earned =>
      println (nl +:+ "EVENT: Forwarded payment for " +:+ amt_args +:+ " msat" +:+ from_prev_str
               +:+ to_next_str +:+ ", earning " +:+ dec fee_earned +:+ " msat " +:+ from_onchain_str)
  | None =>
      println (nl +:+ "EVENT: Forwarded payment for " +:+ amt_args +:+ " msat" +:+ from_prev_str
               +:+ to_next_str +:+ ", claiming onchain " +:+ from_onchain_str)
  end ;;;
  print "> ".

Definition channel_pending (channel_id : bytes) (counterparty : PublicKey) : M unit :=
  println (nl +:+ "EVENT: Channel " +:+ Hex.hex_str channel_id +:+ " with peer "
           +:+ Hex.hex_str (pk_serialize counterparty) +:+ " is pending awaiting funding lock-in!") ;;;
  print "> ".

Definition channel_ready (channel_id : bytes) (counterparty : PublicKey) : M unit :=
  println (nl +:+ "EVENT: Channel " +:+ Hex.hex_str channel_id +:+ " with peer "
           +:+ Hex.hex_str (pk_serialize counterparty) +:+ " is ready to be used!") ;;;
  let! is_colored := call (CIsChannelRgb channel_id) in
  (if is_colored then
     call CGetRuntime ;;;
     let! transfer := call (CLoadConsignment
                              (ldk_data_dir +:+ "/consignment_" +:+ Hex.hex_str channel_id)) in
     let! transfer := expect "successful consignment load" transfer in
     let! valid := call (CValidate transfer) in
     expect_true "invalid contract" valid ;;;
     let! status := call (CAcceptTransfer transfer) in
     expect "valid consignment" status ;;;
     call CDropRuntime
   else ret tt) ;;;
  print "> ".

(** [reason] is the [Debug] text of the closure reason. *)
Definition channel_closed (channel_id : bytes) (reason : string) : M unit :=
  println (nl +:+ "EVENT: Channel " +:+ Hex.hex_str channel_id +:+ " closed due to: " +:+ reason) ;;;
  print "> ".

(** ** Opening *)

Definition open_channel (peer_pubkey : PublicKey) (channel_amt_sat push_amt_msat : Z)
    (announced_channel is_colored : bool) : M (result bytes unit) :=
  sync_wallet ;;;
  let config := {| cc_their_to_self_delay := 2016; cc_announced_channel := announced_channel;
                   cc_our_htlc_minimum_msat := HTLC_MIN_MSAT |} in
  let! consignment_endpoint :=
    (if is_colored then
       expect_true UNWRAP_ERR (valid_transport proxy_endpoint) ;;; ret (Some proxy_endpoint)
     else ret None) in
  let! created := call (CCreateChannel peer_pubkey channel_amt_sat push_amt_msat 0 config
                          consignment_endpoint) in
  match created with
  | Ok temporary_channel_id =>
      println ("EVENT: initiated channel with peer " +:+ pk_to_string peer_pubkey +:+ ". ") ;;;
      ret (Ok temporary_channel_id)
  | Err e => println ("ERROR: failed to open channel: " +:+ e) ;;; ret (Err tt)
  end.

Definition PUBLIC_USAGE : string :=
  "ERROR: invalid `--public` command format. Valid formats: `--public`, `--public=true` `--public=false`".
Definition OPENCOLORED_USAGE : string :=
  "ERROR: opencoloredchannel has 5 required arguments: `openchannel pubkey@host:port chan_amt_satoshis push_amt_msatoshis rgb_contract_id chan_amt_rgb` [--public]".
Definition OPENCHANNEL_USAGE : string :=
  "ERROR: openchannel has 3 required arguments: `openchannel pubkey@host:port chan_amt_satoshis push_amt_msatoshis` [--public]".

Definition parse_public (word : option string) : M bool :=
  match word with
  | None => ret false
  | Some s =>
      if String.eqb s "--public" || String.eqb s "--public=true" then ret true
      else if String.eqb s "--public=false" then ret false
      else println PUBLIC_USAGE ;;; leave
  end.

(** The number checks, in the order of the source. *)
Definition channel_amount (s : string) : M Z :=
  match parse_u64 s with
  | Err _ => println "ERROR: channel amount must be a number" ;;; leave
  | Ok chan_amt_sat =>
      if chan_amt_sat <? OPENCHANNEL_MIN_SAT then
        println ("ERROR: channel amount must be equal or higher than " +:+ dec OPENCHANNEL_MIN_SAT) ;;; leave
      else if OPENCHANNEL_MAX_SAT <? chan_amt_sat then
        println ("ERROR: channel amount must be equal or less than " +:+ dec OPENCHANNEL_MAX_SAT) ;;; leave
      else ret chan_amt_sat
  end.
Definition push_amount (is_colored : bool) (s : string) : M Z :=
  match parse_u64 s with
  | Err _ => println "ERROR: push amount must be a number" ;;; leave
  | Ok push_amt_msat =>
      if is_colored && (push_amt_msat <? DUST_LIMIT_MSAT) then
        println ("ERROR: push amount must be equal or higher than the dust limit ("
                 +:+ dec DUST_LIMIT_MSAT +:+ ")") ;;; leave
      else ret push_amt_msat
  end.

Definition channel_rgb_info (contract_id channel_value_rgb : option string) : M RgbInfo :=
  let! contract_id := lift (unwrap contract_id) in
  let! contract_id :=
    match cid_from_str contract_id with
    | Some cid => ret cid
    | None => println "ERROR: contract_id must be a valid RGB asset ID" ;;; leave
    end in
  let! channel_value_rgb := lift (unwrap channel_value_rgb) in
  let! chan_amt_rgb :=
    match parse_u64 channel_value_rgb with
    | Ok a => ret a
    | Err _ => println "ERROR: channel RGB amount must be a number" ;;; leave
    end in
  let! total := total_rgb_amount contract_id in
  if total <? chan_amt_rgb then println "ERROR: do not have enough RGB assets" ;;; leave
  else ret {| contract_id := contract_id; local_rgb_amount := chan_amt_rgb; remote_rgb_amount := 0 |}.

(** [parse_peer_info] as the commands use it. *)
Definition peer_info_or_leave (s : string) : M (PublicKey * SocketAddr) :=
  let! info := parse_peer_info s in
  match info with
  | Ok info => ret info
  | Err e =>
      let! message := lift (unwrap (into_inner e)) in
      println (dquote +:+ message +:+ dquote) ;;;
      leave
  end.

Definition openchannel_cmd (is_colored : bool) (words : list string) : M unit :=
  let '(peer_pubkey_and_ip_addr, words) := next words in
  let '(channel_value_sat, words) := next words in
  let '(push_value_msat, words) := next words in
  let '(contract_id, words) := if is_colored then next words else (None, words) in
  let '(channel_value_rgb, words) := if is_colored then next words else (None, words) in
  let '(public, _) := next words in
  let! announce_channel := parse_public public in
  if is_colored && (is_none peer_pubkey_and_ip_addr || is_none channel_value_sat
                    || is_none push_value_msat || is_none contract_id || is_none channel_value_rgb) then
    println OPENCOLORED_USAGE ;;; leave
  else if is_none peer_pubkey_and_ip_addr || is_none channel_value_sat || is_none push_value_msat then
    println OPENCHANNEL_USAGE ;;; leave
  else
  let! peer_str := lift (unwrap peer_pubkey_and_ip_addr) in
  let! (pubkey, peer_addr) := peer_info_or_leave peer_str in
  let! sat_str := lift (unwrap channel_value_sat) in
  let! chan_amt_sat := channel_amount sat_str in
  let! push_str := lift (unwrap push_value_msat) in
  let! push_amt_msat := push_amount is_colored push_str in
  let! rgb_info :=
    (if is_colored then
       let! info := channel_rgb_info contract_id channel_value_rgb in ret (Some info)
     else ret None) in
  let! connected := connect_peer_if_necessary patience pubkey peer_addr in
  (if is_err connected then leave else ret tt) ;;;
  let! open_channel_result :=
    open_channel pubkey chan_amt_sat push_amt_msat announce_channel is_colored in
  if is_err open_channel_result then leave else
  persist_channel_peer peer_data_path peer_str ;;;
  match rgb_info with
  | Some rgb_info =>
      let! temporary_channel_id := lift (unwrap_ok open_channel_result) in
      call (CWriteRgbChannelInfo (ldk_data_dir +:+ "/" +:+ Hex.hex_str temporary_channel_id) rgb_info)
  | None => ret tt
  end.

(** ** Closing *)

Definition close_channel (channel_id : bytes) (counterparty : PublicKey) : M unit :=
  let! res := call (CCloseChannel channel_id counterparty) in
  match res with
  | Ok _ => println "EVENT: initiating channel close"
  | Err e => println ("ERROR: failed to close channel: " +:+ e)
  end.

Definition force_close_channel (channel_id : bytes) (counterparty : PublicKey) : M unit :=
  let! res := call (CForceCloseChannel channel_id counterparty) in
  match res with
  | Ok _ => println "EVENT: initiating channel force-close"
  | Err e => println ("ERROR: failed to force-close channel: " +:+ e)
  end.

(** The two commands differ in their name and in what they call. *)
Definition close_args (command : string) (words : list string) : M (bytes * PublicKey) :=
  let '(channel_id_str, words) := next words in
  let! channel_id :=
    match channel_id_str with
    | None => println ("ERROR: " +:+ command +:+ " requires a channel ID: `" +:+ command
                       +:+ " <channel_id> <peer_pubkey>`") ;;; leave
    | Some s =>
        match Hex.to_vec s ≫= Hex.to_array32 with
        | Some v => ret v
        | None => println "ERROR: couldn't parse channel_id" ;;; leave
        end
    end in
  let '(peer_pubkey_str, _) := next words in
  let! peer_pubkey :=
    match peer_pubkey_str with
    | None => println ("ERROR: " +:+ command +:+ " requires a peer pubkey: `" +:+ command
                       +:+ " <channel_id> <peer_pubkey>`") ;;; leave
    | Some s =>
        match Hex.to_vec s ≫= pk_from_slice with
        | Some pk => ret pk
        | None => println "ERROR: couldn't parse peer_pubkey" ;;; leave
        end
    end in
  ret (channel_id, peer_pubkey).

Definition closechannel_cmd (words : list string) : M unit :=
  let! (channel_id, peer_pubkey) := close_args "closechannel" words in
  close_channel channel_id peer_pubkey.

Definition forceclosechannel_cmd (words : list string) : M unit :=
  let! (channel_id, peer_pubkey) := close_args "forceclosechannel" words in
  force_close_channel channel_id peer_pubkey.

(** ** Views and lemmas *)

(** The channels the program asks LDK to create. *)
Definition creates (ev : Event) : option (Z * Z * Z * ChannelConfig * option string) :=
  match ev with
  | Ev c _ => match c with
              | CCreateChannel _ sat push_msat user_id config endpoint =>
                  Some (sat, push_msat, user_id, config, endpoint)
              | _ => None
              end
  | Print _ => None
  end.

Definition sound_creation (is_colored : bool) (ev : Event) : Prop :=
  forall sat push_msat user_id config endpoint,
    creates ev = Some (sat, push_msat, user_id, config, endpoint) ->
    5506 <= sat <= 16777215 /\ push_msat <= U64_MAX
    /\ (is_colored = true -> 546000 <= push_msat /\ endpoint = Some proxy_endpoint)
    /\ (is_colored = false -> endpoint = None)
    /\ cc_our_htlc_minimum_msat config = 3000000.

Lemma sound_creation_other c ev : creates ev = None -> sound_creation c ev.
Proof. unfold sound_creation. by intros -> *. Qed.

Lemma pres_sound_await c n pk : Preserves (grows (sound_creation c)) (await_connection n pk).
Proof. apply pres_await; intros; by apply sound_creation_other. Qed.

Lemma pres_sound_total c cid : Preserves (grows (sound_creation c)) (total_rgb_amount cid).
Proof.
  unfold total_rgb_amount, get_rgb_total_amount, get_asset_owned_values, sync_wallet.
  pres; try (apply grows_log; by apply sound_creation_other).
Qed.

Lemma pres_sound_parse c s : Preserves (grows (sound_creation c)) (parse_peer_info s).
Proof. unfold parse_peer_info. pres; apply grows_log; by apply sound_creation_other. Qed.

Lemma pres_sound_connect c pk addr :
  Preserves (grows (sound_creation c)) (connect_peer_if_necessary patience pk addr).
Proof.
  unfold connect_peer_if_necessary, do_connect_peer.
  pres; try apply pres_sound_await; apply grows_log; by apply sound_creation_other.
Qed.

Lemma pres_sound_open (c ann : bool) pk sat push :
  5506 <= sat <= 16777215 -> push <= U64_MAX -> (c = true -> 546000 <= push) ->
  Preserves (grows (sound_creation c)) (open_channel pk sat push ann c).
Proof.
  intros Hsat Hp1 Hp2. unfold open_channel, sync_wallet.
  pres_cases; apply grows_log; try by apply sound_creation_other.
  all: intros ? ? ? ? ? [= <- <- <- <- <-]; cbn.
  all: repeat split; try lia; try done; try (intros _; split; [auto|reflexivity]); auto.
Qed.

Lemma openchannel_sound c words :
  Preserves (grows (sound_creation c)) (openchannel_cmd c words).
Proof.
  unfold openchannel_cmd, parse_public, peer_info_or_leave, channel_amount, push_amount,
    channel_rgb_info, persist_channel_peer.
  pres_cases;
    try solve [apply pres_sound_connect | apply pres_sound_total | apply pres_sound_parse
              | apply grows_log; by apply sound_creation_other | by apply grows_same].
  all: apply pres_sound_open; cbn [andb] in *; reflect_bools;
    repeat match goal with H : parse_uint _ _ = Ok _ |- _ => apply parse_uint_fits in H; [|done] end;
    unfold fits, OPENCHANNEL_MIN_SAT, OPENCHANNEL_MAX_SAT, DUST_LIMIT_MSAT in *; first [done|lia].
Qed.

(** The static assignments of a transition. *)
Definition static_state (ev : Event) : option (BuilderSeal * Z) :=
  match ev with
  | Ev c _ => match c with CAddRawState true _ _ seal amount => Some (seal, amount) | _ => None end
  | Print _ => None
  end.
Definition no_static (ev : Event) : Prop := static_state ev = None.

Lemma statics_none l : Forall no_static l -> omap static_state l = [].
Proof. induction 1 as [|e l He _ IH]; cbn; [done|]. by rewrite He. Qed.

Lemma send_static ev : send_event ev = true -> no_static ev.
Proof. destruct ev as [|? c ?]; [done|]. by destruct c. Qed.

Lemma pres_static_send cid psbt b bs : Preserves (grows no_static) (send_rgb cid psbt b bs).
Proof.
  apply send_rgb_events; [typeclasses eauto|]. intros ev w Hs. by apply grows_log, send_static.
Qed.

(** What [funding_rgb_state] takes: a prefix of the owned outputs that covers
    the channel. *)
Lemma funding_rgb_state_ret id w st w1 :
  overflow_checks = true -> funding_rgb_state id w = Ret st w1 ->
  exists owned w0 w2 taken rest new,
    trace w `prefix_of` trace w0 /\ get_asset_owned_values (contract_id (rgb_info st)) w0 = Ret (Ok owned) w2
    /\ trace w2 `prefix_of` trace w1 /\ owned = taken ++ rest
    /\ rgb_inputs st = map (fun e => fst (snd e)) taken
    /\ channel_rgb_amount st = local_rgb_amount (rgb_info st)
    /\ channel_rgb_amount st + rgb_change_amount st = owned_total taken
    /\ 0 <= rgb_change_amount st
    /\ fs w1 = fs w /\ trace w1 = trace w ++ new /\ Forall no_static new
    /\ Ev (CGetRgbChannelInfo id) (rgb_info st) ∈ new.
Proof.
  intros Hc Hr.
  assert (Preserves (keeps fs) (funding_rgb_state id)) as Hk.
  { unfold funding_rgb_state, get_asset_owned_values, sync_wallet. pres; reflexivity. }
  specialize (Hk w). rewrite Hr in Hk.
  unfold funding_rgb_state in Hr. mrun_in Hr. set (info := answer (trace w) RgbInfo _) in *.
  apply bind_Ret_inv in Hr as (owned & w2 & Ho & Hr).
  match type of Ho with _ ?w0 = _ => set (w0' := w0) in * end.
  assert (Preserves (grows no_static) (get_asset_owned_values (contract_id info))) as Hg by (by apply pres_get_asset).
  destruct (Hg w0') as (n1 & Ht1 & Hf1). rewrite Ho in Ht1. cbn [final] in Ht1.
  destruct owned as [owned|e]; [|done]. mrun_in Hr.
  destruct (answer (trace w2) _ _) as [b|]; [|done]. mrun_in Hr.
  destruct (answer _ (option Z) _) as [a|]; [|done]. mrun_in Hr.
  destruct (select_inputs _ owned [] 0) as [[ins n]|] eqn:Hs; [|done]. mrun_in Hr.
  destruct (select_inputs_exact _ _ _ _ _ _ Hc Hs) as (taken & rest & Hown & -> & ->).
  unfold u64_sub in Hr. rewrite Hc in Hr.
  destruct (local_rgb_amount info <=? 0 + owned_total taken) eqn:Hle; [|done]. mrun_in Hr.
  injection Hr as <- <-. reflect_bools. cbn [rgb_inputs channel_rgb_amount rgb_change_amount rgb_info].
  eexists owned, w0', w2, taken, rest. subst w0'. cbn [trace log] in *.
  match goal with |- context [trace w2 `prefix_of` ?t] => assert (trace w2 `prefix_of` t) as Hpre by in_prefix end.
  rewrite Ht1, <- !app_assoc in Hpre |- *.
  eexists. split; [in_prefix|]. split; [done|].
  split; [exact Hpre|]. split_and!; try done; try lia.
  - cbn [app]. constructor; [done|]. constructor; [done|]. apply Forall_app. by split; repeat constructor.
  - in_list.
Qed.

Lemma keeps_send {B} (f : World -> B) cid psbt b bs :
  (forall e w, f (log e w) = f w) -> Preserves (keeps f) (send_rgb cid psbt b bs).
Proof. intros Hf. apply send_rgb_events; [typeclasses eauto|]. intros ev w _. apply Hf. Qed.

Lemma funding_transition_ret st psbt w r w1 :
  funding_transition st psbt w = Ret r w1 ->
  exists new, trace w1 = trace w ++ new /\ fs w1 = fs w
    /\ omap static_state new =
       (Revealed (seal_with_vout 0), channel_rgb_amount st)
       :: (if 0 <? rgb_change_amount st
           then [(Revealed (seal_with_vout CHANGE_VOUT), rgb_change_amount st)] else []).
Proof.
  intros Hr. assert (Preserves (keeps fs) (funding_transition st psbt)) as Hk.
  { unfold funding_transition. pres; try reflexivity; by apply keeps_send. }
  specialize (Hk w). rewrite Hr in Hk. unfold funding_transition in Hr. mrun_in Hr.
  destruct (answer (trace w) _ _) as [b|]; [|done]. mrun_in Hr.
  destruct (0 <? rgb_change_amount st) eqn:Hch; mrun_in Hr;
    [destruct (answer _ (option TransitionBuilder) _) as [b2|]; [|done]; mrun_in Hr|];
    apply bind_Ret_inv in Hr as (res & w2 & Hs & Hr); mrun_in Hr; injection Hr as <- <-;
    match type of Hs with send_rgb ?c ?p ?bb ?bs ?w3 = _ =>
      pose proof (pres_static_send c p bb bs w3) as (n2 & Ht2 & Hf2) end;
    rewrite Hs in Ht2; cbn [final trace log] in Ht2; cbn [trace log]; rewrite Ht2, <- !app_assoc;
    eexists; (split; [reflexivity|]); (split; [exact Hk|]); rewrite !omap_app; cbn [omap list_omap];
    cbn; by rewrite (statics_none _ Hf2).
Qed.

(** None of the steps before the last one spawns a task. *)
Lemma tasks_rgb_state id : Preserves (keeps tasks) (funding_rgb_state id).
Proof. unfold funding_rgb_state, get_asset_owned_values, sync_wallet. pres; reflexivity. Qed.
Lemma tasks_psbt st l script value : Preserves (keeps tasks) (funding_psbt st l script value).
Proof. unfold funding_psbt. pres; reflexivity. Qed.
Lemma tasks_transition st psbt : Preserves (keeps tasks) (funding_transition st psbt).
Proof. unfold funding_transition. pres; try reflexivity; by apply keeps_send. Qed.
Lemma tasks_records id l st c t path : Preserves (keeps tasks) (funding_records id l st c t path).
Proof. unfold funding_records, write_utxos. pres; reflexivity. Qed.

Lemma funding_psbt_ret st l script value w psbt w1 :
  funding_psbt (Some st) l script value w = Ret psbt w1 ->
  exists new, trace w1 = trace w ++ new /\ fs w1 = fs w /\ Forall no_static new
    /\ Ev (CAddUtxos (rgb_inputs st)) true ∈ new.
Proof.
  unfold funding_psbt. intros Hr. mrun_in Hr. destruct (answer (trace w) _ _) eqn:Ha; [|done]. mrun_in Hr.
  destruct (answer _ (option Address) _) as [addr|]; [|done]. mrun_in Hr.
  destruct (answer _ (option Psbt) _); [|done]. mrun_in Hr. injection Hr as <- <-.
  eexists. cbn [trace log]. rewrite <- !app_assoc. cbn [app]. split; [reflexivity|]. split; [done|].
  split; [by repeat constructor|in_list].
Qed.

Lemma funding_records_ret `{!SerdeLaws} id l st c t path w w1 :
  stored w l -> funding_records id l st c t path w = Ret tt w1 ->
  exists new, trace w1 = trace w ++ new /\ Forall no_static new
    /\ stored w1 (l ++ if 0 <? rgb_change_amount st
                       then [{| outpoint := {| txid := t; vout := CHANGE_VOUT |}; colored := true |}] else []).
Proof.
  intros Hs Hr. unfold funding_records, write_utxos, fs_write in Hr. mrun_in Hr.
  destruct (answer (trace w) _ _); [|done]. mrun_in Hr.
  destruct (0 <? rgb_change_amount st); mrun_in Hr;
    [destruct (answer _ bool (CFsWrite _ _)); mrun_in Hr; [|done]|];
    (destruct (answer _ bool (CSaveConsignment _ _)); [|done]); mrun_in Hr; injection Hr as <-;
    eexists; cbn [trace log upd_fs]; rewrite <- ?app_assoc; (split; [reflexivity|]);
    (split; [by repeat constructor|]).
  - eexists. split; [apply lookup_insert_eq|apply utxos_json_roundtrip].
  - by rewrite app_nil_r.
Qed.

(** ** Properties *)

(** C4: with overflow checks - [underfunded_channel] shows what happens without
    them - funding a coloured channel conserves the asset: the transition assigns
    to output 0 the amount of the channel's information file and to output 2
    the rest of the outputs it makes the transaction spend, which the wallet
    owns; that change is recorded as coloured when there is any, and the
    transaction is handed to the task that goes on with it. *)
Theorem funding_conserves `{!SerdeLaws} e w l w' :
  overflow_checks = true -> stored w l ->
  answer (trace w) _ (CIsChannelRgb (temporary_channel_id e)) = true ->
  funding_generation_ready e w = Ret tt w' ->
  exists info owned w0 w2 taken rest change tx c path,
    let l' := if 0 <? change
              then [{| outpoint := {| txid := tx_txid tx; vout := 2 |}; colored := true |}] else [] in
    Ev (CGetRgbChannelInfo (temporary_channel_id e)) info ∈ emitted (funding_generation_ready e) w
    /\ trace w `prefix_of` trace w0 /\ get_asset_owned_values (contract_id info) w0 = Ret (Ok owned) w2
    /\ trace w2 `prefix_of` trace w' /\ owned = taken ++ rest
    /\ Ev (CAddUtxos (map (fun e => fst (snd e)) taken)) true ∈ emitted (funding_generation_ready e) w
    /\ omap static_state (emitted (funding_generation_ready e) w) =
       (Revealed (seal_with_vout 0), local_rgb_amount info)
       :: (if 0 <? change then [(Revealed (seal_with_vout 2), change)] else [])
    /\ local_rgb_amount info + change = owned_total taken /\ 0 <= change
    /\ stored w' (l ++ l')
    /\ tasks w' = tasks w ++ [TFunding (temporary_channel_id e) (counterparty_node_id e) tx (Some (c, path))].
Proof.
  intros Hc Hl Hcol Hr. unfold emitted. rewrite Hr. cbn [final].
  unfold funding_generation_ready in Hr. mrun_in Hr.
  destruct (witness_script _ _) as [script|]; [|done]. mrun_in Hr. rewrite Hcol in Hr. mrun_in Hr.
  apply bind_Ret_inv in Hr as (st & w1 & Hst & Hr). mrun_in Hr.
  pose proof (funding_rgb_state_ret _ _ _ _ Hc Hst) as (owned & w0 & w2 & taken & rest & n1 & Hp0 & Ho & Hp2 & Hown & Hins & Hamt & Hsum & Hpos & Hfs1 & Ht1 & Hf1 & Hi1).
  assert (stored w1 l) as Hl1 by (unfold stored; by rewrite Hfs1).
  rewrite (bind_eq_Ret _ _ _ _ _ (read_utxos_stored _ _ Hl1)) in Hr.
  apply bind_Ret_inv in Hr as (psbt & w3 & Hps & Hr).
  pose proof (funding_psbt_ret _ _ _ _ _ _ _ Hps) as (n2 & Ht2 & Hfs2 & Hf2 & Hi2). mrun_in Hr.
  apply bind_Ret_inv in Hr as ([psbt2 c] & w4 & Htr & Hr). mrun_in Hr.
  pose proof (funding_transition_ret _ _ _ _ _ Htr) as (n3 & Ht3 & Hfs3 & Hst3).
  destruct (answer (trace w4) _ _) as [psbt3|]; [|done]. mrun_in Hr.
  apply bind_Ret_inv in Hr as ([] & w5 & Hrec & Hr). unfold spawn in Hr. mrun_in Hr. injection Hr as <-.
  assert (stored w4 l) as Hl4 by (unfold stored; by rewrite Hfs3, Hfs2).
  pose proof (funding_records_ret _ _ _ _ _ _ (log (Ev (CSignPsbt psbt2) (Some psbt3)) w4) _ Hl4 Hrec) as (n5 & Ht5 & Hf5 & Hl5).
  apply (ret_keeps tasks) in Hst; [|apply tasks_rgb_state].
  apply (ret_keeps tasks) in Hps; [|apply tasks_psbt].
  apply (ret_keeps tasks) in Htr; [|apply tasks_transition].
  apply (ret_keeps tasks) in Hrec; [|apply tasks_records].
  cbn [tasks upd_tasks log trace] in *.
  assert (trace w2 `prefix_of` trace w5) as Hpre by (etrans; [exact Hp2|rewrite Ht5, Ht3, Ht2; in_prefix]).
  rewrite Ht5, Ht3, Ht2, Ht1, <- !app_assoc in Hpre |- *. rewrite drop_app_length.
  exists (rgb_info st), owned, w0, w2, taken, rest, (rgb_change_amount st), (extract_tx psbt3), c. eexists.
  cbn zeta. split_and!.
  - in_list.
  - etrans; [|exact Hp0]. in_prefix.
  - exact Ho.
  - exact Hpre.
  - exact Hown.
  - rewrite <- Hins. in_list.
  - rewrite !omap_app, Hst3, (statics_none _ Hf1), (statics_none _ Hf2), (statics_none _ Hf5), <- Hamt.
    cbn. by rewrite !app_nil_r.
  - by rewrite <- Hamt.
  - exact Hpos.
  - exact Hl5.
  - rewrite Hrec, Htr, Hps, Hst. reflexivity.
Qed.

(** C34: when the wallet owns less of the asset than the information file of a
    channel announces, preparing its funding panics with the RGB lock held if
    arithmetic is checked; otherwise it goes on with a change of almost
    [2 ^ 64] assets that do not exist. *)
Theorem underfunded_channel id info owned w w2 :
  answer (trace w) _ (CGetRgbChannelInfo id) = info ->
  get_asset_owned_values (contract_id info)
    (log (Ev CGetRuntime (answer (trace w ++ [Ev (CGetRgbChannelInfo id) info]) unit CGetRuntime))
      (log (Ev (CGetRgbChannelInfo id) info) w)) = Ret (Ok owned) w2 ->
  (forall h, is_Some (answer h _ (CTransitionBuilder (contract_id info)))) ->
  (forall h b, is_Some (answer h _ (CAssignmentsType b))) ->
  owned_ok owned -> owned_total owned < local_rgb_amount info <= U64_MAX ->
  if overflow_checks then
    panicked (funding_rgb_state id w) = true /\ locks (emitted (funding_rgb_state id) w) = 1
  else exists st w', funding_rgb_state id w = Ret st w' /\ channel_rgb_amount st = local_rgb_amount info
    /\ rgb_change_amount st = 2 ^ 64 - (local_rgb_amount info - owned_total owned).
Proof.
  intros Hi Ho Hb Ha [Hf Hm] Hlt.
  destruct (select_inputs_go (local_rgb_amount info) owned [] 0) as (taken & rest & He & Hs & Hr & _);
    [lia|done|lia|].
  destruct rest as [|r rest].
  2:{ exfalso. rewrite He, owned_total_app in Hlt. specialize (Hr ltac:(done)).
      assert (0 <= owned_total (r :: rest)) by (apply owned_total_nonneg; rewrite He in Hf; by apply Forall_app in Hf as [_ ?]).
      lia. }
  rewrite app_nil_r in He. subst taken.
  assert (Preserves (grows (fun ev => lock_change ev = 0)) (get_asset_owned_values (contract_id info))) as Hg
    by (by apply pres_get_asset).
  match type of Ho with _ ?w0 = _ => destruct (Hg w0) as (n1 & Ht1 & Hf1) end.
  rewrite Ho in Ht1. cbn [final] in Ht1.
  assert (funding_rgb_state id w = funding_rgb_state id w) as Hrun by done.
  unfold funding_rgb_state in Hrun at 2. mrun_in Hrun. rewrite Hi in Hrun.
  cbn [log trace] in Hrun, Ho. unfold log in Hrun at 1 2. cbn [trace] in Hrun.
  rewrite (bind_eq_Ret _ _ _ _ _ Ho) in Hrun. mrun_in Hrun.
  destruct (Hb (trace w2)) as [b Hb']. rewrite Hb' in Hrun. mrun_in Hrun.
  match type of Hrun with context [answer ?h (option Z) (CAssignmentsType b)] => destruct (Ha h b) as [a Ha'] end.
  rewrite Ha' in Hrun. mrun_in Hrun. rewrite Hs in Hrun. mrun_in Hrun.
  unfold u64_sub in Hrun. rewrite (proj2 (Z.leb_gt (local_rgb_amount info) _)) in Hrun by lia.
  unfold U64_MAX in *. pose proof (owned_total_nonneg _ Hf).
  destruct overflow_checks; mrun_in Hrun; rewrite Hrun.
  - split; [done|]. erewrite emitted_app; [|rewrite Hrun; cbn [final trace log]; by rewrite Ht1; cbn [trace log]; rewrite <- !app_assoc].
    cbn [app]. unfold locks. cbn [map foldr lock_change]. fold (locks (n1 ++ [Ev (CTransitionBuilder (contract_id info)) (Some b); Ev (CAssignmentsType b) (Some a)])).
    rewrite locks_app, (locks_none _ Hf1). done.
  - eexists _, _. split; [reflexivity|]. cbn. split; [done|].
    rewrite <- (Z.mod_add _ 1) by done. rewrite Z.mod_small; lia.
Qed.

(** ** Funding tasks *)

Definition is_funding (ev : Event) : bool :=
  match ev with Ev c _ => match c with CFundingGenerated _ _ _ => true | _ => false end | Print _ => false end.

(** What the runtime says of a consignment. *)
Definition validity (ev : Event) : option (option bool) :=
  match ev with
  | Ev c r => match c in Call R return R -> option (option bool) with
              | CValidity _ => fun r => Some r
              | _ => fun _ => None
              end r
  | Print _ => None
  end.

(** C11: the task that funds a coloured channel gives the transaction to LDK
    only after the proxy has stored the consignment under the transaction's
    identifier and the runtime has found it valid, and then holds no lock;
    when it gives up after the validation it leaves without the transaction
    and with the lock held. *)
Theorem funded_after_consignment id counterparty tx c path w :
  let m := run_task (TFunding id counterparty tx (Some (c, path))) in
  (exists r b name given,
      Ev (CHttpPostMultipart proxy_url
            [("method", "consignment.post"); ("jsonrpc", "2.0"); ("id", "1");
             ("params", blinded_param_to_json (txid_to_string (tx_txid tx)))]%string name) (Ok r) ∈ emitted m w
      /\ rpc_result r = Some b
      /\ Ev (CValidity c) (Some true) ∈ emitted m w
      /\ Ev (CFundingGenerated id counterparty tx) given ∈ emitted m w
      /\ locks (emitted m w) = 0)
  \/ (Forall (fun ev => is_funding ev = false) (emitted m w)
      /\ ((omap validity (emitted m w) = [] /\ locks (emitted m w) = 0)
          \/ (exists v, omap validity (emitted m w) = [v] /\ v <> Some true /\ locks (emitted m w) = 1))).
Proof.
  cbn zeta. unfold emitted. cbn [run_task]. unfold scope.
  assert (exists o, fund_channel id counterparty tx (Some (c, path)) w = o) as [o Hr] by eauto. rewrite Hr.
  unfold fund_channel, check_consignment, post_consignment in Hr; msolve_in Hr; subst o;
    cbn [final trace log]; rewrite <- ?app_assoc, ?drop_app_length, ?drop_all; cbn [app].
  all: try match goal with H : negb ?b = _ |- _ => destruct b; try discriminate H end.
  all: forget_answers.
  all: try (left; eexists _, _, _, _; split_and!; [in_list|reflexivity|in_list|in_list|reflexivity]; fail).
  all: right; split; [by repeat constructor|].
  all: first [by left | right; eexists; by split_and!].
Qed.

(** Forwarding waits between one and five times what LDK asks for and
    then processes the pending HTLCs; when LDK asks for no delay the task
    panics before it does. *)
Theorem forwarding_delay min w :
  0 <= min -> min * 5 <= U64_MAX ->
  if min =? 0 then
    exists msg w', run_task (TForwardHtlcs min) w = Panic msg w' /\ emitted (run_task (TForwardHtlcs min)) w = []
  else exists ms r1 r2, returns (run_task (TForwardHtlcs min) w) = true
    /\ emitted (run_task (TForwardHtlcs min)) w =
       [Ev (CGenRange min (min * 5)) ms; Ev (CSleepMs ms) r1; Ev CProcessForwards r2].
Proof.
  intros Hm Hmax. unfold emitted. cbn [run_task]. unfold forward_htlcs, gen_range. mrun.
  rewrite u64_mul_ok by done. mrun. destruct (min =? 0) eqn:Hz; reflect_bools.
  - subst min. mrun. eexists _, _. split; [reflexivity|]. cbn [final]. by rewrite drop_all.
  - rewrite (proj2 (Z.ltb_lt min (min * 5))) by lia. mrun. eexists _, _, _. split; [reflexivity|].
    cbn [final trace log]. by rewrite <- !app_assoc, drop_app_length.
Qed.

(** ** Opening: what the steps of the command return *)

Abbreviation extends := (grows (fun _ => True)).

Lemma parse_public_ret o w b w' : parse_public o w = Ret b w' -> w' = w.
Proof. unfold parse_public. intros Hr. msolve_in Hr; congruence. Qed.
Lemma channel_amount_ret s w b w' : channel_amount s w = Ret b w' -> w' = w.
Proof. unfold channel_amount. intros Hr. msolve_in Hr; congruence. Qed.
Lemma push_amount_ret c s w b w' : push_amount c s w = Ret b w' -> w' = w.
Proof. unfold push_amount. intros Hr. msolve_in Hr; congruence. Qed.

Lemma peer_info_ret s w r w' :
  peer_info_or_leave s w = Ret r w' -> parse_peer_info s w = Ret (Ok r) w' /\ extends w w'.
Proof.
  unfold peer_info_or_leave. intros Hr. apply bind_Ret_inv in Hr as ([a|e] & w1 & Hp & Hr); msolve_in Hr.
  injection Hr as <- <-. split; [done|]. eapply ret_extends; [|exact Hp].
  unfold parse_peer_info, appends. pres.
Qed.

Lemma channel_rgb_info_ret cid amount w info w' :
  channel_rgb_info (Some cid) (Some amount) w = Ret info w' ->
  cid_from_str cid = Some (contract_id info) /\ parse_u64 amount = Ok (local_rgb_amount info)
  /\ remote_rgb_amount info = 0
  /\ (exists total, total_rgb_amount (contract_id info) w = Ret total w' /\ local_rgb_amount info <= total)
  /\ extends w w'.
Proof.
  unfold channel_rgb_info. intros Hr. cbn in Hr. mrun_in Hr.
  destruct (cid_from_str cid) as [c|]; mrun_in Hr; [|done]. destruct (parse_u64 amount) as [a|]; mrun_in Hr; [|done].
  apply bind_Ret_inv in Hr as (total & w1 & Ht & Hr). msolve_in Hr. injection Hr as <- <-. cbn. reflect_bools.
  split_and!; try done; [by exists total|]. eapply ret_extends; [|exact Ht].
  unfold appends, total_rgb_amount, get_rgb_total_amount, get_asset_owned_values, sync_wallet. pres.
Qed.

Lemma appends_connect pk addr : appends (connect_peer_if_necessary patience pk addr).
Proof.
  unfold appends, connect_peer_if_necessary, do_connect_peer. pres. by apply pres_await.
Qed.

Lemma open_channel_ret pk sat push ann c w id w' :
  open_channel pk sat push ann c w = Ret (Ok id) w' ->
  exists new endpoint, trace w' = trace w ++ new
    /\ Ev (CCreateChannel pk sat push 0
             {| cc_their_to_self_delay := 2016; cc_announced_channel := ann;
                cc_our_htlc_minimum_msat := HTLC_MIN_MSAT |} endpoint) (Ok id) ∈ new.
Proof.
  unfold open_channel, sync_wallet. intros Hr. msolve_in Hr; injection Hr as <- <-; cbn [trace log];
    rewrite <- !app_assoc; (eexists _, _; split; [reflexivity|]); in_list.
Qed.

(** Whatever the words of the command, a channel is only ever requested
    with a capacity between 5506 and 16777215 satoshis and a push amount of 64
    bits; a coloured one pushes at least the 546000 millisatoshis that keep its
    outputs above dust and names the proxy as consignment endpoint, a vanilla
    one names none; our smallest HTLC is 3000000 millisatoshis. *)
Theorem openchannel_within_bounds is_colored words w :
  Forall (sound_creation is_colored) (emitted (openchannel_cmd is_colored words) w).
Proof. apply emitted_grows, openchannel_sound. Qed.

(** C16: when [opencoloredchannel] completes, the channel was requested from the
    peer of the first word, the asset of the fourth word and the amount of the
    fifth, which the wallet owned, are written as the information file of that
    very channel, all on our side, and the peer is remembered. *)
Theorem coloured_channel_recorded words w w' :
  openchannel_cmd true words w = Ret tt w' ->
  exists peer sat push cid amount rest info temporary_id total w1 w2 pk addr ann endpoint pre,
    words = peer :: sat :: push :: cid :: amount :: rest
    /\ cid_from_str cid = Some (contract_id info) /\ parse_u64 amount = Ok (local_rgb_amount info)
    /\ remote_rgb_amount info = 0
    /\ parse_peer_info peer w = Ret (Ok (pk, addr)) w1
    /\ total_rgb_amount (contract_id info) w1 = Ret total w2 /\ local_rgb_amount info <= total
    /\ (exists b, Ev (CFsAppend peer_data_path (peer +:+ nl)) b ∈ pre)
    /\ emitted (openchannel_cmd true words) w =
       pre ++ [Ev (CWriteRgbChannelInfo (ldk_data_dir +:+ "/" +:+ Hex.hex_str temporary_id) info) tt]
    /\ (exists sat_v push_v, Ev (CCreateChannel pk sat_v push_v 0
             {| cc_their_to_self_delay := 2016; cc_announced_channel := ann;
                cc_our_htlc_minimum_msat := HTLC_MIN_MSAT |} endpoint) (Ok temporary_id) ∈ pre).
Proof.
  intros Hr. pose proof Hr as Hm.
  destruct words as [|peer [|sat [|push [|cid [|amount rest]]]]];
    try (unfold openchannel_cmd in Hr; cbn in Hr; unfold parse_public in Hr; msolve_in Hr; done).
  unfold openchannel_cmd in Hr. cbn in Hr.
  destruct (next rest) as [public rest']. mrun_in Hr.
  apply bind_Ret_inv in Hr as (ann & w1 & Hp & Hr). apply parse_public_ret in Hp as ->. mrun_in Hr.
  apply bind_Ret_inv in Hr as ([pk addr] & w1 & Hp & Hr). apply peer_info_ret in Hp as [Hpeer Hx1]. mrun_in Hr.
  apply bind_Ret_inv in Hr as (sat_v & w2 & Hp & Hr). apply channel_amount_ret in Hp as ->. mrun_in Hr.
  apply bind_Ret_inv in Hr as (push_v & w2 & Hp & Hr). apply push_amount_ret in Hp as ->. mrun_in Hr.
  apply bind_Ret_inv in Hr as (info & w2 & Hp & Hr).
  apply channel_rgb_info_ret in Hp as (Hc & Ha & Hrem & (total & Ht & Hle) & Hx2). mrun_in Hr.
  apply bind_Ret_inv in Hr as (conn & w3 & Hp & Hr). apply ret_extends in Hp as Hx3; [|apply appends_connect].
  destruct conn as [[]|]; msolve_in Hr.
  apply bind_Ret_inv in Hr as ([id|] & w4 & Hop & Hr); [|msolve_in Hr].
  apply open_channel_ret in Hop as (n4 & endpoint & Ht4 & Hin).
  unfold persist_channel_peer, fs_append in Hr. cbn [is_err is_ok negb] in Hr. mrun_in Hr.
  assert (extends w w3) as (n3 & Ht3 & _) by (do 2 (etrans; [eassumption|]); assumption).
  exists peer, sat, push, cid, amount, rest, info, id, total, w1, w2, pk, addr, ann, endpoint.
  exists (n3 ++ n4 ++ [Ev (CFsAppend peer_data_path (peer +:+ nl))
                      (answer (trace w4) bool (CFsAppend peer_data_path (peer +:+ nl)))]).
  split_and!; try done.
  - eexists. in_list.
  - apply emitted_app. rewrite Hm.
    destruct (answer (trace w4) bool _); mrun_in Hr; injection Hr as Hu <-; cbn [final trace log upd_fs] in *;
      rewrite Hu, Ht4, Ht3, <- !app_assoc; done.
  - exists sat_v, push_v. in_list.
Qed.

End Channels.

Section Witnesses.
Import Mock.
Abbreviation MT := (mock_types_checks true).
#[local] Instance scenario_externals : @Externals MT := mock_externals true.

Definition temp_id : list Z := repeat 5 32.
Definition peer_key : list Z := repeat 2 33.
(** A wallet that owns the outputs of [mock_history], connected to one peer,
    with an information file that announces [amount] assets. *)
Definition channel_oracle (amount : Z) : @Oracle MT := mock_oracle true {|
  cfg_now := 1000; cfg_unspent := mock_unspents; cfg_balance := 500000;
  cfg_fungibles := Some mock_history; cfg_pay_ok := true; cfg_channels := [];
  cfg_rgb_info := [(temp_id, @Build_RgbInfo MT true amount 0)];
  cfg_peers := [peer_key]; cfg_route := fun _ => [] |}.
#[local] Instance funded_oracle : @Oracle MT := channel_oracle 35.

Definition generation : @FundingGeneration MT :=
  @Build_FundingGeneration MT temp_id peer_key 30000 [].
Definition funded_world : @World MT := final (funding_generation_ready (T := MT) generation (listed_world listed)).

Lemma funding_conserves_witness :
  exists info change tx c path (taken : list (Z * (@OutPoint MT * Z))),
    @local_rgb_amount MT info + change = owned_total (T := MT) taken
    /\ tasks funded_world = [@TFunding MT temp_id peer_key tx (Some (c, path))].
Proof.
  destruct (funding_conserves (T := MT) (H := mock_serde true) generation (listed_world listed) listed funded_world)
    as (info & owned & w0 & w2 & taken & rest & change & tx & c & path & _ & _ & _ & _ & _ & _ & _ & Hs & _ & _ & Ht).
  - reflexivity.
  - eexists. split; [reflexivity|]. vm_compute. reflexivity.
  - vm_compute. reflexivity.
  - vm_compute. reflexivity.
  - exists info, change, tx, c, path, taken. split; [exact Hs|exact Ht].
Defined.

Definition channel_opened : @Event MT := Ev (@CGetRgbChannelInfo MT temp_id) (@Build_RgbInfo MT true 100 0).
Definition before_owned : @World MT :=
  log (T := MT) (Ev CGetRuntime tt) (log (T := MT) channel_opened (empty_world true)).

Lemma underfunded_channel_witness :
  panicked (funding_rgb_state (T := MT) (O := channel_oracle 100) temp_id (empty_world true)) = true.
Proof.
  refine (proj1 (underfunded_channel (T := MT) (O := channel_oracle 100) temp_id (@Build_RgbInfo MT true 100 0)
    [(2, (mock_utxo 1, 30)); (3, (mock_utxo 2, 12))] (empty_world true)
    (final (get_asset_owned_values (T := MT) true before_owned)) _ _ _ _ _ _)).
  - reflexivity.
  - vm_compute. reflexivity.
  - intros h. by eexists.
  - intros h b. by eexists.
  - split; [repeat constructor; cbn; lia|vm_compute; discriminate].
  - split; [reflexivity|vm_compute; discriminate].
Defined.

Lemma forwarding_delay_witness :
  exists msg w', run_task (T := MT) (TForwardHtlcs 0) (empty_world true) = Panic msg w'.
Proof.
  destruct (forwarding_delay (T := MT) 0 (empty_world true)) as (msg & w' & H & _).
  - lia.
  - vm_compute. discriminate.
  - exists msg, w'. exact H.
Defined.

Definition open_words : list string :=
  ["020202020202020202020202020202020202020202020202020202020202020202@host:9735";
   "30000"; "600000"; "rgb1a"; "30"]%string.

Lemma coloured_channel_recorded_witness :
  exists info tid pre, emitted (openchannel_cmd (T := MT) 3 true open_words) (listed_world listed)
    = pre ++ [Ev (@CWriteRgbChannelInfo MT ("d/" +:+ Hex.hex_str tid) info) tt].
Proof.
  destruct (coloured_channel_recorded (T := MT) 3 open_words (listed_world listed)
    (final (openchannel_cmd (T := MT) 3 true open_words (listed_world listed))))
    as (_ & _ & _ & _ & _ & _ & info & tid & _ & _ & _ & _ & _ & _ & _ & pre & _ & _ & _ & _ & _ & _ & _ & _ & H & _).
  - vm_compute. reflexivity.
  - exists info, tid, pre. exact H.
Defined.
End Witnesses.
End Channels.
