(* ===== verification/Sweep.v ===== *)
(** * Sweeping the outputs of closed channels

    main.rs: the [SpendableOutputs] arm of [handle_ldk_events]; bdk_utils.rs:
    [get_bdk_wallet_seckey].  Each output is moved to the wallet by a
    transaction of its own; a coloured one carries its assets along with an
    RGB transition, and the new output is recorded in the file of outputs. *)

From Stdlib Require Import ZArith Lia Ascii String.
From stdpp Require Import base list strings gmap.
From S2P Require Import Prelude RustStd Swap Config World Effects Mock RgbUtils Utxos Assets Channels.
Import RgbUtils Utxos Assets Channels.

Open Scope Z_scope.

Module Sweep.

Section Sweep.
Context `{T : Types} {X : @Externals T} {O : @Oracle T}.
Local Open Scope m_scope.

Definition outpoint_of (d : SpendableOutputDescriptor) : OutPoint :=
  match d with
  | StaticPaymentOutput op _ _ | DelayedPaymentOutput op _ _ _ _ | StaticOutput op _ => op
  end.

(** The nested loops that add up what the closing transaction assigned to the
    output. *)
Fixpoint sum_assignments (vout : Z) (l : list FungibleAssign) (amt_rgb : Z) : comp Z :=
  match l with
  | [] => Done amt_rgb
  | AssignRevealed seal_vout value :: l =>
      if seal_vout =? vout then comp_bind (u64_add amt_rgb value) (sum_assignments vout l)
      else sum_assignments vout l amt_rgb
  | AssignOther :: l => sum_assignments vout l amt_rgb
  end.
Fixpoint sum_groups (vout : Z) (l : list (list FungibleAssign)) (amt_rgb : Z) : comp Z :=
  match l with
  | [] => Done amt_rgb
  | group :: l => comp_bind (sum_assignments vout group amt_rgb) (sum_groups vout l)
  end.
Fixpoint sum_bundle (vout : Z) (l : BundleItems) (amt_rgb : Z) : comp Z :=
  match l with
  | [] => Done amt_rgb
  | None :: l => sum_bundle vout l amt_rgb
  | Some groups :: l => comp_bind (sum_groups vout groups amt_rgb) (sum_bundle vout l)
  end.

(** What is known of a coloured output. *)
Record Colored := {
  c_builder : TransitionBuilder; c_assignment_id : Z; c_amt_rgb : Z; c_contract_id : ContractId
}.

(** Register the transfer the closing transaction made. *)
Definition accept_closing (op : OutPoint) (info : TransferInfo) : M Consignment :=
  let! consumed := call (CConsumeAnchor (ti_anchor info)) in
  expect_true "should consume anchor" consumed ;;;
  for_each (ti_bundles info) (fun '(id, bundle) =>
    let! consumed := call (CConsumeBundle id bundle (txid op)) in
    expect_true "should consume bundle" consumed) ;;;
  let seal_holder := Revealed (seal_with_vout (ti_vout info)) in
  let seal_counterparty := Revealed (seal_with_vout (Z.lxor (ti_vout info) 1)) in
  let! transfer := call (CTransfer (ti_contract_id info) [seal_holder; seal_counterparty] (txid op)) in
  let! transfer := expect "valid transfer" transfer in
  let! valid := call (CValidate transfer) in
  expect_true "invalid contract" valid ;;;
  let! status := call (CAcceptTransfer transfer) in
  let! validity := expect "valid transfer" status in
  if negb validity then println "WARNING: error consuming transfer" ;;; leave
  else ret transfer.

Definition consume_transfer (op : OutPoint) (transfer_info_path : string) : M Colored :=
  let! info := call (CReadTransferInfo transfer_info_path) in
  let! transfer := accept_closing op info in
  let! bundle := expect "found bundle for closing tx"
    (List.find (fun ab => bool_decide (fst ab = txid op)) (anchored_bundles transfer)) in
  let! amt_rgb := lift (sum_bundle (vout op) (snd bundle) 0) in
  let! builder := call (CTransitionBuilder (ti_contract_id info)) in
  let! builder := expect "ok" builder in
  let! assignment_id := call (CAssignmentsType builder) in
  let! assignment_id := expect "valid assignment" assignment_id in
  ret {| c_builder := builder; c_assignment_id := assignment_id; c_amt_rgb := amt_rgb;
         c_contract_id := ti_contract_id info |}.

Definition transfer_info_path (t : Txid) : string :=
  ldk_data_dir +:+ "/" +:+ txid_to_string t +:+ "_transfer_info".

Definition coloring (op : OutPoint) : M (option Colored) :=
  let path := transfer_info_path (txid op) in
  let! is_colored := call (CIsTransferColored path) in
  if is_colored then let! c := consume_transfer op path in ret (Some c) else ret None.

(** The block the three arms share: the assets go where the bitcoin goes. *)
Definition sweep_transition (colored : option Colored) (psbt : Psbt)
  : M (Psbt * option (Z * Consignment)) :=
  match colored with
  | Some c =>
      let! (vout, builder, beneficiaries) :=
        update_transition_beneficiary psbt [] (c_builder c) (c_assignment_id c) (c_amt_rgb c) in
      let! (psbt, consignment) := send_rgb (c_contract_id c) psbt builder beneficiaries in
      ret (psbt, Some (vout, consignment))
  | None => ret (psbt, None)
  end.

(** [get_bdk_wallet_seckey] *)
Definition get_bdk_wallet_seckey (dir : string) (seckey : SecretKey) : M unit :=
  let! created := call (CCreateDirAll dir) in
  expect_true "successful dir creation" created ;;;
  let bdk_db := dir +:+ "/bdk_db" in
  let! opened := call (COpenDatabase bdk_db) in
  expect_true "valid bdk config" opened ;;;
  let! wallet := call (CKeyWalletNew bdk_db seckey) in
  expect_true "valid bdk wallet" wallet.

Definition sync_key_wallet (seckey : SecretKey) : M unit :=
  let! connected := call (CElectrumConnect (electrum_config 20)) in
  expect_true "valid blockchain config" connected ;;;
  let! done := call (CKeyWalletSync seckey) in
  expect_true "successful sync" done.

Definition sweep_request (rgb_inputs : list OutPoint) (with_data : bool) (drain_to : Script) : TxRequest := {|
  tr_utxos := rgb_inputs; tr_unspendable := []; tr_fee_rate := FEE_RATE; tr_untouched := false;
  tr_recipients := []; tr_drain_to := Some drain_to;
  tr_data := if with_data then Some [1] else None; tr_manually_selected_only := true |}.

(** The arms that spend through an intermediate wallet on the output's key. *)
Definition key_wallet_tx (seckey : SecretKey) (op : OutPoint) (with_data : bool) (drain_to : Script)
    (colored : option Colored) : M (Transaction * option (Z * Consignment)) :=
  get_bdk_wallet_seckey (ldk_data_dir +:+ "/intermediate") seckey ;;;
  sync_key_wallet seckey ;;;
  let! added := call (CKeyWalletAddUtxos seckey [op]) in
  expect_true "valid utxos" added ;;;
  let! psbt := call (CKeyWalletFinish seckey (sweep_request [op] with_data drain_to)) in
  let! psbt := expect "valid psbt finish" psbt in
  let! (psbt, rgb_vars) := sweep_transition colored psbt in
  let! psbt := call (CKeyWalletSign seckey psbt) in
  let! psbt := expect "able to sign" psbt in
  ret (extract_tx psbt, rgb_vars).

(** [FEE_RATE as u32 * 250] *)
Definition TX_FEERATE : Z := FEE_RATE * 250.

(** The arm that builds the transaction by hand. *)
Definition delayed_spend (op : OutPoint) (to_self_delay output_value : Z) (drain_to : Script)
  : comp SpendTx :=
  comp_bind (expect_some "can add change"
    (maybe_add_change_output
       {| st_version := 2; st_lock_time := 0; st_inputs := [(op, to_self_delay)]; st_outputs := [] |}
       output_value max_witness_length TX_FEERATE drain_to))
    (fun spend_tx => Done
       {| st_version := st_version spend_tx; st_lock_time := st_lock_time spend_tx;
          st_inputs := st_inputs spend_tx;
          st_outputs := st_outputs spend_tx ++ [(0, op_return_script [1])] |}).

Definition delayed_tx (d : SpendableOutputDescriptor) (op : OutPoint)
    (to_self_delay output_value channel_value : Z) (keys_id : bytes) (drain_to : Script)
    (colored : option Colored) : M (Transaction * option (Z * Consignment)) :=
  let signer := derive_channel_keys channel_value keys_id in
  let! spend_tx := lift (delayed_spend op to_self_delay output_value drain_to) in
  let! psbt := expect "valid transaction" (psbt_from_unsigned spend_tx) in
  let! (psbt, rgb_vars) := sweep_transition colored psbt in
  let spend_tx := extract_tx psbt in
  let! witness_vec := expect "possible dynamic sign" (sign_dynamic_p2wsh_input spend_tx 0 d signer) in
  ret (set_witness spend_tx 0 witness_vec, rgb_vars).

Definition sweep_tx (d : SpendableOutputDescriptor) (drain_to : Script) (colored : option Colored)
  : M (Transaction * option (Z * Consignment)) :=
  match d with
  | StaticPaymentOutput op channel_value keys_id =>
      let signer := derive_channel_keys channel_value keys_id in
      key_wallet_tx (payment_key signer) op (is_some colored) drain_to colored
  | DelayedPaymentOutput op to_self_delay output_value channel_value keys_id =>
      delayed_tx d op to_self_delay output_value channel_value keys_id drain_to colored
  | StaticOutput op script_pubkey =>
      let derivation_idx := if decide (script_pubkey = destination_script) then 1 else 2 in
      let! secret := expect UNWRAP_ERR (ckd_priv_hardened derivation_idx) in
      key_wallet_tx secret op true drain_to colored
  end.

(** Record where the assets went. *)
Definition record_sweep (tx : Transaction) (vout : Z) (transfer : Consignment) : M unit :=
  let! rgb_utxos := read_utxos in
  write_utxos (rgb_utxos ++ [{| outpoint := {| txid := tx_txid tx; vout := vout |}; colored := true |}]) ;;;
  let! valid := call (CValidate transfer) in
  expect_true "invalid contract" valid ;;;
  let! status := call (CAcceptTransfer transfer) in
  expect "valid consignment" status ;;;
  ret tt.

Definition sweep_output (d : SpendableOutputDescriptor) : M unit :=
  let! colored := coloring (outpoint_of d) in
  let! address := call CGetAddress in
  let! address := expect "valid address" address in
  let! (tx, rgb_vars) := sweep_tx d (script_pubkey address) colored in
  broadcast_tx tx ;;;
  sync_wallet ;;;
  match rgb_vars with
  | Some (vout, consignment) => record_sweep tx vout consignment
  | None => ret tt
  end.

Definition spendable_outputs (outputs : list SpendableOutputDescriptor) : M unit :=
  call CGetRuntime ;;;
  for_each outputs (fun d => scope (sweep_output d)) ;;;
  call CDropRuntime ;;;
  println "Event::SpendableOutputs complete".

(** ** Specification *)

(** What the revealed assignments give to an output. *)
Definition revealed_to (vout : Z) (a : FungibleAssign) : Z :=
  match a with AssignRevealed seal_vout value => if seal_vout =? vout then value else 0 | AssignOther => 0 end.
Definition assigned_total (vout : Z) (l : list FungibleAssign) : Z :=
  foldr Z.add 0 (map (revealed_to vout) l).
Definition all_assignments (l : BundleItems) : list FungibleAssign :=
  concat (concat (map (default []) l)).

Definition amounts_ok (l : list FungibleAssign) : Prop :=
  Forall (fun a => match a with AssignRevealed _ value => 0 <= value | AssignOther => True end) l.

(** The transfer that closed the channel of an output: what the channel's file
    says is asked of the runtime as a consignment to the two outputs of the
    closing transaction, found valid, and accepted with [validity]. *)
Record closing (h : list Event) (op : OutPoint) (transfer : Consignment) (validity : bool) : Prop := {
  cl_transfer : exists info,
    Ev (CReadTransferInfo (ldk_data_dir +:+ "/" +:+ txid_to_string (txid op) +:+ "_transfer_info")) info ∈ h
    /\ Ev (CTransfer (ti_contract_id info)
             [Revealed (seal_with_vout (ti_vout info)); Revealed (seal_with_vout (Z.lxor (ti_vout info) 1))]
             (txid op)) (Some transfer) ∈ h;
  cl_valid : Ev (CValidate transfer) true ∈ h;
  cl_accepted : Ev (CAcceptTransfer transfer) (Some validity) ∈ h
}.

(** What the sweep of the output [op] adds: nothing when it carries no assets or
    its closing transfer is not valid; else an output [u] of a broadcast
    transaction, recorded as coloured, and a static assignment [a] sealed to
    [u].  Its amount is what the bundle of the closing transaction assigns to
    [op] - to [op], not to the other party - within 64 bits. *)
Definition swept (h : list Event) (op : OutPoint) (added : option (RgbUtxo * (BuilderSeal * Z))) : Prop :=
  match added with
  | None =>
      Ev (CIsTransferColored (ldk_data_dir +:+ "/" +:+ txid_to_string (txid op) +:+ "_transfer_info")) false ∈ h
      \/ exists transfer, closing h op transfer false
  | Some (u, a) =>
      colored u = true /\ fst a = Revealed (seal_with_vout (vout (outpoint u)))
      /\ (exists tx, txid (outpoint u) = tx_txid tx /\ Ev (CBroadcast tx) true ∈ h)
      /\ exists transfer items,
           closing h op transfer true
           /\ List.find (fun ab => bool_decide (fst ab = txid op)) (anchored_bundles transfer) = Some (txid op, items)
           /\ (amounts_ok (all_assignments items) ->
               let total := assigned_total (vout op) (all_assignments items) in
               snd a = total mod 2 ^ 64 /\ (overflow_checks = true -> snd a = total))
  end.

(** ** Lemmas *)

Lemma closing_more h h' op t b : (forall ev, ev ∈ h -> ev ∈ h') -> closing h op t b -> closing h' op t b.
Proof. intros Hin [(info & H1 & H2) H3 H4]. split; [exists info; auto|auto..]. Qed.

Lemma swept_more h h' op added : (forall ev, ev ∈ h -> ev ∈ h') -> swept h op added -> swept h' op added.
Proof.
  intros Hin. destruct added as [[u a]|]; cbn.
  - intros (H1 & H2 & (tx & H3 & H4) & t & items & H5 & H6).
    split_and!; [done|done|by eauto|]. exists t, items. split; [by eapply closing_more|done].
  - intros [H|(t & H)]; [left; auto|right; exists t; by eapply closing_more].
Qed.

Lemma assigned_total_app v l1 l2 : assigned_total v (l1 ++ l2) = assigned_total v l1 + assigned_total v l2.
Proof. unfold assigned_total. induction l1 as [|a l1 IH]; cbn; [done|]. rewrite IH. lia. Qed.
Lemma assigned_total_nonneg v l : amounts_ok l -> 0 <= assigned_total v l.
Proof.
  unfold assigned_total. induction 1 as [|[s x|] l Hx _ IH]; cbn; [done| |done]. destruct (s =? v); lia.
Qed.

(** Each loop adds exactly; when the sum does not fit it panics or wraps. *)
Definition adds_exactly (f : Z -> comp Z) (total : Z) : Prop :=
  forall a, 0 <= a <= U64_MAX ->
    if overflow_checks && (U64_MAX <? a + total) then exists msg, f a = Panics msg
    else f a = Done ((a + total) mod 2 ^ 64).

Lemma adds_comp f g t1 t2 :
  0 <= t1 -> 0 <= t2 -> adds_exactly f t1 -> adds_exactly g t2 ->
  adds_exactly (fun a => comp_bind (f a) g) (t1 + t2).
Proof.
  intros H1 H2 Hf Hg a Ha. specialize (Hf a Ha). unfold adds_exactly, U64_MAX in *.
  destruct overflow_checks; cbn [andb] in *.
  - destruct (_ <? a + t1) eqn:Hle1; reflect_bools.
    + rewrite (proj2 (Z.ltb_lt _ _)) by lia. destruct Hf as [msg ->]. by exists msg.
    + rewrite Hf. cbn [comp_bind]. rewrite Z.mod_small by lia. specialize (Hg (a + t1) ltac:(lia)).
      by rewrite Z.add_assoc.
  - rewrite Hf. cbn [comp_bind]. rewrite Hg by (pose proof (Z.mod_pos_bound (a + t1) (2 ^ 64)); lia).
    by rewrite Zplus_mod_idemp_l, Z.add_assoc.
Qed.

Lemma adds_id : adds_exactly Done 0.
Proof.
  intros a Ha. unfold U64_MAX in *. rewrite Z.add_0_r, (proj2 (Z.ltb_ge _ a)), andb_false_r by lia.
  by rewrite Z.mod_small by lia.
Qed.
Lemma adds_one x : 0 <= x -> adds_exactly (fun a => u64_add a x) x.
Proof.
  intros Hx a Ha. unfold u64_add, U64_MAX in *. destruct (Z.leb_spec (a + x) (2 ^ 64 - 1)).
  - rewrite (proj2 (Z.ltb_ge _ _)), andb_false_r by lia. by rewrite Z.mod_small by lia.
  - rewrite (proj2 (Z.ltb_lt _ _)), andb_true_r by lia. destruct overflow_checks; [by eexists|done].
Qed.

Lemma sum_assignments_adds v l : amounts_ok l -> adds_exactly (sum_assignments v l) (assigned_total v l).
Proof.
  induction 1 as [|[s x|] l Hx Hl IH]; [exact adds_id| |exact IH].
  unfold assigned_total. cbn. destruct (s =? v); [|exact IH].
  apply (adds_comp (fun a => u64_add a x)); auto using adds_one. by apply assigned_total_nonneg.
Qed.
Lemma sum_groups_adds v l : amounts_ok (concat l) -> adds_exactly (sum_groups v l) (assigned_total v (concat l)).
Proof.
  induction l as [|g l IH]; intros Hl; [exact adds_id|].
  change (concat (g :: l)) with (g ++ concat l) in *. apply Forall_app in Hl as [Hg Hl].
  rewrite assigned_total_app.
  apply (adds_comp (sum_assignments v g)); auto using assigned_total_nonneg, sum_assignments_adds.
Qed.
Lemma sum_bundle_adds v l :
  amounts_ok (all_assignments l) -> adds_exactly (sum_bundle v l) (assigned_total v (all_assignments l)).
Proof.
  unfold all_assignments. induction l as [|[g|] l IH]; intros Hl; [exact adds_id| |by apply IH].
  change (map (default []) (Some g :: l)) with (g :: map (default []) l) in *.
  change (concat (g :: map (default []) l)) with (g ++ concat (map (default []) l)) in *.
  rewrite concat_app in Hl |- *. apply Forall_app in Hl as [Hg Hl]. rewrite assigned_total_app.
  apply (adds_comp (sum_groups v g)); auto using assigned_total_nonneg, sum_groups_adds.
Qed.

Lemma sum_bundle_total v items amt :
  amounts_ok (all_assignments items) -> sum_bundle v items 0 = Done amt ->
  let total := assigned_total v (all_assignments items) in
  amt = total mod 2 ^ 64 /\ (overflow_checks = true -> amt = total).
Proof.
  intros Hok Hs. pose proof (sum_bundle_adds v items Hok 0) as Ha. pose proof (assigned_total_nonneg v _ Hok).
  unfold U64_MAX in *. specialize (Ha ltac:(lia)). rewrite Z.add_0_l in Ha. cbn zeta. rewrite Hs in Ha.
  destruct overflow_checks; cbn [andb] in Ha.
  - destruct (Z.ltb_spec (2 ^ 64 - 1) (assigned_total v (all_assignments items))); [by destruct Ha|].
    injection Ha as ->. rewrite Z.mod_small by lia. done.
  - by injection Ha as ->.
Qed.

(** ** What each part of a sweep leaves in the world *)

(** Nothing is assigned, locked or written. *)
Definition quiet (ev : Event) : Prop := static_state ev = None /\ lock_change ev = 0.
Definition silent (w w' : World) : Prop := fs w' = fs w /\ grows quiet w w'.

#[export] Instance silent_preorder : PreOrder silent.
Proof.
  split; unfold silent; [by split|]. intros w1 w2 w3 [H1 H2] [H3 H4].
  split; [congruence|by etrans].
Qed.
Lemma silent_log ev w : quiet ev -> silent w (log ev w).
Proof. intros Hq. split; [done|by apply grows_log]. Qed.
Lemma silent_ret {A} (m : M A) w a w' : Preserves silent m -> m w = Ret a w' -> silent w w'.
Proof. intros Hk Hr. specialize (Hk w). by rewrite Hr in Hk. Qed.
Lemma quiet_statics l : Forall quiet l -> omap static_state l = [].
Proof. intros Hq. apply statics_none. eapply Forall_impl; [exact Hq|]. by intros ev []. Qed.
Lemma quiet_locks l : Forall quiet l -> locks l = 0.
Proof. intros Hq. apply locks_none. eapply Forall_impl; [exact Hq|]. by intros ev []. Qed.

Ltac silent_pres := pres; apply silent_log; by split.

Lemma send_rgb_silent cid psbt b bs : Preserves silent (send_rgb cid psbt b bs).
Proof.
  apply send_rgb_events; [typeclasses eauto|]. intros [|? c r] w Hs; [done|]. apply silent_log. by destruct c.
Qed.
Lemma coloring_silent op : Preserves silent (coloring op).
Proof. unfold coloring, consume_transfer, accept_closing. silent_pres. Qed.
Lemma broadcast_silent tx : Preserves silent (broadcast_tx tx).
Proof. unfold broadcast_tx. silent_pres. Qed.
Lemma sync_silent : Preserves silent sync_wallet.
Proof. unfold sync_wallet. silent_pres. Qed.
Lemma open_key_wallet_silent dir key : Preserves silent (get_bdk_wallet_seckey dir key).
Proof. unfold get_bdk_wallet_seckey. silent_pres. Qed.
Lemma sync_key_wallet_silent key : Preserves silent (sync_key_wallet key).
Proof. unfold sync_key_wallet. silent_pres. Qed.

(** The transaction of a coloured output carries one assignment, of its
    amount, sealed to the output reported. *)
Definition carries (col : option Colored) (vars : option (Z * Consignment)) (w w' : World) : Prop :=
  fs w' = fs w /\ exists new, trace w' = trace w ++ new /\ locks new = 0
  /\ match col with
     | Some c => exists v cons, vars = Some (v, cons)
         /\ omap static_state new = [(Revealed (seal_with_vout v), c_amt_rgb c)]
     | None => vars = None /\ omap static_state new = []
     end.

Lemma carries_before col vars w w1 w2 : silent w w1 -> carries col vars w1 w2 -> carries col vars w w2.
Proof.
  intros (Hfs & n1 & Ht1 & Hq) (Hfs' & n2 & Ht2 & Hl & Hc). split; [congruence|].
  exists (n1 ++ n2). rewrite Ht2, Ht1, app_assoc, locks_app, omap_app, (quiet_statics _ Hq), (quiet_locks _ Hq).
  done.
Qed.
Lemma carries_after col vars w w1 w2 : carries col vars w w1 -> silent w1 w2 -> carries col vars w w2.
Proof.
  intros (Hfs' & n2 & Ht2 & Hl & Hc) (Hfs & n1 & Ht1 & Hq). split; [congruence|].
  exists (n2 ++ n1). rewrite Ht1, Ht2, app_assoc, locks_app, omap_app, (quiet_statics _ Hq), (quiet_locks _ Hq).
  rewrite app_nil_r. split_and!; [done|lia|done].
Qed.

Lemma sweep_transition_ret col psbt w p vars w' :
  sweep_transition col psbt w = Ret (p, vars) w' -> carries col vars w w'.
Proof.
  unfold sweep_transition. destruct col as [c|]; intros Hr.
  2: { injection Hr as <- <- <-. split; [done|]. exists []. by rewrite app_nil_r. }
  unfold update_transition_beneficiary in Hr. mrun_in Hr.
  destruct (answer (trace w) _ _) as [b|]; [|done]. mrun_in Hr.
  apply bind_Ret_inv in Hr as ([p1 cons] & w1 & Hs & Hr). mrun_in Hr. injection Hr as <- <- <-.
  apply silent_ret in Hs; [|apply send_rgb_silent]. eapply carries_after; [|exact Hs].
  split; [done|]. eexists. split; [reflexivity|]. split; [done|]. by eexists _, _.
Qed.

Lemma key_wallet_tx_ret key op data drain col w tx vars w' :
  key_wallet_tx key op data drain col w = Ret (tx, vars) w' -> carries col vars w w'.
Proof.
  unfold key_wallet_tx. intros Hr.
  apply bind_Ret_inv in Hr as ([] & w1 & H1 & Hr). apply silent_ret in H1; [|apply open_key_wallet_silent].
  apply bind_Ret_inv in Hr as ([] & w2 & H2 & Hr). apply silent_ret in H2; [|apply sync_key_wallet_silent].
  mrun_in Hr. destruct (answer (trace w2) _ _); [|done]. mrun_in Hr.
  destruct (answer _ (option Psbt) _) as [psbt|]; [|done]. mrun_in Hr.
  apply bind_Ret_inv in Hr as ([psbt2 vars2] & w3 & H3 & Hr). apply sweep_transition_ret in H3. mrun_in Hr.
  destruct (answer (trace w3) _ _) as [psbt3|]; [|done]. mrun_in Hr. injection Hr as <- <- <-.
  eapply carries_after; [|by apply silent_log]. eapply carries_before; [|exact H3].
  etrans; [exact H1|]. etrans; [exact H2|]. etrans; by apply silent_log.
Qed.

Lemma sweep_tx_ret d drain col w tx vars w' :
  sweep_tx d drain col w = Ret (tx, vars) w' -> carries col vars w w'.
Proof.
  destruct d as [op v k|op delay value cv k|op script]; cbn; intros Hr.
  - by eapply key_wallet_tx_ret.
  - unfold delayed_tx in Hr. mrun_in Hr. destruct (delayed_spend _ _ _ _) as [tx1|]; [|done]. mrun_in Hr.
    destruct (psbt_from_unsigned tx1) as [psbt|]; [|done]. mrun_in Hr.
    apply bind_Ret_inv in Hr as ([psbt2 vars2] & w3 & H3 & Hr). apply sweep_transition_ret in H3. mrun_in Hr.
    destruct (sign_dynamic_p2wsh_input _ _ _ _) as [wit|]; [|done]. mrun_in Hr. by injection Hr as <- <- <-.
  - mrun_in Hr. destruct (ckd_priv_hardened _) as [key|]; [|done]. mrun_in Hr. by eapply key_wallet_tx_ret.
Qed.

Lemma coloring_closing op w :
  match coloring op w with
  | Ret (Some c) w' => exists transfer items new,
      trace w' = trace w ++ new /\ closing new op transfer true
      /\ List.find (fun ab => bool_decide (fst ab = txid op)) (anchored_bundles transfer) = Some (txid op, items)
      /\ sum_bundle (vout op) items 0 = Done (c_amt_rgb c)
  | Ret None w' => exists new, trace w' = trace w ++ new /\ swept new op None
  | Exit w' => exists new, trace w' = trace w ++ new /\ swept new op None
  | _ => True
  end.
Proof.
  unfold coloring, consume_transfer, transfer_info_path. mrun.
  destruct (answer (trace w) bool _) eqn:Hcol; mrun.
  2: { eexists. cbn [trace log]. split; [done|]. left. by left. }
  unfold accept_closing. mrun. cbn [trace log]. set (info := answer _ TransferInfo _).
  destruct (answer _ bool (CConsumeAnchor _)); [|done]. mrun.
  match goal with |- context [bind (for_each ?l ?f) ?k ?w0] =>
    assert (Preserves (grows (fun _ => True)) (for_each l f)) as Hg by pres;
    destruct (Hg w0) as (n & Hn & _); unfold bind at 1;
    assert (returns (for_each l f w0) = true \/ panicked (for_each l f w0) = true) as Hret
  end.
  { match goal with |- context [for_each ?l ?f ?w0] => generalize w0 end. clearbody info. clear.
    induction (ti_bundles info) as [|[id b] l IH]; intros w'; [by left|]. cbn. mrun.
    destruct (answer _ bool _); mrun; [apply IH|by right]. }
  destruct (for_each _ _ _) as [[] w2| | |]; [|by destruct Hret|done|done]. cbn [final trace log] in Hn.
  mrun. destruct (answer (trace w2) _ _) as [t|] eqn:Ht; [|done]. mrun.
  destruct (answer _ bool (CValidate t)); [|done]. mrun.
  destruct (answer _ (option bool) _) as [validity|]; [|done]. mrun.
  assert (forall b w3 h, trace w3 = trace w2 ++ [Ev (CTransfer (ti_contract_id info)
      [Revealed (seal_with_vout (ti_vout info)); Revealed (seal_with_vout (Z.lxor (ti_vout info) 1))]
      (txid op)) (Some t); Ev (CValidate t) true; Ev (CAcceptTransfer t) (Some b)] ++ h ->
    exists new, trace w3 = trace w ++ new /\ closing new op t b) as Hclose.
  { intros b w3 h ->. eexists. rewrite Hn, <- !app_assoc. split; [reflexivity|].
    split; [exists info; split; in_list|in_list..]. }
  destruct validity; cbn [negb]; mrun.
  - destruct (List.find _ _) as [[tid items]|] eqn:Hf; [|done]. mrun.
    destruct (sum_bundle _ _ 0) as [amt|] eqn:Hs; [|done]. mrun.
    destruct (answer _ (option TransitionBuilder) _) as [b|]; [|done]. mrun.
    destruct (answer _ (option Z) _) as [aid|]; [|done]. mrun.
    apply find_some in Hf as Hf'. destruct Hf' as [_ Hf']. apply bool_decide_eq_true in Hf'. cbn in Hf'. subst tid.
    edestruct (Hclose true) as (new & Htr & Hcl); [|exists t, items, new; split_and!; [exact Htr|exact Hcl|done|done]].
    cbn [trace log]. by rewrite <- !app_assoc.
  - edestruct (Hclose false) as (new & Htr & Hcl); [|exists new; split; [exact Htr|right; by exists t]].
    cbn [trace log]. by rewrite <- !app_assoc.
Qed.

Lemma record_sweep_ret `{!SerdeLaws} tx v t l w w' :
  stored w l -> record_sweep tx v t w = Ret tt w' ->
  stored w' (l ++ [{| outpoint := {| txid := tx_txid tx; vout := v |}; colored := true |}])
  /\ grows quiet w w'.
Proof.
  intros Hl Hr. unfold record_sweep, write_utxos, fs_write in Hr. mrun_in Hr.
  rewrite (bind_eq_Ret _ _ _ _ _ (read_utxos_stored _ _ Hl)) in Hr. mrun_in Hr.
  destruct (answer (trace w) _ _); mrun_in Hr; [|done].
  destruct (answer _ bool (CValidate _)); [|done]. mrun_in Hr.
  destruct (answer _ (option bool) _) as [b|]; [|done]. mrun_in Hr. injection Hr as <-. split.
  - eexists. split; [apply lookup_insert_eq|apply utxos_json_roundtrip].
  - eexists. cbn [trace log upd_fs]. rewrite <- !app_assoc. split; [reflexivity|]. by repeat constructor.
Qed.

(** After the colouring of an output nothing leaves early. *)
Lemma sweep_output_exit d w w' :
  sweep_output d w = Exit w' ->
  fs w' = fs w /\ exists new, trace w' = trace w ++ new /\ Forall quiet new /\ swept new (outpoint_of d) None.
Proof.
  unfold sweep_output. intros [Hc|(c & w1 & _ & Hr)]%bind_Exit_inv.
  - pose proof (coloring_silent (outpoint_of d) w) as (Hfs & new & Ht & Hq).
    pose proof (coloring_closing (outpoint_of d) w) as Hs. rewrite Hc in Hfs, Ht, Hs. cbn [final] in *.
    destruct Hs as (new' & Ht' & Hs). rewrite Ht in Ht'. apply app_inv_head in Ht' as <-. split; [done|by exists new].
  - exfalso. revert Hr. match goal with |- ?m w1 = _ -> _ => apply (never_exit m) end.
    assert (forall b bs p cid, Never Leaving (send_rgb cid p b bs)) as Hsend.
    { assert (forall cid t ins i txins p, Never Leaving (set_consumers cid t ins i txins p)) as H1.
      { intros cid t ins i txins. revert i. induction txins as [|o txins IH]; intros i p; cbn; never. }
      assert (forall l m, Never Leaving (group_inputs l m)) as H2.
      { induction l as [|o l IH]; intros m; cbn; never. }
      intros. unfold send_rgb. never; auto. }
    assert (forall col p, Never Leaving (sweep_transition col p)) as Htr.
    { intros. unfold sweep_transition, update_transition_beneficiary. never; auto. }
    unfold sweep_tx, delayed_tx, key_wallet_tx, get_bdk_wallet_seckey, sync_key_wallet, broadcast_tx, sync_wallet,
      record_sweep, read_utxos, write_utxos. never; auto.
Qed.

Lemma sweep_output_ret `{!SerdeLaws} d w w' l :
  stored w l -> sweep_output d w = Ret tt w' ->
  exists new added, trace w' = trace w ++ new /\ locks new = 0 /\ stored w' (l ++ map fst (option_list added))
    /\ omap static_state new = map snd (option_list added) /\ swept new (outpoint_of d) added.
Proof.
  intros Hl Hr. unfold sweep_output in Hr.
  apply bind_Ret_inv in Hr as (col & w1 & Hc & Hr).
  pose proof (coloring_closing (outpoint_of d) w) as Hcl. rewrite Hc in Hcl.
  pose proof (silent_ret _ _ _ _ (coloring_silent _) Hc) as Hq1. mrun_in Hr.
  destruct (answer (trace w1) _ _) as [addr|]; [|done]. mrun_in Hr.
  apply bind_Ret_inv in Hr as ([tx vars] & w2 & Htx & Hr). apply sweep_tx_ret in Htx.
  eapply carries_before in Htx; [|by apply silent_log]. mrun_in Hr.
  apply bind_Ret_inv in Hr as ([] & w3 & Hb & Hr).
  pose proof (silent_ret _ _ _ _ (broadcast_silent _) Hb) as Hq3.
  assert (exists n, trace w3 = trace w2 ++ n /\ Ev (CBroadcast tx) true ∈ n) as (n3 & Ht3 & Hin).
  { unfold broadcast_tx in Hb. mrun_in Hb. destruct (answer (trace w2) _ _); [|done]. mrun_in Hb.
    destruct (answer _ bool (CBroadcast tx)); [|done]. mrun_in Hb. injection Hb as <-. eexists.
    cbn [trace log]. rewrite <- app_assoc. split; [reflexivity|in_list]. }
  apply bind_Ret_inv in Hr as ([] & w4 & Hsy & Hr).
  pose proof (silent_ret _ _ _ _ sync_silent Hsy) as Hq4.
  pose proof Hq3 as (Hfs3 & n3' & Ht3' & Hf3). rewrite Ht3 in Ht3'. apply app_inv_head in Ht3' as <-.
  destruct Hq1 as (Hfs1 & n1 & Ht1 & Hf1). destruct Hq4 as (Hfs4 & n4 & Ht4 & Hf4).
  destruct Htx as (Hfs2 & n2 & Ht2 & Hl2 & Hcar).
  assert (stored w4 l) as Hl4 by (unfold stored; by rewrite Hfs4, Hfs3, Hfs2, Hfs1).
  destruct col as [c|].
  - destruct Hcar as (v & cons & -> & Hst). apply (record_sweep_ret _ _ _ _ _ _ Hl4) in Hr as [Hst5 (n5 & Ht5 & Hf5)].
    destruct Hcl as (t & items & nc & Htc & Hacc & Hfind & Hsum).
    rewrite Ht1 in Htc. apply app_inv_head in Htc as <-.
    exists (n1 ++ n2 ++ n3 ++ n4 ++ n5).
    exists (Some ({| outpoint := {| txid := tx_txid tx; vout := v |}; colored := true |},
                  (Revealed (seal_with_vout v), c_amt_rgb c))). split_and!.
    + by rewrite Ht5, Ht4, Ht3, Ht2, Ht1, <- !app_assoc.
    + by rewrite !locks_app, Hl2, !quiet_locks.
    + done.
    + by rewrite !omap_app, Hst, !quiet_statics by done.
    + split_and!; [done|done| |].
      * exists tx. split; [done|in_list].
      * exists t, items. split; [eapply closing_more; [|exact Hacc]; intros; in_list|]. split; [done|].
        intros Hok. by apply sum_bundle_total.
  - destruct Hcar as (-> & Hst). injection Hr as <-. destruct Hcl as (nc & Htc & Hcl).
    rewrite Ht1 in Htc. apply app_inv_head in Htc as <-.
    exists (n1 ++ n2 ++ n3 ++ n4), None. split_and!; try done.
    + by rewrite Ht4, Ht3, Ht2, Ht1, <- !app_assoc.
    + by rewrite !locks_app, Hl2, !quiet_locks.
    + by rewrite app_nil_r.
    + by rewrite !omap_app, Hst, !quiet_statics by done.
    + eapply swept_more; [|exact Hcl]. intros; in_list.
Qed.

(** What a list of sweeps adds, each in its turn. *)
Definition added_by (added : list (option (RgbUtxo * (BuilderSeal * Z)))) : list (RgbUtxo * (BuilderSeal * Z)) :=
  concat (map option_list added).

Lemma sweep_loop_ret `{!SerdeLaws} ds w w' l :
  stored w l -> for_each ds (fun d => scope (sweep_output d)) w = Ret tt w' ->
  exists new added, trace w' = trace w ++ new /\ locks new = 0 /\ stored w' (l ++ map fst (added_by added))
    /\ omap static_state new = map snd (added_by added)
    /\ Forall2 (fun d => swept new (outpoint_of d)) ds added.
Proof.
  revert w l. induction ds as [|d ds IH]; intros w l Hl Hr.
  { injection Hr as <-. exists [], []. cbn. rewrite !app_nil_r. by split_and!. }
  cbn in Hr. apply bind_Ret_inv in Hr as ([] & w1 & Hd & Hr).
  assert (exists new added, trace w1 = trace w ++ new /\ locks new = 0 /\ stored w1 (l ++ map fst (option_list added))
    /\ omap static_state new = map snd (option_list added) /\ swept new (outpoint_of d) added)
    as (n1 & a1 & Ht1 & Hk1 & Hs1 & Ha1 & Hf1).
  { apply scope_Ret_inv in Hd as [Hd|Hd]; [by eapply sweep_output_ret|].
    apply sweep_output_exit in Hd as (Hfs & n & Ht & Hq & Hsw). exists n, None. cbn. rewrite app_nil_r.
    split_and!; auto using quiet_locks, quiet_statics. unfold stored. by rewrite Hfs. }
  destruct (IH _ _ Hs1 Hr) as (n2 & a2 & Ht2 & Hk2 & Hs2 & Ha2 & Hf2).
  exists (n1 ++ n2), (a1 :: a2). unfold added_by in *. cbn [map concat]. rewrite !map_app. split_and!.
  - by rewrite Ht2, Ht1, app_assoc.
  - rewrite locks_app. lia.
  - by rewrite app_assoc.
  - by rewrite omap_app, Ha1, Ha2.
  - constructor.
    + eapply swept_more; [|exact Hf1]. intros ev. rewrite elem_of_app. auto.
    + eapply Forall2_impl; [exact Hf2|]. intros d' a. apply swept_more. intros ev. rewrite elem_of_app. auto.
Qed.

(** ** Properties *)

(** C23: the loops of [SpendableOutputs] compute what the closing transaction
    assigned to the output: the sum, over all transitions of the bundle, of
    the revealed amounts sealed to it.  A sum beyond 64 bits panics when
    arithmetic is checked; without checks it silently wraps. *)
Theorem swept_amount_exact vout items :
  amounts_ok (all_assignments items) ->
  let total := assigned_total vout (all_assignments items) in
  if total <=? U64_MAX then sum_bundle vout items 0 = Done total
  else if overflow_checks then exists msg, sum_bundle vout items 0 = Panics msg
  else sum_bundle vout items 0 = Done (total mod 2 ^ 64).
Proof.
  intros Hok. pose proof (sum_bundle_adds vout items Hok 0) as Hs. pose proof (assigned_total_nonneg vout _ Hok).
  unfold U64_MAX in *. specialize (Hs ltac:(lia)). rewrite Z.add_0_l in Hs. cbn zeta.
  destruct (Z.leb_spec (assigned_total vout (all_assignments items)) (2 ^ 64 - 1)).
  - rewrite (proj2 (Z.ltb_ge _ _)), andb_false_r in Hs by lia. by rewrite Z.mod_small in Hs by lia.
  - rewrite (proj2 (Z.ltb_lt _ _)), andb_true_r in Hs by lia. exact Hs.
Qed.

(** C22: when [SpendableOutputs] completes, it has added to the file of outputs
    and assigned on the transitions it made exactly this, one output after the
    other: for an output without assets, or whose closing transfer is refused,
    nothing; for any other, one output recorded as coloured, of a transaction
    that was broadcast, and one assignment sealed to it, of the amount that the
    accepted closing transfer of its channel gives to that very output.  The
    RGB lock is free. *)
Theorem sweeps_are_recorded `{!SerdeLaws} ds w w' l :
  stored w l -> spendable_outputs ds w = Ret tt w' ->
  exists added,
    Forall2 (fun d => swept (emitted (spendable_outputs ds) w) (outpoint_of d)) ds added
    /\ stored w' (l ++ map fst (added_by added))
    /\ omap static_state (emitted (spendable_outputs ds) w) = map snd (added_by added)
    /\ locks (emitted (spendable_outputs ds) w) = 0.
Proof.
  intros Hl Hr. unfold emitted. rewrite Hr. cbn [final]. unfold spendable_outputs in Hr. mrun_in Hr.
  apply bind_Ret_inv in Hr as ([] & w1 & Hd & Hr). mrun_in Hr. injection Hr as <-.
  destruct (sweep_loop_ret _ (log (Ev CGetRuntime _) w) _ l Hl Hd) as (n & added & Ht & Hk & Hs & Ha & Hf).
  exists added. cbn [trace log] in *. rewrite Ht, <- !app_assoc, drop_app_length. cbn [app]. split_and!; [|done| |].
  - eapply Forall2_impl; [exact Hf|]. intros d a. apply swept_more. intros ev Hev. right. in_list.
  - cbn. by rewrite omap_app, app_nil_r, Ha.
  - match goal with |- locks (?e :: n ++ ?t) = _ => change (e :: n ++ t) with ([e] ++ n ++ t) end.
    by rewrite !locks_app, Hk.
Qed.

(** bdk documents that a wallet refuses the database of another descriptor. *)
Class KeyWalletLaws : Prop := {
  one_key_per_database : forall h path k1 k2,
    Ev (CKeyWalletNew path k1) true ∈ h -> k1 <> k2 -> answer h _ (CKeyWalletNew path k2) = false
}.

(** The key of the intermediate wallet an output is swept with. *)
Definition sweep_key (d : SpendableOutputDescriptor) : option SecretKey :=
  match d with
  | StaticPaymentOutput _ channel_value keys_id => Some (payment_key (derive_channel_keys channel_value keys_id))
  | DelayedPaymentOutput _ _ _ _ _ => None
  | StaticOutput _ script => ckd_priv_hardened (if decide (script = destination_script) then 1 else 2)
  end.

Definition intermediate_db : string := ldk_data_dir +:+ "/intermediate" +:+ "/bdk_db".

Lemma elem_of_trace_log (ev ev' : Event) w : ev ∈ trace w -> ev ∈ trace (log ev' w).
Proof. intros Hin. cbn [trace log]. rewrite elem_of_app. by left. Qed.

Lemma other_key_panics `{!KeyWalletLaws} k1 k2 w op data drain col :
  Ev (CKeyWalletNew intermediate_db k1) true ∈ trace w -> k1 <> k2 ->
  panicked (key_wallet_tx k2 op data drain col w) = true.
Proof.
  intros Hin Hne. unfold key_wallet_tx, get_bdk_wallet_seckey. mrun.
  destruct (answer (trace w) _ _); mrun; [|done].
  match goal with |- context [answer ?h bool (COpenDatabase ?p)] => destruct (answer h bool (COpenDatabase p)) end;
    mrun; [|done].
  rewrite string_append_assoc. fold intermediate_db.
  rewrite (one_key_per_database _ _ k1 k2); [done| |done]. by do 2 apply elem_of_trace_log.
Qed.

Lemma sweep_output_locks d : Preserves (grows (fun ev => lock_change ev = 0)) (sweep_output d).
Proof.
  assert (forall {A} (m : M A), Preserves silent m -> Preserves (grows (fun ev => lock_change ev = 0)) m) as Hw.
  { intros A m Hm w. destruct (Hm w) as [_ Hg]. eapply grows_mono; [|exact Hg]. by intros ev []. }
  assert (forall c p, Preserves (grows (fun ev => lock_change ev = 0)) (sweep_transition c p)) as Htr.
  { intros. unfold sweep_transition, update_transition_beneficiary. pres. apply Hw, send_rgb_silent. }
  unfold sweep_output, sweep_tx, delayed_tx, key_wallet_tx, record_sweep, read_utxos, write_utxos.
  pres; auto using coloring_silent, broadcast_silent, sync_silent, open_key_wallet_silent, sync_key_wallet_silent.
Qed.

(** C37: the intermediate wallets of all outputs share one database, so once an
    output was swept with one key, sweeping an output of another key brings
    the node down, with the RGB lock held.  Here for an output without assets;
    every later [SpendableOutputs] with such an output does the same. *)
Theorem second_key_panics `{!KeyWalletLaws} d k1 k2 w :
  Ev (CKeyWalletNew intermediate_db k1) true ∈ trace w ->
  sweep_key d = Some k2 -> k1 <> k2 ->
  (forall h, answer h _ (CIsTransferColored (transfer_info_path (txid (outpoint_of d)))) = false) ->
  panicked (spendable_outputs [d] w) = true /\ locks (emitted (spendable_outputs [d]) w) = 1.
Proof.
  intros Hin Hk Hne Hcol.
  set (w1 := log (Ev CGetRuntime (answer (trace w) unit CGetRuntime)) w).
  assert (exists msg w2, sweep_output d w1 = Panic msg w2) as (msg & w2 & Hp).
  { assert (panicked (sweep_output d w1) = true) as Hp.
    { unfold sweep_output, coloring. mrun. rewrite Hcol. mrun.
      match goal with |- context [answer ?h (option Address) ?c] => destruct (answer h (option Address) c) end;
        mrun; [|done].
      assert (forall (A B : Type) (m : M A) (k : A -> M B) w, panicked (m w) = true -> panicked (bind m k w) = true)
        as Hb by (intros A B m k w0; unfold bind; by destruct (m w0)).
      apply Hb. destruct d as [op v ks|op ? ? ? ks|op script]; cbn in Hk |- *; [|done|].
      - injection Hk as <-. apply (other_key_panics k1); [|done]. by repeat apply elem_of_trace_log.
      - mrun. rewrite Hk. mrun. apply (other_key_panics k1); [|done]. by repeat apply elem_of_trace_log. }
    destruct (sweep_output d w1); try done. eauto. }
  assert (spendable_outputs [d] w = Panic msg w2) as Hrun.
  { unfold spendable_outputs. rewrite bind_call. fold w1. apply bind_eq_Panic. cbn [for_each].
    apply bind_eq_Panic. unfold scope. by rewrite Hp. }
  rewrite Hrun. split; [done|].
  destruct (sweep_output_locks d w1) as (n & Ht & Hf). rewrite Hp in Ht. cbn [final trace log w1] in Ht.
  erewrite emitted_app; [|rewrite Hrun; cbn [final]; rewrite Ht; subst w1; cbn [trace log]; by rewrite <- app_assoc].
  rewrite locks_app, (locks_none n Hf). done.
Qed.

End Sweep.

Section Witnesses.
Import Mock.
Abbreviation MT := (mock_types_checks true).
#[local] Instance scenario_externals : @Externals MT := mock_externals true.
#[local] Instance sweep_oracle : @Oracle MT := mock_oracle true (base_cfg true).

(** Transaction 7 closed a coloured channel. *)
Definition closed_outputs : list (@SpendableOutputDescriptor MT) :=
  [@StaticPaymentOutput MT (op 7 0) 1 []].
Definition swept_world : @World MT :=
  final (spendable_outputs (T := MT) closed_outputs (listed_world listed)).

Definition mock_items : BundleItems :=
  [Some [[AssignRevealed 0 30; AssignOther]; [AssignRevealed 1 12]]; None; Some [[AssignRevealed 0 5]]].

Lemma swept_amount_exact_witness : sum_bundle (T := MT) 0 mock_items 0 = Done 35.
Proof.
  refine (swept_amount_exact (T := MT) 0 mock_items _). unfold amounts_ok. cbn.
  repeat (apply Forall_cons; split; [first [lia|exact I]|]). by apply Forall_nil.
Defined.

Lemma sweeps_are_recorded_witness :
  exists u amt, stored (T := MT) swept_world (listed ++ [u]) /\ 0 < amt
    /\ omap (static_state (T := MT)) (emitted (spendable_outputs (T := MT) closed_outputs) (listed_world listed))
      = [(Revealed (@seal_with_vout MT _ (vout (outpoint u))), amt)].
Proof.
  destruct (sweeps_are_recorded (T := MT) (H := mock_serde true) closed_outputs (listed_world listed)
    swept_world listed) as (added & Hf & Hs & Ha & _).
  - exact (listed_stored listed).
  - vm_compute. reflexivity.
  - pose proof (Forall2_length _ _ _ Hf) as Hlen. destruct added as [|a1 [|a2 added]]; try discriminate Hlen.
    apply Forall2_cons_1 in Hf as [Hsw _].
    destruct a1 as [[u [seal amt]]|]; [|exfalso; vm_compute in Ha; discriminate Ha].
    destruct Hsw as (_ & Hseal & _). cbn in Hseal. subst seal.
    exists u, amt. split; [exact Hs|]. split; [|exact Ha].
    vm_compute in Ha. injection Ha as _ <-. reflexivity.
Defined.

(** A bdk that refuses a database opened before with another key. *)
Definition opened_with_other (path : string) (k : Z) (ev : @Event MT) : bool :=
  match ev with
  | Ev c r => match c in Call R return R -> bool with
              | CKeyWalletNew p k' => fun r => r && String.eqb p path && negb (Z.eqb k' k)
              | _ => fun _ => false
              end r
  | Print _ => false
  end.
#[local] Instance strict_oracle : @Oracle MT := {|
  answer := fun h R c => match c in Call R return R with
                         | CKeyWalletNew p k => negb (existsb (opened_with_other p k) h)
                         | c => mock_answer true (base_cfg true) h _ c
                         end |}.
Lemma strict_laws : @KeyWalletLaws MT strict_oracle.
Proof.
  split. intros h path k1 k2 Hin Hne. cbn. rewrite (proj2 (existsb_exists _ _)); [done|].
  exists (Ev (CKeyWalletNew path k1) true). split; [by apply list_elem_of_In|]. cbn.
  rewrite String.eqb_refl. cbn. by apply negb_true_iff, Z.eqb_neq.
Qed.

(** The vanilla output of channel 1 was swept; now one of channel 2. *)
Definition swept_one : @World MT :=
  final (spendable_outputs (T := MT) (O := strict_oracle) [@StaticPaymentOutput MT (op 8 0) 1 []] (listed_world listed)).
Lemma second_key_panics_witness :
  panicked (spendable_outputs (T := MT) (O := strict_oracle) [@StaticPaymentOutput MT (op 9 0) 2 []] swept_one) = true.
Proof.
  refine (proj1 (second_key_panics (T := MT) (O := strict_oracle) (H := strict_laws)
    (@StaticPaymentOutput MT (op 9 0) 2 []) 1 2 swept_one _ _ _ _)).
  - vm_compute. repeat (first [left|right]).
  - reflexivity.
  - lia.
  - intros h. vm_compute. reflexivity.
Defined.
End Witnesses.
End Sweep.
