(* ===== verification/Cli.v ===== *)
(** * cli.rs: the remaining commands and the command loop

    The commands that parse the arguments of a payment ([sendpayment],
    [keysend], [getinvoice], [invoicestatus]), those that print what LDK
    reports, [signmessage] and [sendonionmessage]; then
    [poll_for_user_input]: one turn reads a line, splits it into words and
    runs the command the first word names. *)

From Stdlib Require Import ZArith Lia Ascii String.
From stdpp Require Import base list strings gmap.
From S2P Require Import Prelude RustStd Hex Swap Config Json World Effects Mock Bitcoind Payments.
From S2P Require Import RgbUtils Trades MakerExecute Peers Utxos Assets Channels.

Open Scope Z_scope.

Module Cli.

Section Cli.
Context `{T : Types} {X : @Externals T} {O : @Oracle T}.
Context (patience : nat).
Local Open Scope m_scope.

Import Payments Trades MakerExecute Peers Utxos Assets Channels.

(** ** Payments *)

Definition sendpayment_cmd (words : list string) : M unit :=
  let '(invoice_str, _) := next words in
  if is_none invoice_str then
    println "ERROR: sendpayment requires an invoice: `sendpayment <invoice>`" ;;; leave
  else
  let! invoice_str := lift (unwrap invoice_str) in
  let! invoice :=
    match invoice_from_str invoice_str with
    | Ok inv => ret inv
    | Err e => println ("ERROR: invalid invoice: " +:+ e) ;;; leave
    end in
  match invoice_amount_msat invoice with
  | Some amt_msat =>
      if amt_msat <? INVOICE_MIN_MSAT then
        println ("ERROR: msat amount in invoice cannot be less than " +:+ dec INVOICE_MIN_MSAT) ;;; leave
      else ret tt
  | None => println "ERROR: msat amount missing in invoice" ;;; leave
  end ;;;
  send_payment invoice.

Definition KEYSEND_USAGE : string := "`keysend <dest_pubkey> <amt_msat> <contract_id> <amt_rgb>`".

(** The contract and amount of a coloured payment. *)
Definition keysend_rgb (amt_msat : Z) (words : list string) : M (ContractId * Z) :=
  (if amt_msat <? HTLC_MIN_MSAT then
     println ("ERROR: amount_msat cannot be less than " +:+ dec HTLC_MIN_MSAT) ;;; leave
   else ret tt) ;;;
  let '(contract_id_str, words) := next words in
  let! contract_id :=
    match contract_id_str with
    | Some contract_id_str =>
        match cid_from_str contract_id_str with
        | Some cid => ret cid
        | None => println ("ERROR: invalid contract ID: " +:+ contract_id_str) ;;; leave
        end
    | None => println ("ERROR: keysend requires a contract ID: " +:+ KEYSEND_USAGE) ;;; leave
    end in
  let '(amt_rgb_str, _) := next words in
  let! amt_rgb_str :=
    match amt_rgb_str with
    | Some amt => ret amt
    | None => println ("ERROR: keysend requires an RGB amount: " +:+ KEYSEND_USAGE) ;;; leave
    end in
  let! amt_rgb :=
    match parse_u64 amt_rgb_str with
    | Ok amt => ret amt
    | Err e => println ("ERROR: couldn't parse amt_rgb: " +:+ parse_int_error_display e) ;;; leave
    end in
  ret (contract_id, amt_rgb).

Definition keysend_cmd (is_colored : bool) (words : list string) : M unit :=
  let '(dest, words) := next words in
  let! dest_pubkey :=
    match dest with
    | Some dest =>
        match Hex.to_compressed_pubkey pk_from_slice dest with
        | Some pk => ret pk
        | None => println "ERROR: couldn't parse destination pubkey" ;;; leave
        end
    | None => println ("ERROR: keysend requires a destination pubkey: " +:+ KEYSEND_USAGE) ;;; leave
    end in
  let '(amt_msat_str, words) := next words in
  let! amt_msat_str :=
    match amt_msat_str with
    | Some amt => ret amt
    | None => println ("ERROR: keysend requires an amount in millisatoshis: " +:+ KEYSEND_USAGE) ;;; leave
    end in
  let! amt_msat :=
    match parse_u64 amt_msat_str with
    | Ok amt => ret amt
    | Err e => println ("ERROR: couldn't parse amount_msat: " +:+ parse_int_error_display e) ;;; leave
    end in
  let! rgb_payment :=
    (if is_colored then let! p := keysend_rgb amt_msat words in ret (Some p) else ret None) in
  keysend dest_pubkey amt_msat rgb_payment.

Definition GETINVOICE_USAGE : string :=
  "`getinvoice <amt_msats> <expiry_secs> <rgb_contract_id> <amt_rgb>`".

(** The contract and amount of a coloured invoice. *)
Definition invoice_rgb (contract_id_str amt_rgb_str : option string) : M (ContractId * Z) :=
  let! contract_id_str := lift (unwrap contract_id_str) in
  let! contract_id :=
    match cid_from_str contract_id_str with
    | Some cid => ret cid
    | None => println ("ERROR: invalid contract ID: " +:+ contract_id_str) ;;; leave
    end in
  let! amt_rgb_str := lift (unwrap amt_rgb_str) in
  let! amt_rgb :=
    match parse_u64 amt_rgb_str with
    | Ok amt => ret amt
    | Err e => println ("ERROR: couldn't parse amt_rgb: " +:+ parse_int_error_display e) ;;; leave
    end in
  ret (contract_id, amt_rgb).

Definition getinvoice_cmd (is_colored : bool) (words : list string) : M unit :=
  let '(amt_str, words) := next words in
  let '(expiry_secs_str, words) := next words in
  let '(contract_id_str, words) := next words in
  let '(amt_rgb_str, _) := next words in
  if is_colored && (is_none amt_str || is_none expiry_secs_str || is_none contract_id_str
                    || is_none amt_rgb_str) then
    println ("ERROR: getcoloredinvoice has 4 required arguments: " +:+ GETINVOICE_USAGE) ;;; leave
  else if negb is_colored && (is_none amt_str || is_none expiry_secs_str) then
    println "ERROR: getinvoice has 2 required arguments: getinvoice <amt_msats> <expiry_secs>" ;;; leave
  else
  let! amt_str := lift (unwrap amt_str) in
  let! amt_msat :=
    match parse_u64 amt_str with
    | Ok amt => ret amt
    | Err _ => println "ERROR: getinvoice provided payment amount was not a number" ;;; leave
    end in
  (if amt_msat <? INVOICE_MIN_MSAT then
     println ("ERROR: amt_msat cannot be less than " +:+ dec INVOICE_MIN_MSAT) ;;; leave
   else ret tt) ;;;
  let! expiry_secs_str := lift (unwrap expiry_secs_str) in
  let! expiry_secs :=
    match parse_uint U32_MAX expiry_secs_str with
    | Ok secs => ret secs
    | Err _ => println "ERROR: getinvoice provided expiry was not a number" ;;; leave
    end in
  let! (contract_id, amt_rgb) :=
    (if is_colored then
       let! (cid, amt) := invoice_rgb contract_id_str amt_rgb_str in ret (Some cid, Some amt)
     else ret (None, None)) in
  scope (get_invoice amt_msat expiry_secs contract_id amt_rgb).

Definition invoicestatus_cmd (words : list string) : M unit :=
  let '(invoice, _) := next words in
  if is_none invoice then
    println "ERROR: invoicestatus requires an invoice: `invoicestatus <invoice>`" ;;; leave
  else
  let! invoice := lift (unwrap invoice) in
  let! invoice :=
    match invoice_from_str invoice with
    | Err e => println ("ERROR: invalid invoice: " +:+ e) ;;; leave
    | Ok v => ret v
    end in
  invoice_status invoice.

(** ** What LDK reports *)

Definition node_info : M unit :=
  println (tab +:+ "{") ;;;
  println (tab2 +:+ " node_pubkey: " +:+ pk_to_string our_node_id) ;;;
  let! chans := call CListChannels in
  println (tab2 +:+ " num_channels: " +:+ dec (Z.of_nat (length chans))) ;;;
  println (tab2 +:+ " num_usable_channels: "
           +:+ dec (Z.of_nat (length (List.filter is_usable chans)))) ;;;
  let! local_balance_msat := lift (u64_sum (map balance_msat chans)) in
  println (tab2 +:+ " local_balance_msat: " +:+ dec local_balance_msat) ;;;
  let! peers := call CPeerIds in
  println (tab2 +:+ " num_peers: " +:+ dec (Z.of_nat (length peers))) ;;;
  println (tab +:+ "},").

Definition list_peers : M unit :=
  println (tab +:+ "{") ;;;
  let! peers := call CPeerIds in
  for_each peers (fun pubkey => println (tab2 +:+ " pubkey: " +:+ pk_to_string pubkey)) ;;;
  println (tab +:+ "},").

Definition bool_display (b : bool) : string := if b then "true" else "false".

(** The contract and the amounts of a channel, from its information file. *)
Definition channel_rgb_amounts (id : bytes) : M (string * string * string) :=
  let! exists_ := call (CPathExists (path_join ldk_data_dir (Hex.hex_str id))) in
  if exists_ then
    let! rgb_info := call (CGetRgbChannelInfo id) in
    ret (cid_to_string (contract_id rgb_info), dec (local_rgb_amount rgb_info),
         dec (remote_rgb_amount rgb_info))
  else ret ("N/A", "N/A", "N/A")%string.

(** [println!] of the value, when there is one. *)
Definition println_opt {A} (o : option A) (show : A -> string) : M unit :=
  match o with Some a => println (show a) | None => ret tt end.

Definition list_channel (chan_info : ChannelDetails) : M unit :=
  println "" ;;;
  println (tab +:+ "{") ;;;
  println (tab2 +:+ "channel_id: " +:+ Hex.hex_str (channel_id chan_info) +:+ ",") ;;;
  println_opt (funding_txid chan_info) (fun t => tab2 +:+ "funding_txid: " +:+ txid_to_string t +:+ ",") ;;;
  println (tab2 +:+ "peer_pubkey: " +:+ Hex.hex_str (pk_serialize (counterparty chan_info)) +:+ ",") ;;;
  let! node_info := call (CNodeAlias (counterparty chan_info)) in
  match node_info with
  | Some announcement => println_opt announcement (fun alias => tab2 +:+ "peer_alias: " +:+ alias)
  | None => ret tt
  end ;;;
  println_opt (short_channel_id chan_info) (fun id => tab2 +:+ "short_channel_id: " +:+ dec id +:+ ",") ;;;
  println (tab2 +:+ "is_channel_ready: " +:+ bool_display (is_channel_ready chan_info) +:+ ",") ;;;
  println (tab2 +:+ "channel_value_satoshis: " +:+ dec (channel_value_satoshis chan_info) +:+ ",") ;;;
  println (tab2 +:+ "local_balance_msat: " +:+ dec (balance_msat chan_info) +:+ ",") ;;;
  (if is_usable chan_info then
     println (tab2 +:+ "available_balance_for_send_msat: " +:+ dec (outbound_capacity_msat chan_info) +:+ ",") ;;;
     println (tab2 +:+ "available_balance_for_recv_msat: " +:+ dec (inbound_capacity_msat chan_info) +:+ ",")
   else ret tt) ;;;
  println (tab2 +:+ "channel_can_send_payments: " +:+ bool_display (is_usable chan_info) +:+ ",") ;;;
  println (tab2 +:+ "public: " +:+ bool_display (is_public chan_info) +:+ ",") ;;;
  let! (cid, local, remote) := channel_rgb_amounts (channel_id chan_info) in
  println (tab2 +:+ "rgb_contract_id: " +:+ cid +:+ ",") ;;;
  println (tab2 +:+ "rgb_local_amount: " +:+ local +:+ ",") ;;;
  println (tab2 +:+ "rgb_remote_amount: " +:+ remote +:+ ",") ;;;
  println (tab +:+ "},").

Definition list_channels : M unit :=
  print "[" ;;;
  let! chans := call CListChannels in
  for_each chans list_channel ;;;
  println "]".

(** ** Messages *)

Definition MSG_STARTPOS : nat := (String.length "signmessage" + 1)%nat.

(** The bytes of the line from a fixed position are signed. *)
Definition signmessage_cmd (line : string) : M unit :=
  if (String.length line <=? MSG_STARTPOS)%nat then
    println "ERROR: signmsg requires a message" ;;; leave
  else
  let! signed := call (CSignMessage (drop MSG_STARTPOS (as_bytes line))) in
  println (match signed with
           | Ok s => "Ok(" +:+ debug_str s +:+ ")"
           | Err e => "Err(" +:+ e +:+ ")"
           end).

(** cli.rs: the contents of a custom onion message. *)
Record UserOnionMessageContents := { tlv_type : Z; data : bytes }.
Definition onion_write (c : UserOnionMessageContents) : bytes := data c.

Fixpoint onion_path (pk_strs : list string) (node_pks : list PublicKey) : M (list PublicKey) :=
  match pk_strs with
  | [] => ret node_pks
  | pk_str :: pk_strs =>
      let! node_pubkey_vec :=
        match Hex.to_vec pk_str with
        | Some peer_pubkey_vec => ret peer_pubkey_vec
        | None => println "ERROR: couldn't parse peer_pubkey" ;;; leave
        end in
      let! node_pubkey :=
        match pk_from_slice node_pubkey_vec with
        | Some peer_pubkey => ret peer_pubkey
        | None => println "ERROR: couldn't parse peer_pubkey" ;;; leave
        end in
      onion_path pk_strs (node_pks ++ [node_pubkey])
  end.

Definition MIN_TLV_TYPE : Z := 64.

(** The type and the data of the message. *)
Definition onion_contents (words : list string) : M UserOnionMessageContents :=
  let '(ty_str, words) := next words in
  let! tlv_type :=
    match option_map (parse_uint U64_MAX) ty_str with
    | Some (Ok ty) =>
        if MIN_TLV_TYPE <=? ty then ret ty
        else println "Need an integral message type above 64" ;;; leave
    | _ => println "Need an integral message type above 64" ;;; leave
    end in
  let '(data_str, _) := next words in
  let! data :=
    match option_map Hex.to_vec data_str with
    | Some (Some data) => ret data
    | _ => println "Need a hex data string" ;;; leave
    end in
  ret {| tlv_type := tlv_type; data := data |}.

Definition sendonionmessage_cmd (words : list string) : M unit :=
  let '(path_pks_str, words) := next words in
  if is_none path_pks_str then
    println "ERROR: sendonionmessage requires at least one node id for the path" ;;; leave
  else
  let! path_pks_str := lift (unwrap path_pks_str) in
  let! node_pks := onion_path (split_on comma path_pks_str) [] in
  let! contents := onion_contents words in
  let! destination_pk := lift (unwrap (last node_pks)) in
  let! sent := call (CSendOnion (removelast node_pks) destination_pk (tlv_type contents)
                       (onion_write contents)) in
  match sent with
  | Ok _ => println "SUCCESS: forwarded onion message to first hop"
  | Err e => println ("ERROR: failed to send onion message: " +:+ e)
  end.

Definition help : M unit :=
  println (nl +:+ "VERSION:") ;;;
  println ("  " +:+ package_name +:+ " v" +:+ package_version) ;;;
  println (nl +:+ "USAGE:") ;;;
  println "  Command [arguments]" ;;;
  println (nl +:+ "COMMANDS:") ;;;
  println ("  help" +:+ tab +:+ "Shows a list of commands.") ;;;
  println ("  quit" +:+ tab +:+ "Close the application.") ;;;
  println (nl +:+ "  Channels:") ;;;
  println "      opencoloredchannel pubkey@host:port <chan_amt_satoshis> <push_amt_msatoshis> <rgb_contract_id> <chan_amt_rgb> [--public]" ;;;
  println "      openchannel pubkey@host:port <chan_amt_satoshis> <push_amt_msatoshis> [--public]" ;;;
  println "      closechannel <channel_id> <peer_pubkey>" ;;;
  println "      forceclosechannel <channel_id> <peer_pubkey>" ;;;
  println "      listchannels" ;;;
  println (nl +:+ "  Routing:") ;;;
  println "      getroute <dest_pubkey> <amt> [<asset_id>]" ;;;
  println (nl +:+ "  Swaps:") ;;;
  println "      makerinit <amount> <asset_id> <buy|sell> <expiry_secs> [<price_msats_per_asset>]" ;;;
  println "      taker <swap_string>" ;;;
  println "      tradeslist [<taker|maker>]" ;;;
  println "      makerexecute <payment_hash> <payment_secret> <peer_pubkey>" ;;;
  println (nl +:+ "  Peers:") ;;;
  println "      connectpeer pubkey@host:port" ;;;
  println "      disconnectpeer <peer_pubkey>" ;;;
  println "      listpeers" ;;;
  println (nl +:+ "  Payments:") ;;;
  println "      sendpayment <invoice>" ;;;
  println "      coloredkeysend <dest_pubkey> <amt_msats> <rgb_contract_id> <amt_rgb>" ;;;
  println "      keysend <dest_pubkey> <amt_msats>" ;;;
  println "      listpayments" ;;;
  println (nl +:+ "  Invoices:") ;;;
  println "      getcoloredinvoice <amt_msats> <expiry_secs> <rgb_contract_id> <amt_rgb>" ;;;
  println "      getinvoice <amt_msats> <expiry_secs>" ;;;
  println "      invoicestatus <invoice>" ;;;
  println (nl +:+ "  Onchain:") ;;;
  println "      getaddress" ;;;
  println "      listunspent" ;;;
  println (nl +:+ "  RGB:") ;;;
  println "      createutxos" ;;;
  println "      issueasset <supply> <ticker> <name> <precision>" ;;;
  println "      assetbalance <contract_id>" ;;;
  println "      sendasset <rgb_contract_id> <amt_rgb>" ;;;
  println "      receiveasset" ;;;
  println "      refresh" ;;;
  println (nl +:+ "  Other:") ;;;
  println "      mine <num_blocks>" ;;;
  println "      signmessage <message>" ;;;
  println "      sendonionmessage <node_id_1,node_id_2,..,destination_node_id> <type> <hex_bytes>" ;;;
  println "      nodeinfo".

(** ** The command loop *)

Inductive Command : Set :=
| CmdHelp | CmdMine | CmdListUnspent | CmdGetAddress | CmdCreateUtxos | CmdIssueAsset | CmdAssetBalance
  | CmdSendAsset | CmdReceiveAsset | CmdRefresh | CmdOpenChannel (is_colored : bool) |
  CmdSendPayment | CmdKeysend (is_colored : bool) | CmdGetInvoice (is_colored : bool) |
  CmdConnectPeer | CmdDisconnectPeer | CmdListChannels | CmdMakerInit | CmdTaker | CmdTradesList |
  CmdMakerExecute | CmdListPayments | CmdInvoiceStatus | CmdCloseChannel | CmdForceCloseChannel |
  CmdNodeInfo | CmdListPeers | CmdSignMessage | CmdSendOnionMessage | CmdQuit.

(** The arms of the [match] on the first word. *)
Definition command_table : list (string * Command) :=
  [("help", CmdHelp); ("mine", CmdMine); ("listunspent", CmdListUnspent); ("getaddress",
   CmdGetAddress); ("createutxos", CmdCreateUtxos); ("issueasset", CmdIssueAsset);
   ("assetbalance", CmdAssetBalance); ("sendasset", CmdSendAsset); ("receiveasset",
   CmdReceiveAsset); ("refresh", CmdRefresh); ("openchannel", CmdOpenChannel false);
   ("opencoloredchannel", CmdOpenChannel true); ("sendpayment", CmdSendPayment); ("keysend",
   CmdKeysend false); ("coloredkeysend", CmdKeysend true); ("getinvoice", CmdGetInvoice false);
   ("getcoloredinvoice", CmdGetInvoice true); ("connectpeer", CmdConnectPeer);
   ("disconnectpeer", CmdDisconnectPeer); ("listchannels", CmdListChannels); ("makerinit",
   CmdMakerInit); ("taker", CmdTaker); ("tradeslist", CmdTradesList); ("makerexecute",
   CmdMakerExecute); ("listpayments", CmdListPayments); ("invoicestatus", CmdInvoiceStatus);
   ("closechannel", CmdCloseChannel); ("forceclosechannel", CmdForceCloseChannel);
   ("nodeinfo", CmdNodeInfo); ("listpeers", CmdListPeers); ("signmessage", CmdSignMessage);
   ("sendonionmessage", CmdSendOnionMessage); ("quit", CmdQuit); ("exit", CmdQuit)]%string.
Definition command_of (word : string) : option Command :=
  snd <$> List.find (fun kv => String.eqb (fst kv) word) command_table.

Definition run_command (c : Command) (line : string) (words : list string) : M unit :=
  match c with
  | CmdHelp => help
  | CmdMine => mine_cmd words
  | CmdListUnspent => listunspent_cmd
  | CmdGetAddress => getaddress_cmd
  | CmdCreateUtxos => createutxos_cmd
  | CmdIssueAsset => issueasset_cmd words
  | CmdAssetBalance => assetbalance_cmd words
  | CmdSendAsset => sendasset_cmd words
  | CmdReceiveAsset => receiveasset_cmd
  | CmdRefresh => refresh_cmd
  | CmdOpenChannel is_colored => openchannel_cmd patience is_colored words
  | CmdSendPayment => sendpayment_cmd words
  | CmdKeysend is_colored => keysend_cmd is_colored words
  | CmdGetInvoice is_colored => getinvoice_cmd is_colored words
  | CmdConnectPeer => connectpeer_cmd patience words
  | CmdDisconnectPeer => disconnectpeer_cmd words
  | CmdListChannels => list_channels
  | CmdMakerInit => makerinit_cmd words
  | CmdTaker => taker_cmd words
  | CmdTradesList => tradeslist_cmd words
  | CmdMakerExecute => makerexecute_cmd words
  | CmdListPayments => list_payments
  | CmdInvoiceStatus => invoicestatus_cmd words
  | CmdCloseChannel => closechannel_cmd words
  | CmdForceCloseChannel => forceclosechannel_cmd words
  | CmdNodeInfo => node_info
  | CmdListPeers => list_peers
  | CmdSignMessage => signmessage_cmd line
  | CmdSendOnionMessage => sendonionmessage_cmd words
  | CmdQuit => println "Exiting node..."
  end.

(** A command's [continue] ends the turn; [quit] ends the loop. *)
Definition dispatch (word line : string) (words : list string) : M bool :=
  match command_of word with
  | Some CmdQuit => run_command CmdQuit line words ;;; ret false
  | Some c => scope (run_command c line words) ;;; ret true
  | None =>
      println ("Unknown command. See `" +:+ dquote +:+ "help" +:+ dquote +:+ " for available commands.") ;;;
      ret true
  end.

Definition poll_turn : M bool :=
  print "> " ;;;
  let! read := call CReadLine in
  match read with
  | Err e => println ("ERROR: " +:+ e) ;;; ret false
  | Ok line =>
      if str_len line =? 0 then ret false
      else
        match split_whitespace line with
        | [] => ret true
        | word :: words => dispatch word line words
        end
  end.

(** The loop, for at most [turns] turns; [true] when it has not ended. *)
Fixpoint poll_loop (turns : nat) : M bool :=
  match turns with
  | 0%nat => ret true
  | S turns => let! continues := poll_turn in if continues then poll_loop turns else ret false
  end.

Definition poll_for_user_input (turns : nat) : M bool :=
  println ("LDK startup successful. Enter " +:+ dquote +:+ "help" +:+ dquote
           +:+ " to view available commands. Press Ctrl-D to quit.") ;;;
  println "LDK logs are available at <your-supplied-ldk-data-dir-path>/.ldk/logs" ;;;
  println ("Local Node ID is " +:+ pk_to_string our_node_id) ;;;
  poll_loop turns.

(** ** Lemmas *)

Lemma as_bytes_app s t : as_bytes (s +:+ t) = as_bytes s ++ as_bytes t.
Proof. unfold as_bytes. by rewrite list_ascii_app, map_app. Qed.

Lemma onion_path_ret bs pks acc w :
  Forall2 (fun b pk => pk_from_slice b = Some pk /\ Forall u8 b) bs pks ->
  onion_path (map Hex.hex_str bs) acc w = Ret (acc ++ pks) w.
Proof.
  intros Hf. revert acc. induction Hf as [|b pk bs pks [Hpk Hb] _ IH]; intros acc; cbn [map onion_path].
  - by rewrite app_nil_r.
  - rewrite Hex.to_vec_hex_str by done. mrun. rewrite Hpk. mrun. by rewrite IH, <- app_assoc.
Qed.

Lemma onion_contents_ret ty data w :
  MIN_TLV_TYPE <= ty <= U64_MAX -> Forall u8 data ->
  onion_contents [dec ty; Hex.hex_str data] w = Ret {| tlv_type := ty; data := data |} w.
Proof.
  intros Ht Hd. unfold onion_contents. cbn [next option_map]. unfold MIN_TLV_TYPE in *.
  rewrite parse_uint_dec by lia. rewrite (proj2 (Z.leb_le _ _)) by lia. mrun.
  rewrite Hex.to_vec_hex_str by done. by mrun.
Qed.

(** ** Properties *)

(** [signmessage] signs what follows the command and one space to the end
    of the line, the line feed included; with nothing after the name it asks
    for a message. *)
Theorem signmessage_signs_line_feed msg w :
  (exists r text, emitted (signmessage_cmd ("signmessage " +:+ msg +:+ nl)) w
     = [Ev (CSignMessage (as_bytes msg ++ [10])) r; Print text])
  /\ emitted (signmessage_cmd ("signmessage" +:+ nl)) w = [Print ("ERROR: signmsg requires a message" +:+ nl)].
Proof.
  split.
  - unfold emitted, signmessage_cmd. rewrite <- (Hex.as_bytes_length ("signmessage " +:+ msg +:+ nl)), !as_bytes_app.
    rewrite (proj2 (Nat.leb_gt _ _)) by (rewrite !length_app; cbn; lia).
    mrun. cbn [final trace log]. rewrite <- !app_assoc, drop_app_length. by eexists _, _.
  - unfold emitted, signmessage_cmd.
    change ((String.length ("signmessage" +:+ nl) <=? MSG_STARTPOS)%nat) with true. cbn iota. mrun.
    cbn [final trace log]. by rewrite drop_app_length.
Qed.

(** [sendonionmessage] sends the message to the last node of the list along
    the nodes before it, with the type and the bytes given. *)
Theorem sendonion_sends bs path dest ty data w :
  Forall2 (fun b pk => pk_from_slice b = Some pk /\ Forall u8 b) bs (path ++ [dest]) ->
  64 <= ty <= U64_MAX -> Forall u8 data ->
  exists r text, emitted (sendonionmessage_cmd [join_with comma (map Hex.hex_str bs); dec ty; Hex.hex_str data]) w
                 = [Ev (CSendOnion path dest ty data) r; Print text].
Proof.
  intros Hf Ht Hd. unfold emitted, sendonionmessage_cmd. cbn [next is_none unwrap expect_some]. mrun.
  rewrite split_on_join.
  - rewrite (bind_eq_Ret _ _ _ _ _ (onion_path_ret bs (path ++ [dest]) [] w Hf)).
    rewrite (bind_eq_Ret _ _ _ _ _ (onion_contents_ret ty data w Ht Hd)). cbn [app].
    rewrite last_snoc, removelast_last. cbn [unwrap expect_some]. mrun.
    unfold onion_write. cbn [tlv_type Cli.data].
    destruct (answer _ (result unit string) _); mrun; cbn [final trace log];
      rewrite <- !app_assoc, drop_app_length; by eexists _, _.
  - apply Forall2_length in Hf. rewrite length_app in Hf. destruct bs; cbn in *; [lia|done].
  - apply Forall_map. eapply Forall2_Forall_l; [exact Hf|]. apply Forall_true. intros pk b [_ Hb].
    apply Hex.hex_str_no_char; [left; by vm_compute|done].
Qed.

End Cli.

Section Witnesses.
Import Mock.
Abbreviation MT := (mock_types_checks true).
#[local] Instance scenario_externals : @Externals MT := mock_externals true.
#[local] Instance scenario_oracle : @Oracle MT := mock_oracle true (base_cfg true).

Lemma sendonion_sends_witness :
  exists r text, emitted (sendonionmessage_cmd (T := MT)
      [join_with comma [Hex.hex_str (repeat 2 33); Hex.hex_str (repeat 3 33)]; dec 70; Hex.hex_str [1; 255]]) (empty_world true)
    = [Ev (@CSendOnion MT [repeat 2 33] (repeat 3 33) 70 [1; 255]) r; Print text].
Proof.
  apply (sendonion_sends (T := MT) [repeat 2 33; repeat 3 33] [repeat 2 33] (repeat 3 33) 70 [1; 255]).
  - repeat constructor; vm_compute; done.
  - unfold U64_MAX. lia.
  - repeat constructor; done.
Defined.
End Witnesses.
End Cli.
