(* ===== verification/Events.v ===== *)
(** * main.rs: [handle_ldk_events]

    The events LDK sends the node, with the fields the program reads, and the
    handler that dispatches them.  A [return] inside an arm ends the handling
    of that event only. *)

From Stdlib Require Import ZArith Lia Ascii String.
From stdpp Require Import base list strings gmap.
From S2P Require Import Prelude RustStd Hex Swap Config Json World Effects Payments Trades Channels Sweep.

Open Scope Z_scope.

Module Events.

Section Events.
Context `{T : Types} {X : @Externals T} {O : @Oracle T}.

(** lightning::util::events::Event *)
Inductive LdkEvent :=
| FundingGenerationReady (e : Channels.FundingGeneration)
| PaymentClaimable (payment_hash : PaymentHash) (purpose : Payments.PaymentPurpose) (amount_msat : Z)
| PaymentClaimed (payment_hash : PaymentHash) (purpose : Payments.PaymentPurpose) (amount_msat : Z)
| PaymentSent (payment_preimage : bytes) (payment_hash : PaymentHash) (fee_paid_msat : option Z)
| OpenChannelRequest
| PaymentPathSuccessful
| PaymentPathFailed
| ProbeSuccessful
| ProbeFailed
| PaymentFailed (payment_hash : PaymentHash) (reason : option string)
| PaymentForwarded (prev_channel_id next_channel_id : option bytes) (fee_earned_msat : option Z)
    (claim_from_onchain_tx : bool) (outbound_amount_forwarded_msat : option Z)
| HTLCHandlingFailed
| PendingHTLCsForwardable (time_forwardable : Z)
| SpendableOutputs (outputs : list SpendableOutputDescriptor)
| ChannelPending (channel_id : bytes) (counterparty_node_id : PublicKey)
| ChannelReady (channel_id : bytes) (counterparty_node_id : PublicKey)
| ChannelClosed (channel_id : bytes) (reason : string)
| DiscardFunding
| HTLCIntercepted (e : Trades.Intercepted).

Definition handle_event (event : LdkEvent) : M unit :=
  match event with
  | FundingGenerationReady e => Channels.funding_generation_ready e
  | PaymentClaimable h purpose amount => Payments.payment_claimable h purpose amount
  | PaymentClaimed h purpose amount => Payments.payment_claimed h purpose amount
  | PaymentSent preimage h fee => Payments.payment_sent preimage h fee
  | OpenChannelRequest => ret tt
  | PaymentPathSuccessful => ret tt
  | PaymentPathFailed => ret tt
  | ProbeSuccessful => ret tt
  | ProbeFailed => ret tt
  | PaymentFailed h reason => Payments.payment_failed h reason
  | PaymentForwarded prev next fee onchain amount => Channels.payment_forwarded prev next fee onchain amount
  | HTLCHandlingFailed => ret tt
  | PendingHTLCsForwardable min => Channels.pending_htlcs_forwardable min
  | SpendableOutputs outputs => Sweep.spendable_outputs outputs
  | ChannelPending id pk => Channels.channel_pending id pk
  | ChannelReady id pk => Channels.channel_ready id pk
  | ChannelClosed id reason => Channels.channel_closed id reason
  | DiscardFunding => ret tt
  | HTLCIntercepted e => Trades.htlc_intercepted e
  end.

Definition handle_ldk_events (event : LdkEvent) : M unit := scope (handle_event event).

End Events.
End Events.
