(* ===== verification/Startup.v ===== *)
(** * main.rs: [start_ldk]; disk.rs: the graph and scorer files

    Starting the node: the command line, bitcoind and its chain, the RGB
    configuration, the seed of the keys, the wallet (bdk_utils.rs), the channel
    manager, new or restored, and the file of outputs reserved for RGB; then
    the command loop, and the shutdown.  The background tasks it spawns are
    steps of Node.v.

    The other files take the network, the data directory and the service
    addresses as parameters; here they are computed, and [Configured] says
    that the parameters are these values. *)

From Stdlib Require Import ZArith Lia Ascii String.
From stdpp Require Import base list strings gmap.
From S2P Require Import Prelude RustStd Hex Swap IpAddr Args Config Json World Effects Mock Bitcoind.
From S2P Require Import RgbUtils Utxos Cli.

Open Scope Z_scope.

Module Startup.

Section Startup.
Context `{T : Types} {X : @Externals T} {O : @Oracle T}.
Context (patience : nat).
Local Open Scope m_scope.
Import Args.

(** ** bdk_utils.rs *)

Definition DERIVATION_PATH_ACCOUNT : Z := 0.
Definition BDK_DB_NAME : string := "bdk_db".

Definition calculate_descriptor_from_xprv (xprv : string) (network : Network) (change : bool) : string :=
  let change_num := if change then 1 else 0 in
  let coin_type := if bool_decide (network = Bitcoin) then 0 else 1 in
  let hardened := "'"%string in
  let child_number := "/*"%string in
  let derivation_path :=
    "/84" +:+ hardened +:+ "/" +:+ dec coin_type +:+ hardened +:+ "/"
    +:+ dec DERIVATION_PATH_ACCOUNT +:+ hardened +:+ "/" +:+ dec change_num +:+ child_number in
  "wpkh(" +:+ xprv +:+ derivation_path +:+ ")".

Definition get_bdk_wallet (dir xprv : string) (network : Network) : M unit :=
  let descriptor := calculate_descriptor_from_xprv xprv network false in
  let change_descriptor := calculate_descriptor_from_xprv xprv network true in
  let! opened := call (COpenDatabase (dir +:+ "/" +:+ BDK_DB_NAME)) in
  expect_true "valid bdk config" opened ;;;
  let! wallet := call (CWalletNew descriptor change_descriptor) in
  expect_true "valid bdk wallet" wallet.

(** ** disk.rs: [true] when the file could be read, a new value otherwise. *)

Definition read_network (path : string) : M bool :=
  let! file := call (CFileOpen path) in
  match file with
  | Ok _ => call (CReadGraph path)
  | Err _ => ret false
  end.

Definition read_scorer (path : string) : M bool :=
  let! file := call (CFileOpen path) in
  match file with
  | Ok _ => call (CReadScorer path)
  | Err _ => ret false
  end.

(** ** The chain and the services *)

(** [Display] of bitcoin's [Network]. *)
Definition network_display (n : Network) : string :=
  match n with Bitcoin => "bitcoin" | Testnet => "testnet" | Regtest => "regtest" | Signet => "signet" end.

(** What bitcoind calls the chain. *)
Definition chain_name (n : Network) : string :=
  match n with Bitcoin => "main" | Testnet => "test" | Regtest => "regtest" | Signet => "signet" end.

Definition services (n : Network) : option (string * string * string) :=
  match n with
  | Testnet => Some (ELECTRUM_URL_TESTNET, PROXY_URL_TESTNET, PROXY_ENDPOINT_TESTNET)
  | Regtest => Some (ELECTRUM_URL_REGTEST, PROXY_URL_REGTEST, PROXY_ENDPOINT_REGTEST)
  | _ => None
  end.

Definition data_dir (info : LdkUserInfo) : string := ldk_storage_dir_path info +:+ "/.ldk".

(** Directories, logger and bitcoind. *)
Definition connect_bitcoind (info : LdkUserInfo) : M Bitcoind.FeeTable :=
  let! created := call (CCreateDirAll (data_dir info)) in
  expect_true UNWRAP_ERR created ;;;
  let! created := call (CCreateDirAll (path_join (data_dir info) "blinded_utxos")) in
  expect_true "successful directory creation" created ;;;
  Bitcoind.new_logger ;;;
  let! client := Bitcoind.new_client (bitcoind_rpc_host info) (bitcoind_rpc_port info)
                   (bitcoind_rpc_username info) (bitcoind_rpc_password info) in
  match client with
  | Ok client => ret client
  | Err e => println ("Failed to connect to bitcoind client: " +:+ e) ;;; leave
  end.

(** The chain must be the one asked for. *)
Definition check_chain (network : Network) : M unit :=
  let! info := Bitcoind.get_blockchain_info in
  let bitcoind_chain := Bitcoind.chain info in
  if negb (bool_decide (bitcoind_chain = chain_name network)) then
    println ("Chain argument (" +:+ network_display network +:+ ") didn't match bitcoind chain ("
             +:+ bitcoind_chain +:+ ")") ;;;
    leave
  else ret tt.

Definition rgb_setup (info : LdkUserInfo) : M unit :=
  let network := info_network info in
  let! (electrum_url, _, _) :=
    match services network with
    | Some s => ret s
    | None => println "ERROR: PoC does not support selected network" ;;; leave
    end in
  let! written := fs_write (data_dir info +:+ "/electrum_url") electrum_url in
  expect_true "able to write" written ;;;
  let! written := fs_write (data_dir info +:+ "/rgb_network") (rgb_chain_display network) in
  expect_true "able to write" written ;;;
  call CGetRuntime ;;;
  let! schemas := call CSchemasEmpty in
  let! empty := expect UNWRAP_ERR schemas in
  (if empty then
     let! imported := call CImportIface in
     expect_true UNWRAP_ERR imported ;;;
     let! imported := call CImportSchema in
     expect_true UNWRAP_ERR imported ;;;
     let! imported := call CImportIfaceImpl in
     expect_true UNWRAP_ERR imported
   else ret tt) ;;;
  call CDropRuntime ;;;
  let! client := call (CRestClient PROXY_TIMEOUT) in
  expect_true "valid proxy" client.

(** ** The keys *)

Definition keys_seed_path (info : LdkUserInfo) : string := data_dir info +:+ "/keys_seed".

Definition ASSERT_EQ : string := "assertion failed: `(left == right)`".

Definition keys_seed (path : string) : M bytes :=
  let! seed := call (CReadBytes path) in
  match seed with
  | Some seed => expect_true ASSERT_EQ (length seed =? 32)%nat ;;; ret seed
  | None =>
      let! key := call (CFillBytes 32) in
      let! file := call (CFileCreate path) in
      match file with
      | Ok _ =>
          let! written := call (CFileWriteAll path key) in
          expect_true "Failed to write node keys seed to disk" written ;;;
          let! synced := call (CFileSync path) in
          expect_true "Failed to sync node keys seed to disk" synced
      | Err e =>
          println ("ERROR: Unable to create keys seed file " +:+ path +:+ ": " +:+ e) ;;; leave
      end ;;;
      ret key
  end.

Definition open_wallet (info : LdkUserInfo) (seed : bytes) : M unit :=
  call CNow ;;;
  let! ldk_seed := expect UNWRAP_ERR (ldk_seed_of seed) in
  call (CKeysManager ldk_seed) ;;;
  get_bdk_wallet (data_dir info) master_key_string (info_network info) ;;;
  RgbUtils.sync_wallet.

(** ** The channel manager *)

(** Restored from its file, or a new one; [true] when the node restarts. *)
Definition open_manager (info : LdkUserInfo) : M bool :=
  let! file := call (CManagerFile (data_dir info +:+ "/manager")) in
  if file then
    let! read := call CReadManager in
    expect_true UNWRAP_ERR read ;;;
    ret true
  else
    call CFreshManager ;;;
    ret false.

(** On the first run the file of outputs is created. *)
Definition init_utxos (info : LdkUserInfo) (restarting_node : bool) : M unit :=
  if negb restarting_node then
    let! written := fs_write (data_dir info +:+ "/rgb_utxos") (utxos_to_json []) in
    expect_true "able to write rgb utxos file" written
  else ret tt.

(** The monitors are given to the chain monitor once they are in sync; the
    assertion is on the status of each. *)
Definition sync_monitors (channelmonitors : nat) (restarting_node : bool) : M unit :=
  (if restarting_node then
     let! tip := call (CSynchronize (1 + channelmonitors)) in expect_true UNWRAP_ERR tip
   else ret tt) ;;;
  for_each (seq 0 (if restarting_node then channelmonitors else 0)) (fun i =>
    let! completed := call (CWatchChannel i) in expect_true ASSERT_EQ completed).

(** The payment and trade tables live in memory only. *)
Definition fresh_tables (w : World) : World :=
  {| fs := fs w; inbound_payments := ∅; outbound_payments := ∅; whitelisted_trades := ∅;
     maker_trades := ∅; tasks := tasks w; trace := trace w |}.

(** Up to the channel manager: the fee table and the number of monitors. *)
Definition prepare (info : LdkUserInfo) : M (Bitcoind.FeeTable * nat) :=
  let! fees := connect_bitcoind info in
  check_chain (info_network info) ;;;
  rgb_setup info ;;;
  let! seed := keys_seed (keys_seed_path info) in
  open_wallet info seed ;;;
  let! channelmonitors := call CReadMonitors in
  let! channelmonitors := expect UNWRAP_ERR channelmonitors in
  let! tip := call CBestBlock in
  expect_true "Failed to fetch best block header and best block" tip ;;;
  read_network (data_dir info +:+ "/network_graph") ;;;
  read_scorer (data_dir info +:+ "/scorer") ;;;
  call CSecureRandomBytes ;;;
  ret (fees, channelmonitors).

Definition start_up (info : LdkUserInfo) : M Bitcoind.FeeTable :=
  let! (fees, channelmonitors) := prepare info in
  let! restarting_node := open_manager info in
  init_utxos info restarting_node ;;;
  sync_monitors channelmonitors restarting_node ;;;
  call CNow ;;;
  call (CFillBytes 32) ;;;
  modify fresh_tables ;;;
  ret fees.

(** One tick of the announcement task. *)
Definition announce (info : LdkUserInfo) : M unit :=
  if bool_decide (ldk_announced_listen_addr info = []) then ret tt
  else call (CBroadcastAnnouncement (ldk_announced_node_name info) (ldk_announced_listen_addr info)).

(** The listener: it binds its socket, then takes one connection per turn;
    [false] when it has been told to stop. *)
Definition bind_listener (info : LdkUserInfo) : M unit :=
  let! bound := call (CListen ("[::]:" +:+ dec (ldk_peer_listening_port info))) in
  expect_true "Failed to bind to listen port - is something else already listening on it?" bound.

Definition accept_turn : M bool :=
  let! tcp_stream := call CAccept in
  let! tcp_stream := expect UNWRAP_ERR tcp_stream in
  let! stop_listen := call CStopRequested in
  if stop_listen then ret false
  else spawn (TInbound tcp_stream) ;;; ret true.

(** One poll of the best block. *)
Definition poll_tip : M unit :=
  let! polled := call CPollBestTip in
  expect_true UNWRAP_ERR polled.

Definition shut_down : M unit :=
  call CDisconnectAll ;;;
  let! stopped := call CStopBackground in
  expect_true UNWRAP_ERR stopped.

(** [start_ldk], with a command loop of at most [turns] turns. *)
Definition start_ldk (turns : nat) : M unit :=
  scope (
    let! args := parse_startup_args in
    match args with
    | Err _ => leave
    | Ok info =>
        start_up info ;;;
        Cli.poll_for_user_input patience turns ;;;
        shut_down
    end).

(** ** Specification *)

(** The parameters of the other files are what the command line says. *)
Class Configured (info : LdkUserInfo) : Prop := {
  configured_dir : World.ldk_data_dir = data_dir info;
  configured_network : World.network = info_network info;
  configured_services : services (info_network info) = Some (World.electrum_url, World.proxy_url, World.proxy_endpoint)
}.

(** The chain a reply names. *)
Definition chain_of (reply : Json) : option string := Json.as_str (Json.index "chain" reply).

(** Every step of the start only adds to the trace. *)
Ltac extends_solve := unfold appends; pres; try exact I.

Lemma blockchain_info_chain v info :
  Bitcoind.blockchain_info v = Done info -> chain_of v = Some (Bitcoind.chain info).
Proof.
  unfold Bitcoind.blockchain_info, chain_of. intros Hb.
  destruct (Json.as_u64 _); [|done]. destruct (Json.as_str (Json.index "bestblockhash" v)); [|done]. cbn in Hb.
  destruct (block_hash_from_hex _); [|done]. cbn in Hb. destruct (Json.as_str (Json.index "chain" v)); [|done].
  by injection Hb as <-.
Qed.

Lemma check_chain_ret n w w' :
  check_chain n w = Ret tt w' ->
  exists v, trace w' = trace w ++ [Ev (CRpc "getblockchaininfo" []) (Ok v)] /\ chain_of v = Some (chain_name n).
Proof.
  unfold check_chain, Bitcoind.get_blockchain_info, Bitcoind.call_method. intros Hr. mrun_in Hr.
  destruct (answer _ (result Json IoError) _) as [v|]; [|by mrun_in Hr]. mrun_in Hr.
  destruct (Bitcoind.blockchain_info v) as [info|] eqn:Hb; [|done]. mrun_in Hr.
  destruct (negb _) eqn:Hc; [by mrun_in Hr|]. injection Hr as <-. exists v. split; [done|].
  rewrite (blockchain_info_chain _ _ Hb). reflect_bools. by rewrite Hc.
Qed.

Lemma rgb_setup_services info w w' :
  rgb_setup info w = Ret tt w' -> info_network info = Testnet \/ info_network info = Regtest.
Proof. unfold rgb_setup. intros Hr. destruct (info_network info); auto; by mrun_in Hr. Qed.

(** What the start leaves alone: the list of outputs, but for [init_utxos]. *)
Section Keeps.
Context (info : LdkUserInfo) `{!Configured info}.
Abbreviation utxos_file := (fun w => fs w !! Utxos.rgb_utxos_path).

Lemma utxos_path : data_dir info +:+ "/rgb_utxos" = Utxos.rgb_utxos_path.
Proof. unfold Utxos.rgb_utxos_path. by rewrite configured_dir. Qed.

Lemma other_write p c (w : World) :
  p <> "/rgb_utxos"%string -> utxos_file (upd_fs (<[data_dir info +:+ p := c]>) w) = utxos_file w.
Proof.
  intros Hp. cbn. rewrite lookup_insert_ne; [done|]. rewrite <- utxos_path. intros Heq. apply Hp.
  by apply (inj (String.append (data_dir info))) in Heq.
Qed.

Lemma keeps_prepare : Preserves (keeps utxos_file) (prepare info).
Proof.
  unfold prepare, connect_bitcoind, Bitcoind.new_logger, Bitcoind.new_client, Bitcoind.call_method, check_chain,
    Bitcoind.get_blockchain_info, Bitcoind.call_method, rgb_setup, keys_seed, open_wallet, get_bdk_wallet,
    RgbUtils.sync_wallet, read_network, read_scorer.
  pres; apply (other_write _ _ _); done.
Qed.
Lemma keeps_monitors n b : Preserves (keeps utxos_file) (sync_monitors n b).
Proof. unfold sync_monitors. pres. Qed.

Lemma init_utxos_ret b w w' :
  init_utxos info b w = Ret tt w' ->
  utxos_file w' = (if b then utxos_file w else Some (utxos_to_json [])) /\ grows (fun _ => True) w w'.
Proof.
  unfold init_utxos, fs_write. rewrite utxos_path. intros Hr. destruct b; cbn [negb] in Hr; [by injection Hr as <-|].
  mrun_in Hr. destruct (answer _ bool _); mrun_in Hr; [|done]. injection Hr as <-. split.
  - cbn. by rewrite lookup_insert_eq.
  - etrans; [by apply grows_log|]. by apply grows_same.
Qed.

End Keeps.

Lemma open_manager_ret info w b w' :
  open_manager info w = Ret b w' ->
  Ev (CManagerFile (data_dir info +:+ "/manager")) b ∈ trace w' /\ fs w' = fs w.
Proof.
  unfold open_manager. intros Hr. mrun_in Hr. destruct (answer _ bool (CManagerFile _)) eqn:Hf; mrun_in Hr.
  - destruct (answer _ bool CReadManager); mrun_in Hr; [|done]. injection Hr as <- <-. split; [|done]. cbn. in_list.
  - injection Hr as <- <-. split; [|done]. cbn. in_list.
Qed.

Lemma start_up_tables info w fees w' :
  start_up info w = Ret fees w' ->
  inbound_payments w' = ∅ /\ outbound_payments w' = ∅ /\ whitelisted_trades w' = ∅ /\ maker_trades w' = ∅.
Proof.
  unfold start_up. intros Hr. apply bind_Ret_inv in Hr as ([f n] & w1 & _ & Hr).
  apply bind_Ret_inv in Hr as (restarting & w2 & _ & Hr). apply bind_Ret_inv in Hr as ([] & w3 & _ & Hr).
  apply bind_Ret_inv in Hr as ([] & w4 & _ & Hr). mrun_in Hr. by injection Hr as _ <-.
Qed.

Lemma start_up_utxos info `{!Configured info} w fees w' :
  start_up info w = Ret fees w' ->
  exists (n : Bitcoind.FeeTable * nat) wm b wb, prepare info w = Ret n wm /\ open_manager info wm = Ret b wb
    /\ Ev (CManagerFile (data_dir info +:+ "/manager")) b ∈ trace w'
    /\ fs w' !! Utxos.rgb_utxos_path =
       if b then fs w !! Utxos.rgb_utxos_path else Some (utxos_to_json []).
Proof.
  unfold start_up. intros Hr. apply bind_Ret_inv in Hr as ([f n] & w1 & Hp & Hr).
  apply bind_Ret_inv in Hr as (restarting & w2 & Hm & Hr). apply bind_Ret_inv in Hr as ([] & w3 & Hi & Hr).
  apply bind_Ret_inv in Hr as ([] & w4 & Hs & Hr). mrun_in Hr. injection Hr as _ <-.
  cbn [fs trace log fresh_tables]. exists (f, n), w1, restarting, w2. split; [done|]. split; [done|].
  apply (ret_keeps _ _ _ _ _ (keeps_prepare info)) in Hp. apply open_manager_ret in Hm as [Hm Hf].
  apply (init_utxos_ret info) in Hi as [Hi (n1 & Ht1 & _)].
  assert (fs w4 !! Utxos.rgb_utxos_path = fs w3 !! Utxos.rgb_utxos_path) as Hs'
    by apply (ret_keeps _ _ _ _ _ (keeps_monitors n restarting) Hs).
  apply ret_extends in Hs as (n2 & Ht2 & _); [|unfold appends, sync_monitors; pres]. split.
  - rewrite Ht2, Ht1. in_list.
  - rewrite Hs'. cbn in Hi, Hp. rewrite Hi, Hf. by destruct restarting.
Qed.

(** ** Properties *)

(** C29: the seed of the keys is the 32 bytes of the seed file; when there is
    none, fresh bytes that were written to a new file and synced before they
    are used.  A seed file of another length stops the node. *)
Theorem keys_seed_spec path w :
  match answer (trace w) _ (CReadBytes path) with
  | Some seed =>
      if (length seed =? 32)%nat then exists w', keys_seed path w = Ret seed w'
      else exists w', keys_seed path w = Panic ASSERT_EQ w'
  | None =>
      forall seed w', keys_seed path w = Ret seed w' ->
        emitted (keys_seed path) w =
        [Ev (CReadBytes path) None; Ev (CFillBytes 32) seed; Ev (CFileCreate path) (Ok tt);
         Ev (CFileWriteAll path seed) true; Ev (CFileSync path) true]
  end.
Proof.
  unfold emitted, keys_seed. mrun. destruct (answer (trace w) _ (CReadBytes path)) as [seed|] eqn:Hs; mrun.
  - destruct (length seed =? 32)%nat; mrun; by eexists.
  - intros seed w' Hr. mrun_in Hr. mrun. destruct (answer _ (result unit string) _) as [[]|e] eqn:Hf; mrun_in Hr; [|done].
    mrun. destruct (answer _ bool (CFileWriteAll _ _)) eqn:Hw; mrun_in Hr; [|done]. mrun.
    destruct (answer _ bool (CFileSync _)) eqn:Hy; mrun_in Hr; [|done]. injection Hr as <- _. cbn [final].
    cbn [trace log]. by rewrite <- !app_assoc, drop_app_length.
Qed.

(** C28: the node only starts on testnet or regtest, and only against a
    bitcoind that reports the chain of the command line; mainnet and signet
    always stop, although signet is accepted as an argument. *)
Theorem startup_checks info w fees w' :
  start_up info w = Ret fees w' ->
  (info_network info = Testnet \/ info_network info = Regtest)
  /\ exists v, Ev (CRpc "getblockchaininfo" []) (Ok v) ∈ trace w'
               /\ chain_of v = Some (chain_name (info_network info)).
Proof.
  unfold start_up. intros Hr. apply bind_Ret_inv in Hr as ([f n] & w5 & Hp & Hr).
  unfold prepare in Hp. apply bind_Ret_inv in Hp as (f' & w1 & _ & Hp).
  apply bind_Ret_inv in Hp as ([] & w2 & Hc & Hp). apply bind_Ret_inv in Hp as ([] & w3 & Hs & Hp).
  split; [by eapply rgb_setup_services|]. apply check_chain_ret in Hc as (v & Ht & Hv). exists v. split; [|done].
  apply (ret_extends (rgb_setup info)) in Hs as (n1 & Ht1 & _); [|unfold appends, rgb_setup; pres].
  apply ret_extends in Hp as (n2 & Ht2 & _);
    [|unfold appends, keys_seed, open_wallet, get_bdk_wallet, RgbUtils.sync_wallet, read_network, read_scorer; pres].
  apply ret_extends in Hr as (n3 & Ht3 & _); [|unfold appends, open_manager, init_utxos, sync_monitors; pres].
  rewrite Ht3, Ht2, Ht1, Ht. in_list.
Qed.

(** A node that starts for the first time has an empty list of reserved
    outputs; a restarted one finds the list as it was.  Payments and trades
    are forgotten in both cases. *)
Theorem outputs_survive_restart info `{!Configured info} w fees w' :
  start_up info w = Ret fees w' ->
  inbound_payments w' = ∅ /\ outbound_payments w' = ∅ /\ whitelisted_trades w' = ∅ /\ maker_trades w' = ∅
  /\ exists restarting_node,
       Ev (CManagerFile (data_dir info +:+ "/manager")) restarting_node ∈ trace w'
       /\ fs w' !! Utxos.rgb_utxos_path =
          if restarting_node then fs w !! Utxos.rgb_utxos_path else Some (utxos_to_json []).
Proof.
  intros Hr. destruct (start_up_tables _ _ _ _ Hr) as (? & ? & ? & ?). split_and!; [done..|].
  destruct (start_up_utxos _ _ _ _ Hr) as (n & wm & b & wb & Hm & _ & Ht & Hf). by exists b.
Qed.

End Startup.

Example descriptor : calculate_descriptor_from_xprv "xprv" Regtest true = "wpkh(xprv/84'/1'/0'/1/*)"%string.
Proof. reflexivity. Qed.

Section Witnesses.
Import Mock.
Abbreviation MT := (mock_types_checks true).
#[local] Instance scenario_externals : @Externals MT :=
  mock_with true "dir/.ldk" ["node"; "u:p@host:18443"; "dir"; "9735"; "regtest"]%string.
#[local] Instance scenario_oracle : @Oracle MT := mock_oracle true (base_cfg true).

Definition started_info : Args.LdkUserInfo := {|
  Args.bitcoind_rpc_username := "u"; Args.bitcoind_rpc_password := "p"; Args.bitcoind_rpc_port := 18443;
  Args.bitcoind_rpc_host := "host"; Args.ldk_storage_dir_path := "dir"; Args.ldk_peer_listening_port := 9735;
  Args.ldk_announced_listen_addr := []; Args.ldk_announced_node_name := repeat 0 32; Args.info_network := Regtest |}.
#[local] Instance scenario_configured : Configured (T := MT) started_info.
Proof. by split. Defined.

Definition started_world : @World MT := final (start_up (T := MT) started_info (empty_world true)).

(** The mock command line is this configuration. *)
Example started_args : Args.parse_startup_args (T := MT) (empty_world true) = Ret (Ok started_info) (empty_world true).
Proof. vm_compute. reflexivity. Qed.

Lemma startup_checks_witness :
  exists v, chain_of v = Some "regtest"%string /\ Ev (CRpc "getblockchaininfo" []) (Ok v) ∈ trace started_world.
Proof.
  destruct (startup_checks (T := MT) started_info (empty_world true) Bitcoind.initial_fees started_world) as [_ (v & Hin & Hv)];
    [vm_compute; reflexivity|].
  exists v. split; [exact Hv|exact Hin].
Defined.

Lemma keys_seed_spec_witness :
  emitted (keys_seed (T := MT) "dir/.ldk/keys_seed") (empty_world true) =
  [Ev (@CReadBytes MT "dir/.ldk/keys_seed") None; Ev (@CFillBytes MT 32) (repeat 9 32);
   Ev (@CFileCreate MT "dir/.ldk/keys_seed") (Ok tt); Ev (@CFileWriteAll MT "dir/.ldk/keys_seed" (repeat 9 32)) true;
   Ev (@CFileSync MT "dir/.ldk/keys_seed") true].
Proof.
  pose proof (keys_seed_spec (T := MT) "dir/.ldk/keys_seed" (empty_world true)) as Hk.
  assert (answer (trace (empty_world true)) _ (@CReadBytes MT "dir/.ldk/keys_seed") = None) as Hn by reflexivity.
  rewrite Hn in Hk.
  apply (Hk (repeat 9 32) (final (keys_seed (T := MT) "dir/.ldk/keys_seed" (empty_world true)))).
  vm_compute. reflexivity.
Defined.

Lemma outputs_survive_restart_witness : inbound_payments started_world = ∅.
Proof.
  apply (outputs_survive_restart (T := MT) started_info (empty_world true) Bitcoind.initial_fees started_world).
  vm_compute. reflexivity.
Defined.

End Witnesses.
End Startup.
