(* ===== verification/Frame.v ===== *)
(** * What every part of the node does to its state

    [Closed R] lists the few ways the program touches its world: requests to
    the libraries within its limits ([request_ok]), writes of its files,
    spawned tasks, and the updates of the payment and trade tables.  Every
    command, event handler, task and loop preserves any [Closed] preorder
    ([Preserves R]); a property of the whole node is then an instance of
    [Closed]. *)

From Stdlib Require Import ZArith Lia Ascii String.
From stdpp Require Import base list strings gmap.
From S2P Require Import Prelude RustStd Floats Hex Swap Config Json World Effects Bitcoind Payments RgbUtils.
From S2P Require Import Trades MakerExecute Peers Utxos Assets Channels Cli Sweep Events.

Open Scope Z_scope.
Local Open Scope m_scope.

Module Frame.

Section Frame.
Context `{T : Types} {X : @Externals T} {O : @Oracle T}.

(** What the program may ask of LDK on its own: payments and invoices of at
    least the minimum, amounts of 64 bits, channels within the limits.  Lines
    are read from the terminal by the command loop only. *)
Definition request_ok (ev : Event) : Prop :=
  match ev with
  | Print _ => True
  | Ev c _ =>
      match c with
      | CReadLine => False
      | CPayInvoice inv _ =>
          exists a, invoice_amount_msat inv = Some a /\ INVOICE_MIN_MSAT <= a
      | CCreateInvoice _ amt _ expiry_secs cid amt_rgb =>
          (exists a, amt = Some a /\ INVOICE_MIN_MSAT <= a <= U64_MAX)
          /\ 0 <= expiry_secs <= U32_MAX /\ (is_Some cid <-> is_Some amt_rgb)
          /\ (forall a, amt_rgb = Some a -> 0 <= a <= U64_MAX)
      | CSendSpontaneousRetry _ _ _ _ msat _ => 0 <= msat <= U64_MAX
      | CCreateChannel _ sat push_msat _ config endpoint =>
          OPENCHANNEL_MIN_SAT <= sat <= OPENCHANNEL_MAX_SAT /\ 0 <= push_msat <= U64_MAX
          /\ cc_our_htlc_minimum_msat config = HTLC_MIN_MSAT
          /\ (endpoint = Some proxy_endpoint /\ DUST_LIMIT_MSAT <= push_msat \/ endpoint = None)
      | CSendOnion _ _ tlv_type _ => Cli.MIN_TLV_TYPE <= tlv_type <= U64_MAX
      | _ => True
      end
  end.

(** A trade whose amounts are 64-bit numbers. *)
Definition trade_typed (t : Swap.SwapType) : Prop :=
  u64 (Swap.amount_rgb t) /\ u64 (Swap.amount_msats t).

Class Closed (R : World -> World -> Prop) : Prop := {
  closed_preorder :: PreOrder R;
  closed_log : forall e w, request_ok e -> R w (log e w);
  (* files: the list of outputs is only ever replaced by a list of outputs *)
  closed_write : forall p c w, p <> Utxos.rgb_utxos_path -> R w (upd_fs (<[p := c]>) w);
  closed_remove : forall p w, p <> Utxos.rgb_utxos_path -> R w (upd_fs (delete p) w);
  closed_utxos : forall l w, R w (upd_fs (<[Utxos.rgb_utxos_path := utxos_to_json l]>) w);
  closed_spawn : forall t w, R w (upd_tasks (fun l => l ++ [t]) w);
  closed_take : forall k w, R w (upd_tasks (delete k) w);
  (* trades *)
  closed_whitelist : forall h cid t w, trade_typed t -> R w (upd_whitelisted (<[h := (cid, t)]>) w);
  closed_unlist : forall h w, R w (upd_whitelisted (delete h) w);
  closed_offer : forall h cid t w, trade_typed t -> R w (upd_maker (<[h := (cid, t)]>) w);
  closed_trade_done : forall h w, R w (upd_maker (delete h) w);
  (* payments *)
  closed_initiate : forall h p w, preimage p = None -> status p <> Succeeded ->
    R w (upd_outbound (<[h := p]>) w);
  closed_settle : forall h p pre w, outbound_payments w !! h = Some p ->
    R w (upd_outbound (<[h := Payments.settle pre p]>) w);
  closed_fail : forall h p w, outbound_payments w !! h = Some p ->
    R w (upd_outbound (<[h := Payments.fail p]>) w);
  closed_request : forall h s amt w,
    R w (upd_inbound (<[h := {| preimage := None; secret := Some s; status := Pending; amt_msat := Some amt |}]>) w);
  closed_claim : forall h pre s amt w,
    R w (upd_inbound (<[h := {| preimage := pre; secret := s; status := Succeeded;
           amt_msat := match inbound_payments w !! h with Some p => amt_msat p | None => Some amt end |}]>) w)
}.

(** ** What a computation returns *)

Definition Returns {A} (Q : A -> Prop) (m : M A) : Prop := forall w a w', m w = Ret a w' -> Q a.

Lemma returns_ret {A} (Q : A -> Prop) a : Q a -> Returns Q (ret a).
Proof. by intros Hq w a' w' [= <- _]. Qed.
Lemma returns_leave {A} (Q : A -> Prop) : Returns Q leave.
Proof. by intros w a w'. Qed.
Lemma returns_bind {A B} (Q : B -> Prop) (m : M A) k :
  (forall a, Returns Q (k a)) -> Returns Q (bind m k).
Proof. intros Hk w b w' (a & w1 & _ & Hr)%bind_Ret_inv. by eapply Hk. Qed.

(** Binding keeps what is known of the value. *)
Lemma pres_bind_returns R `{!PreOrder R} {A B} (Q : A -> Prop) (m : M A) (k : A -> M B) :
  Preserves R m -> Returns Q m -> (forall a, Q a -> Preserves R (k a)) -> Preserves R (bind m k).
Proof.
  intros Hm Hq Hk w. specialize (Hm w). unfold bind. destruct (m w) as [a w1|?|? ?|?] eqn:Ha; [|done..].
  etrans; [exact Hm|]. by eapply Hk, Hq.
Qed.

Lemma returns_price cid p :
  Returns (fun r => forall v, r = Ok v -> u64 v) (Trades.makerinit_price cid p).
Proof. intros w r w1 Hr v ->. by apply Trades.makerinit_price_fits in Hr. Qed.

Lemma u64_mul_typed a b c : u64 a -> u64 b -> u64_mul a b = Done c -> u64 c.
Proof. intros [Ha _] [Hb _]. by apply u64_mul_fits. Qed.

Lemma returns_swaptype side amt price :
  u64 amt -> u64 price -> Returns trade_typed (Trades.makerinit_swaptype side amt price).
Proof.
  intros Ha Hp w t w1 (_ & <- & Hm)%Trades.makerinit_swaptype_ret.
  split; [exact Ha|]. by eapply u64_mul_typed, Hm.
Qed.

Lemma returns_offer s : Returns (fun v => trade_typed (Swap.swap_type v)) (Trades.read_offer s).
Proof.
  intros w v w1 (Hf & _)%Trades.read_offer_ret. apply Swap.from_str_ok_inv in Hf as (o & t & Hd & Hs & ->).
  destruct Hd as (a & c & p & e & h & _ & Ha & _ & Hp & _).
  apply Swap.swap_of_side_amounts in Hs as (Hamt & Hm & _).
  apply parse_uint_fits in Ha, Hp; [|done..]. unfold trade_typed. cbn. rewrite Hamt.
  split; [exact Ha|]. by eapply u64_mul_typed, Hm.
Qed.

Lemma returns_swap_status t cid h pre path :
  Returns (fun st => st <> Succeeded) (MakerExecute.swap_send t cid h pre path).
Proof.
  unfold MakerExecute.swap_send. apply returns_bind. intros _. apply returns_bind. intros [|];
    do 2 (apply returns_bind; intros _); by apply returns_ret.
Qed.

Lemma returns_attempt inv : Returns (fun st => st <> Succeeded) (Payments.send_payment_attempt inv).
Proof. by intros w st w1 [Hs _]%Payments.send_payment_attempt_status. Qed.

(** ** The files the program writes are not the list of outputs *)

(** The text of a concealed seal is not an absolute path. *)
Class SealText : Prop := {
  seal_not_absolute : forall s c t, secret_seal_to_string s = String c t -> c <> slash
}.

Lemma other_file a : a <> "/rgb_utxos"%string -> ldk_data_dir +:+ a <> Utxos.rgb_utxos_path.
Proof. intros Ha Heq. apply Ha. unfold Utxos.rgb_utxos_path in Heq. by apply (inj (String.append ldk_data_dir)) in Heq. Qed.

Lemma blinded_dir_below :
  exists t, Assets.blinded_dir = ldk_data_dir +:+ String "b" t
            \/ Assets.blinded_dir = ldk_data_dir +:+ String "/" (String "b" t).
Proof.
  unfold Assets.blinded_dir. change (path_join ldk_data_dir "blinded_utxos") with
    (if ends_with_slash ldk_data_dir then ldk_data_dir +:+ "blinded_utxos"
     else ldk_data_dir +:+ String slash "blinded_utxos").
  destruct (ends_with_slash ldk_data_dir); eexists; [left|right]; reflexivity.
Qed.

Lemma below_blinded_other t : Assets.blinded_dir +:+ t <> Utxos.rgb_utxos_path.
Proof.
  destruct blinded_dir_below as [u [-> | ->]]; rewrite string_append_assoc; by apply other_file.
Qed.

Lemma blinded_file_other `{!SealText} s :
  path_join Assets.blinded_dir (secret_seal_to_string s) <> Utxos.rgb_utxos_path.
Proof.
  unfold path_join. pose proof (seal_not_absolute s) as Hs.
  destruct (secret_seal_to_string s) as [|c t].
  - destruct (ends_with_slash _); [|apply below_blinded_other].
    rewrite <- (string_app_nil Assets.blinded_dir). apply below_blinded_other.
  - destruct (ascii_dec c slash) as [Hc|_]; [by apply (Hs c t) in Hc|]. destruct (ends_with_slash _); apply below_blinded_other.
Qed.

Lemma read_dir_other w p :
  p ∈ List.filter (fun p => match rsplitn2 slash p with [_; d] => String.eqb d Assets.blinded_dir | _ => false end)
        (map fst (map_to_list (fs w))) -> p <> Utxos.rgb_utxos_path.
Proof.
  intros Hin%list_elem_of_In%filter_In ->. destruct Hin as [_ Hd]. revert Hd.
  unfold rsplitn2, Utxos.rgb_utxos_path. change "/rgb_utxos"%string with (String slash "rgb_utxos").
  rewrite rsplit_once_app by (by apply (bool_decide_unpack _)). intros Heq%String.eqb_eq.
  destruct blinded_dir_below as [u [Hb|Hb]]; rewrite Hb in Heq;
    rewrite <- (string_app_nil ldk_data_dir) in Heq at 1; by apply (inj (String.append ldk_data_dir)) in Heq.
Qed.

Section Closure.
Context (R : World -> World -> Prop) `{!Closed R} `{!SealText}.

Ltac frame_leaf :=
  match goal with
  | |- R _ (log _ _) => apply closed_log; exact I
  | |- R _ (upd_tasks _ _) => apply closed_spawn
  | |- R _ (upd_whitelisted (delete _) _) => apply closed_unlist
  | |- R _ (upd_maker (delete _) _) => apply closed_trade_done
  | |- R _ (upd_fs (<[Utxos.rgb_utxos_path := _]>) _) => apply closed_utxos
  | |- R _ (upd_fs _ _) => refine (closed_write _ _ _ _); 
      first [by apply other_file | apply blinded_file_other | rewrite string_append_assoc; by apply other_file]
  end.
Ltac frame := pres; try frame_leaf.

Import RgbUtils Payments Trades MakerExecute Peers Utxos Assets Channels Cli Sweep Events.

(** ** RGB utilities *)

Lemma frame_sync : Preserves R sync_wallet.
Proof. apply pres_sync_wallet; [typeclasses eauto|..]; intros; by apply closed_log. Qed.
Hint Resolve frame_sync : pres.
Lemma frame_broadcast tx : Preserves R (broadcast_tx tx).
Proof. unfold broadcast_tx. frame. Qed.
Hint Resolve frame_broadcast : pres.
Lemma frame_owned cid : Preserves R (get_asset_owned_values cid).
Proof. unfold get_asset_owned_values. frame. Qed.
Hint Resolve frame_owned : pres.
Lemma frame_total cid : Preserves R (get_rgb_total_amount cid).
Proof. unfold get_rgb_total_amount. frame. Qed.
Hint Resolve frame_total : pres.
Lemma frame_total_rgb cid : Preserves R (total_rgb_amount cid).
Proof. unfold total_rgb_amount. frame. Qed.
Hint Resolve frame_total_rgb : pres.
Lemma frame_issue_contract amt op ticker name p : Preserves R (issue_contract amt op ticker name p).
Proof. unfold issue_contract. frame. Qed.
Hint Resolve frame_issue_contract : pres.
Lemma frame_send_rgb cid psbt b bs : Preserves R (send_rgb cid psbt b bs).
Proof.
  apply send_rgb_events; [typeclasses eauto|]. intros ev w He. apply closed_log.
  destruct ev as [?|? c ?]; [done|]. by destruct c.
Qed.
Hint Resolve frame_send_rgb : pres.
Lemma frame_update_beneficiary psbt bs b aid amt :
  Preserves R (update_transition_beneficiary psbt bs b aid amt).
Proof. unfold update_transition_beneficiary. frame. Qed.
Hint Resolve frame_update_beneficiary : pres.

(** ** Outputs *)

Lemma frame_read_utxos : Preserves R read_utxos.
Proof. unfold read_utxos. frame. Qed.
Hint Resolve frame_read_utxos : pres.
Lemma frame_write_utxos l : Preserves R (write_utxos l).
Proof. unfold write_utxos. frame. Qed.
Hint Resolve frame_write_utxos : pres.
Lemma frame_check_uncolored : Preserves R check_uncolored_utxos.
Proof. unfold check_uncolored_utxos. frame. Qed.
Hint Resolve frame_check_uncolored : pres.
Lemma frame_get_utxo : Preserves R get_utxo.
Proof. unfold get_utxo. frame. Qed.
Hint Resolve frame_get_utxo : pres.
Lemma frame_reserve : Preserves R reserve_utxo.
Proof. unfold reserve_utxo. frame. Qed.
Hint Resolve frame_reserve : pres.
Lemma frame_available l : Preserves R (available_sats l).
Proof. unfold available_sats. frame. Qed.
Hint Resolve frame_available : pres.
Lemma frame_add_recipients n acc : Preserves R (add_recipients n acc).
Proof. revert acc. induction n as [|n IH]; intros acc; cbn [add_recipients]; frame; apply IH. Qed.
Hint Resolve frame_add_recipients : pres.
Lemma frame_create_tx l : Preserves R (create_tx l).
Proof. unfold create_tx. frame. Qed.
Hint Resolve frame_create_tx : pres.
Lemma frame_createutxos : Preserves R createutxos_cmd.
Proof. unfold createutxos_cmd. frame. Qed.

(** ** Assets *)

Lemma frame_mine words : Preserves R (mine_cmd words).
Proof.
  unfold mine_cmd, Bitcoind.mine, Bitcoind.get_new_address, Bitcoind.generate_to_adress, Bitcoind.call_method.
  frame.
Qed.
Lemma frame_listunspent : Preserves R listunspent_cmd.
Proof. unfold listunspent_cmd. frame. Qed.
Lemma frame_getaddress : Preserves R getaddress_cmd.
Proof. unfold getaddress_cmd. frame. Qed.
Lemma frame_issueasset words : Preserves R (issueasset_cmd words).
Proof. unfold issueasset_cmd. frame. Qed.
Lemma frame_assetbalance words : Preserves R (assetbalance_cmd words).
Proof. unfold assetbalance_cmd. frame. Qed.
Lemma frame_post url id path : Preserves R (post_consignment url id path).
Proof. unfold post_consignment. frame. Qed.
Hint Resolve frame_post : pres.
Lemma frame_build_transfer cid amt seal : Preserves R (build_transfer cid amt seal).
Proof. unfold build_transfer, assign_change. frame. Qed.
Hint Resolve frame_build_transfer : pres.
Lemma frame_deliver psbt c b : Preserves R (deliver_transfer psbt c b).
Proof. unfold deliver_transfer. frame. Qed.
Hint Resolve frame_deliver : pres.
Lemma frame_sendasset words : Preserves R (sendasset_cmd words).
Proof. unfold sendasset_cmd. frame. Qed.

Lemma frame_receiveasset : Preserves R receiveasset_cmd.
Proof. unfold receiveasset_cmd. frame. Qed.
Lemma frame_refresh_fetch path : Preserves R (refresh_fetch path).
Proof. unfold refresh_fetch, get_consignment. frame. Qed.
Hint Resolve frame_refresh_fetch : pres.
Lemma frame_refresh_import c : Preserves R (refresh_import c).
Proof. unfold refresh_import. frame. Qed.
Hint Resolve frame_refresh_import : pres.
Lemma frame_refresh_one path : path <> rgb_utxos_path -> Preserves R (refresh_one path).
Proof. intros Hp. unfold refresh_one. frame. by apply closed_remove. Qed.
Lemma frame_refresh_files l :
  (forall p, p ∈ l -> p <> rgb_utxos_path) ->
  Preserves R (for_each l (fun bf => scope (refresh_one bf)) ;;; println "Refresh complete").
Proof. intros Hl. frame. apply frame_refresh_one. by apply Hl. Qed.
Lemma frame_refresh : Preserves R refresh_cmd.
Proof.
  intros w. unfold refresh_cmd, read_dir. rewrite bind_gets. apply frame_refresh_files.
  intros p. apply read_dir_other.
Qed.

(** ** Peers *)

Lemma frame_parse_peer s : Preserves R (parse_peer_info s).
Proof. unfold parse_peer_info. frame. Qed.
Hint Resolve frame_parse_peer : pres.
Lemma frame_await n pk : Preserves R (await_connection n pk).
Proof. induction n as [|n IH]; cbn [await_connection]; frame; apply IH. Qed.
Hint Resolve frame_await : pres.
Lemma frame_do_connect n pk addr : Preserves R (do_connect_peer n pk addr).
Proof. unfold do_connect_peer. frame. Qed.
Hint Resolve frame_do_connect : pres.
Lemma frame_connect n pk addr : Preserves R (connect_peer_if_necessary n pk addr).
Proof. unfold connect_peer_if_necessary. frame. Qed.
Hint Resolve frame_connect : pres.
Lemma frame_do_disconnect pk : Preserves R (do_disconnect_peer pk).
Proof. unfold do_disconnect_peer. frame. Qed.
Hint Resolve frame_do_disconnect : pres.
Lemma frame_persist s : Preserves R (persist_channel_peer peer_data_path s).
Proof. unfold persist_channel_peer, peer_data_path. frame. Qed.
Hint Resolve frame_persist : pres.
Lemma frame_peer_lines l m : Preserves R (read_peer_lines l m).
Proof. revert m. induction l as [|x l IH]; intros m; cbn [read_peer_lines]; frame; apply IH. Qed.
Hint Resolve frame_peer_lines : pres.
Lemma frame_reconnect_nodes n info l : Preserves R (reconnect_nodes n info l).
Proof.
  induction l as [|x l IH]; cbn [reconnect_nodes]; [frame|]. unfold reconnect_node. frame.
Qed.
Hint Resolve frame_reconnect_nodes : pres.
Lemma frame_reconnect_turn n : Preserves R (reconnect_turn n).
Proof. unfold reconnect_turn, read_channel_peer_data. frame. Qed.
Lemma frame_connectpeer n words : Preserves R (connectpeer_cmd n words).
Proof. unfold connectpeer_cmd. frame. Qed.
Lemma frame_disconnectpeer words : Preserves R (disconnectpeer_cmd words).
Proof. unfold disconnectpeer_cmd. frame. Qed.

(** ** Channels *)

Lemma frame_funding_state id : Preserves R (funding_rgb_state id).
Proof. unfold funding_rgb_state. frame. Qed.
Hint Resolve frame_funding_state : pres.
Lemma frame_funding_psbt st l sc v : Preserves R (funding_psbt st l sc v).
Proof. unfold funding_psbt. frame. Qed.
Hint Resolve frame_funding_psbt : pres.
Lemma frame_funding_transition st p : Preserves R (funding_transition st p).
Proof. unfold funding_transition. frame. Qed.
Hint Resolve frame_funding_transition : pres.
Lemma frame_funding_records id l st c t p : Preserves R (funding_records id l st c t p).
Proof. unfold funding_records. frame. Qed.
Hint Resolve frame_funding_records : pres.
Lemma frame_funding_generation e : Preserves R (funding_generation_ready e).
Proof. unfold funding_generation_ready. frame. Qed.
Lemma frame_channel_ready id pk : Preserves R (channel_ready id pk).
Proof. unfold channel_ready. frame. Qed.
Lemma frame_payment_forwarded a b c d e : Preserves R (payment_forwarded a b c d e).
Proof. unfold payment_forwarded, node_str. frame. Qed.
Lemma frame_forward_htlcs min : Preserves R (forward_htlcs min).
Proof. unfold forward_htlcs, gen_range. frame. Qed.
Lemma frame_fund_channel id pk tx c : Preserves R (fund_channel id pk tx c).
Proof. unfold fund_channel, check_consignment. frame. Qed.
Lemma frame_run_task t : Preserves R (run_task t).
Proof.
  destruct t as [min|id pk tx c|tx|stream]; cbn [run_task].
  - apply frame_forward_htlcs.
  - apply pres_scope, frame_fund_channel.
  - unfold Bitcoind.send_raw_transaction, Bitcoind.logger_log, Bitcoind.logs_path. frame.
  - unfold setup_inbound. frame.
Qed.
Lemma frame_close words : Preserves R (closechannel_cmd words).
Proof. unfold closechannel_cmd, close_args, close_channel. frame. Qed.
Lemma frame_forceclose words : Preserves R (forceclosechannel_cmd words).
Proof. unfold forceclosechannel_cmd, close_args, force_close_channel. frame. Qed.

(** ** Trades *)

Lemma frame_fetch_price cid : Preserves R (fetch_price cid).
Proof. unfold fetch_price. frame. Qed.
Hint Resolve frame_fetch_price : pres.
Lemma frame_makerinit_price cid p : Preserves R (makerinit_price cid p).
Proof. unfold makerinit_price. frame. Qed.
Hint Resolve frame_makerinit_price : pres.
Lemma frame_makerinit_swaptype s a p : Preserves R (makerinit_swaptype s a p).
Proof. unfold makerinit_swaptype. frame. Qed.
Hint Resolve frame_makerinit_swaptype : pres.
Lemma frame_publish cid amt price timeout t :
  trade_typed t -> Preserves R (makerinit_publish cid amt price timeout t).
Proof.
  intros Ht. unfold makerinit_publish, maker_init, get_current_timestamp. frame. by apply closed_offer.
Qed.
Lemma frame_makerinit words : Preserves R (makerinit_cmd words).
Proof.
  unfold makerinit_cmd.
  repeat first
    [ match goal with
      | |- Preserves _ (bind (makerinit_price _ _) _) =>
          apply (pres_bind_returns _ _ _ _ (frame_makerinit_price _ _) (returns_price _ _)); intros ? Hprice
      | |- Preserves _ (bind (makerinit_swaptype _ _ _) _) =>
          apply (pres_bind_returns _ trade_typed); [apply frame_makerinit_swaptype|apply returns_swaptype|intros ? ?]
      | |- Preserves _ (bind (bind _ _) _) => apply pres_bind_assoc
      | |- Preserves _ (bind (ret _) _) => apply pres_bind_ret; cbn beta iota
      | |- Preserves _ (bind leave _) => apply pres_bind_leave; typeclasses eauto
      | |- Preserves _ (bind (match ?x with _ => _ end) _) => destruct x eqn:?
      | |- Preserves _ (makerinit_publish _ _ _ _ _) => by apply frame_publish
      end
    | pres_step ]; try frame_leaf.
  - by eapply parse_uint_fits; [|eassumption].
  - match goal with H : unwrap_ok ?r = Done _ |- _ => destruct r; [|done]; injection H as <- end. auto.
Qed.
Lemma frame_read_offer s : Preserves R (read_offer s).
Proof. unfold read_offer, get_current_timestamp. frame. Qed.
Hint Resolve frame_read_offer : pres.
Lemma frame_taker words : Preserves R (taker_cmd words).
Proof.
  unfold taker_cmd. destruct (next words) as [[s|] ?]; [|frame].
  apply (pres_bind_returns _ _ _ _ (frame_read_offer _) (returns_offer _)). intros v Hv. frame.
  by apply closed_whitelist.
Qed.
Lemma frame_print_trade kv : Preserves R (print_trade kv).
Proof. unfold print_trade. frame. Qed.
Hint Resolve frame_print_trade : pres.
Lemma frame_tradeslist words : Preserves R (tradeslist_cmd words).
Proof. unfold tradeslist_cmd. frame. Qed.
Lemma frame_htlc_intercepted e : Preserves R (htlc_intercepted e).
Proof.
  unfold htlc_intercepted, intercept_context, intercept_decide, reject, fail_intercepted_htlc, get_rgb_info. frame.
Qed.

(** ** Payments *)

Lemma frame_record h p :
  preimage p = None -> status p <> Succeeded -> Preserves R (record_outbound h p).
Proof. intros Hp Hs w. by apply closed_initiate. Qed.

Lemma frame_payment_claimable h pu a : Preserves R (payment_claimable h pu a).
Proof. unfold payment_claimable. frame. Qed.
Lemma frame_payment_claimed h pu a : Preserves R (payment_claimed h pu a).
Proof.
  intros w. unfold payment_claimed. mrun.
  assert (forall pre s e1 e2 e3, request_ok e1 -> request_ok e2 -> request_ok e3 ->
    let w1 := log e2 (log e1 w) in
    R w (upd_maker (delete h) (log e3 (upd_inbound (<[h := {| preimage := pre; secret := s; status := Succeeded;
           amt_msat := match inbound_payments w1 !! h with Some p => amt_msat p | None => Some a end |}]>) w1)))) as Hc.
  { intros pre s e1 e2 e3 H1 H2 H3 w1. etrans; [|apply closed_trade_done]. etrans; [|by apply closed_log].
    etrans; [|apply closed_claim]. etrans; by apply closed_log. }
  destruct pu as [pre s|pre]; mrun; cbn [inbound_payments log] in *; destruct (inbound_payments w !! h); mrun;
    apply Hc; exact I.
Qed.
Lemma frame_payment_failed h r : Preserves R (payment_failed h r).
Proof.
  intros w. unfold payment_failed. mrun. cbn [outbound_payments log].
  match goal with |- R _ (final (_ ?w1)) => trans w1; [etrans; by apply closed_log|] end.
  destruct (outbound_payments w !! h) as [p|] eqn:Hp; [|reflexivity]. cbn. by apply closed_fail.
Qed.
Lemma frame_payment_sent pre h fee : Preserves R (payment_sent pre h fee).
Proof.
  intros w. destruct (outbound_payments w !! h) as [p|] eqn:Hp.
  - rewrite (payment_sent_known _ _ _ _ _ Hp). cbn [final].
    etrans; [by apply (closed_settle h p pre)|]. etrans; [|by apply closed_log]. etrans; by apply closed_log.
  - rewrite (payment_sent_unknown _ _ _ _ Hp). by apply closed_log.
Qed.

Lemma frame_attempt inv :
  (exists a, invoice_amount_msat inv = Some a /\ INVOICE_MIN_MSAT <= a) ->
  Preserves R (send_payment_attempt inv).
Proof. intros Hi. unfold send_payment_attempt. frame; by apply closed_log. Qed.
Lemma frame_send_payment inv :
  (exists a, invoice_amount_msat inv = Some a /\ INVOICE_MIN_MSAT <= a) -> Preserves R (send_payment inv).
Proof.
  intros Hi. unfold send_payment.
  apply (pres_bind_returns _ _ _ _ (frame_attempt _ Hi) (returns_attempt _)). intros st Hst. by apply frame_record.
Qed.
Lemma frame_keysend pk amt rgb : u64 amt -> Preserves R (keysend pk amt rgb).
Proof.
  intros Ha. unfold keysend, record_outbound. pres_cases; try frame_leaf; try (by apply closed_log);
    by apply closed_initiate.
Qed.
Lemma frame_get_invoice amt expiry cid rgb :
  INVOICE_MIN_MSAT <= amt <= U64_MAX -> 0 <= expiry <= U32_MAX -> (is_Some cid <-> is_Some rgb) ->
  (forall a, rgb = Some a -> 0 <= a <= U64_MAX) ->
  Preserves R (get_invoice amt expiry cid rgb).
Proof.
  intros Ha He Hc Hr. unfold get_invoice. frame; [|by apply closed_request].
  apply closed_log. split_and!; eauto; lia.
Qed.
Lemma frame_invoice_status inv : Preserves R (invoice_status inv).
Proof. unfold invoice_status. frame. Qed.
Hint Resolve frame_invoice_status : pres.
Lemma frame_list_payments : Preserves R list_payments.
Proof. unfold list_payments, print_payment. frame. Qed.

(** ** Swaps *)

Lemma frame_maker_route pk t cid h sec : Preserves R (maker_route pk t cid h sec).
Proof. unfold maker_route, swap_legs, get_route. frame. Qed.
Lemma frame_swap_send t cid h pre path : Preserves R (swap_send t cid h pre path).
Proof. unfold swap_send. frame. Qed.
Lemma frame_maker_execute pk t cid h sec : Preserves R (maker_execute pk t cid h sec).
Proof.
  unfold maker_execute. apply pres_bind; [typeclasses eauto|apply frame_maker_route|intros [pre path]].
  apply (pres_bind_returns _ _ _ _ (frame_swap_send _ _ _ _ _) (returns_swap_status _ _ _ _ _)).
  intros st Hst. by apply frame_record.
Qed.
Hint Resolve frame_maker_execute : pres.
Lemma frame_makerexecute words : Preserves R (makerexecute_cmd words).
Proof. unfold makerexecute_cmd. frame. Qed.

(** ** Opening a channel *)

Lemma frame_open_channel pk sat push ann c :
  OPENCHANNEL_MIN_SAT <= sat <= OPENCHANNEL_MAX_SAT -> 0 <= push <= U64_MAX ->
  (c = true -> DUST_LIMIT_MSAT <= push) -> Preserves R (open_channel pk sat push ann c).
Proof.
  intros Hs Hp Hd. unfold open_channel. destruct c; pres_cases; try frame_leaf; apply closed_log; cbn; auto 8.
Qed.
Lemma frame_openchannel n c words : Preserves R (openchannel_cmd n c words).
Proof.
  unfold openchannel_cmd, parse_public, peer_info_or_leave, channel_amount, push_amount, channel_rgb_info.
  pres_cases; try frame_leaf.
  all: apply frame_open_channel; cbn [andb] in *; reflect_bools;
    repeat match goal with H : parse_uint _ _ = Ok _ |- _ => apply parse_uint_fits in H; [|done] end;
    unfold fits, OPENCHANNEL_MIN_SAT, OPENCHANNEL_MAX_SAT, DUST_LIMIT_MSAT in *; first [done|lia].
Qed.

(** ** Sweeping *)

Lemma frame_sweep_transition c p : Preserves R (sweep_transition c p).
Proof. unfold sweep_transition. frame. Qed.
Hint Resolve frame_sweep_transition : pres.
Lemma frame_coloring op : Preserves R (coloring op).
Proof. unfold coloring, consume_transfer, accept_closing. frame. Qed.
Hint Resolve frame_coloring : pres.
Lemma frame_key_wallet k op d dr c : Preserves R (key_wallet_tx k op d dr c).
Proof. unfold key_wallet_tx, get_bdk_wallet_seckey, sync_key_wallet. frame. Qed.
Hint Resolve frame_key_wallet : pres.
Lemma frame_sweep_tx d dr c : Preserves R (sweep_tx d dr c).
Proof. unfold sweep_tx, delayed_tx. frame. Qed.
Hint Resolve frame_sweep_tx : pres.
Lemma frame_spendable outputs : Preserves R (spendable_outputs outputs).
Proof. unfold spendable_outputs, sweep_output, record_sweep. frame. Qed.

(** ** The commands of Cli.v *)

Lemma frame_sendpayment words : Preserves R (sendpayment_cmd words).
Proof.
  unfold sendpayment_cmd. pres_cases; try frame_leaf. apply frame_send_payment. reflect_bools. eauto.
Qed.
Lemma frame_keysend_rgb amt words : Preserves R (keysend_rgb amt words).
Proof. unfold keysend_rgb. frame. Qed.
Hint Resolve frame_keysend_rgb : pres.
Lemma frame_keysend_cmd c words : Preserves R (keysend_cmd c words).
Proof.
  unfold keysend_cmd. pres_cases; try frame_leaf; apply frame_keysend; (by eapply parse_uint_fits; [|eassumption]).
Qed.
Lemma frame_getinvoice c words : Preserves R (getinvoice_cmd c words).
Proof.
  unfold getinvoice_cmd, invoice_rgb. pres_cases; try frame_leaf; apply frame_get_invoice; try done;
    reflect_bools; repeat match goal with H : parse_uint _ _ = Ok _ |- _ => apply parse_uint_fits in H; [|done] end;
    unfold fits in *; try lia; by intros ? [= <-].
Qed.
Lemma frame_invoicestatus words : Preserves R (invoicestatus_cmd words).
Proof. unfold invoicestatus_cmd. frame. Qed.
Lemma frame_node_info : Preserves R node_info.
Proof. unfold node_info. frame. Qed.
Lemma frame_list_peers : Preserves R list_peers.
Proof. unfold list_peers. frame. Qed.
Lemma frame_list_channel d : Preserves R (list_channel d).
Proof. unfold list_channel, println_opt, channel_rgb_amounts. frame. Qed.
Hint Resolve frame_list_channel : pres.
Lemma frame_list_channels : Preserves R list_channels.
Proof. unfold list_channels. frame. Qed.
Lemma frame_signmessage line : Preserves R (signmessage_cmd line).
Proof. unfold signmessage_cmd. frame. Qed.
Lemma frame_onion_path l pks : Preserves R (onion_path l pks).
Proof. revert pks. induction l as [|x l IH]; intros pks; cbn [onion_path]; frame; apply IH. Qed.
Hint Resolve frame_onion_path : pres.
Lemma frame_onion_contents words : Preserves R (onion_contents words).
Proof. unfold onion_contents. frame. Qed.
Lemma returns_onion_contents words :
  Returns (fun c => MIN_TLV_TYPE <= tlv_type c <= U64_MAX) (onion_contents words).
Proof.
  intros w c w1. unfold onion_contents. destruct (next words) as [[ty|] ws]; cbn [option_map]; [|intros Hr; msolve_in Hr].
  destruct (parse_uint U64_MAX ty) as [n|] eqn:Hn; [|intros Hr; msolve_in Hr].
  destruct (MIN_TLV_TYPE <=? n) eqn:Hle; [|intros Hr; msolve_in Hr]. intros Hr. msolve_in Hr.
  injection Hr as <- _. apply parse_uint_fits in Hn; [|done]. unfold fits in Hn. reflect_bools. cbn. lia.
Qed.
Lemma frame_sendonion words : Preserves R (sendonionmessage_cmd words).
Proof.
  unfold sendonionmessage_cmd.
  repeat first
    [ match goal with
      | |- Preserves _ (bind (onion_contents _) _) =>
          apply (pres_bind_returns _ _ _ _ (frame_onion_contents _) (returns_onion_contents _)); intros ? ?
      end
    | pres_step ]; try frame_leaf. by apply closed_log.
Qed.
Lemma frame_help : Preserves R help.
Proof. unfold help. frame. Qed.

(** Every command. *)
Lemma frame_command n c line words : Preserves R (run_command n c line words).
Proof.
  destruct c; cbn [run_command]; auto using frame_help, frame_mine, frame_listunspent, frame_getaddress,
    frame_createutxos, frame_issueasset, frame_assetbalance, frame_sendasset, frame_receiveasset,
    frame_refresh, frame_openchannel, frame_sendpayment, frame_keysend_cmd, frame_getinvoice,
    frame_connectpeer, frame_disconnectpeer, frame_list_channels, frame_makerinit.
  all: auto using frame_taker, frame_tradeslist, frame_makerexecute, frame_list_payments,
    frame_invoicestatus, frame_close, frame_forceclose, frame_node_info, frame_list_peers,
    frame_signmessage, frame_sendonion.
  frame.
Qed.

Lemma frame_dispatch n word line words : Preserves R (dispatch n word line words).
Proof.
  unfold dispatch. destruct (command_of word) as [c|]; [|frame].
  destruct c; apply pres_bind; try typeclasses eauto; try (intros _; frame);
    first [apply pres_scope; apply frame_command | apply frame_command].
Qed.

(** ** Events *)

Lemma frame_event e : Preserves R (handle_ldk_events e).
Proof.
  apply pres_scope. destruct e; cbn [handle_event]; try (apply pres_ret; typeclasses eauto).
  - apply frame_funding_generation.
  - apply frame_payment_claimable.
  - apply frame_payment_claimed.
  - apply frame_payment_sent.
  - apply frame_payment_failed.
  - apply frame_payment_forwarded.
  - unfold pending_htlcs_forwardable. frame.
  - apply frame_spendable.
  - unfold channel_pending. frame.
  - apply frame_channel_ready.
  - unfold channel_closed. frame.
  - apply frame_htlc_intercepted.
Qed.

End Closure.
End Frame.

#[global] Existing Instance closed_preorder.

End Frame.
