(* ===== verification/Waiting.v ===== *)
(** * Waiting: which commands end

    The only place where the program waits without a bound is the polling loop
    of [do_connect_peer] (Peers.v).  [Settled] says that every connection
    attempt is answered within the polls it is given; then no command and no
    turn of the command loop is left waiting. *)

From Stdlib Require Import ZArith Lia Ascii String.
From stdpp Require Import base list strings gmap.
From S2P Require Import Prelude RustStd Config World Effects Bitcoind Payments RgbUtils Trades MakerExecute.
From S2P Require Import Peers Utxos Assets Channels Cli.

Open Scope Z_scope.

Module Waiting.

Section Waiting.
Context `{T : Types} {X : @Externals T} {O : @Oracle T}.
Context (patience : nat).

(** Whatever has happened before, one of the polls finds the connection closed
    or the peer listed. *)
Class Settled : Prop := {
  settles : forall pk h, exists j, (j < patience)%nat
    /\ (Peers.closed_at pk h j = true \/ Peers.listed_at pk h j = true)
}.
Context `{!Settled}.

Lemma first_answer_within pk h : exists k, (k < patience)%nat /\ Peers.first_answer pk h k.
Proof.
  destruct (settles pk h) as (j & Hj & Ha). revert Hj Ha. induction (lt_wf j) as [j _ IH]. intros Hj Ha.
  set (early := fun i => Peers.closed_at pk h i || Peers.listed_at pk h i).
  destruct (existsb early (seq 0 j)) eqn:He.
  - apply existsb_exists in He as (i & Hi & Hb). apply in_seq in Hi. apply orb_true_iff in Hb.
    apply (IH i); [lia|lia|done].
  - exists j. split; [done|]. split; [|done]. intros i Hi.
    apply orb_false_iff. apply not_true_iff_false. intros Hb. apply not_true_iff_false in He. apply He.
    apply existsb_exists. exists i. split; [apply in_seq; lia|done].
Qed.

Lemma never_connect pk addr : Never Waiting (Peers.do_connect_peer patience pk addr).
Proof.
  intros w. destruct (first_answer_within pk (trace w ++ [Ev (CConnectOutbound pk addr) true])) as (k & Hk & Hf).
  unfold Peers.do_connect_peer. mrun. destruct (answer _ _ (CConnectOutbound pk addr)) eqn:Ha; [|done].
  destruct (Peers.await_answers pk _ k Hf patience 0 (log (Ev (CConnectOutbound pk addr) true) w)) as [Hr _]; [done|lia|].
  destruct (Hr Hk) as (w' & -> & _). done.
Qed.

Lemma never_read_lines l m : Never Waiting (Peers.read_peer_lines l m).
Proof. revert m. induction l as [|s l IH]; intros m; cbn [Peers.read_peer_lines]; never_deep; apply IH. Qed.
Lemma never_group_inputs l m : Never Waiting (RgbUtils.group_inputs l m).
Proof. revert m. induction l as [|o l IH]; intros m; cbn [RgbUtils.group_inputs]; never_deep; apply IH. Qed.
Lemma never_set_consumers cid t ins i l p : Never Waiting (RgbUtils.set_consumers cid t ins i l p).
Proof. revert i p. induction l as [|o l IH]; intros i p; cbn [RgbUtils.set_consumers]; never_deep; apply IH. Qed.
Lemma never_add_recipients n acc : Never Waiting (Utxos.add_recipients n acc).
Proof. revert acc. induction n as [|n IH]; intros acc; cbn [Utxos.add_recipients]; never_deep; apply IH. Qed.
Lemma never_onion_path l acc : Never Waiting (Cli.onion_path l acc).
Proof. revert acc. induction l as [|s l IH]; intros acc; cbn [Cli.onion_path]; never_deep; apply IH. Qed.
Hint Resolve never_connect never_read_lines never_group_inputs never_set_consumers never_add_recipients
  never_onion_path : never.

Lemma never_command c line words : Never Waiting (Cli.run_command patience c line words).
Proof. destruct c; cbn [Cli.run_command]; never_deep. Qed.

Lemma never_dispatch word line words : Never Waiting (Cli.dispatch patience word line words).
Proof.
  pose proof never_command as Hc. unfold Cli.dispatch. destruct (Cli.command_of word) as [c|]; [|never_deep].
  destruct c; apply never_bind; try (intros _; apply never_ret); try apply never_scope_waiting; apply Hc.
Qed.

Lemma never_turn : Never Waiting (Cli.poll_turn patience).
Proof. pose proof never_dispatch as Hd. unfold Cli.poll_turn. never; apply Hd. Qed.

End Waiting.
End Waiting.
