(* ===== verification/Node.v ===== *)
(** * The whole node

    The parts of the program run as tasks that share the node's world: the
    command loop, the handler of LDK events, the tasks it spawns, the
    reconnection loop, the listener of peers, the pollers of blocks and fees and
    the announcements; when the command loop has ended, the shutdown.  [step] is
    one turn of one of them, [act] its executable form; a turn runs to its end
    before the next begins.  A panic aborts the process and a turn that waits
    for a connection has not ended, so only turns that return lead to another
    state. *)

From Stdlib Require Import ZArith Lia Ascii String.
From stdpp Require Import base list strings gmap relations.
From S2P Require Import Prelude RustStd Floats Hex Swap Config Json World Effects Mock Args Bitcoind Payments.
From S2P Require Import RgbUtils Trades MakerExecute Peers Utxos Assets Channels Cli Sweep Events Startup Frame Waiting.

Open Scope Z_scope.

Module Node.

Section Node.
Context `{T : Types} {X : @Externals T} {O : @Oracle T}.
Context (patience : nat).

Inductive Listener := Unbound | Accepting | Closed.

Record Node := {
  info : Args.LdkUserInfo;
  world : World;
  fees : Bitcoind.FeeTable;
  (* the command loop runs; the reconnection task has not been stopped *)
  cli_open : bool;
  reconnecting : bool;
  listener : Listener;
  (* [start_ldk] has not returned *)
  running : bool
}.

Definition with_world (n : Node) (w : World) : Node :=
  {| info := info n; world := w; fees := fees n; cli_open := cli_open n; reconnecting := reconnecting n;
     listener := listener n; running := running n |}.
Definition with_fees (n : Node) (f : Bitcoind.FeeTable) : Node :=
  {| info := info n; world := world n; fees := f; cli_open := cli_open n; reconnecting := reconnecting n;
     listener := listener n; running := running n |}.
Definition with_cli (n : Node) (b : bool) : Node :=
  {| info := info n; world := world n; fees := fees n; cli_open := b; reconnecting := reconnecting n;
     listener := listener n; running := running n |}.
Definition with_reconnecting (n : Node) (b : bool) : Node :=
  {| info := info n; world := world n; fees := fees n; cli_open := cli_open n; reconnecting := b;
     listener := listener n; running := running n |}.
Definition with_listener (n : Node) (l : Listener) : Node :=
  {| info := info n; world := world n; fees := fees n; cli_open := cli_open n; reconnecting := reconnecting n;
     listener := l; running := running n |}.
Definition stopped (n : Node) : Node :=
  {| info := info n; world := world n; fees := fees n; cli_open := cli_open n; reconnecting := reconnecting n;
     listener := listener n; running := false |}.

(** The state in which [start_ldk] spawns its tasks. *)
Definition started (i : Args.LdkUserInfo) (w : World) (n : Node) : Prop :=
  exists f w', Startup.start_up i w = Ret f w'
    /\ n = {| info := i; world := w'; fees := f; cli_open := true; reconnecting := true;
            listener := Unbound; running := true |}.

Inductive Action :=
| AEvent (e : Events.LdkEvent)
| ATask (k : nat)
| ALine
| AReconnect
| AFees
| AAnnounce
| AListen
| APollTip
| AShutDown.

(** The node after a turn that returns; a panic aborts it. *)
Definition after {A} (n : Node) (m : M A) (update : Node -> A -> Node) : option Node :=
  match m (world n) with Ret a w => Some (update (with_world n w) a) | _ => None end.

Definition turn (a : Action) (n : Node) : option Node :=
  match a with
  | AEvent e => after n (Events.handle_ldk_events e) (fun n _ => n)
  | ATask k =>
      t ← tasks (world n) !! k;
      after (with_world n (upd_tasks (delete k) (world n))) (Channels.run_task t) (fun n _ => n)
  | ALine => if cli_open n then after n (Cli.poll_turn patience) with_cli else None
  | AReconnect => if reconnecting n then after n (Peers.reconnect_turn patience) with_reconnecting else None
  | AFees => after n (Bitcoind.poll_for_fee_estimates (fees n)) with_fees
  | AAnnounce => after n (Startup.announce (info n)) (fun n _ => n)
  | AListen =>
      match listener n with
      | Unbound => after n (Startup.bind_listener (info n)) (fun n _ => with_listener n Accepting)
      | Accepting => after n Startup.accept_turn (fun n continues => if continues then n else with_listener n Closed)
      | Closed => None
      end
  | APollTip => after n Startup.poll_tip (fun n _ => n)
  | AShutDown => if cli_open n then None else after n Startup.shut_down (fun n _ => stopped n)
  end.

Definition act (a : Action) (n : Node) : option Node := if running n then turn a n else None.

Inductive step : Node -> Node -> Prop :=
| step_act a n n' : act a n = Some n' -> step n n'.

(** A schedule: actions in order, as long as none panics. *)
Fixpoint run_actions (l : list Action) (n : Node) : option Node :=
  match l with
  | [] => Some n
  | a :: l => n' ← act a n; run_actions l n'
  end.

Lemma run_actions_rtc l n n' : run_actions l n = Some n' -> rtc step n n'.
Proof.
  revert n. induction l as [|a l IH]; intros n Hr; [by injection Hr as ->|].
  apply bind_Some in Hr as (n1 & Ha & Hr). eapply rtc_l; [by eapply step_act|by apply IH].
Qed.

(** ** Invariants *)

(** The fee poller, the announcements and reading a line touch nothing else. *)
Definition line_read (ev : Event) : Prop :=
  match ev with Ev c _ => match c with CReadLine => True | _ => False end | Print _ => False end.
Definition node_request (ev : Event) : Prop := Frame.request_ok ev \/ line_read ev.

Class Reads (R : World -> World -> Prop) : Prop := {
  reads_line : forall r w, R w (log (Ev CReadLine r) w)
}.

Section Steps.
Context (R : World -> World -> Prop) `{!Frame.Closed R} `{!Reads R} `{!Frame.SealText}.

Lemma frame_turn : Preserves R (Cli.poll_turn patience).
Proof.
  unfold Cli.poll_turn. pres; try (apply Frame.closed_log; exact I); try apply reads_line.
  by apply Frame.frame_dispatch.
Qed.

Lemma frame_estimate c m f : Preserves R (Bitcoind.estimate c m f).
Proof. unfold Bitcoind.estimate, Bitcoind.call_method. pres; apply Frame.closed_log; exact I. Qed.

Lemma frame_fees f : Preserves R (Bitcoind.poll_for_fee_estimates f).
Proof.
  unfold Bitcoind.poll_for_fee_estimates. pres; auto using frame_estimate. apply Frame.closed_log; exact I.
Qed.

Lemma frame_announce i : Preserves R (Startup.announce i).
Proof. unfold Startup.announce. pres. apply Frame.closed_log; exact I. Qed.

Lemma after_world {A} n (m : M A) update n' :
  Preserves R m -> (forall n a, world (update n a) = world n) -> after n m update = Some n' ->
  R (world n) (world n').
Proof.
  intros Hp Hu Ha. specialize (Hp (world n)). unfold after in Ha. destruct (m (world n)) as [a w| | |]; [|done..].
  injection Ha as <-. by rewrite Hu.
Qed.

Lemma frame_listen i : Preserves R (Startup.bind_listener i).
Proof. unfold Startup.bind_listener. pres. apply Frame.closed_log; exact I. Qed.

Lemma frame_accept : Preserves R Startup.accept_turn.
Proof. unfold Startup.accept_turn, spawn. pres; first [apply Frame.closed_log; exact I | apply Frame.closed_spawn]. Qed.

Lemma frame_poll_tip : Preserves R Startup.poll_tip.
Proof. unfold Startup.poll_tip. pres. apply Frame.closed_log; exact I. Qed.

Lemma frame_shut_down : Preserves R Startup.shut_down.
Proof. unfold Startup.shut_down. pres; apply Frame.closed_log; exact I. Qed.

Lemma step_world n n' : step n n' -> R (world n) (world n').
Proof.
  intros [a n1 n2 Ha]. unfold act in Ha. destruct (running n1); [|done].
  destruct a as [e|k| | | | | | |]; cbn [turn] in Ha; repeat case_match; try done;
    try (eapply after_world in Ha; [exact Ha| |by intros ? []];
         eauto using Frame.frame_event, frame_turn, Frame.frame_reconnect_turn, frame_fees, frame_announce,
           frame_listen, frame_accept, frame_poll_tip, frame_shut_down).
  destruct (tasks (world n1) !! k) as [t|]; [|done]. eapply after_world in Ha; [|by apply Frame.frame_run_task|done].
  etrans; [apply Frame.closed_take|exact Ha].
Qed.

Lemma steps_world n n' : rtc step n n' -> R (world n) (world n').
Proof. induction 1 as [|n1 n2 n3 Hs _ IH]; [reflexivity|]. etrans; [by apply step_world|exact IH]. Qed.
End Steps.

(** Requests: every event of a run is one the program may cause. *)
#[local] Instance closed_requests : Frame.Closed (grows node_request).
Proof.
  split; try (intros; by apply grows_same).
  - typeclasses eauto.
  - intros e w He. apply grows_log. by left.
Qed.
#[local] Instance reads_requests : Reads (grows node_request).
Proof. split. intros r w. apply grows_log. by right. Qed.

(** Payments: both tables move along their automata. *)
Definition payments_move (w w' : World) : Prop :=
  rtc Payments.out_step (outbound_payments w) (outbound_payments w')
  /\ rtc Payments.in_step (inbound_payments w) (inbound_payments w').

#[local] Instance closed_payments : Frame.Closed payments_move.
Proof.
  split; try (intros; split; reflexivity).
  - split.
    + intros w. by split.
    + intros w1 w2 w3 [H1 H2] [H3 H4]. split; by etrans.
  - intros h p w Hp Hs. split; [|reflexivity]. apply rtc_once. by apply Payments.out_initiate.
  - intros h p pre w Hp. split; [|reflexivity]. apply rtc_once. by apply Payments.out_settle.
  - intros h p w Hp. split; [|reflexivity]. apply rtc_once. by apply Payments.out_fail.
  - intros h s amt w. split; [reflexivity|]. apply rtc_once, Payments.in_request.
  - intros h pre s amt w. split; [reflexivity|]. apply rtc_once, Payments.in_claim.
Qed.
#[local] Instance reads_payments : Reads payments_move.
Proof. split. intros r w. by split. Qed.

Definition payments_ok (w : World) : Prop :=
  Payments.out_inv (outbound_payments w) /\ Payments.in_inv (inbound_payments w).

Lemma payments_move_ok w w' : payments_move w w' -> payments_ok w -> payments_ok w'.
Proof.
  intros [Ho Hi] [Hoi Hii]. split.
  - clear Hi. induction Ho; eauto using Payments.out_inv_step.
  - clear Ho. induction Hi; eauto using Payments.in_inv_step.
Qed.

(** Trades: the amounts of every entry are 64-bit numbers. *)
Definition trades_typed (w : World) : Prop :=
  map_Forall (fun _ e => Frame.trade_typed (snd e)) (whitelisted_trades w)
  /\ map_Forall (fun _ e => Frame.trade_typed (snd e)) (maker_trades w).
Definition keeps_typed (w w' : World) : Prop := trades_typed w -> trades_typed w'.

#[local] Instance closed_typed : Frame.Closed keeps_typed.
Proof.
  split; try (intros; by intros ?).
  - split; [by intros w Ht|intros w1 w2 w3 H1 H2 Ht; by apply H2, H1].
  - intros h cid t w Ht [Hw Hm]. split; [by apply map_Forall_insert_2|done].
  - intros h w [Hw Hm]. split; [by apply map_Forall_delete|done].
  - intros h cid t w Ht [Hw Hm]. split; [done|by apply map_Forall_insert_2].
  - intros h w [Hw Hm]. split; [done|by apply map_Forall_delete].
Qed.
#[local] Instance reads_typed : Reads keeps_typed.
Proof. split. by intros r w Ht. Qed.

(** Files: the list of outputs can be read. *)
Definition outputs_readable (w : World) : Prop :=
  exists l, fs w !! Utxos.rgb_utxos_path = Some (utxos_to_json l).
Definition keeps_readable (w w' : World) : Prop := outputs_readable w -> outputs_readable w'.

#[local] Instance closed_readable : Frame.Closed keeps_readable.
Proof.
  split; try (intros; by intros ?).
  - split; [by intros w Ht|intros w1 w2 w3 H1 H2 Ht; by apply H2, H1].
  - intros p c w Hp [l Hl]. exists l. cbn. by rewrite lookup_insert_ne.
  - intros p w Hp [l Hl]. exists l. cbn. by rewrite lookup_delete_ne.
  - intros l w _. exists l. cbn. by rewrite lookup_insert_eq.
Qed.
#[local] Instance reads_readable : Reads keeps_readable.
Proof. split. by intros r w Ht. Qed.

(** Fees. *)
Lemma after_fees {A} n (m : M A) update n' :
  (forall n a, fees (update n a) = fees n) -> after n m update = Some n' -> fees n' = fees n.
Proof. unfold after. intros Hu Ha. destruct (m (world n)); [|done..]. injection Ha as <-. by rewrite Hu. Qed.

Lemma step_fees n n' : step n n' -> Bitcoind.fees_ok (fees n) -> Bitcoind.fees_ok (fees n').
Proof.
  intros [a n1 n2 Ha] Hf. unfold act in Ha. destruct (running n1); [|done].
  destruct a; cbn [turn] in Ha; repeat case_match; try done;
    try (eapply after_fees in Ha; [|by intros ? []]; by rewrite Ha).
  - destruct (tasks (world n1) !! k) as [t|]; [|done]. eapply after_fees in Ha; [|done]. by rewrite Ha.
  - unfold after in Ha. destruct (Bitcoind.poll_for_fee_estimates _ _) eqn:Hp; [|done..]. injection Ha as <-.
    by eapply Bitcoind.poll_ok.
Qed.

Lemma steps_fees n n' : rtc step n n' -> Bitcoind.fees_ok (fees n) -> Bitcoind.fees_ok (fees n').
Proof. induction 1; eauto using step_fees. Qed.

Lemma new_client_fees h p u pw w f w' :
  Bitcoind.new_client h p u pw w = Ret (Ok f) w' -> f = Bitcoind.initial_fees.
Proof.
  unfold Bitcoind.new_client. intros Hr. apply bind_Ret_inv in Hr as ([c|e] & w1 & _ & Hr); [|done].
  apply bind_Ret_inv in Hr as ([d|e] & w2 & _ & Hr); [|done]. by injection Hr.
Qed.

Lemma start_up_fees i w f w' : Startup.start_up i w = Ret f w' -> f = Bitcoind.initial_fees.
Proof.
  unfold Startup.start_up, Startup.prepare, Startup.connect_bitcoind. intros Hr.
  apply bind_Ret_inv in Hr as ([f1 m] & w1 & Hp & Hr). apply bind_Ret_inv in Hp as (f2 & w2 & Hc & Hp).
  do 6 apply bind_Ret_inv in Hc as (? & ? & ? & Hc).
  match type of Hc with match ?c with _ => _ end _ = _ => destruct c; [|by mrun_in Hc] end.
  match goal with H : Bitcoind.new_client _ _ _ _ _ = Ret _ _ |- _ => apply new_client_fees in H as -> end.
  injection Hc as <- _.
  do 2 (repeat (apply bind_Ret_inv in Hp as (? & ? & _ & Hp))). injection Hp as <- _ _.
  repeat (apply bind_Ret_inv in Hr as (? & ? & _ & Hr)). by injection Hr as <- _.
Qed.

(** Sessions: the lines read so far. *)
Definition lines_read (h : list Event) : nat :=
  length (List.filter (fun ev => match ev with Ev c _ => match c with CReadLine => true | _ => false end | Print _ => false end) h).
Definition same_lines (w w' : World) : Prop := lines_read (trace w') = lines_read (trace w).

Lemma lines_read_app h1 h2 : lines_read (h1 ++ h2) = (lines_read h1 + lines_read h2)%nat.
Proof. unfold lines_read. by rewrite List.filter_app, length_app. Qed.

#[local] Instance closed_lines : Frame.Closed same_lines.
Proof.
  split; try (intros; reflexivity).
  - split; [by intros w|intros w1 w2 w3 H1 H2]. unfold same_lines in *. congruence.
  - intros e w He. unfold same_lines. cbn [trace log]. rewrite lines_read_app.
    enough (lines_read [e] = 0%nat) by lia. destruct e as [?|? c ?]; [done|]. by destruct c.
Qed.

(** What ends a session: the end of the input, an error, or a line whose first
    word is [quit] or [exit]. *)
Definition ends_session (read : result string string) : bool :=
  match read with
  | Err _ => true
  | Ok line =>
      (str_len line =? 0)
      || match split_whitespace line with
         | word :: _ => String.eqb word "quit" || String.eqb word "exit"
         | [] => false
         end
  end.

Lemma command_quits word :
  (match Cli.command_of word with Some Cli.CmdQuit => true | _ => false end)
  = String.eqb word "quit" || String.eqb word "exit".
Proof.
  unfold Cli.command_of, Cli.command_table. cbn [List.find fst].
  repeat match goal with |- context [String.eqb ?k word] =>
    destruct (String.eqb_spec k word) as [<-|?]; [reflexivity|] end.
  by do 2 (rewrite (proj2 (String.eqb_neq _ _)) by congruence).
Qed.

Lemma dispatch_result word line words w :
  match Cli.dispatch patience word line words w with
  | Ret continues _ => continues = negb (String.eqb word "quit" || String.eqb word "exit")
  | Exit _ => False
  | Panic _ _ | Waits _ => True
  end.
Proof.
  rewrite <- command_quits. unfold Cli.dispatch. destruct (Cli.command_of word) as [c|]; [|by mrun].
  assert (forall m, match bind (scope m) (fun _ => ret true) w with
                    | Ret continues _ => continues = true | Exit _ => False | Panic _ _ | Waits _ => True end) as Hs.
  { intros m. unfold bind, scope. by destruct (m w). }
  destruct c; try apply Hs. by mrun.
Qed.

Section Session.
Context `{!Frame.SealText, !Waiting.Settled patience} (input : nat -> result string string).
Context (Hinput : forall h, answer h _ CReadLine = input (lines_read h)).

(** A turn reads one line, and goes on unless the line ends the session. *)
Lemma turn_reads w :
  match Cli.poll_turn patience w with
  | Ret continues w' =>
      lines_read (trace w') = S (lines_read (trace w))
      /\ continues = negb (ends_session (input (lines_read (trace w))))
  | Panic _ _ => True
  | Exit _ | Waits _ => False
  end.
Proof using All.
  unfold Cli.poll_turn. mrun. rewrite Hinput. cbn [trace log]. rewrite lines_read_app, Nat.add_0_r.
  set (r := input (lines_read (trace w))). set (w1 := log (Ev CReadLine r) _).
  assert (lines_read (trace w1) = S (lines_read (trace w))) as Hl.
  { subst w1. cbn [trace log]. rewrite !lines_read_app. cbn. lia. }
  clearbody w1. destruct r as [line|e]; cbn [ends_session].
  - destruct (str_len line =? 0); [by split|]. destruct (split_whitespace line) as [|word words]; [by split|].
    pose proof (dispatch_result word line words w1) as Hd.
    pose proof (Waiting.never_dispatch patience word line words w1) as Hn.
    pose proof (Frame.frame_dispatch same_lines patience word line words w1) as Hf. unfold same_lines in Hf.
    destruct (Cli.dispatch _ _ _ _ _) as [b w2|w2|msg w2|w2]; [|done..]. cbn [final] in Hf. split; [congruence|exact Hd].
  - mrun. split; [|done]. cbn [trace log]. rewrite lines_read_app. cbn. lia.
Qed.
End Session.

(** ** Properties *)

(** C6: the node refines the payment automata: both tables are empty when it has
    started, and between any two states of which one leads to the other,
    whatever LDK, the libraries and the user do, and in whatever order the tasks
    take turns, both only move along the steps of the specification: no record
    is ever dropped, and none changes in any other way. *)
Theorem node_refines_automata `{!Frame.SealText} :
  (forall i w n, started i w n -> outbound_payments (world n) = ∅ /\ inbound_payments (world n) = ∅)
  /\ forall n n', rtc step n n' ->
       rtc Payments.out_step (outbound_payments (world n)) (outbound_payments (world n'))
       /\ rtc Payments.in_step (inbound_payments (world n)) (inbound_payments (world n')).
Proof.
  split; [|intros n n' Hr; exact (steps_world payments_move _ _ Hr)].
  intros i w n (f & w' & Hs & ->). apply Startup.start_up_tables in Hs as (Hi & Ho & _ & _). by split.
Qed.

(** C7: in every state the running node reaches, a succeeded outbound payment
    has its preimage, no inbound payment has failed, a pending one has its
    secret, and every fee estimate is between 253 and what fits in 32 bits. *)
Theorem node_invariant `{!Frame.SealText} i w n0 n :
  started i w n0 -> rtc step n0 n ->
  (forall h p, outbound_payments (world n) !! h = Some p -> status p = Succeeded -> is_Some (preimage p))
  /\ (forall h p, inbound_payments (world n) !! h = Some p ->
       status p <> Failed /\ (status p = Pending -> is_Some (secret p) /\ preimage p = None))
  /\ (forall target, 253 <= Bitcoind.get_est_sat_per_1000_weight (fees n) target <= U32_MAX).
Proof.
  intros (f & w' & Hs & ->) Hr. pose proof (steps_world payments_move _ _ Hr) as Hm. cbn [world] in Hm.
  apply payments_move_ok in Hm as [Ho Hi].
  - split; [exact Ho|]. split; [exact Hi|]. apply start_up_fees in Hs as ->.
    eapply steps_fees; [exact Hr|]. apply Bitcoind.initial_fees_ok.
  - apply Startup.start_up_tables in Hs as (Hi & Ho & _ & _). unfold payments_ok. rewrite Hi, Ho.
    split; [apply Payments.out_inv_empty|apply Payments.in_inv_empty].
Qed.

(** The model stays within the types of the code: in every state the node
    reaches, the asset and the price of every offered or whitelisted trade are 64-bit
    numbers, with or without overflow checks. *)
Theorem trade_tables_typed `{!Frame.SealText} i w n0 n h cid t :
  started i w n0 -> rtc step n0 n ->
  whitelisted_trades (world n) !! h = Some (cid, t) \/ maker_trades (world n) !! h = Some (cid, t) ->
  0 <= Swap.amount_rgb t <= U64_MAX /\ 0 <= Swap.amount_msats t <= U64_MAX.
Proof.
  intros (f & w' & Hs & ->) Hr. pose proof (steps_world keeps_typed _ _ Hr) as Ht. cbn [world] in Ht.
  destruct Ht as [Hw Hm].
  { apply Startup.start_up_tables in Hs as (_ & _ & Hw & Hm). split; rewrite ?Hw, ?Hm; apply map_Forall_empty. }
  intros [Hl|Hl]; [apply (Hw _ _ Hl)|apply (Hm _ _ Hl)].
Qed.

(** C25: the file of reserved outputs can be read in every state the node
    reaches, from its first run on. *)
Theorem outputs_always_readable `{!SerdeLaws, !Frame.SealText} i `{!Startup.Configured i} w n0 n :
  started i w n0 ->
  outputs_readable w \/ (forall h p, answer h _ (CManagerFile p) = false) ->
  rtc step n0 n ->
  exists l, Utxos.read_utxos (world n) = Ret l (world n).
Proof.
  intros (f & w' & Hs & ->) Hfirst Hr. pose proof (steps_world keeps_readable _ _ Hr) as Ht. cbn [world] in Ht.
  destruct Ht as [l Hl].
  - apply (Startup.start_up_utxos i) in Hs as (m & wm & b & wb & _ & Hm & _ & Hf). unfold outputs_readable. rewrite Hf.
    destruct Hfirst as [Hw|Hno]; [destruct b; [exact Hw|by exists []]|].
    unfold Startup.open_manager in Hm. mrun_in Hm. rewrite Hno in Hm. mrun_in Hm. injection Hm as <- _. by exists [].
  - exists l. unfold Utxos.read_utxos. unfold fs_read. mrun. rewrite Hl. cbn. by rewrite utxos_json_roundtrip.
Qed.

(** C8: everything the node asks for after its start is within its limits: it
    pays and makes invoices of at least 3000000 msats only, asks for channels
    of 5506 to 16777215 satoshis only, with the proxy named when assets come
    with the channel, and reads lines in the command loop only. *)
Theorem requests_within_limits `{!Frame.SealText} i w n0 n :
  started i w n0 -> rtc step n0 n ->
  exists new, trace (world n) = trace (world n0) ++ new /\ forall R (c : Call R) r, Ev c r ∈ new ->
    match c with
    | CPayInvoice inv _ => exists a, invoice_amount_msat inv = Some a /\ 3000000 <= a
    | CCreateInvoice _ amt _ expiry _ _ => (exists a, amt = Some a /\ 3000000 <= a <= U64_MAX) /\ 0 <= expiry <= U32_MAX
    | CCreateChannel _ sat push _ _ endpoint => 5506 <= sat <= 16777215 /\ 0 <= push <= U64_MAX
        /\ (endpoint = Some proxy_endpoint /\ 546000 <= push \/ endpoint = None)
    | CSendOnion _ _ tlv_type _ => 64 <= tlv_type <= U64_MAX
    | _ => True
    end.
Proof.
  intros (f & w' & Hs & ->) Hr. destruct (steps_world (grows node_request) _ _ Hr) as (new & Ht & Hf).
  exists new. split; [exact Ht|]. intros A c r Hin. rewrite Forall_forall in Hf. specialize (Hf _ Hin).
  destruct Hf as [Hq|Hl]; [|by destruct c]. destruct c; try exact I; cbn in Hq.
  - exact Hq.
  - by destruct Hq as (Ha & He & _).
  - destruct Hq as (H1 & H2 & _ & H3). exact (conj H1 (conj H2 H3)).
  - exact Hq.
Qed.

(** C26: the session ends, and not before its time: if connection attempts are
    answered, and the user's [k]-th line is the first that is the end of the
    input, an error, [quit] or [exit], the loop ends when it has read exactly
    that line, whatever the commands before it do, unless one of them brings the
    node down. *)
Theorem session_ends `{!Frame.SealText, !Waiting.Settled patience} (input : nat -> result string string) k turns w :
  (forall h, answer h _ CReadLine = input (lines_read h)) ->
  (lines_read (trace w) <= k < lines_read (trace w) + turns)%nat ->
  (forall j, (lines_read (trace w) <= j < k)%nat -> ends_session (input j) = false) ->
  ends_session (input k) = true ->
  match Cli.poll_loop patience turns w with
  | Ret continues w' => continues = false /\ lines_read (trace w') = S k
  | Panic _ _ => True
  | Exit _ | Waits _ => False
  end.
Proof.
  intros Hin Hk Hno He. revert w Hk Hno. induction turns as [|turns IH]; intros w Hk Hno; [lia|]. cbn [Cli.poll_loop].
  pose proof (turn_reads input Hin w) as Ht. unfold bind at 1.
  destruct (Cli.poll_turn patience w) as [b w1|w1|msg w1|w1]; [|done..]. destruct Ht as [Hl ->].
  destruct (decide (lines_read (trace w) = k)) as [Heq|Hne].
  - rewrite Heq, He. cbn [negb]. split; [done|lia].
  - rewrite Hno by lia. cbn [negb]. apply IH; [lia|]. intros j Hj. apply Hno. lia.
Qed.

End Node.

Section Witnesses.
Import Mock.
Abbreviation MT := (mock_types_checks true).
#[local] Instance scenario_externals : @Externals MT :=
  mock_with true "dir/.ldk" ["node"; "u:p@host:18443"; "dir"; "9735"; "regtest"]%string.

(** The user offers a trade and quits. *)
Definition typed (k : nat) : result string string :=
  match k with 0%nat => Ok ("makerinit 10 rgb1a sell 100 7" +:+ nl) | _ => Ok ("quit" +:+ nl) end.
#[local] Instance scenario_oracle : @Oracle MT := {|
  answer := fun h R c => match c in Call R return R with
                         | CReadLine => typed (lines_read h)
                         | CConnectionClosed _ => true
                         | c => mock_answer true (base_cfg true) h _ c
                         end |}.

Lemma mock_seal_text : @Frame.SealText MT scenario_externals.
Proof.
  split. intros s c t Hs ->. change (dec s = String slash t) in Hs. destruct (Z_le_gt_dec 0 s) as [Hle|Hlt].
  - pose proof (dec_digits s Hle) as Hd. rewrite Hs in Hd. by inversion Hd.
  - assert (exists d, dec s = String (digit_char d) "" /\ 0 <= d <= 9) as (d & Hd & Hr).
    { unfold dec. rewrite Z.log2_nonpos by lia. exists (s mod 10). cbn [Z.to_nat dec_go].
      rewrite (proj2 (Z.ltb_lt _ _)) by lia. split; [done|]. pose proof (Z.mod_pos_bound s 10). lia. }
    rewrite Hd in Hs. injection Hs as Hc _. pose proof (digit_char_byte d Hr) as Hb. rewrite Hc in Hb. change (byte_of slash) with 47 in Hb. lia.
Qed.

Definition started_node : @Node MT := {|
  info := Startup.started_info; world := final (Startup.start_up (T := MT) Startup.started_info (empty_world true));
  fees := Bitcoind.initial_fees; cli_open := true; reconnecting := true;
  listener := Unbound; running := true |}.
Definition claimed_hash : PaymentHash := repeat 1 32.
Definition schedule : list (@Action MT) :=
  [ALine; AEvent (Events.PaymentClaimed claimed_hash (Payments.SpontaneousPayment (repeat 2 32)) 5000);
   AReconnect; AFees; AAnnounce; AEvent (Events.PendingHTLCsForwardable 7); ATask 0;
   AListen; APollTip; AListen; ATask 0].
Definition reached : @Node MT := default started_node (run_actions 1 schedule started_node).

Lemma started_scenario : started (T := MT) Startup.started_info (empty_world true) started_node.
Proof. eexists _, _. split; [vm_compute; reflexivity|]. vm_compute. reflexivity. Qed.

Lemma reached_scenario : rtc (step (T := MT) 1) started_node reached.
Proof. apply (run_actions_rtc (T := MT) 1 schedule). vm_compute. reflexivity. Qed.

Lemma node_refines_automata_witness :
  rtc Payments.in_step ∅ (inbound_payments (world reached))
  /\ status <$> inbound_payments (world reached) !! claimed_hash = Some Succeeded.
Proof.
  split; [|vm_compute; reflexivity].
  destruct (node_refines_automata (T := MT) 1 (H := mock_seal_text)) as [Hs Hr].
  destruct (Hs _ _ _ started_scenario) as [_ Hi]. rewrite <- Hi. apply (Hr _ _ reached_scenario).
Defined.

Lemma node_invariant_witness :
  253 <= Bitcoind.get_est_sat_per_1000_weight (fees reached) Bitcoind.Normal <= U32_MAX.
Proof.
  apply (node_invariant (T := MT) 1 (H := mock_seal_text) _ _ _ _ started_scenario reached_scenario).
Defined.

Lemma requests_within_limits_witness :
  exists new, trace (world reached) = trace (world started_node) ++ new.
Proof.
  destruct (requests_within_limits (T := MT) 1 (H := mock_seal_text) _ _ _ _ started_scenario reached_scenario)
    as (new & Ht & _). by exists new.
Defined.

Definition offered_hash : PaymentHash := repeat 171 32.
Lemma trade_tables_typed_witness :
  maker_trades (world reached) !! offered_hash = Some (true, Swap.SellAsset 10 70) /\ 0 <= 70 <= U64_MAX.
Proof.
  assert (maker_trades (world reached) !! offered_hash = Some (true, Swap.SellAsset 10 70)) as Hl by (vm_compute; reflexivity).
  split; [exact Hl|].
  apply (trade_tables_typed (T := MT) 1 (H := mock_seal_text) _ _ _ _ offered_hash true (Swap.SellAsset 10 70)
           started_scenario reached_scenario). by right.
Defined.

Lemma outputs_always_readable_witness :
  exists l, Utxos.read_utxos (T := MT) (world reached) = Ret l (world reached).
Proof.
  apply (outputs_always_readable (T := MT) 1 (H := mock_with_serde true _ _) (H0 := mock_seal_text)
           Startup.started_info (H1 := Startup.scenario_configured) _ _ _ started_scenario).
  - right. intros h p. reflexivity.
  - exact reached_scenario.
Defined.

Lemma scenario_settled : @Waiting.Settled MT scenario_oracle 1.
Proof. split. intros pk h. exists 0%nat. split; [lia|]. left. reflexivity. Qed.

Lemma session_ends_witness :
  match Cli.poll_loop (T := MT) 1 2 (world started_node) with
  | Ret continues w' => continues = false /\ lines_read (trace w') = 2%nat
  | _ => True
  end.
Proof.
  pose proof (session_ends (T := MT) 1 (H := mock_seal_text) (H0 := scenario_settled) typed 1 2 (world started_node)
                (fun _ => eq_refl) ltac:(vm_compute; lia)
                ltac:(intros [|j] Hj; [vm_compute; reflexivity|vm_compute in Hj; lia]) eq_refl) as Hs.
  destruct (Cli.poll_loop _ _ _); [exact Hs|exact I..].
Defined.

End Witnesses.
End Node.
